(** * A shallow embedding of the Pintos file system, virtual memory and
      system-call layers of this repository

    The development follows the sources:
    - [Inode]  : filesys/inode.c   (multi-level index, growth, read, write)
    - [Dir]    : filesys/directory.c (entries stored in inode bytes, removal)
    - [Sys]    : userprog/syscall.c (descriptor table, read/write/seek/...)
    - [VM]     : userprog/exception.c, vm/page.c, vm/frame.c, vm/swap.c

    C integers are [Z]; conversions between the signed and unsigned 32-bit
    types are written out with [int32] and [uint32].  Memory allocation
    ([malloc], [calloc]) is assumed to succeed; a kernel panic or a failed
    [ASSERT] is the result [None]. *)

From Stdlib Require Import ZArith List Bool Lia.
From stdpp Require Import base option list gmap.

Local Open Scope Z_scope.

(** ** Machine integers *)

Definition uint32 (z : Z) : Z := z mod 4294967296.

Definition int32 (z : Z) : Z :=
  let u := uint32 z in if u <? 2147483648 then u else u - 4294967296.

(** [DIV_ROUND_UP (X, STEP)] on operands of an unsigned type. *)
Definition DIV_ROUND_UP (x step : Z) : Z := (x + step - 1) / step.

(** Array subscripts: a C index is a [Z], a list position a [nat]. *)
Definition idx (i : Z) : nat := Z.to_nat i.

(** ** The block device *)

(** Modelled from the spec: the sector size of devices/block.h, 512
    bytes. *)
Definition BLOCK_SECTOR_SIZE : Z := 512.

(** [static char zeros[BLOCK_SECTOR_SIZE]] *)
Definition zeros : list Z := replicate 512%nat 0.

(** A buffer handed to the driver is read for exactly one sector. *)
Definition to_sector (l : list Z) : list Z := take 512%nat (l ++ zeros).

Definition block_read (d : gmap Z (list Z)) (s : Z) : list Z :=
  default zeros (d !! s).

Definition block_write (d : gmap Z (list Z)) (s : Z) (buf : list Z)
  : gmap Z (list Z) :=
  <[s := to_sector buf]> d.

(** [memcpy (dst + ofs, src, |src|)] *)
Definition memcpy (dst : list Z) (ofs : Z) (src : list Z) : list Z :=
  take (idx ofs) dst ++ src ++ drop (idx ofs + length src)%nat dst.

(** A sector seen as [block_sector_t[128]], little endian. *)
Definition le32 (n : Z) : list Z :=
  [n mod 256; (n / 256) mod 256; (n / 65536) mod 256; (n / 16777216) mod 256].

Definition byte_at (sec : list Z) (i : nat) : Z := default 0 (sec !! i).

Definition word_at (sec : list Z) (i : Z) : Z :=
  let k := (4 * idx i)%nat in
  byte_at sec k + 256 * byte_at sec (k + 1) + 65536 * byte_at sec (k + 2)
  + 16777216 * byte_at sec (k + 3).

Definition words_of_sector (sec : list Z) : list Z :=
  map (fun i => word_at sec (Z.of_nat i)) (seq 0 128).

Definition sector_of_words (ws : list Z) : list Z :=
  to_sector (flat_map le32 ws).

(** Reading and writing one element of a word array. *)
Definition get (ws : list Z) (i : Z) : Z := default 0 (ws !! idx i).
Definition set (ws : list Z) (i : Z) (v : Z) : list Z := <[idx i := v]> ws.

(** ** The free-sector map *)

(** Modelled from the spec: the scan of a bitmap (lib/kernel/bitmap.c is
    not among the sources) for its first clear bit, counted from [i]. *)
Fixpoint first_free (bm : list bool) (i : Z) : option Z :=
  match bm with
  | [] => None
  | b :: bm' => if b then first_free bm' (i + 1) else Some i
  end.

(** Modelled from the spec: the free-sector map (filesys/free-map.c is not
    among the sources).  It is a bitmap over the sectors of the device;
    [free_map_allocate (1, &s)] reserves the first free sector and stores
    its number in [s]; when no sector is free it returns false and leaves
    [s] as it was.  The result here is the new bitmap, the new value of
    the out parameter and the success flag. *)
Definition free_map_allocate (fm : list bool) (old : Z) : list bool * Z * bool :=
  match first_free fm 0 with
  | Some s => (<[idx s := true]> fm, s, true)
  | None => (fm, old, false)
  end.

(** Modelled from the spec: [free_map_count ()], the number of free
    sectors. *)
Definition free_map_count (fm : list bool) : Z :=
  Z.of_nat (length (filter (fun b => b = false) fm)).

(** Modelled from the spec: [free_map_release (s, 1)]. *)
Definition free_map_release (fm : list bool) (s : Z) : list bool :=
  <[idx s := false]> fm.

(** The device together with its free map. *)
Record fs := mk_fs {
  disk : gmap Z (list Z);
  free_map : list bool
}.

Module Inode.

Definition INODE_MAGIC : Z := 1229868868. (* 0x494e4f44 *)
Definition NUM_INDEXES : Z := 12.
Definition DIRECT_SECTORS : Z := 10.
Definition POINTERS_IN_SECTOR : Z := 128.
Definition SECTORS_BEFORE_SL : Z := DIRECT_SECTORS + POINTERS_IN_SECTOR.
Definition INDEX_OF_FL : Z := 10.
Definition INDEX_OF_SL : Z := 11.

(** [struct inode_disk]: exactly one sector. *)
Record inode_disk := mk_inode_disk {
  data_blocks : list Z;
  length : Z;
  magic : Z;
  parent_directory : Z;
  is_directory : Z
}.

(** [calloc (1, sizeof *disk_inode)] *)
Definition zero_inode_disk : inode_disk :=
  mk_inode_disk (replicate 12%nat 0) 0 0 0 0.

Definition set_data_blocks (di : inode_disk) (bs : list Z) : inode_disk :=
  mk_inode_disk bs (length di) (magic di) (parent_directory di) (is_directory di).

Definition set_length (di : inode_disk) (l : Z) : inode_disk :=
  mk_inode_disk (data_blocks di) l (magic di) (parent_directory di) (is_directory di).

(** The sector image of an on-disk inode and its inverse. *)
Definition inode_disk_to_sector (di : inode_disk) : list Z :=
  sector_of_words
    (take 12%nat (data_blocks di ++ replicate 12%nat 0)
     ++ [uint32 (length di); uint32 (magic di); uint32 (parent_directory di);
         uint32 (is_directory di)]).

Definition inode_disk_of_sector (sec : list Z) : inode_disk :=
  let ws := words_of_sector sec in
  mk_inode_disk (take 12%nat ws) (int32 (get ws 12)) (get ws 13) (get ws 14)
    (get ws 15).

(** [bytes_to_sectors]: [off_t] division, result converted to [size_t].
    The sum is taken in [Z]: for a size within 511 of [INT_MAX] it
    overflows in the source. *)
Definition bytes_to_sectors (size : Z) : Z :=
  uint32 (Z.quot (size + BLOCK_SECTOR_SIZE - 1) BLOCK_SECTOR_SIZE).

(** [struct inode] (the list element and the two locks are left out). *)
Record inode := mk_inode {
  sector : Z;
  open_cnt : Z;
  removed : bool;
  deny_write_cnt : Z;
  data : inode_disk
}.

Definition set_data (ino : inode) (di : inode_disk) : inode :=
  mk_inode (sector ino) (open_cnt ino) (removed ino) (deny_write_cnt ino) di.

(** [byte_to_sector]: the result [-1] is the [block_sector_t] 0xffffffff. *)
Definition byte_to_sector (d : gmap Z (list Z)) (di : inode_disk)
    (pos len : Z) : Z :=
  if pos <=? len then
    let sector_index := uint32 (Z.quot pos BLOCK_SECTOR_SIZE) in
    if sector_index <? DIRECT_SECTORS then
      get (data_blocks di) sector_index
    else if sector_index <? SECTORS_BEFORE_SL then
      let fl_index := get (data_blocks di) INDEX_OF_FL in
      let fl_block := block_read d fl_index in
      word_at fl_block (sector_index - DIRECT_SECTORS)
    else
      let sector_index := sector_index - SECTORS_BEFORE_SL in
      let inode_index := get (data_blocks di) INDEX_OF_SL in
      let sl_block := block_read d inode_index in
      let fl_index := int32 (sector_index / POINTERS_IN_SECTOR) in
      let sl_index := word_at sl_block fl_index in
      let fl_block := block_read d sl_index in
      word_at fl_block (sector_index mod POINTERS_IN_SECTOR)
  else uint32 (-1).

(** The loop [for (index = start; index < limit; index++)
    { free_map_allocate (1, &arr[index]);
      block_write (fs_device, arr[index], zeros); }]
    shared by [extend] and [allocate_first_level]; [n] counts the
    iterations left.  The result of [free_map_allocate] is ignored, as
    in the source. *)
Fixpoint allocate_zeroed (n : nat) (index : Z) (f : fs) (arr : list Z)
  : fs * list Z :=
  match n with
  | O => (f, arr)
  | S n' =>
      let '(fm, s, _) := free_map_allocate (free_map f) (get arr index) in
      let arr := set arr index s in
      let d := block_write (disk f) (get arr index) zeros in
      allocate_zeroed n' (index + 1) (mk_fs d fm) arr
  end.

(** [allocate_first_level (&sector, &num_sectors, &starting_sector)]:
    the three cells behind the pointers are returned with the device. *)
Definition allocate_first_level (f : fs) (sector num_sectors starting_sector : Z)
  : fs * Z * Z * Z :=
  let len := num_sectors in
  let start := starting_sector in
  let num_fl := int32 (if POINTERS_IN_SECTOR <=? len then POINTERS_IN_SECTOR else len) in
  let '(f, sector) :=
    if start <? POINTERS_IN_SECTOR then
      let '(f, sector, fl_block) :=
        if start =? 0 then
          let '(fm, s, _) := free_map_allocate (free_map f) sector in
          (mk_fs (disk f) fm, s, replicate 128%nat 0)
        else (f, sector, words_of_sector (block_read (disk f) sector)) in
      let '(f, fl_block) :=
        allocate_zeroed (Z.to_nat (num_fl - int32 start)) (int32 start) f fl_block in
      (mk_fs (block_write (disk f) sector (sector_of_words fl_block)) (free_map f),
       sector)
    else (f, sector) in
  (f, sector, uint32 (num_sectors - num_fl),
   if start <? POINTERS_IN_SECTOR then 0 else start - POINTERS_IN_SECTOR).

(** [check_length]: is there room for [num_sectors] more data sectors? *)
Definition check_length (fm : list bool) (num_sectors : Z) : bool :=
  let num_free := free_map_count fm in
  let total_sectors := num_sectors in
  let total_sectors :=
    if DIRECT_SECTORS <? num_sectors then total_sectors + 1 else total_sectors in
  let total_sectors :=
    if SECTORS_BEFORE_SL <? num_sectors then
      let total_sectors := total_sectors + 1 in
      let num_fl := DIV_ROUND_UP (num_sectors - SECTORS_BEFORE_SL) POINTERS_IN_SECTOR in
      total_sectors + num_fl
    else total_sectors in
  uint32 total_sectors <=? num_free.

(** The loop over the second-level block in [extend]. *)
Fixpoint extend_second_level (n : nat) (sl_index : Z) (f : fs) (sl_block : list Z)
    (total_sectors starting_sector : Z) : fs * list Z * Z * Z :=
  match n with
  | O => (f, sl_block, total_sectors, starting_sector)
  | S n' =>
      let '(f, s, total_sectors, starting_sector) :=
        allocate_first_level f (get sl_block sl_index) total_sectors starting_sector in
      extend_second_level n' (sl_index + 1) f (set sl_block sl_index s)
        total_sectors starting_sector
  end.

(** [extend (disk_inode, total_sectors, starting_sector)]; it returns
    false only when [calloc] fails, so the flag is left out. *)
Definition extend (f : fs) (di : inode_disk) (total_sectors starting_sector : Z)
  : fs * inode_disk :=
  let num_direct :=
    int32 (if DIRECT_SECTORS <=? total_sectors then DIRECT_SECTORS else total_sectors) in
  let '(f, blocks) :=
    allocate_zeroed (Z.to_nat (num_direct - int32 starting_sector))
      (int32 starting_sector) f (data_blocks di) in
  let starting_sector :=
    if starting_sector <? DIRECT_SECTORS then 0 else starting_sector - DIRECT_SECTORS in
  let total_sectors := uint32 (total_sectors - num_direct) in
  if 0 <? total_sectors then
    let '(f, s, total_sectors, starting_sector) :=
      allocate_first_level f (get blocks INDEX_OF_FL) total_sectors starting_sector in
    let blocks := set blocks INDEX_OF_FL s in
    if 0 <? total_sectors then
      let '(f, blocks, sl_block) :=
        if starting_sector =? 0 then
          let '(fm, s, _) := free_map_allocate (free_map f) (get blocks INDEX_OF_SL) in
          (mk_fs (disk f) fm, set blocks INDEX_OF_SL s, replicate 128%nat 0)
        else
          (f, blocks, words_of_sector (block_read (disk f) (get blocks INDEX_OF_SL))) in
      let num_sl := int32 (DIV_ROUND_UP total_sectors POINTERS_IN_SECTOR) in
      let '(f, sl_block, _, _) :=
        extend_second_level (Z.to_nat num_sl) 0 f sl_block total_sectors starting_sector in
      (mk_fs (block_write (disk f) (get blocks INDEX_OF_SL) (sector_of_words sl_block))
         (free_map f),
       set_data_blocks di blocks)
    else (f, set_data_blocks di blocks)
  else (f, set_data_blocks di blocks).

(** [inode_create]; [None] is the failed [ASSERT (length >= 0)]. *)
Definition inode_create (f : fs) (sec len parent is_dir : Z) : option (fs * bool) :=
  if len <? 0 then None
  else
    let sectors := bytes_to_sectors len in
    if negb (check_length (free_map f) sectors) then Some (f, false)
    else
      let di := mk_inode_disk (replicate 12%nat 0) len INODE_MAGIC parent (uint32 is_dir) in
      let '(f, di) := extend f di sectors 0 in
      Some (mk_fs (block_write (disk f) sec (inode_disk_to_sector di)) (free_map f),
            true).

(** [inode_length] *)
Definition inode_length (ino : inode) : Z := length (data ino).

(** The body of the [while (size > 0)] loop of [inode_read_at]; the
    bytes copied so far are accumulated in [buffer].  Every iteration
    that does not leave the loop lowers [size] by at least one, so
    [Z.to_nat size] iterations are enough. *)
Fixpoint read_loop (n : nat) (d : gmap Z (list Z)) (ino : inode)
    (buffer : list Z) (size offset bytes_read : Z) : Z * list Z :=
  match n with
  | O => (bytes_read, buffer)
  | S n' =>
      if 0 <? size then
        let sector_idx := byte_to_sector d (data ino) offset (inode_length ino) in
        let sector_ofs := Z.rem offset BLOCK_SECTOR_SIZE in
        let inode_left := inode_length ino - offset in
        let sector_left := BLOCK_SECTOR_SIZE - sector_ofs in
        let min_left := if inode_left <? sector_left then inode_left else sector_left in
        let chunk_size := if size <? min_left then size else min_left in
        if chunk_size <=? 0 then (bytes_read, buffer)
        else
          let chunk :=
            if (sector_ofs =? 0) && (chunk_size =? BLOCK_SECTOR_SIZE) then
              block_read d sector_idx
            else
              let bounce := block_read d sector_idx in
              take (idx chunk_size) (drop (idx sector_ofs) bounce) in
          read_loop n' d ino (buffer ++ chunk) (size - chunk_size)
            (offset + chunk_size) (bytes_read + chunk_size)
      else (bytes_read, buffer)
  end.

(** [inode_read_at (inode, buffer, size, offset)]: the number of bytes
    read and the bytes stored at the start of [buffer], for an offset
    that is not negative (with a negative one the source copies from
    before the start of the bounce buffer). *)
Definition inode_read_at (d : gmap Z (list Z)) (ino : inode) (size offset : Z)
  : Z * list Z :=
  read_loop (Z.to_nat size) d ino [] size offset 0.

(** The loop of [inode_write_at]. *)
Fixpoint write_loop (n : nat) (d : gmap Z (list Z)) (ino : inode)
    (buffer : list Z) (file_size size offset bytes_written : Z)
  : gmap Z (list Z) * Z :=
  match n with
  | O => (d, bytes_written)
  | S n' =>
      if 0 <? size then
        let sector_idx := byte_to_sector d (data ino) offset file_size in
        let sector_ofs := Z.rem offset BLOCK_SECTOR_SIZE in
        let inode_left := file_size - offset in
        let sector_left := BLOCK_SECTOR_SIZE - sector_ofs in
        let min_left := if inode_left <? sector_left then inode_left else sector_left in
        let chunk_size := if size <? min_left then size else min_left in
        if chunk_size <=? 0 then (d, bytes_written)
        else
          let src := take (idx chunk_size) (drop (idx bytes_written) buffer) in
          let d :=
            if (sector_ofs =? 0) && (chunk_size =? BLOCK_SECTOR_SIZE) then
              block_write d sector_idx src
            else
              let bounce :=
                if (0 <? sector_ofs) || (chunk_size <? sector_left) then
                  block_read d sector_idx
                else zeros in
              block_write d sector_idx (memcpy bounce sector_ofs src) in
          write_loop n' d ino buffer file_size (size - chunk_size)
            (offset + chunk_size) (bytes_written + chunk_size)
      else (d, bytes_written)
  end.

(** [inode_write_at (inode, buffer, size, offset)]: the device and the
    in-memory inode afterwards, and the number of bytes written. *)
Definition inode_write_at (f : fs) (ino : inode) (buffer : list Z) (size offset : Z)
  : fs * inode * Z :=
  if negb (deny_write_cnt ino =? 0) then (f, ino, 0)
  else
    let current_length := length (data ino) in
    let new_size := int32 (offset + size) in
    let file_size := if current_length <? new_size then new_size else current_length in
    let final_sectors := bytes_to_sectors new_size in
    let current_sectors := bytes_to_sectors current_length in
    let grow := current_sectors <? final_sectors in
    if grow && negb (check_length (free_map f) (uint32 (final_sectors - current_sectors)))
    then (f, ino, 0)
    else
      let '(f, ino) :=
        if grow then
          let '(f, di) := extend f (data ino) final_sectors current_sectors in
          (f, set_data ino di)
        else (f, ino) in
      let '(d, bytes_written) :=
        write_loop (Z.to_nat size) (disk f) ino buffer file_size size offset 0 in
      if current_length <? new_size then
        let ino := set_data ino (set_length (data ino) new_size) in
        (mk_fs (block_write d (sector ino) (inode_disk_to_sector (data ino))) (free_map f),
         ino, bytes_written)
      else (mk_fs d (free_map f), ino, bytes_written).

(** *** Open inodes

    [open_inodes] holds at most one [struct inode] for a sector, and
    [inode_open] finds it by sector number: a [struct inode *] is the
    sector number of the inode, [open_inodes] a finite map from it.  An
    operation through a pointer that is not in the map has no result. *)
Record state := mk_state {
  dev : fs;
  open_inodes : gmap Z inode
}.

Definition set_open_cnt (ino : inode) (n : Z) : inode :=
  mk_inode (sector ino) n (removed ino) (deny_write_cnt ino) (data ino).

Definition set_removed (ino : inode) (b : bool) : inode :=
  mk_inode (sector ino) (open_cnt ino) b (deny_write_cnt ino) (data ino).

(** [inode_open (sector)] *)
Definition inode_open (st : state) (s : Z) : state * Z :=
  match open_inodes st !! s with
  | Some ino =>
      (mk_state (dev st) (<[s := set_open_cnt ino (open_cnt ino + 1)]> (open_inodes st)), s)
  | None =>
      let ino := mk_inode s 1 false 0
                   (inode_disk_of_sector (block_read (disk (dev st)) s)) in
      (mk_state (dev st) (<[s := ino]> (open_inodes st)), s)
  end.

(** [inode_reopen (inode)] for a non-null [inode]. *)
Definition inode_reopen (st : state) (p : Z) : option (state * Z) :=
  match open_inodes st !! p with
  | Some ino =>
      Some (mk_state (dev st) (<[p := set_open_cnt ino (open_cnt ino + 1)]> (open_inodes st)), p)
  | None => None
  end.

Definition inode_get_inumber (st : state) (p : Z) : option Z :=
  sector <$> open_inodes st !! p.

Definition inode_get_parent (st : state) (p : Z) : option Z :=
  (fun ino => parent_directory (data ino)) <$> open_inodes st !! p.

Definition inode_is_dir (st : state) (p : Z) : option bool :=
  (fun ino => negb (is_directory (data ino) =? 0)) <$> open_inodes st !! p.

Definition inode_open_cnt (st : state) (p : Z) : option Z :=
  open_cnt <$> open_inodes st !! p.

(** [for (index = 0; index < n; index++) free_map_release (arr[index], 1);] *)
Fixpoint release_range (n : nat) (index : Z) (arr : list Z) (fm : list bool)
  : list bool :=
  match n with
  | O => fm
  | S n' => release_range n' (index + 1) arr (free_map_release fm (get arr index))
  end.

(** The loop over the second-level block in [release_data]. *)
Fixpoint release_second_level (n : nat) (sl_index : Z) (d : gmap Z (list Z))
    (sl_block : list Z) (sectors : Z) (fm : list bool) : list bool :=
  match n with
  | O => fm
  | S n' =>
      let fl_block := words_of_sector (block_read d (get sl_block sl_index)) in
      let num_fl := if sectors <=? POINTERS_IN_SECTOR then sectors else POINTERS_IN_SECTOR in
      let fm := release_range (Z.to_nat num_fl) 0 fl_block fm in
      let fm := free_map_release fm (get sl_block sl_index) in
      release_second_level n' (sl_index + 1) d sl_block (sectors - num_fl) fm
  end.

(** [release_data (inode)] *)
Definition release_data (f : fs) (ino : inode) : fs :=
  let di := data ino in
  let d := disk f in
  let sectors := int32 (bytes_to_sectors (length di)) in
  let num_direct := if sectors <=? DIRECT_SECTORS then sectors else DIRECT_SECTORS in
  let fm := release_range (Z.to_nat num_direct) 0 (data_blocks di) (free_map f) in
  let sectors := sectors - num_direct in
  let '(fm, sectors) :=
    if 0 <? sectors then
      let fl_block := words_of_sector (block_read d (get (data_blocks di) INDEX_OF_FL)) in
      let num_blocks := if sectors <=? POINTERS_IN_SECTOR then sectors else POINTERS_IN_SECTOR in
      let fm := release_range (Z.to_nat num_blocks) 0 fl_block fm in
      (free_map_release fm (get (data_blocks di) INDEX_OF_FL), sectors - POINTERS_IN_SECTOR)
    else (fm, sectors) in
  let fm :=
    if 0 <? sectors then
      let sl_block := words_of_sector (block_read d (get (data_blocks di) INDEX_OF_SL)) in
      let num_sl := Z.quot (sectors + POINTERS_IN_SECTOR - 1) POINTERS_IN_SECTOR in
      let fm := release_second_level (Z.to_nat num_sl) 0 d sl_block sectors fm in
      free_map_release fm (get (data_blocks di) INDEX_OF_SL)
    else fm in
  mk_fs d fm.

(** [inode_close (inode)] for a non-null [inode]. *)
Definition inode_close (st : state) (p : Z) : option state :=
  match open_inodes st !! p with
  | Some ino =>
      let cnt := open_cnt ino - 1 in
      if cnt =? 0 then
        let f :=
          if removed ino then
            let f := release_data (dev st) ino in
            mk_fs (disk f) (free_map_release (free_map f) (sector ino))
          else dev st in
        Some (mk_state f (delete p (open_inodes st)))
      else Some (mk_state (dev st) (<[p := set_open_cnt ino cnt]> (open_inodes st)))
  | None => None
  end.

(** [inode_remove (inode)] *)
Definition inode_remove (st : state) (p : Z) : option state :=
  match open_inodes st !! p with
  | Some ino => Some (mk_state (dev st) (<[p := set_removed ino true]> (open_inodes st)))
  | None => None
  end.

(** [inode_read_at] and [inode_write_at] through a pointer. *)
Definition read_at (st : state) (p : Z) (size offset : Z) : option (Z * list Z) :=
  (fun ino => inode_read_at (disk (dev st)) ino size offset) <$> open_inodes st !! p.

Definition write_at (st : state) (p : Z) (buffer : list Z) (size offset : Z)
  : option (state * Z) :=
  match open_inodes st !! p with
  | Some ino =>
      let '(f, ino, n) := inode_write_at (dev st) ino buffer size offset in
      Some (mk_state f (<[p := ino]> (open_inodes st)), n)
  | None => None
  end.

(** The length an inode publishes: the field of the on-disk inode in
    sector [s], which [inode_create] and the end of [inode_write_at]
    write with [block_write] and [inode_open] reads back. *)
Definition published_length (d : gmap Z (list Z)) (s : Z) : Z :=
  length (inode_disk_of_sector (block_read d s)).

(** A history of the three operations of the claim on the open inodes. *)
Inductive op :=
| OpCreate (sec len parent is_dir : Z)
| OpRead (p size offset : Z)
| OpWrite (p : Z) (buffer : list Z) (size offset : Z).

Definition step (st : state) (o : op) : option state :=
  match o with
  | OpCreate sec len parent is_dir =>
      match inode_create (dev st) sec len parent is_dir with
      | Some (f, _) => Some (mk_state f (open_inodes st))
      | None => None
      end
  | OpRead p size offset =>
      match read_at st p size offset with
      | Some _ => Some st
      | None => None
      end
  | OpWrite p buffer size offset => fst <$> write_at st p buffer size offset
  end.

Fixpoint run (st : state) (ops : list op) : option state :=
  match ops with
  | [] => Some st
  | o :: ops' =>
      match step st o with
      | Some st' => run st' ops'
      | None => None
      end
  end.

(** *** Files held in the direct entries

    The view of a file as its bytes and the shape [inode_create] and
    [inode_write_at] keep for a file of at most [DIRECT_SECTORS]
    sectors; the write count of [inode_deny_write]. *)

(** The byte of a file at position [pos]: the byte [pos % BLOCK_SECTOR_SIZE]
    of the sector [byte_to_sector] names, as [inode_read_at] fetches it. *)
Definition file_byte (d : gmap Z (list Z)) (di : inode_disk) (len pos : Z) : Z :=
  byte_at (block_read d (byte_to_sector d di pos len))
    (Z.to_nat (pos mod BLOCK_SECTOR_SIZE)).

(** The bytes of a file, from the first to the one before its length. *)
Definition contents (d : gmap Z (list Z)) (ino : inode) : list Z :=
  map (fun k => file_byte d (data ino) (inode_length ino) (Z.of_nat k))
    (seq 0 (Z.to_nat (inode_length ino))).

(** Every sector of the device holds [BLOCK_SECTOR_SIZE] bytes. *)
Definition disk_ok (d : gmap Z (list Z)) : Prop :=
  map_Forall (fun _ sec => Datatypes.length sec = 512%nat) d.

(** The byte at [pos] when the sector is a direct entry of the inode. *)
Definition direct_byte (blocks : list Z) (d : gmap Z (list Z)) (pos : Z) : Z :=
  byte_at (block_read d (get blocks (pos / 512))) (Z.to_nat (pos mod 512)).

(** The fields of a [struct inode_disk] fit their C types: twelve
    [block_sector_t] entries, an [off_t] length, and the [unsigned] and
    [block_sector_t] fields. *)
Definition inode_disk_ok (di : inode_disk) : Prop :=
  Datatypes.length (data_blocks di) = 12%nat
  /\ Forall (fun w => 0 <= w < 4294967296) (data_blocks di)
  /\ -2147483648 <= length di < 2147483648
  /\ 0 <= magic di < 4294967296
  /\ 0 <= parent_directory di < 4294967296
  /\ 0 <= is_directory di < 4294967296.

(** The data sectors of a file that fits the direct entries. *)
Definition direct_sectors (ino : inode) : list Z :=
  take (Z.to_nat (bytes_to_sectors (inode_length ino))) (data_blocks (data ino)).

(** A file in the direct entries of its inode, as [inode_create] and
    [inode_write_at] leave it: at most [DIRECT_SECTORS] sectors long, its
    data sectors distinct, in use in the free map and other than the
    sector of the inode, and the last sector zero beyond the end of the
    file. *)
Definition small_file (f : fs) (ino : inode) : Prop :=
  0 <= inode_length ino <= 5120
  /\ Datatypes.length (data_blocks (data ino)) = 12%nat
  /\ NoDup (direct_sectors ino)
  /\ Forall (fun s => 0 <= s /\ free_map f !! idx s = Some true /\ s <> sector ino)
       (direct_sectors ino)
  /\ (0 <= sector ino /\ free_map f !! idx (sector ino) = Some true)
  /\ disk_ok (disk f)
  /\ (inode_length ino mod 512 = 0
      \/ Forall (fun b => b = 0)
           (drop (Z.to_nat (inode_length ino mod 512))
              (block_read (disk f) (get (data_blocks (data ino)) (inode_length ino / 512))))).

(** [inode->deny_write_cnt = n] *)
Definition set_deny_write_cnt (ino : inode) (n : Z) : inode :=
  mk_inode (sector ino) (open_cnt ino) (removed ino) n (data ino).

(** [inode_deny_write (inode)]; [None] is the failed [ASSERT]. *)
Definition inode_deny_write (st : state) (p : Z) : option state :=
  ino ← open_inodes st !! p;
  let ino := set_deny_write_cnt ino (deny_write_cnt ino + 1) in
  if deny_write_cnt ino <=? open_cnt ino
  then Some (mk_state (dev st) (<[p := ino]> (open_inodes st)))
  else None.

(** [inode_allow_write (inode)]; [None] is a failed [ASSERT]. *)
Definition inode_allow_write (st : state) (p : Z) : option state :=
  ino ← open_inodes st !! p;
  if (0 <? deny_write_cnt ino) && (deny_write_cnt ino <=? open_cnt ino)
  then Some (mk_state (dev st)
               (<[p := set_deny_write_cnt ino (deny_write_cnt ino - 1)]> (open_inodes st)))
  else None.

(** [disk_ok] and [small_file] can be decided. *)
#[global] Instance disk_ok_dec d : Decision (disk_ok d).
Proof. unfold disk_ok. apply _. Defined.

#[global] Instance small_file_dec f ino : Decision (small_file f ino).
Proof. unfold small_file. apply _. Defined.

(** So can [inode_disk_ok]. *)
#[global] Instance inode_disk_ok_dec di : Decision (inode_disk_ok di).
Proof. unfold inode_disk_ok. apply _. Defined.

End Inode.

(** ** Directories (filesys/directory.c) *)

Module Dir.
Import Inode.

(** Modelled from the spec: the longest name of an entry
    (filesys/directory.h), 14 characters. *)
Definition NAME_MAX : Z := 14.

(** Modelled from the spec: the special name "." of filesys/filesys.h. *)
Definition CURRENT_DIRECTORY : list Z := [46].

(** [struct dir] *)
Record dir := mk_dir {
  inode : Z;
  pos : Z
}.

(** [struct dir_entry]: a sector number, [NAME_MAX + 1] characters and a
    one-byte flag; [name] keeps all fifteen characters of the array. *)
Record dir_entry := mk_dir_entry {
  inode_sector : Z;
  name : list Z;
  in_use : bool
}.

(** [sizeof (struct dir_entry)] *)
Definition entry_size : Z := 20.

Definition dir_entry_of_bytes (bs : list Z) : dir_entry :=
  mk_dir_entry (word_at bs 0) (take 15%nat (drop 4%nat bs))
    (negb (byte_at bs 19 =? 0)).

Definition dir_entry_to_bytes (e : dir_entry) : list Z :=
  le32 (inode_sector e) ++ take 15%nat (name e ++ replicate 15%nat 0)
  ++ [if in_use e then 1 else 0].

(** The characters of a C string: those before the first NUL. *)
Fixpoint c_string (l : list Z) : list Z :=
  match l with
  | [] => []
  | c :: l' => if c =? 0 then [] else c :: c_string l'
  end.

(** [!strcmp (a, b)] *)
Definition streq (a b : list Z) : bool := bool_decide (c_string a = c_string b).

(** [inode_read_at (dir->inode, &e, sizeof e, ofs) == sizeof e], with
    the entry read. *)
Definition read_entry (d : gmap Z (list Z)) (ino : Inode.inode) (ofs : Z)
  : option dir_entry :=
  let '(n, bs) := inode_read_at d ino entry_size ofs in
  if n =? entry_size then Some (dir_entry_of_bytes bs) else None.

(** The scan of [lookup] and [lookup_sector]: the first entry in use
    that satisfies [test], with its offset.  A read at or beyond the
    length of the inode is short, so [fuel] above that length is never
    used up. *)
Fixpoint scan (fuel : nat) (d : gmap Z (list Z)) (ino : Inode.inode)
    (test : dir_entry -> bool) (ofs : Z) : option (dir_entry * Z) :=
  match fuel with
  | O => None
  | S fuel' =>
      match read_entry d ino ofs with
      | Some e =>
          if in_use e && test e then Some (e, ofs)
          else scan fuel' d ino test (ofs + entry_size)
      | None => None
      end
  end.

Definition scan_fuel (ino : Inode.inode) : nat := S (Z.to_nat (inode_length ino)).

(** [lookup (dir, name, &e, &ofs)] on the inode of [dir]. *)
Definition lookup (d : gmap Z (list Z)) (ino : Inode.inode) (nm : list Z)
  : option (dir_entry * Z) :=
  scan (scan_fuel ino) d ino (fun e => streq nm (name e)) 0.

(** [lookup_sector (dir, sector, &e, &ofs)] *)
Definition lookup_sector (d : gmap Z (list Z)) (ino : Inode.inode) (s : Z)
  : option (dir_entry * Z) :=
  scan (scan_fuel ino) d ino (fun e => inode_sector e =? s) 0.

(** The loop of [dir_readdir]: the new position and the name found. *)
Fixpoint readdir_loop (fuel : nat) (d : gmap Z (list Z)) (ino : Inode.inode)
    (ps : Z) : Z * option (list Z) :=
  match fuel with
  | O => (ps, None)
  | S fuel' =>
      match read_entry d ino ps with
      | Some e =>
          let ps := ps + entry_size in
          if in_use e then (ps, Some (take (idx NAME_MAX) (c_string (name e))))
          else readdir_loop fuel' d ino ps
      | None => (ps, None)
      end
  end.

(** [dir_readdir (dir, name)] *)
Definition dir_readdir (st : state) (dr : dir) : option (dir * option (list Z)) :=
  match open_inodes st !! inode dr with
  | Some ino =>
      let '(ps, r) := readdir_loop (scan_fuel ino) (disk (dev st)) ino (pos dr) in
      Some (mk_dir (inode dr) ps, r)
  | None => None
  end.

(** The entries stored in a directory inode, in order, and those in
    use. *)
Fixpoint entries_from (fuel : nat) (d : gmap Z (list Z)) (ino : Inode.inode)
    (ofs : Z) : list dir_entry :=
  match fuel with
  | O => []
  | S fuel' =>
      match read_entry d ino ofs with
      | Some e => e :: entries_from fuel' d ino (ofs + entry_size)
      | None => []
      end
  end.

Definition dir_entries (d : gmap Z (list Z)) (ino : Inode.inode) : list dir_entry :=
  entries_from (scan_fuel ino) d ino 0.

Definition live_entries (d : gmap Z (list Z)) (ino : Inode.inode) : list dir_entry :=
  filter (fun e => in_use e = true) (dir_entries d ino).

Section WithRoot.

(** The sector of the root directory (filesys.h). *)
Variable ROOT_DIR_SECTOR : Z.

(** [dir_open (inode)] for a non-null [inode]. *)
Definition dir_open (p : Z) : dir := mk_dir p 0.

(** [dir_open_root ()] *)
Definition dir_open_root (st : state) : state * dir :=
  let '(st, p) := inode_open st ROOT_DIR_SECTOR in (st, dir_open p).

(** [dir_open_parent (dir)]; the inner [None] is the null pointer. *)
Definition dir_open_parent (st : state) (dr : dir) : option (state * option dir) :=
  match inode_get_parent st (inode dr) with
  | Some parent_sector =>
      if parent_sector =? 0 then Some (st, None)
      else let '(st, p) := inode_open st parent_sector in Some (st, Some (dir_open p))
  | None => None
  end.

(** [dir_close (dir)] for a non-null [dir]. *)
Definition dir_close (st : state) (dr : dir) : option state :=
  inode_close st (inode dr).

(** [dir_can_remove (inode)] *)
Definition dir_can_remove (st : state) (p : Z) : option (state * bool) :=
  let dr := dir_open p in
  let '(st, root) := dir_open_root st in
  root_inumber ← inode_get_inumber st (inode root);
  inumber ← inode_get_inumber st p;
  st ← dir_close st root;
  '(_, r) ← dir_readdir st dr;
  cnt ← inode_open_cnt st p;
  Some (st, negb (bool_decide (is_Some r) || (inumber =? root_inumber))
            && negb (1 <? cnt)).

(** The first part of [dir_remove], "Find directory entry": the
    directory searched ([current_dir]) and what was found in it.
    [lookup_sector] asserts that its directory is not null. *)
Definition find_entry (st : state) (dr : dir) (nm : list Z)
  : option (state * dir * option (dir_entry * Z)) :=
  if streq nm CURRENT_DIRECTORY then
    s ← inode_get_inumber st (inode dr);
    '(st, parent) ← dir_open_parent st dr;
    current_dir ← parent;
    ino ← open_inodes st !! inode current_dir;
    Some (st, current_dir, lookup_sector (disk (dev st)) ino s)
  else
    ino ← open_inodes st !! inode dr;
    Some (st, dr, lookup (disk (dev st)) ino nm).

(** The label [done] of [dir_remove]; [target] is null when nothing was
    opened. *)
Definition remove_done (st : state) (current_dir : dir) (nm : list Z)
    (target : option Z) (success : bool) : option (state * bool) :=
  st ← (if streq nm CURRENT_DIRECTORY then dir_close st current_dir else Some st);
  st ← (match target with Some p => inode_close st p | None => Some st end);
  Some (st, success).

(** [dir_remove (dir, name)].  When the entry is not found the source
    jumps to [done] over the initialisation of [dir_lock] and passes
    that pointer, which nothing has set, to
    [lock_held_by_current_thread]: no result is given.  On the other
    ways to [done] the lock was taken and is released there. *)
Definition dir_remove (st : state) (dr : dir) (nm : list Z) : option (state * bool) :=
  '(st, current_dir, found) ← find_entry st dr nm;
  match found with
  | None => None
  | Some (e, ofs) =>
      let '(st, p) := inode_open st (inode_sector e) in
      is_dir ← inode_is_dir st p;
      '(st, blocked) ←
        (if is_dir : bool then
           prod_map id negb <$> dir_can_remove st p
         else Some (st, false));
      if blocked : bool then remove_done st current_dir nm (Some p) false
      else
        let e := mk_dir_entry (inode_sector e) (name e) false in
        '(st, n) ← write_at st (inode current_dir) (dir_entry_to_bytes e) entry_size ofs;
        if negb (n =? entry_size) then remove_done st current_dir nm (Some p) false
        else
          st ← inode_remove st p;
          remove_done st current_dir nm (Some p) true
  end.

End WithRoot.

(** Every open inode is filed under its own sector and has an opener. *)
Definition wf (st : state) : Prop :=
  forall p ino, open_inodes st !! p = Some ino -> sector ino = p /\ 1 <= open_cnt ino.

(** *** The other operations of filesys/directory.c *)

(** [dir_create (sector, entry_cnt, parent)] *)
Definition dir_create (f : fs) (sector entry_cnt parent : Z) : option (fs * bool) :=
  inode_create f sector (int32 (entry_cnt * entry_size)) parent 1.

(** [dir_reopen (dir)] *)
Definition dir_reopen (st : state) (dr : dir) : option (state * dir) :=
  '(st, p) ← inode_reopen st (inode dr); Some (st, mk_dir p 0).

(** [dir_get_inode (dir)] *)
Definition dir_get_inode (dr : dir) : Z := inode dr.

(** [dir_lookup (dir, name, &inode)]: the state and [*inode]. *)
Definition dir_lookup (st : state) (dr : dir) (nm : list Z) : option (state * option Z) :=
  ino ← open_inodes st !! inode dr;
  match lookup (disk (dev st)) ino nm with
  | Some (e, _) => let '(st, p) := inode_open st (inode_sector e) in Some (st, Some p)
  | None => Some (st, None)
  end.

(** Modelled from the spec: [strlcpy (dst, src, size)] of lib/string.c
    (not among the sources) on an array [dst]: at most [size - 1]
    characters of the string [src], then a NUL; the rest of [dst] stays. *)
Definition strlcpy (dst src : list Z) (size : nat) : list Z :=
  let s := take (size - 1) (c_string src) in
  s ++ [0] ++ drop (S (Datatypes.length s)) dst.

(** The loop of [dir_add] that looks for a free slot.  [e] is the local
    [struct dir_entry] as raw bytes: every read copies what it got over
    its start. *)
Fixpoint add_slot (fuel : nat) (d : gmap Z (list Z)) (ino : Inode.inode)
    (e : list Z) (ofs : Z) : list Z * Z :=
  match fuel with
  | O => (e, ofs)
  | S fuel' =>
      let '(n, bs) := inode_read_at d ino entry_size ofs in
      let e := bs ++ drop (Datatypes.length bs) e in
      if n =? entry_size then
        if in_use (dir_entry_of_bytes e) then add_slot fuel' d ino e (ofs + entry_size)
        else (e, ofs)
      else (e, ofs)
  end.

(** [dir_add (dir, name, inode_sector)]; [e0] is what the stack holds
    where the local entry is placed.  The lock of the directory is not
    part of the state: the source takes it first and releases it at
    [done], but not on the early return for an empty or over-long
    name, after which it stays held. *)
Definition dir_add (st : state) (dr : dir) (nm : list Z) (sec : Z) (e0 : list Z)
  : option (state * bool) :=
  ino ← open_inodes st !! inode dr;
  let len := Z.of_nat (Datatypes.length (c_string nm)) in
  if (len =? 0) || (NAME_MAX <? len) then Some (st, false)
  else if bool_decide (is_Some (lookup (disk (dev st)) ino nm)) then Some (st, false)
  else
    let '(e, ofs) := add_slot (scan_fuel ino) (disk (dev st)) ino e0 0 in
    let bytes := le32 sec ++ strlcpy (take 15 (drop 4 e)) nm 15 ++ [1] in
    '(st, n) ← write_at st (inode dr) bytes entry_size ofs;
    Some (st, n =? entry_size).

(** [dir_seek (dir, pos)]; [None] is the failed [ASSERT]. *)
Definition dir_seek (dr : dir) (ps : Z) : option dir :=
  if ps <? 0 then None else Some (mk_dir (inode dr) ps).

(** [dir_tell (dir)] *)
Definition dir_tell (dr : dir) : Z := pos dr.

(** The bytes of slot [j] of a directory. *)
Definition slot_bytes (d : gmap Z (list Z)) (ino : Inode.inode) (j : nat) : list Z :=
  take 20 (drop (20 * j) (contents d ino)).

(** An entry is a match for [nm] in a scan. *)
Definition matches (nm : list Z) (e : dir_entry) : Prop :=
  in_use e && streq nm (name e) = true.

#[global] Instance matches_dec nm e : Decision (matches nm e).
Proof. unfold matches. apply _. Defined.

End Dir.

(** ** System calls (userprog/syscall.c, the file-system version) *)

(** What a handler does to the calling process: it returns to the
    caller, or the process ends through [thread_exit ()] with its
    [exit_status], or the kernel panics, or the call blocks for ever. *)
Inductive result (A : Type) :=
| Ok (a : A)
| Exit (status : Z)
| Panic
| Block.
Arguments Ok {A} a.
Arguments Exit {A} status.
Arguments Panic {A}.
Arguments Block {A}.

#[global] Instance result_bind : MBind result := fun A B f r =>
  match r with
  | Ok a => f a
  | Exit s => Exit s
  | Panic => Panic
  | Block => Block
  end.

Module Sys.
Import Inode.

(** Modelled from the spec: the descriptors of the keyboard and of the
    console (lib/stdio.h). *)
Definition STDIN_FILENO : Z := 0.
Definition STDOUT_FILENO : Z := 1.

(** userprog/syscall.h *)
Definition BUFFER_LIMIT : Z := 256.

(** Modelled from the spec: [struct file] of filesys/file.c (not among
    the sources): the inode, the position and the deny-write flag of an
    open file, with [file_read], [file_write], [file_length],
    [file_seek], [file_tell] and [file_close] below passing straight to
    the inode layer and moving the position. *)
Record file := mk_file {
  f_inode : Z;
  f_pos : Z;
  f_deny_write : bool
}.

(** The part of [struct thread] used here. *)
Record thread := mk_thread {
  files : list (option file);
  next_fd : Z
}.

(** The machine seen by a handler: the file system, the calling thread,
    user memory as the bytes mapped in its page directory, the bytes put
    on the console by each [putbuf], the keys waiting in the input
    buffer, and [f->eax] (read back by the caller as an [int]). *)
Record sys := mk_sys {
  fsys : Inode.state;
  thr : thread;
  umem : gmap Z Z;
  console : list (list Z);
  input : list Z;
  eax : Z
}.

Definition set_eax (s : sys) (v : Z) : sys :=
  mk_sys (fsys s) (thr s) (umem s) (console s) (input s) v.

Definition set_thr (s : sys) (t : thread) : sys :=
  mk_sys (fsys s) t (umem s) (console s) (input s) (eax s).

Definition set_fsys (s : sys) (f : Inode.state) : sys :=
  mk_sys f (thr s) (umem s) (console s) (input s) (eax s).

Definition set_file (t : thread) (fd : Z) (f : option file) : thread :=
  mk_thread (<[idx fd := f]> (files t)) (next_fd t).

(** [thread_current ()->files[fd]]; a null pointer is [None]. *)
Definition get_file (t : thread) (fd : Z) : option file :=
  default None (files t !! idx fd).

(** The byte of user memory at [a]; a byte that is not mapped reads as
    0 here, where the source faults. *)
Definition load8 (m : gmap Z Z) (a : Z) : Z := default 0 (m !! a).

(** The word at [a], as the source reads an [int] argument there when
    its four bytes are mapped. *)
Definition load32 (m : gmap Z Z) (a : Z) : Z :=
  load8 m a + 256 * load8 m (a + 1) + 65536 * load8 m (a + 2)
  + 16777216 * load8 m (a + 3).

(** The four bytes of the word at [a] are mapped: [load32] then reads
    what the source reads. *)
Definition word_mapped (m : gmap Z Z) (a : Z) : Prop :=
  forall i, 0 <= i < 4 -> is_Some (m !! (a + i)).

Definition load_bytes (m : gmap Z Z) (a : Z) (n : Z) : list Z :=
  map (fun i => load8 m (a + Z.of_nat i)) (seq 0 (Z.to_nat n)).

Fixpoint store_bytes (m : gmap Z Z) (a : Z) (bs : list Z) : gmap Z Z :=
  match bs with
  | [] => m
  | b :: bs' => store_bytes (<[a := b]> m) (a + 1) bs'
  end.

(** [putbuf (buffer, n)] *)
Definition putbuf (s : sys) (buffer n : Z) : sys :=
  mk_sys (fsys s) (thr s) (umem s) (console s ++ [load_bytes (umem s) buffer n])
    (input s) (eax s).

Section WithLimits.

(** The size of the descriptor table (threads/thread.h) and the start
    of kernel virtual memory (threads/vaddr.h). *)
Variable MAX_FILES : Z.
Variable PHYS_BASE : Z.

(** [check_pointer (argument)]: does the pointer pass? *)
Definition check_pointer (s : sys) (argument : Z) : bool :=
  negb ((argument =? 0) || negb (argument <? PHYS_BASE)
        || negb (bool_decide (is_Some (umem s !! argument)))).

Definition checked (s : sys) (argument : Z) : result unit :=
  if check_pointer s argument then Ok tt else Exit (-1).

(** [get_argument (&esp)]: the address of the argument and the new
    [esp]. *)
Definition get_argument (s : sys) (esp : Z) : result (Z * Z) :=
  _ ← checked s esp; Ok (esp, esp + 4).

(** The loop [while (current_file != NULL && new_fd < MAX_FILES - 1)]
    of [init_file]. *)
Fixpoint next_open_index (fuel : nat) (t : thread) (new_fd : Z) : Z :=
  match fuel with
  | O => new_fd
  | S fuel' =>
      if bool_decide (is_Some (get_file t new_fd)) && (new_fd <? MAX_FILES - 1)
      then next_open_index fuel' t (new_fd + 1)
      else new_fd
  end.

(** [init_file (file)] *)
Definition init_file (t : thread) (f : file) : thread * Z :=
  let fd := next_fd t in
  if 1 <? fd then
    let new_fd := fd in
    let t := set_file t new_fd (Some f) in
    let new_fd := next_open_index (Z.to_nat MAX_FILES) t new_fd in
    if fd =? MAX_FILES then (mk_thread (files t) (-1), -1)
    else (mk_thread (files t) new_fd, fd)
  else (t, -1).

(** [is_directory (fd)]; the descriptor of no file is a null pointer
    dereferenced in the kernel, taken as a panic. *)
Definition is_directory (s : sys) (fd : Z) : result bool :=
  match get_file (thr s) fd with
  | Some f =>
      match inode_is_dir (fsys s) (f_inode f) with
      | Some b => Ok b
      | None => Panic
      end
  | None => Panic
  end.

(** Modelled from the spec: [file_length (file)] of filesys/file.c. *)
Definition file_length (s : sys) (f : file) : result Z :=
  match open_inodes (fsys s) !! f_inode f with
  | Some ino => Ok (inode_length ino)
  | None => Panic
  end.

(** Modelled from the spec: [file_tell (file)] of filesys/file.c. *)
Definition file_tell (f : file) : Z := f_pos f.

(** Modelled from the spec: [file_seek (file, new_pos)] of
    filesys/file.c, which asserts that the position is not negative. *)
Definition file_seek (f : file) (new_pos : Z) : result file :=
  if new_pos <? 0 then Panic else Ok (mk_file (f_inode f) new_pos (f_deny_write f)).

(** Modelled from the spec: [file_read (file, buffer, size)] of
    filesys/file.c: [inode_read_at] at the position of the file, which
    moves on by the bytes read; the bytes go to user memory. *)
Definition file_read (s : sys) (fd : Z) (f : file) (buffer size : Z) : result sys :=
  match read_at (fsys s) (f_inode f) size (f_pos f) with
  | Some (n, bs) =>
      let f := mk_file (f_inode f) (f_pos f + n) (f_deny_write f) in
      Ok (mk_sys (fsys s) (set_file (thr s) fd (Some f))
            (store_bytes (umem s) buffer bs) (console s) (input s) n)
  | None => Panic
  end.

(** Modelled from the spec: [file_write (file, buffer, size)] of
    filesys/file.c: [inode_write_at] at the position of the file, which
    moves on by the bytes written. *)
Definition file_write (s : sys) (fd : Z) (f : file) (buffer size : Z) : result sys :=
  match write_at (fsys s) (f_inode f) (load_bytes (umem s) buffer size) size (f_pos f) with
  | Some (st, n) =>
      let f := mk_file (f_inode f) (f_pos f + n) (f_deny_write f) in
      Ok (mk_sys st (set_file (thr s) fd (Some f)) (umem s) (console s) (input s) n)
  | None => Panic
  end.

(** Modelled from the spec: [file_close (file)] of filesys/file.c:
    writes are allowed again if this file denied them, and the inode is
    closed. *)
Definition file_close (s : sys) (f : file) : result sys :=
  let st := fsys s in
  let st :=
    if f_deny_write f then
      mk_state (dev st)
        (alter (fun ino => mk_inode (sector ino) (open_cnt ino) (removed ino)
                             (deny_write_cnt ino - 1) (data ino))
           (f_inode f) (open_inodes st))
    else st in
  match inode_close st (f_inode f) with
  | Some st => Ok (set_fsys s st)
  | None => Panic
  end.

(** [filesize_call] *)
Definition filesize_call (s : sys) (esp : Z) : result sys :=
  '(a, esp) ← get_argument s esp;
  let fd := int32 (load32 (umem s) a) in
  if (fd <? 2) || (MAX_FILES <=? fd) then Exit (-1)
  else
    d ← is_directory s fd;
    if d : bool then Exit (-1)
    else
      match get_file (thr s) fd with
      | Some f => n ← file_length s f; Ok (set_eax s n)
      | None => Exit (-1)
      end.

(** [read_from_stdin]: every [input_getc ()] takes a key and waits when
    there is none. *)
Fixpoint read_from_stdin (fuel : nat) (s : sys) (size counter : Z) : result sys :=
  match fuel with
  | O => Ok (set_eax s counter)
  | S fuel' =>
      if counter <? size then
        match input s with
        | _ :: keys =>
            read_from_stdin fuel'
              (mk_sys (fsys s) (thr s) (umem s) (console s) keys (eax s))
              size (counter + 1)
        | [] => Block
        end
      else Ok (set_eax s counter)
  end.

(** [read_call] *)
Definition read_call (s : sys) (esp : Z) : result sys :=
  '(a, esp) ← get_argument s esp;
  let fd := int32 (load32 (umem s) a) in
  if (fd =? STDOUT_FILENO) || (fd <? 0) || (MAX_FILES <=? fd) then Ok (set_eax s (-1))
  else
    '(a, esp) ← get_argument s esp;
    let buffer := load32 (umem s) a in
    _ ← checked s buffer;
    '(a, esp) ← get_argument s esp;
    let size := int32 (load32 (umem s) a) in
    _ ← checked s (uint32 (buffer + size));
    if fd =? STDIN_FILENO then read_from_stdin (Z.to_nat size) s size 0
    else
      match get_file (thr s) fd with
      | Some f =>
          d ← is_directory s fd;
          if d : bool then Ok (set_eax s (-1)) else file_read s fd f buffer size
      | None => Ok (set_eax s (-1))
      end.

(** The loop of [write_to_stdout]. *)
Fixpoint stdout_loop (fuel : nat) (s : sys) (size buffer : Z) : sys * Z * Z :=
  match fuel with
  | O => (s, size, buffer)
  | S fuel' =>
      if 1 <=? Z.quot size BUFFER_LIMIT then
        stdout_loop fuel' (putbuf s buffer size) (size - BUFFER_LIMIT)
          (buffer + BUFFER_LIMIT)
      else (s, size, buffer)
  end.

(** [write_to_stdout (f, old_size, buffer)] *)
Definition write_to_stdout (s : sys) (old_size buffer : Z) : sys :=
  let '(s, size, buffer) := stdout_loop (Z.to_nat old_size) s old_size buffer in
  let s := if 0 <? Z.rem size BUFFER_LIMIT then putbuf s buffer size else s in
  set_eax s old_size.

(** [write_call] *)
Definition write_call (s : sys) (esp : Z) : result sys :=
  '(a, esp) ← get_argument s esp;
  let fd := int32 (load32 (umem s) a) in
  if (fd <=? STDIN_FILENO) || (MAX_FILES <=? fd) then Ok (set_eax s (-1))
  else
    '(a, esp) ← get_argument s esp;
    let buffer := load32 (umem s) a in
    _ ← checked s buffer;
    '(a, esp) ← get_argument s esp;
    let size := int32 (load32 (umem s) a) in
    _ ← checked s (uint32 (buffer + size));
    if fd =? STDOUT_FILENO then Ok (write_to_stdout s size buffer)
    else
      match get_file (thr s) fd with
      | Some f => file_write s fd f buffer size
      | None => Ok (set_eax s (-1))
      end.

(** [seek_call] *)
Definition seek_call (s : sys) (esp : Z) : result sys :=
  '(a, esp) ← get_argument s esp;
  let fd := int32 (load32 (umem s) a) in
  if (fd <? 2) || (MAX_FILES <=? fd) then Exit (-1)
  else
    d ← is_directory s fd;
    if d : bool then Exit (-1)
    else
      '(a, esp) ← get_argument s esp;
      let position := int32 (load32 (umem s) a) in
      match get_file (thr s) fd with
      | Some f => f ← file_seek f position; Ok (set_thr s (set_file (thr s) fd (Some f)))
      | None => Exit (-1)
      end.

(** [tell_call] *)
Definition tell_call (s : sys) (esp : Z) : result sys :=
  '(a, esp) ← get_argument s esp;
  let fd := int32 (load32 (umem s) a) in
  if (fd <? 2) || (MAX_FILES <=? fd) then Exit (-1)
  else
    d ← is_directory s fd;
    if d : bool then Exit (-1)
    else
      match get_file (thr s) fd with
      | Some f => Ok (set_eax s (file_tell f))
      | None => Ok (set_eax s (-1))
      end.

(** [close_call] *)
Definition close_call (s : sys) (esp : Z) : result sys :=
  '(a, esp) ← get_argument s esp;
  let fd := int32 (load32 (umem s) a) in
  if (fd <? 2) || (MAX_FILES <=? fd) then Exit (-1)
  else
    match get_file (thr s) fd with
    | Some f =>
        s ← file_close s f;
        let t := set_file (thr s) fd None in
        let t := if fd <? next_fd t then mk_thread (files t) fd else t in
        Ok (set_thr s t)
    | None => Exit (-1)
    end.

End WithLimits.

(** The descriptor table is in order: it has [MAX_FILES] slots,
    [next_fd] is a descriptor of the table, and every descriptor from 2
    up to [next_fd] is taken. *)
Definition table_ok (MAX_FILES : Z) (t : thread) : Prop :=
  Z.of_nat (Datatypes.length (files t)) = MAX_FILES
  /\ 2 <= next_fd t < MAX_FILES
  /\ forall k, 2 <= k < next_fd t -> is_Some (get_file t k).

(** The chunks [write_to_stdout] passes to [putbuf] in its loop: chunk
    [i] starts [i * BUFFER_LIMIT] bytes into the buffer and has all the
    bytes that are left. *)
Definition stdout_chunks (s : sys) (size buffer : Z) : list (list Z) :=
  map (fun i => load_bytes (umem s) (buffer + BUFFER_LIMIT * Z.of_nat i)
                  (size - BUFFER_LIMIT * Z.of_nat i))
    (seq 0 (Z.to_nat (size / BUFFER_LIMIT))).

End Sys.

(** ** The file system interface (filesys/filesys.c) *)

Module Filesys.
Import Inode Dir.

(** Modelled from the spec: the names "/" and ".." of filesys/filesys.h. *)
Definition ROOT : list Z := [47].
Definition PARENT_DIRECTORY : list Z := [46; 46].

(** Modelled from the spec: the calls of [strtok_r (.., "/", ..)] of
    lib/string.c (not among the sources) on a string: its pieces
    between slashes that are not empty.  [cur] holds the characters of
    the piece being read. *)
Fixpoint tokens_from (l cur : list Z) : list (list Z) :=
  match l with
  | [] => match cur with [] => [] | _ => [cur] end
  | c :: l' =>
      if c =? 47 then
        match cur with
        | [] => tokens_from l' []
        | _ => cur :: tokens_from l' []
        end
      else tokens_from l' (cur ++ [c])
  end.

(** [get_paths (path, num_tokens, "/")], with [get_num_tokens] the
    length of the result. *)
Definition get_paths (path : list Z) : list (list Z) := tokens_from (c_string path) [].

(** Modelled from the spec: [file_open (inode)] of filesys/file.c (not
    among the sources): a file at position 0 on the inode, or null for a
    null inode. *)
Definition file_open (st : state) (p : option Z) : state * option Sys.file :=
  (st, (fun i => Sys.mk_file i 0 false) <$> p).

Section WithRoot.

Variable ROOT_DIR_SECTOR : Z.

(** The [while (tokens > 1)] loop of [parse_path] over the names before
    the last: the state and [current_dir], or null where the source
    returns null, which it does without closing [current_dir], nor the
    inode it found when that is no directory. *)
Fixpoint walk (st : state) (current_dir : dir) (names : list (list Z))
  : option (state * option dir) :=
  match names with
  | [] => Some (st, Some current_dir)
  | nm :: rest =>
      if streq nm PARENT_DIRECTORY then
        '(st, parent) ← dir_open_parent st current_dir;
        match parent with
        | None => Some (st, None)
        | Some parent =>
            st ← dir_close st current_dir;
            walk st parent rest
        end
      else if negb (streq nm CURRENT_DIRECTORY) then
        '(st, found) ← dir_lookup st current_dir nm;
        match found with
        | None => Some (st, None)
        | Some p =>
            is_dir ← inode_is_dir st p;
            if is_dir : bool then
              st ← dir_close st current_dir;
              walk st (dir_open p) rest
            else Some (st, None)
        end
      else walk st current_dir rest
  end.

(** [parse_path (path, &file_name)] with [cwd] the working directory of
    the thread: the state, and the directory returned with [*file_name],
    or null with [*file_name] as it was.  A path other than "/" without
    a name has no result here: the source passes a length of zero to
    [malloc] and goes on by what that returns. *)
Definition parse_path (st : state) (cwd : dir) (path : list Z)
  : option (state * option (dir * list Z)) :=
  let paths := get_paths path in
  if streq path ROOT then
    let '(st, root) := dir_open_root ROOT_DIR_SECTOR st in
    Some (st, Some (root, c_string path))
  else
    match paths with
    | [] => None
    | _ =>
        match (if default 0 (path !! 0%nat) =? 47
               then Some (dir_open_root ROOT_DIR_SECTOR st)
               else dir_reopen st cwd) with
        | Some (st, current_dir) =>
            match walk st current_dir (removelast paths) with
            | Some (st, Some d) => Some (st, Some (d, List.last paths []))
            | Some (st, None) => Some (st, None)
            | None => None
            end
        | None => None
        end
    end.

(** [filesys_create (name, initial_size)]; [e0] is what the stack holds
    where [dir_add] places its entry.  When [parse_path] returns null
    the source compares [file_name], which nothing has set: no result
    is given. *)
Definition filesys_create (st : state) (cwd : dir) (name : list Z) (initial_size : Z)
    (e0 : list Z) : option (state * bool) :=
  '(st, r) ← parse_path st cwd name;
  '(d, file_name) ← r;
  if streq file_name CURRENT_DIRECTORY || streq file_name PARENT_DIRECTORY
     || streq file_name ROOT || (Z.of_nat (Datatypes.length (c_string name)) =? 0)
  then Some (st, false)
  else
    let '(fm, inode_sector, allocated) := free_map_allocate (free_map (dev st)) 0 in
    let st := mk_state (mk_fs (disk (dev st)) fm) (open_inodes st) in
    '(st, success) ←
      (if allocated : bool then
         parent ← inode_get_inumber st (dir_get_inode d);
         '(f, created) ← inode_create (dev st) inode_sector initial_size parent 0;
         let st := mk_state f (open_inodes st) in
         if created : bool then dir_add st d file_name inode_sector e0
         else Some (st, false)
       else Some (st, false));
    let st :=
      if negb success && negb (inode_sector =? 0)
      then mk_state (mk_fs (disk (dev st)) (free_map_release (free_map (dev st)) inode_sector))
             (open_inodes st)
      else st in
    st ← dir_close st d;
    Some (st, success).

(** [filesys_open (name)] *)
Definition filesys_open (st : state) (cwd : dir) (name : list Z)
  : option (state * option Sys.file) :=
  '(st, r) ← parse_path st cwd name;
  match r with
  | Some (d, file_name) =>
      if streq file_name PARENT_DIRECTORY then
        parent ← inode_get_parent st (dir_get_inode d);
        let '(st, p) := inode_open st parent in
        st ← dir_close st d;
        Some (file_open st (Some p))
      else if streq file_name CURRENT_DIRECTORY || streq file_name ROOT then
        Some (file_open st (Some (dir_get_inode d)))
      else
        '(st, found) ← dir_lookup st d file_name;
        st ← dir_close st d;
        Some (file_open st found)
  | None => Some (file_open st None)
  end.

(** [filesys_remove (name)].  When [parse_path] returns null the source
    frees [file_name], which nothing has set: no result is given. *)
Definition filesys_remove (st : state) (cwd : dir) (name : list Z) : option (state * bool) :=
  '(st, r) ← parse_path st cwd name;
  '(d, file_name) ← r;
  '(st, success) ← dir_remove ROOT_DIR_SECTOR st d file_name;
  st ← dir_close st d;
  Some (st, success).

End WithRoot.

End Filesys.

(** ** Virtual memory (userprog/exception.c, vm/page.c, vm/frame.c,
       vm/swap.c) *)

Module VM.

(** Modelled from the spec: the page size of threads/vaddr.h, eight
    sectors. *)
Definition PGSIZE : Z := 4096.

Definition SECTORS_IN_PAGE : Z := 8.
Definition STACK_LIMIT : Z := 8388608. (* 1 << 23 *)

(** Modelled from the spec: the present, write and user bits of the
    page-fault error code (userprog/exception.h). *)
Definition PF_P : Z := 1.
Definition PF_W : Z := 2.
Definition PF_U : Z := 4.

(** Modelled from the spec: [enum block_type], the roles of
    devices/block.h. *)
Inductive block_type := BLOCK_KERNEL | BLOCK_FILESYS | BLOCK_SCRATCH | BLOCK_SWAP.

#[global] Instance block_type_eq_dec : EqDecision block_type.
Proof. solve_decision. Defined.

(** [struct sp_entry]; a null pointer is 0. *)
Record sp_entry := mk_sp_entry {
  upage : Z;
  block : block_type;
  mem_addr : Z;
  file_addr : Z;
  read_bytes : Z;
  swap_index : Z;
  writable : bool
}.

(** Modelled from the spec: an entry of the page directory
    (userprog/pagedir.c is not among the sources): the frame mapped, and
    the present, accessed, dirty and writable bits. *)
Record pte := mk_pte {
  pte_frame : Z;
  pte_present : bool;
  pte_accessed : bool;
  pte_dirty : bool;
  pte_writable : bool
}.

(** The part of [struct thread] used here: the page directory and the
    supplemental page table, keyed by user page. *)
Record thread := mk_thread {
  pagedir : gmap Z pte;
  sup_table : gmap Z sp_entry
}.

(** [struct frame_entry]; [frame_owner] is a thread identifier. *)
Record frame_entry := mk_frame_entry {
  fe_upage : Z;
  frame_owner : option Z;
  used : bool
}.

(** The globals of vm/frame.c and vm/swap.c, the threads, the running
    thread, physical memory by page, and the pages left in the user
    pool of the page allocator. *)
Record vm := mk_vm {
  threads : gmap Z thread;
  current : Z;
  frame_table : list frame_entry;
  table_size : Z;
  base_address : Z;
  clock_hand : Z;
  swap_map : list bool;
  swap_partition : gmap Z (list Z);
  memory : gmap Z (list Z);
  user_pool : list Z
}.

Definition zero_page : list Z := replicate 4096%nat 0.

Definition set_threads (v : vm) (ts : gmap Z thread) : vm :=
  mk_vm ts (current v) (frame_table v) (table_size v) (base_address v)
    (clock_hand v) (swap_map v) (swap_partition v) (memory v) (user_pool v).

Definition set_clock_hand (v : vm) (h : Z) : vm :=
  mk_vm (threads v) (current v) (frame_table v) (table_size v) (base_address v)
    h (swap_map v) (swap_partition v) (memory v) (user_pool v).

Definition set_frame_table (v : vm) (ft : list frame_entry) : vm :=
  mk_vm (threads v) (current v) ft (table_size v) (base_address v)
    (clock_hand v) (swap_map v) (swap_partition v) (memory v) (user_pool v).

Definition set_swap (v : vm) (sm : list bool) (sp : gmap Z (list Z)) : vm :=
  mk_vm (threads v) (current v) (frame_table v) (table_size v) (base_address v)
    (clock_hand v) sm sp (memory v) (user_pool v).

Definition set_memory (v : vm) (m : gmap Z (list Z)) : vm :=
  mk_vm (threads v) (current v) (frame_table v) (table_size v) (base_address v)
    (clock_hand v) (swap_map v) (swap_partition v) m (user_pool v).

Definition set_user_pool (v : vm) (l : list Z) : vm :=
  mk_vm (threads v) (current v) (frame_table v) (table_size v) (base_address v)
    (clock_hand v) (swap_map v) (swap_partition v) (memory v) l.

(** Modelled from the spec: [pagedir_is_accessed (pd, vpage)]. *)
Definition pagedir_is_accessed (pd : gmap Z pte) (vpage : Z) : bool :=
  match pd !! vpage with Some e => pte_accessed e | None => false end.

(** Modelled from the spec: [pagedir_set_accessed (pd, vpage, b)]. *)
Definition pagedir_set_accessed (pd : gmap Z pte) (vpage : Z) (b : bool) : gmap Z pte :=
  alter (fun e => mk_pte (pte_frame e) (pte_present e) b (pte_dirty e) (pte_writable e))
    vpage pd.

(** Modelled from the spec: [pagedir_is_dirty (pd, vpage)]. *)
Definition pagedir_is_dirty (pd : gmap Z pte) (vpage : Z) : bool :=
  match pd !! vpage with Some e => pte_dirty e | None => false end.

(** Modelled from the spec: [pagedir_set_dirty (pd, vpage, b)]. *)
Definition pagedir_set_dirty (pd : gmap Z pte) (vpage : Z) (b : bool) : gmap Z pte :=
  alter (fun e => mk_pte (pte_frame e) (pte_present e) (pte_accessed e) b (pte_writable e))
    vpage pd.

(** Modelled from the spec: [pagedir_clear_page (pd, vpage)] marks the
    page not present. *)
Definition pagedir_clear_page (pd : gmap Z pte) (vpage : Z) : gmap Z pte :=
  alter (fun e => mk_pte (pte_frame e) false (pte_accessed e) (pte_dirty e) (pte_writable e))
    vpage pd.

(** Modelled from the spec: [pagedir_get_page (pd, vpage)], null for a
    page that is not present. *)
Definition pagedir_get_page (pd : gmap Z pte) (vpage : Z) : option Z :=
  match pd !! vpage with
  | Some e => if pte_present e then Some (pte_frame e) else None
  | None => None
  end.

(** Modelled from the spec: [pagedir_set_page (pd, vpage, kpage, w)]. *)
Definition pagedir_set_page (pd : gmap Z pte) (vpage kpage : Z) (w : bool) : gmap Z pte :=
  <[vpage := mk_pte kpage true false false w]> pd.

(** Updating one thread. *)
Definition with_thread (v : vm) (tid : Z) (f : thread -> thread) : vm :=
  set_threads v (alter f tid (threads v)).

Definition set_pagedir (f : gmap Z pte -> gmap Z pte) (t : thread) : thread :=
  mk_thread (f (pagedir t)) (sup_table t).

Definition set_sup_table (f : gmap Z sp_entry -> gmap Z sp_entry) (t : thread) : thread :=
  mk_thread (pagedir t) (f (sup_table t)).

(** [page_find (thread, upage)] *)
Definition page_find (v : vm) (tid : Z) (up : Z) : option sp_entry :=
  t ← threads v !! tid; sup_table t !! up.

(** [page_replace (page, new_address, block)] on the entry of [up] in
    the table of [tid]. *)
Definition page_replace (v : vm) (tid up : Z) (new_address : Z) (b : block_type) : vm :=
  with_thread v tid (set_sup_table (alter (fun e =>
    mk_sp_entry (upage e) b new_address (file_addr e) (read_bytes e) (-1) (writable e)) up)).

(** [page_set_sector (page, index)] *)
Definition page_set_sector (v : vm) (tid up : Z) (index : Z) : vm :=
  with_thread v tid (set_sup_table (alter (fun e =>
    mk_sp_entry (upage e) BLOCK_SWAP 0 (file_addr e) (read_bytes e) index (writable e)) up)).

(** [page_set_writable (page, writable)] *)
Definition page_set_writable (v : vm) (tid up : Z) (w : bool) : vm :=
  with_thread v tid (set_sup_table (alter (fun e =>
    mk_sp_entry (upage e) (block e) (mem_addr e) (file_addr e) (read_bytes e)
      (swap_index e) w) up)).

(** [page_insert (upage, address, block)] for the running thread; the
    fields [malloc] leaves unset are 0.  [hash_insert] leaves the table
    as it is when the page has an entry already. *)
Definition page_insert (v : vm) (up address : Z) (b : block_type) : vm :=
  let e :=
    if decide (b = BLOCK_FILESYS) then mk_sp_entry up b 0 address 0 (-1) false
    else mk_sp_entry up b address 0 0 (-1) false in
  with_thread v (current v) (set_sup_table (fun m =>
    match m !! up with
    | Some _ => m
    | None => <[up := e]> m
    end)).

(** The sector-sized piece [i] of the page at [addr]. *)
Definition page_sector (m : gmap Z (list Z)) (addr : Z) (i : Z) : list Z :=
  take 512%nat (drop (idx (BLOCK_SECTOR_SIZE * i)) (default zero_page (m !! addr))).

(** The loop of [swap_write]: sectors [i], [i+1], ... of the page go to
    the slot [index]. *)
Fixpoint write_sectors (n : nat) (i : Z) (sp : gmap Z (list Z)) (m : gmap Z (list Z))
    (addr index : Z) : gmap Z (list Z) :=
  match n with
  | O => sp
  | S n' =>
      let sector_index := index * SECTORS_IN_PAGE + i in
      write_sectors n' (i + 1) (block_write sp sector_index (page_sector m addr i))
        m addr index
  end.

(** [swap_write (page)]; a full swap is a panic.  [first_free] is
    [bitmap_scan_and_flip (swap_map, 0, 1, false)]. *)
Definition swap_write (v : vm) (tid up : Z) (page : sp_entry) : option vm :=
  match first_free (swap_map v) 0 with
  | None => None
  | Some index =>
      let sp := write_sectors 8 0 (swap_partition v) (memory v) (mem_addr page) index in
      Some (page_set_sector (set_swap v (<[idx index := true]> (swap_map v)) sp)
              tid up index)
  end.

(** The loop of [swap_read]. *)
Fixpoint read_sectors (n : nat) (i : Z) (sp : gmap Z (list Z)) (index : Z) : list Z :=
  match n with
  | O => []
  | S n' => block_read sp (index * SECTORS_IN_PAGE + i) ++ read_sectors n' (i + 1) sp index
  end.

(** [swap_read (page, kpage)].  [swap_init] gives the map one bit for
    every eight sectors of the partition; for an index that is not a
    bit of the map the source reads sectors past the end of the
    partition and flips a bit outside the map: no result is given. *)
Definition swap_read (v : vm) (page : sp_entry) (kpage : Z) : option vm :=
  let index := uint32 (swap_index page) in
  match swap_map v !! idx index with
  | Some _ =>
      let v := set_memory v
                 (<[kpage := read_sectors 8 0 (swap_partition v) index]> (memory v)) in
      Some (set_swap v (alter negb (idx index) (swap_map v)) (swap_partition v))
  | None => None
  end.

(** [get_frame (kpage)]: the index of the frame; [None] is the null
    pointer.  The index [table_size] itself passes the test of the
    source, which then returns the word behind the [table_size]
    pointers of [frame_table]. *)
Definition get_frame (v : vm) (kpage : Z) : option Z :=
  let address := uint32 (kpage - base_address v) / PGSIZE in
  if table_size v <? address then None else Some address.

(** [frame_allocate (upage, kpage)].  At an index that is not a
    position of [frame_table] the source writes through the stray
    pointer [get_frame] returned: no result is given. *)
Definition frame_allocate (v : vm) (up kpage : Z) : option (vm * bool) :=
  match get_frame v kpage with
  | Some i =>
      match frame_table v !! idx i with
      | Some _ =>
          Some (set_frame_table v
                  (alter (fun fe => mk_frame_entry up (Some (current v)) (used fe)) (idx i)
                     (frame_table v)), true)
      | None => None
      end
  | None => Some (v, false)
  end.

(** [frame_deallocate (kpage)], with the same stray pointer at an index
    that is not a position of [frame_table]. *)
Definition frame_deallocate (v : vm) (kpage : Z) : option (vm * bool) :=
  match get_frame v kpage with
  | Some i =>
      match frame_table v !! idx i with
      | Some _ =>
          Some (set_frame_table v
                  (alter (fun fe => mk_frame_entry 0 None (used fe)) (idx i)
                     (frame_table v)), true)
      | None => None
      end
  | None => Some (v, false)
  end.

(** One pass of the [while] loop of [evict] on the frame under the
    hand, which holds the page [up] of [owner]. *)
Definition sweep_step (v : vm) (owner up : Z) : vm :=
  let v := with_thread v owner
             (set_pagedir (fun pd => pagedir_set_accessed pd up false)) in
  set_clock_hand v
    (if clock_hand v <? uint32 (table_size v - 1) then clock_hand v + 1 else 0).

(** The [while] loop of [evict]: the hand moves on, clearing accessed
    bits, until it rests on a frame whose page was not accessed.  A
    frame without owner is a null pointer followed. *)
Fixpoint clock_sweep (fuel : nat) (v : vm) : option vm :=
  frame ← frame_table v !! idx (clock_hand v);
  owner ← frame_owner frame;
  t ← threads v !! owner;
  if pagedir_is_accessed (pagedir t) (fe_upage frame) then
    match fuel with
    | O => None
    | S fuel' => clock_sweep fuel' (sweep_step v owner (fe_upage frame))
    end
  else Some v.

(** [evict ()]: the state afterwards and the page returned.  Every
    pass of the loop clears an accessed bit of a frame, so one more
    pass than there are frames is enough. *)
Definition evict (v : vm) : option (vm * Z) :=
  v ← clock_sweep (S (length (frame_table v))) v;
  frame ← frame_table v !! idx (clock_hand v);
  owner ← frame_owner frame;
  t ← threads v !! owner;
  let kpage := uint32 (clock_hand v * PGSIZE + base_address v) in
  page ← page_find v owner (fe_upage frame);
  v ← (if pagedir_is_dirty (pagedir t) (fe_upage frame)
       then swap_write v owner (fe_upage frame) page
       else Some (page_replace v owner (fe_upage frame) 0 BLOCK_FILESYS));
  let v := with_thread v owner (set_pagedir (fun pd => pagedir_clear_page pd (upage page))) in
  v ← fst <$> frame_deallocate v kpage;
  let v := set_memory v (<[kpage := zero_page]> (memory v)) in
  Some (v, kpage).

(** The accessed and dirty bits of the page a frame holds, in the page
    directory of its owner. *)
Definition frame_accessed (v : vm) (fe : frame_entry) : bool :=
  match frame_owner fe with
  | Some o =>
      match threads v !! o with
      | Some t => pagedir_is_accessed (pagedir t) (fe_upage fe)
      | None => false
      end
  | None => false
  end.

Definition frame_dirty (v : vm) (fe : frame_entry) : bool :=
  match frame_owner fe with
  | Some o =>
      match threads v !! o with
      | Some t => pagedir_is_dirty (pagedir t) (fe_upage fe)
      | None => false
      end
  | None => false
  end.

Definition count_accessed (v : vm) : nat :=
  length (filter (fun fe => frame_accessed v fe = true) (frame_table v)).

(** The frame table when the user pool is exhausted: every frame holds
    a page of a thread whose supplemental entry points back at the
    frame; the hand is on a frame; user memory lies in the 32-bit
    address space. *)
Definition wf (v : vm) : Prop :=
  table_size v = Z.of_nat (length (frame_table v))
  /\ 0 <= clock_hand v < table_size v
  /\ 0 <= base_address v
  /\ base_address v + table_size v * PGSIZE <= 4294967296
  /\ forall (i : nat) fe, frame_table v !! i = Some fe ->
       exists o t page,
         frame_owner fe = Some o /\ threads v !! o = Some t
         /\ sup_table t !! fe_upage fe = Some page
         /\ upage page = fe_upage fe
         /\ mem_addr page = base_address v + Z.of_nat i * PGSIZE.

Section WithMachine.

(** The start of kernel virtual memory (threads/vaddr.h), the distance
    below the stack pointer a push may touch ([PUSH_BYTES], 32 in the
    spec), and the bytes [file_read_at] yields for a file and a
    length. *)
Variable PHYS_BASE : Z.
Variable PUSH_BYTES : Z.
Variable file_bytes : Z -> Z -> list Z.

(** Modelled from the spec: [is_user_vaddr] of threads/vaddr.h. *)
Definition is_user_vaddr (a : Z) : bool := a <? PHYS_BASE.

(** Modelled from the spec: [palloc_get_page (PAL_USER | PAL_ZERO)] of
    the page allocator (threads/palloc.c): a zeroed page of the user
    pool, or null. *)
Definition palloc_get_page (v : vm) : vm * Z :=
  match user_pool v with
  | kpage :: pool =>
      (set_user_pool (set_memory v (<[kpage := zero_page]> (memory v))) pool, kpage)
  | [] => (v, 0)
  end.

(** Modelled from the spec: [palloc_free_page (kpage)]. *)
Definition palloc_free_page (v : vm) (kpage : Z) : vm :=
  set_user_pool v (kpage :: user_pool v).

(** Modelled from the spec: [install_page (upage, kpage, writable)] of
    userprog/process.c: the mapping is added to the page directory of
    the running thread unless the page is mapped already, and the frame
    is recorded for it by [frame_allocate]. *)
Definition install_page (v : vm) (up kpage : Z) (w : bool) : option (vm * bool) :=
  match threads v !! current v with
  | Some t =>
      match pagedir_get_page (pagedir t) up with
      | Some _ => Some (v, false)
      | None =>
          let v := with_thread v (current v)
                     (set_pagedir (fun pd => pagedir_set_page pd up kpage w)) in
          frame_allocate v up kpage
      end
  | None => Some (v, false)
  end.

(** [grow_stack (fault_addr, page, upage, kpage)]; [page_fault] calls
    it only for a page without supplemental entry, so that the entry
    [page_set_writable] changes is the one [page_insert] added. *)
Definition grow_stack (v : vm) (fault_addr up kpage : Z) : result (vm * bool) :=
  if fault_addr <? uint32 (PHYS_BASE - STACK_LIMIT) then Exit (-1)
  else
    match install_page v up kpage true with
    | Some (v, success) =>
        let v := with_thread v (current v)
                   (set_pagedir (fun pd => pagedir_set_dirty pd up true)) in
        if success then
          let v := page_insert v up kpage BLOCK_KERNEL in
          Ok (page_set_writable v (current v) up true, true)
        else Ok (v, false)
    | None => Panic
    end.

(** [read_filesys (page, kpage)] *)
Definition read_filesys (v : vm) (page : sp_entry) (kpage : Z) : vm :=
  let bs := file_bytes (file_addr page) (read_bytes page) in
  let old := default zero_page (memory v !! kpage) in
  set_memory v (<[kpage := bs ++ drop (length bs) old]> (memory v)).

(** [page_fault (f)], from the read of the fault address on: [esp] and
    [error_code] are those of the interrupt frame. *)
Definition page_fault (v : vm) (esp error_code fault_addr : Z) : result vm :=
  let not_present := Z.land error_code PF_P =? 0 in
  let write := negb (Z.land error_code PF_W =? 0) in
  let user := negb (Z.land error_code PF_U =? 0) in
  let up := fault_addr - fault_addr mod PGSIZE in
  let page := page_find v (current v) up in
  let stack_growth :=
    (uint32 (esp - PUSH_BYTES) <=? fault_addr) && negb (bool_decide (is_Some page)) in
  if negb not_present || negb (is_user_vaddr up)
     || (negb (bool_decide (is_Some page)) && negb stack_growth)
  then Exit (-1)
  else
    let '(v, kpage) := palloc_get_page v in
    r ← (if kpage =? 0 then
           match evict v with Some r => Ok r | None => Panic end
         else Ok (v, kpage));
    let '(v, kpage) := r in
    r ← (if stack_growth then grow_stack v fault_addr up kpage
         else
           match page with
           | Some pg =>
               r ← (if decide (block pg = BLOCK_FILESYS)
                    then Ok (read_filesys v pg kpage, false)
                    else if decide (block pg = BLOCK_SWAP)
                    then match swap_read v pg kpage with
                         | Some v => Ok (v, true)
                         | None => Panic
                         end
                    else Ok (v, false));
               let '(v, swapped) := r in
               match install_page v up kpage (writable pg) with
               | Some (v, success) =>
                   let v := if success then page_replace v (current v) up kpage BLOCK_KERNEL
                            else v in
                   let v := if swapped : bool then
                              with_thread v (current v)
                                (set_pagedir (fun pd => pagedir_set_dirty pd up true))
                            else v in
                   Ok (v, success)
               | None => Panic
               end
           | None => Panic
           end);
    let '(v, success) := r in
    if success : bool then Ok v else Exit (-1).

End WithMachine.

End VM.

(** ** Concrete machines

    The states the examples below are run on. *)

Module Examples.
Import Inode.

(** A bitmap whose first [used] bits are set, followed by [free] clear
    bits. *)
Definition bitmap (used free : nat) : list bool :=
  replicate used true ++ replicate free false.

(** The device after [inode_create]. *)
Definition created (f : fs) (sec len parent is_dir : Z) : fs :=
  match inode_create f sec len parent is_dir with
  | Some (f', _) => f'
  | None => f
  end.

(** A sector taken for an inode, as [filesys_create] does before
    [inode_create]. *)
Definition reserve (f : fs) : fs * Z :=
  let '(fm, s, _) := free_map_allocate (free_map f) 0 in (mk_fs (disk f) fm, s).

(** A formatted device: sector 0 holds the free map, sector 1 the inode
    of the root directory, which has room for 16 entries; [free]
    sectors beyond them. *)
Definition formatted (free : nat) : fs :=
  created (mk_fs ∅ (bitmap 2 free)) 1 320 0 1.

(** A file of 138 sectors, all index entries of the inode and of the
    first indirect block in use, on a device with one free sector left;
    its inode is in sector 3 and open. *)
Definition fs_138 : fs := created (reserve (formatted 142)).1 3 70656 1 0.
Definition st_138 : state := (inode_open (mk_state fs_138 ∅) 3).1.
Definition buf_138 : list Z := [1; 0; 0; 0] ++ replicate 508%nat 7.

(** The state after 512 bytes were written at the end of that file. *)
Definition st_138_written : state :=
  match write_at st_138 3 buf_138 512 70656 with
  | Some (st, _) => st
  | None => st_138
  end.

(** The same file and the same write on a device with three free
    sectors left. *)
Definition st_138_roomy : state :=
  (inode_open (mk_state (created (reserve (formatted 144)).1 3 70656 1 0) ∅) 3).1.

Definition st_138_roomy_written : state :=
  match write_at st_138_roomy 3 buf_138 512 70656 with
  | Some (st, _) => st
  | None => st_138_roomy
  end.

(** A file of one byte on a device with 139 free sectors left, and the
    state after one byte was written at offset 70656. *)
Definition fs_1 : fs := created (reserve (formatted 142)).1 3 1 1 0.
Definition st_1 : state := (inode_open (mk_state fs_1 ∅) 3).1.

Definition st_1_written : state :=
  match write_at st_1 3 [1] 1 70656 with
  | Some (st, _) => st
  | None => st_1
  end.

(** The same file and the same write with 141 free sectors left. *)
Definition st_1_roomy : state :=
  (inode_open (mk_state (created (reserve (formatted 144)).1 3 1 1 0) ∅) 3).1.

Definition st_1_roomy_written : state :=
  match write_at st_1_roomy 3 [1] 1 70656 with
  | Some (st, _) => st
  | None => st_1_roomy
  end.

(** The inode a pointer stands for. *)
Definition inode_at (st : state) (p : Z) : inode :=
  default (mk_inode 0 0 false 0 zero_inode_disk) (open_inodes st !! p).

(** Two writes of 512 bytes at offset 70656: [buf_138], then zeros. *)
Definition two_writes : list op :=
  [OpWrite 3 buf_138 512 70656; OpWrite 3 zeros 512 70656].

(** The file of 138 sectors after the two writes, with one free sector
    and with three. *)
Definition st_138_twice : state := default st_138 (run st_138 two_writes).

Definition st_138_roomy_twice : state :=
  default st_138_roomy (run st_138_roomy two_writes).

(** The root directory with the entry "e" for an empty directory in
    sector 3, the root open once. *)
Definition entry_bytes (s : Z) (nm : list Z) : list Z :=
  Dir.dir_entry_to_bytes (Dir.mk_dir_entry s nm true).

Definition st_mkdir : state :=
  let '(f, se) := reserve (formatted 30) in
  let f := created f se 0 1 1 in
  let '(st, root) := inode_open (mk_state f ∅) 1 in
  match write_at st root (entry_bytes se [101]) 20 0 with
  | Some (st, _) => st
  | None => st
  end.

(** The same after a file "f" was created in "e". *)
Definition st_nonempty : state :=
  let '(f, sf) := reserve (dev st_mkdir) in
  let f := created f sf 0 3 0 in
  let '(st, e) := inode_open (mk_state f (open_inodes st_mkdir)) 3 in
  match write_at st e (entry_bytes sf [102]) 20 0 with
  | Some (st, _) => default st (inode_close st e)
  | None => st
  end.

(** A process with a table of four descriptors after two calls of
    [open]. *)
Definition some_file (i : Z) : Sys.file := Sys.mk_file i 0 false.

Definition thread_two_open : Sys.thread :=
  let t := Sys.mk_thread (replicate 4%nat None) 2 in
  let t := (Sys.init_file 4 t (some_file 5)).1 in
  (Sys.init_file 4 t (some_file 6)).1.

(** User memory: the three arguments of [read] and [write] on the stack
    at 4096 and [n + 1] mapped bytes at [buffer]. *)
Definition user_memory (fd buffer size : Z) (bytes : list Z) : gmap Z Z :=
  Sys.store_bytes
    (Sys.store_bytes ∅ 4096 (le32 (uint32 fd) ++ le32 buffer ++ le32 (uint32 size)))
    buffer bytes.

(** A process that has opened the root directory of [st_mkdir] as
    descriptor 2 and passes 20 bytes to [write]. *)
Definition bogus_entry : list Z := entry_bytes 1 [120].

Definition sys_dir_fd : Sys.sys :=
  Sys.mk_sys (inode_open st_mkdir 1).1
    (Sys.mk_thread [None; None; Some (some_file 1); None] 3)
    (user_memory 2 8192 20 (bogus_entry ++ [0])) [] [] 0.

Definition sys_dir_fd_written : Sys.sys :=
  match Sys.write_call 128 3221225472 sys_dir_fd 4096 with
  | Ok s => s
  | _ => sys_dir_fd
  end.

(** A process that calls [write] with descriptor 1 and three bytes. *)
Definition sys_stdout : Sys.sys :=
  Sys.mk_sys (mk_state (formatted 30) ∅)
    (Sys.mk_thread [None; None; None; None] 2)
    (user_memory 1 8192 3 [104; 105; 10; 0]) [] [] 0.

(** A machine of two frames, both holding pages of thread 7: page
    134512640 in the first, accessed, page 134516736 in the second, not
    accessed and dirty.  Slot 0 of the swap is taken. *)
Definition page_of (n : Z) : list Z := replicate 4096%nat n.

Definition vm_two_frames : VM.vm :=
  let pd : gmap Z VM.pte :=
    <[134512640 := VM.mk_pte 268435456 true true false true]>
      (<[134516736 := VM.mk_pte 268439552 true false true true]> ∅) in
  let spt : gmap Z VM.sp_entry :=
    <[134512640 := VM.mk_sp_entry 134512640 VM.BLOCK_KERNEL 268435456 0 0 (-1) true]>
      (<[134516736 := VM.mk_sp_entry 134516736 VM.BLOCK_KERNEL 268439552 0 0 (-1) true]> ∅) in
  VM.mk_vm (<[7 := VM.mk_thread pd spt]> ∅) 7
    [VM.mk_frame_entry 134512640 (Some 7) true;
     VM.mk_frame_entry 134516736 (Some 7) true]
    2 268435456 0 [true; false; false] ∅
    (<[268435456 := page_of 1]> (<[268439552 := page_of 2]> ∅)) [].

(** The state [st_nonempty] with the directory "e" opened. *)
Definition st_e_open : state := (inode_open st_nonempty 3).1.

(** A process with a table of four descriptors after one call of
    [open]. *)
Definition thread_one_open : Sys.thread :=
  (Sys.init_file 4 (Sys.mk_thread (replicate 4%nat None) 2) (some_file 5)).1.



(** A machine of two free frames, both in the user pool, and a thread
    without pages. *)
Definition vm_fresh : VM.vm :=
  VM.mk_vm (<[7 := VM.mk_thread ∅ ∅]> ∅) 7
    [VM.mk_frame_entry 0 None false; VM.mk_frame_entry 0 None false]
    2 268435456 0 [false; false; false] ∅ ∅ [268435456; 268439552].

(** The machine [vm_two_frames] after [evict], the frame it gave back
    in the user pool. *)
Definition vm_evicted : VM.vm :=
  match VM.evict vm_two_frames with
  | Some (v, kpage) => VM.set_user_pool v [kpage]
  | None => vm_two_frames
  end.

End Examples.

(** The claim on descriptors outside the table, as the spec states it,
    for an argument that passes [check_pointer] and is mapped:
    [filesize], [seek], [tell] and [close] end the process with status
    -1, [read] and [write] return -1. *)
Definition invalid_fd_claim (MAX_FILES PHYS_BASE : Z) : Prop :=
  forall (s : Sys.sys) (esp : Z),
    Sys.check_pointer PHYS_BASE s esp = true ->
    Sys.word_mapped (Sys.umem s) esp ->
    let fd := int32 (Sys.load32 (Sys.umem s) esp) in
    ~ (2 <= fd < MAX_FILES) ->
    Sys.filesize_call MAX_FILES PHYS_BASE s esp = Exit (-1)
    /\ Sys.seek_call MAX_FILES PHYS_BASE s esp = Exit (-1)
    /\ Sys.tell_call MAX_FILES PHYS_BASE s esp = Exit (-1)
    /\ Sys.close_call MAX_FILES PHYS_BASE s esp = Exit (-1)
    /\ (exists s', Sys.read_call MAX_FILES PHYS_BASE s esp = Ok s' /\ Sys.eax s' = -1)
    /\ (exists s', Sys.write_call MAX_FILES PHYS_BASE s esp = Ok s' /\ Sys.eax s' = -1).

(** * Properties *)

Module InodeFacts.
Import Inode.

(** [extend] fills the index and leaves the other fields alone. *)
Lemma extend_length (f : fs) (di : inode_disk) (total start : Z) :
  length (extend f di total start).2 = length di.
Proof.
  unfold extend.
  repeat (match goal with
          | |- context [let '(_, _) := ?x in _] => destruct x
          | |- context [if ?b then _ else _] => destruct b
          end; simpl); reflexivity.
Qed.

(** What one call of [inode_write_at] does to the length. *)
Lemma inode_write_at_length (f : fs) (ino : inode) (buffer : list Z) (size offset : Z) :
  let ino' := (inode_write_at f ino buffer size offset).1.2 in
  inode_length ino' = inode_length ino
  \/ (inode_length ino < int32 (offset + size)
      /\ inode_length ino' = int32 (offset + size)).
Proof.
  unfold inode_write_at, inode_length.
  destruct (negb (deny_write_cnt ino =? 0)); [left; reflexivity|].
  destruct (_ && _); [left; reflexivity|].
  destruct (bytes_to_sectors (length (data ino)) <? _) eqn:Hgrow.
  - pose proof (extend_length f (data ino) (bytes_to_sectors (int32 (offset + size)))
                  (bytes_to_sectors (length (data ino)))) as Hext.
    destruct (extend _ _ _ _) as [f1 di1]. simpl in Hext.
    destruct (write_loop _ _ _ _ _ _ _ _) as [d n].
    destruct (length (data ino) <? int32 (offset + size)) eqn:Hlt; simpl.
    + right. split; [lia | reflexivity].
    + left. exact Hext.
  - destruct (write_loop _ _ _ _ _ _ _ _) as [d n].
    destruct (length (data ino) <? int32 (offset + size)) eqn:Hlt; simpl.
    + right. split; [lia | reflexivity].
    + left. reflexivity.
Qed.

Lemma step_length (st st' : state) (o : op) (p : Z) (ino : inode) :
  step st o = Some st' ->
  open_inodes st !! p = Some ino ->
  exists ino', open_inodes st' !! p = Some ino'
               /\ inode_length ino <= inode_length ino'.
Proof.
  intros Hstep Hp. destruct o as [sec len parent is_dir | q size offset | q buffer size offset];
    simpl in Hstep.
  - destruct (inode_create _ _ _ _ _) as [[f b]|]; [|discriminate].
    injection Hstep as <-. exists ino. simpl. split; [exact Hp | lia].
  - destruct (read_at _ _ _ _); [|discriminate].
    injection Hstep as <-. exists ino. split; [exact Hp | lia].
  - unfold write_at in Hstep.
    destruct (open_inodes st !! q) as [inoq|] eqn:Hq; [|discriminate].
    pose proof (inode_write_at_length (dev st) inoq buffer size offset) as Hlen.
    destruct (inode_write_at _ _ _ _ _) as [[f1 ino1] n]. simpl in Hlen, Hstep.
    injection Hstep as <-. simpl.
    destruct (decide (q = p)) as [->|Hne].
    + rewrite lookup_insert_eq. exists ino1. split; [reflexivity|].
      rewrite Hp in Hq. injection Hq as <-. lia.
    + rewrite lookup_insert_ne by exact Hne. exists ino. split; [exact Hp | lia].
Qed.

(** The copy of the length an open inode holds in memory never
    decreases across a history. *)
Lemma run_length (ops : list op) (st st' : state) (p : Z) (ino : inode) :
  run st ops = Some st' ->
  open_inodes st !! p = Some ino ->
  exists ino', open_inodes st' !! p = Some ino'
               /\ inode_length ino <= inode_length ino'.
Proof.
  revert st ino. induction ops as [|o ops IH]; intros st ino Hrun Hp; simpl in Hrun.
  - injection Hrun as <-. exists ino. split; [exact Hp | lia].
  - destruct (step st o) as [st1|] eqn:Hstep; [|discriminate].
    destruct (step_length _ _ _ _ _ Hstep Hp) as (ino1 & Hp1 & Hle1).
    destruct (IH _ _ Hrun Hp1) as (ino' & Hp' & Hle').
    exists ino'. split; [exact Hp' | lia].
Qed.

(** The fuel of the two copy loops is never used up: more of it
    changes nothing. *)
Lemma read_loop_fuel (n k : nat) d ino buffer size ofs bytes_read :
  (Z.to_nat size <= n)%nat ->
  read_loop (n + k) d ino buffer size ofs bytes_read
  = read_loop n d ino buffer size ofs bytes_read.
Proof.
  revert buffer size ofs bytes_read.
  induction n as [|n IH]; intros buffer size ofs bytes_read Hn.
  - destruct k as [|k]; [reflexivity|]. simpl.
    destruct (0 <? size) eqn:E; [lia | reflexivity].
  - simpl. destruct (0 <? size) eqn:E; [|reflexivity].
    match goal with |- context [if ?c <=? 0 then _ else _] => destruct (c <=? 0) eqn:Hc end;
      [reflexivity|].
    apply IH. lia.
Qed.

Lemma write_loop_fuel (n k : nat) d ino buffer file_size size ofs bytes_written :
  (Z.to_nat size <= n)%nat ->
  write_loop (n + k) d ino buffer file_size size ofs bytes_written
  = write_loop n d ino buffer file_size size ofs bytes_written.
Proof.
  revert d size ofs bytes_written.
  induction n as [|n IH]; intros d size ofs bytes_written Hn.
  - destruct k as [|k]; [reflexivity|]. simpl.
    destruct (0 <? size) eqn:E; [lia | reflexivity].
  - simpl. destruct (0 <? size) eqn:E; [|reflexivity].
    match goal with |- context [if ?c <=? 0 then _ else _] => destruct (c <=? 0) eqn:Hc end;
      [reflexivity|].
    apply IH. lia.
Qed.

(** C1 (the code departs from the claim). A file of 138 sectors on a
    device with one free sector: [check_length] counts the one data
    sector of the write and not the two index blocks it needs, the
    allocations [extend] makes after the first fail unnoticed, and the
    sector written is sector 0, which the index then reads as an
    indirect block.  The write of 512 bytes returns 512; the read at
    the same offset returns 512 bytes that are not those written but
    the sector of the root directory's inode.  With three free sectors
    the same write is read back as written. *)
Theorem write_then_read_differs :
  free_map_count (free_map (dev Examples.st_138)) = 1
  /\ write_at Examples.st_138 3 Examples.buf_138 512 70656
     = Some (Examples.st_138_written, 512)
  /\ read_at Examples.st_138_written 3 512 70656
     = Some (512, block_read (disk (dev Examples.st_138)) 1)
  /\ block_read (disk (dev Examples.st_138)) 1 <> Examples.buf_138
  /\ free_map_count (free_map (dev Examples.st_138_roomy)) = 3
  /\ write_at Examples.st_138_roomy 3 Examples.buf_138 512 70656
     = Some (Examples.st_138_roomy_written, 512)
  /\ read_at Examples.st_138_roomy_written 3 512 70656 = Some (512, Examples.buf_138).
Proof.
  split; [vm_compute; reflexivity|].
  split; [vm_compute; reflexivity|].
  split; [vm_compute; reflexivity|].
  split; [vm_compute; discriminate|].
  split; [vm_compute; reflexivity|].
  split; [vm_compute; reflexivity|].
  vm_compute; reflexivity.
Qed.

(** C2 (the code departs from the claim). A file of one byte on a
    device with 139 free sectors; one byte is written at offset 70656,
    within the capacity of the index.  [check_length] asks for 139
    sectors where [extend] needs 141.  The write returns 1, not 0, and
    the length moves from 1 to 70657, but the write is not complete: the
    byte is not in the file, whose last index entry now names sector 1,
    the inode of the root directory.  With 141 free sectors the same
    write is complete. *)
Theorem growing_write_incomplete :
  70656 + 1 <= (10 + 128 + 16384) * 512
  /\ free_map_count (free_map (dev Examples.st_1)) = 139
  /\ inode_length (Examples.inode_at Examples.st_1 3) = 1
  /\ write_at Examples.st_1 3 [1] 1 70656 = Some (Examples.st_1_written, 1)
  /\ inode_length (Examples.inode_at Examples.st_1_written 3) = 70657
  /\ byte_to_sector (disk (dev Examples.st_1_written))
       (data (Examples.inode_at Examples.st_1_written 3)) 70656 70657 = 1
  /\ read_at Examples.st_1_written 3 1 70656 = Some (1, [2])
  /\ free_map_count (free_map (dev Examples.st_1_roomy)) = 141
  /\ write_at Examples.st_1_roomy 3 [1] 1 70656 = Some (Examples.st_1_roomy_written, 1)
  /\ read_at Examples.st_1_roomy_written 3 1 70656 = Some (1, [1]).
Proof.
  split; [lia|].
  do 8 (split; [vm_compute; reflexivity|]).
  vm_compute; reflexivity.
Qed.

(** C3 (the code departs from the claim). The file of 138 sectors of
    C1, on the device with one free sector, is written twice at offset
    70656, within its length after the first write.  The first write
    leaves [buf_138] in sector 0, where the index of the file now
    leads; its first word, 1, is what the second write takes for the
    data sector, so the 512 zeros go to sector 1, the on-disk inode of
    the root directory.  The length that inode publishes falls from 320
    to 0, and [inode_open] of the root directory now yields length 0;
    no call named the root directory.  The length of the file written
    went from 70656 to 71168, in memory and on disk.  With three free
    sectors the same two writes leave the root directory at 320. *)
Theorem published_length_decreases :
  free_map_count (free_map (dev Examples.st_138)) = 1
  /\ published_length (disk (dev Examples.st_138)) 1 = 320
  /\ published_length (disk (dev Examples.st_138)) 3 = 70656
  /\ run Examples.st_138 Examples.two_writes = Some Examples.st_138_twice
  /\ published_length (disk (dev Examples.st_138_twice)) 1 = 0
  /\ inode_length (Examples.inode_at (inode_open Examples.st_138_twice 1).1 1) = 0
  /\ published_length (disk (dev Examples.st_138_twice)) 3 = 71168
  /\ inode_length (Examples.inode_at Examples.st_138_twice 3) = 71168
  /\ free_map_count (free_map (dev Examples.st_138_roomy)) = 3
  /\ run Examples.st_138_roomy Examples.two_writes = Some Examples.st_138_roomy_twice
  /\ published_length (disk (dev Examples.st_138_roomy_twice)) 1 = 320.
Proof.
  do 10 (split; [vm_compute; reflexivity|]).
  vm_compute; reflexivity.
Qed.

End InodeFacts.

Module DirFacts.
Import Inode Dir.

(** A read that starts at or after the end of the inode copies nothing. *)
Lemma read_loop_past_end (n : nat) d ino buffer size ofs bytes_read :
  inode_length ino <= ofs -> 0 <= ofs ->
  read_loop n d ino buffer size ofs bytes_read = (bytes_read, buffer).
Proof.
  intros Hlen Hofs. destruct n as [|n]; [reflexivity|]. simpl.
  destruct (0 <? size) eqn:Hsize; [|reflexivity].
  assert (Hrem : 0 <= Z.rem ofs BLOCK_SECTOR_SIZE < BLOCK_SECTOR_SIZE)
    by (apply Z.rem_bound_pos; [exact Hofs | reflexivity]).
  set (inode_left := inode_length ino - ofs).
  set (sector_left := BLOCK_SECTOR_SIZE - Z.rem ofs BLOCK_SECTOR_SIZE).
  assert (Hmin : (if inode_left <? sector_left then inode_left else sector_left) <= 0).
  { destruct (inode_left <? sector_left) eqn:E; subst inode_left sector_left; lia. }
  set (min_left := if inode_left <? sector_left then inode_left else sector_left) in *.
  assert (Hchunk : ((if size <? min_left then size else min_left) <=? 0) = true).
  { destruct (size <? min_left) eqn:E; lia. }
  rewrite Hchunk. reflexivity.
Qed.

Lemma read_entry_past_end d ino ofs :
  inode_length ino <= ofs -> 0 <= ofs -> read_entry d ino ofs = None.
Proof.
  intros Hlen Hofs. unfold read_entry, inode_read_at.
  rewrite read_loop_past_end by assumption. reflexivity.
Qed.

(** The fuel of the directory scans is never used up: after the entries
    listed the next read is short. *)
Lemma entries_from_complete (fuel : nat) d ino ofs :
  0 <= ofs -> inode_length ino - ofs < Z.of_nat fuel ->
  read_entry d ino
    (ofs + entry_size * Z.of_nat (Datatypes.length (entries_from fuel d ino ofs))) = None.
Proof.
  revert ofs. induction fuel as [|fuel IH]; intros ofs Hofs Hfuel; simpl.
  - rewrite Z.mul_0_r, Z.add_0_r. apply read_entry_past_end; lia.
  - destruct (read_entry d ino ofs) as [e|] eqn:He; simpl.
    + unfold entry_size in *.
      specialize (IH (ofs + 20) ltac:(lia) ltac:(lia)).
      set (n := Datatypes.length (entries_from fuel d ino (ofs + 20))) in *.
      replace (ofs + 20 * Z.of_nat (S n)) with (ofs + 20 + 20 * Z.of_nat n) by lia.
      exact IH.
    + rewrite Z.mul_0_r, Z.add_0_r. exact He.
Qed.

Lemma dir_entries_complete d ino :
  read_entry d ino (entry_size * Z.of_nat (Datatypes.length (dir_entries d ino))) = None.
Proof.
  pose proof (entries_from_complete (scan_fuel ino) d ino 0) as H.
  rewrite Z.add_0_l in H. apply H; [lia|]. unfold scan_fuel. lia.
Qed.

(** [dir_readdir] finds a name exactly when some entry from its
    position on is in use. *)
Lemma readdir_loop_none (fuel : nat) d ino ofs :
  (readdir_loop fuel d ino ofs).2 = None <->
  filter (fun e => in_use e = true) (entries_from fuel d ino ofs) = [].
Proof.
  revert ofs. induction fuel as [|fuel IH]; intros ofs; simpl; [tauto|].
  destruct (read_entry d ino ofs) as [e|]; simpl; [|tauto].
  rewrite filter_cons. destruct (in_use e) eqn:Hin; simpl.
  - destruct (decide (true = true)); [|congruence]. split; discriminate.
  - destruct (decide (false = true)); [discriminate|]. apply IH.
Qed.

Lemma set_open_cnt_same ino : set_open_cnt ino (open_cnt ino) = ino.
Proof. destruct ino; reflexivity. Qed.

Lemma wf_inode_open st s : wf st -> wf (inode_open st s).1.
Proof.
  intros Hwf p ino. unfold inode_open.
  destruct (open_inodes st !! s) as [ino0|] eqn:Hs; simpl.
  - destruct (decide (s = p)) as [->|Hne].
    + rewrite lookup_insert_eq. intros [= <-]. simpl.
      destruct (Hwf _ _ Hs). split; [assumption | lia].
    + rewrite lookup_insert_ne by exact Hne. apply Hwf.
  - destruct (decide (s = p)) as [->|Hne].
    + rewrite lookup_insert_eq. intros [= <-]. simpl. split; [reflexivity | lia].
    + rewrite lookup_insert_ne by exact Hne. apply Hwf.
Qed.

Lemma inode_open_lookup st s :
  exists ino, open_inodes (inode_open st s).1 !! s = Some ino.
Proof.
  unfold inode_open. destruct (open_inodes st !! s); simpl;
    rewrite lookup_insert_eq; eauto.
Qed.

Lemma inode_open_ptr st s : (inode_open st s).2 = s.
Proof. unfold inode_open. destruct (open_inodes st !! s); reflexivity. Qed.

Lemma inode_open_dev st s : dev (inode_open st s).1 = dev st.
Proof. unfold inode_open. destruct (open_inodes st !! s); reflexivity. Qed.

(** Closing what was just opened restores the state. *)
Lemma inode_open_close st s :
  wf st -> inode_close (inode_open st s).1 s = Some st.
Proof.
  intros Hwf. unfold inode_open, inode_close.
  destruct st as [f m]. simpl in *.
  destruct (m !! s) as [ino0|] eqn:Hs; simpl; rewrite lookup_insert_eq; simpl.
  - destruct (Hwf _ _ Hs) as [_ Hcnt].
    replace (open_cnt ino0 + 1 - 1) with (open_cnt ino0) by lia.
    destruct (open_cnt ino0 =? 0) eqn:E; [lia|].
    rewrite insert_insert_eq. f_equal. f_equal.
    apply insert_id. rewrite Hs. f_equal. destruct ino0; reflexivity.
  - rewrite delete_insert_eq. f_equal. f_equal. apply delete_id. exact Hs.
Qed.

Lemma release_data_disk f ino : disk (release_data f ino) = disk f.
Proof.
  unfold release_data.
  repeat (match goal with
          | |- context [let '(_, _) := ?x in _] => destruct x
          | |- context [if ?b then _ else _] => destruct b
          end; simpl); reflexivity.
Qed.

(** An open and a close of different inodes commute. *)
Lemma inode_close_open_comm st t q :
  q <> t ->
  inode_close (inode_open st t).1 q
  = (fun st' => (inode_open st' t).1) <$> inode_close st q.
Proof.
  intros Hne. unfold inode_open, inode_close. destruct st as [f m]. simpl.
  destruct (m !! t) as [inot|] eqn:Ht; simpl;
    rewrite lookup_insert_ne by congruence;
    (destruct (m !! q) as [inoq|] eqn:Hq; simpl; [|reflexivity]);
    destruct (open_cnt inoq - 1 =? 0); simpl;
    rewrite ?lookup_delete_ne, ?lookup_insert_ne, ?Ht by congruence; simpl;
    try (destruct (removed inoq); simpl; rewrite ?release_data_disk);
    rewrite ?delete_insert_ne by congruence; try reflexivity;
    f_equal; f_equal; apply insert_insert_ne; congruence.
Qed.

Section WithRoot.

Variable ROOT_DIR_SECTOR : Z.

Lemma inode_open_keeps st s p ino :
  open_inodes st !! p = Some ino ->
  exists ino', open_inodes (inode_open st s).1 !! p = Some ino'.
Proof.
  intros Hp. destruct (decide (s = p)) as [->|Hne].
  - apply inode_open_lookup.
  - exists ino. unfold inode_open. destruct (open_inodes st !! s); simpl;
      rewrite lookup_insert_ne by exact Hne; exact Hp.
Qed.

(** [dir_can_remove] on a well-formed state: the state comes back as it
    was, and the answer is read off the inode. *)
Lemma dir_can_remove_eval st p ino :
  wf st -> open_inodes st !! p = Some ino ->
  dir_can_remove ROOT_DIR_SECTOR st p
  = Some (st,
          negb (bool_decide (is_Some (readdir_loop (scan_fuel ino) (disk (dev st)) ino 0).2)
                || (p =? ROOT_DIR_SECTOR))
          && negb (1 <? open_cnt ino)).
Proof.
  intros Hwf Hp. unfold dir_can_remove, dir_open_root.
  pose proof (inode_open_ptr st ROOT_DIR_SECTOR) as Hptr.
  pose proof (wf_inode_open st ROOT_DIR_SECTOR Hwf) as Hwf2.
  pose proof (inode_open_lookup st ROOT_DIR_SECTOR) as [rino Hr].
  pose proof (inode_open_keeps st ROOT_DIR_SECTOR p ino Hp) as [ino2 Hp2].
  pose proof (inode_open_close st ROOT_DIR_SECTOR Hwf) as Hclose.
  destruct (inode_open st ROOT_DIR_SECTOR) as [st2 rp]. cbn [fst snd] in *. subst rp.
  unfold inode_get_inumber, dir_close, dir_open. cbn [inode pos].
  rewrite Hr, Hp2. cbn [fmap option_fmap option_map mbind option_bind].
  rewrite Hclose. cbn [mbind option_bind].
  unfold dir_readdir, inode_open_cnt. cbn [inode pos]. rewrite Hp.
  destruct (Hwf2 _ _ Hr) as [-> _]. destruct (Hwf2 _ _ Hp2) as [-> _].
  destruct (readdir_loop _ _ _ _) as [ps r]. reflexivity.
Qed.

Lemma remove_done_success st cd nm t b st' b' :
  remove_done st cd nm t b = Some (st', b') -> b' = b.
Proof.
  unfold remove_done. intros H.
  destruct (if streq nm CURRENT_DIRECTORY then _ else _) as [st1|]; simpl in H; [|discriminate].
  destruct (match t with Some _ => _ | None => _ end) as [st2|]; simpl in H; [|discriminate].
  congruence.
Qed.

Lemma wf_find_entry st dr nm st0 cd found :
  wf st -> find_entry st dr nm = Some (st0, cd, found) -> wf st0.
Proof.
  intros Hwf. unfold find_entry. destruct (streq nm CURRENT_DIRECTORY).
  - destruct (inode_get_inumber st (inode dr)) as [s|]; simpl; [|discriminate].
    unfold dir_open_parent.
    destruct (inode_get_parent st (inode dr)) as [ps|]; simpl; [|discriminate].
    destruct (ps =? 0); simpl; [discriminate|].
    pose proof (wf_inode_open st ps Hwf) as Hwf1.
    destruct (inode_open st ps) as [st1 pp]. simpl in *.
    destruct (open_inodes st1 !! pp); simpl; [|discriminate].
    intros [= <- _ _]. exact Hwf1.
  - destruct (open_inodes st !! inode dr); simpl; [|discriminate].
    intros [= <- _ _]. exact Hwf.
Qed.

Lemma find_entry_inv st dr nm st0 cd found :
  find_entry st dr nm = Some (st0, cd, found) ->
  (streq nm CURRENT_DIRECTORY = false /\ st0 = st /\ cd = dr)
  \/ (streq nm CURRENT_DIRECTORY = true
      /\ exists ps, st0 = (inode_open st ps).1 /\ cd = dir_open ps).
Proof.
  unfold find_entry. destruct (streq nm CURRENT_DIRECTORY).
  - destruct (inode_get_inumber st (inode dr)) as [s|]; simpl; [|discriminate].
    unfold dir_open_parent.
    destruct (inode_get_parent st (inode dr)) as [ps|]; simpl; [|discriminate].
    destruct (ps =? 0); simpl; [discriminate|].
    pose proof (inode_open_ptr st ps) as Hptr.
    destruct (inode_open st ps) as [st1 pp] eqn:Hopen. simpl in *. subst pp.
    destruct (open_inodes st1 !! ps); simpl; [|discriminate].
    intros [= <- <- _]. right. split; [reflexivity|]. exists ps.
    rewrite Hopen. split; reflexivity.
  - destruct (open_inodes st !! inode dr); simpl; [|discriminate].
    intros [= <- <- _]. left. repeat split.
Qed.

(** C4. [dir_remove] succeeds on a target that is a directory only if
    the target is not the root, holds no entry in use and has an open
    count of at most one (the reference [dir_remove] itself takes);
    removing a directory that still holds an entry in use returns false
    and leaves the state, and so the entry in the parent, as it was. *)
Theorem dir_remove_directory (st : state) (dr : dir) (nm : list Z) :
  wf st ->
  (forall st', dir_remove ROOT_DIR_SECTOR st dr nm = Some (st', true) ->
     exists st0 cd e ofs ino,
       find_entry st dr nm = Some (st0, cd, Some (e, ofs))
       /\ open_inodes (inode_open st0 (inode_sector e)).1 !! inode_sector e = Some ino
       /\ (is_directory (data ino) <> 0 ->
           inode_sector e <> ROOT_DIR_SECTOR
           /\ live_entries (disk (dev st0)) ino = []
           /\ open_cnt ino <= 1))
  /\ (forall st0 cd e ofs ino,
        find_entry st dr nm = Some (st0, cd, Some (e, ofs)) ->
        open_inodes (inode_open st0 (inode_sector e)).1 !! inode_sector e = Some ino ->
        is_directory (data ino) <> 0 ->
        live_entries (disk (dev st0)) ino <> [] ->
        dir_remove ROOT_DIR_SECTOR st dr nm = Some (st, false)).
Proof.
  intros Hwf. split.
  - intros st' Hrm. unfold dir_remove in Hrm.
    destruct (find_entry st dr nm) as [[[st0 cd] found]|] eqn:Hfind;
      cbn [mbind option_bind] in Hrm; [|discriminate].
    destruct found as [[e ofs]|]; [|discriminate Hrm].
    pose proof (wf_find_entry _ _ _ _ _ _ Hwf Hfind) as Hwf0.
    pose proof (wf_inode_open st0 (inode_sector e) Hwf0) as Hwf1.
    pose proof (inode_open_lookup st0 (inode_sector e)) as [ino Hino].
    pose proof (inode_open_ptr st0 (inode_sector e)) as Hptr.
    pose proof (inode_open_dev st0 (inode_sector e)) as Hdev.
    exists st0, cd, e, ofs, ino. split; [reflexivity|]. split; [exact Hino|].
    intros Hdir.
    destruct (inode_open st0 (inode_sector e)) as [st1 p]. cbn [fst snd] in *. subst p.
    unfold inode_is_dir in Hrm. rewrite Hino in Hrm.
    cbn [fmap option_fmap option_map mbind option_bind] in Hrm.
    assert (Hnz : negb (is_directory (data ino) =? 0) = true)
      by (apply negb_true_iff, Z.eqb_neq; exact Hdir).
    rewrite Hnz in Hrm.
    rewrite (dir_can_remove_eval st1 _ ino Hwf1 Hino) in Hrm.
    cbn [fmap option_fmap option_map mbind option_bind prod_map fst snd id] in Hrm.
    match type of Hrm with
    | context [negb (negb ?a && negb ?b)] =>
        destruct a eqn:Ha; destruct b eqn:Hb; cbn [negb andb] in Hrm;
          try (apply remove_done_success in Hrm; discriminate)
    end.
    apply orb_false_iff in Ha as [Hlive Hroot].
    split; [apply Z.eqb_neq; exact Hroot|]. split; [|lia].
    unfold live_entries, dir_entries. rewrite <- Hdev.
    apply readdir_loop_none.
    destruct ((readdir_loop _ _ _ _).2) as [r|]; [|reflexivity].
    rewrite bool_decide_eq_false in Hlive. exfalso. apply Hlive. eauto.
  - intros st0 cd e ofs ino Hfind Hino Hdir Hlive.
    unfold dir_remove. rewrite Hfind. cbn [mbind option_bind].
    pose proof (wf_find_entry _ _ _ _ _ _ Hwf Hfind) as Hwf0.
    pose proof (wf_inode_open st0 (inode_sector e) Hwf0) as Hwf1.
    pose proof (inode_open_ptr st0 (inode_sector e)) as Hptr.
    pose proof (inode_open_dev st0 (inode_sector e)) as Hdev.
    pose proof (inode_open_close st0 (inode_sector e) Hwf0) as Hoc.
    pose proof (fun q => inode_close_open_comm st0 (inode_sector e) q) as Hcomm.
    destruct (inode_open st0 (inode_sector e)) as [st1 p]. cbn [fst snd] in *. subst p.
    unfold inode_is_dir. rewrite Hino.
    cbn [fmap option_fmap option_map mbind option_bind].
    assert (Hnz : negb (is_directory (data ino) =? 0) = true)
      by (apply negb_true_iff, Z.eqb_neq; exact Hdir).
    rewrite Hnz.
    rewrite (dir_can_remove_eval st1 _ ino Hwf1 Hino).
    assert (Hsome : bool_decide
              (is_Some (readdir_loop (scan_fuel ino) (disk (dev st1)) ino 0).2) = true).
    { apply bool_decide_eq_true.
      destruct ((readdir_loop _ _ _ _).2) as [r|] eqn:Hr; [eauto|].
      exfalso. apply Hlive. unfold live_entries, dir_entries. rewrite <- Hdev.
      apply readdir_loop_none. exact Hr. }
    rewrite Hsome.
    cbn [fmap option_fmap option_map mbind option_bind prod_map fst snd id orb negb andb].
    unfold remove_done, dir_close.
    destruct (find_entry_inv _ _ _ _ _ _ Hfind) as [(Hs & -> & ->) | (Hs & ps & -> & ->)];
      rewrite Hs.
    + cbn [mbind option_bind]. rewrite Hoc. reflexivity.
    + cbn [inode dir_open]. destruct (decide (ps = inode_sector e)) as [->|Hne].
      * rewrite Hoc. cbn [mbind option_bind].
        rewrite (inode_open_close st (inode_sector e) Hwf). reflexivity.
      * rewrite (Hcomm ps Hne).
        rewrite (inode_open_close st ps Hwf).
        cbn [fmap option_fmap option_map mbind option_bind].
        rewrite (inode_open_close st (inode_sector e) Hwf). reflexivity.
Qed.

End WithRoot.

Lemma wf_st_nonempty : wf Examples.st_nonempty.
Proof.
  assert (H : open_inodes Examples.st_nonempty
              = {[1 := Examples.inode_at Examples.st_nonempty 1]})
    by (vm_compute; reflexivity).
  intros p ino Hp. rewrite H in Hp.
  apply lookup_singleton_Some in Hp as [<- <-]. vm_compute. split; [reflexivity | discriminate].
Qed.

(** The root directory holds "e", which holds "f": removing "e" is
    refused and changes nothing. *)
Lemma dir_remove_directory_witness :
  wf Examples.st_nonempty
  /\ dir_remove 1 Examples.st_nonempty (mk_dir 1 0) [101]
     = Some (Examples.st_nonempty, false).
Proof.
  split; [exact wf_st_nonempty|].
  destruct (dir_remove_directory 1 Examples.st_nonempty (mk_dir 1 0) [101] wf_st_nonempty)
    as [_ Hblocked].
  apply (Hblocked Examples.st_nonempty (mk_dir 1 0)
           (mk_dir_entry 3 ([101] ++ replicate 14%nat 0) true) 0
           (Examples.inode_at (inode_open Examples.st_nonempty 3).1 3)).
  - vm_compute; reflexivity.
  - vm_compute; reflexivity.
  - vm_compute; discriminate.
  - vm_compute; discriminate.
Defined.

End DirFacts.

Module VMFacts.
Import VM.

Lemma filter_length_lt {A} (P Q : A -> Prop) `{!forall x, Decision (P x)}
    `{!forall x, Decision (Q x)} (l : list A) (x0 : A) :
  (forall x, Q x -> P x) -> x0 ∈ l -> P x0 -> ~ Q x0 ->
  (length (filter Q l) < length (filter P l))%nat.
Proof.
  intros HQP Hin HP HQ.
  assert (Hle : forall l', (length (filter Q l') <= length (filter P l'))%nat).
  { induction l' as [|y l' IH]; [reflexivity|].
    rewrite !filter_cons. destruct (decide (Q y)) as [Hy|Hy].
    - destruct (decide (P y)) as [_|Hn]; [simpl; lia | exfalso; auto].
    - destruct (decide (P y)); simpl; lia. }
  induction l as [|y l IH]; [inversion Hin|].
  rewrite !filter_cons. apply elem_of_cons in Hin as [<-|Hin].
  - destruct (decide (Q x0)); [contradiction|].
    destruct (decide (P x0)); [|contradiction]. simpl. specialize (Hle l). lia.
  - specialize (IH Hin). destruct (decide (Q y)) as [Hy|Hy].
    + destruct (decide (P y)) as [_|Hn]; [simpl; lia | exfalso; auto].
    + destruct (decide (P y)); simpl; lia.
Qed.

Lemma sweep_step_threads v o up o' :
  threads (sweep_step v o up) !! o'
  = if decide (o = o')
    then set_pagedir (fun pd => pagedir_set_accessed pd up false) <$> threads v !! o'
    else threads v !! o'.
Proof.
  unfold sweep_step, with_thread. simpl. rewrite lookup_alter.
  destruct (decide (o = o')) as [->|]; reflexivity.
Qed.

Lemma sweep_step_page_find v o up o' up' :
  page_find (sweep_step v o up) o' up' = page_find v o' up'.
Proof.
  unfold page_find. rewrite sweep_step_threads.
  destruct (decide (o = o')); [|reflexivity].
  destruct (threads v !! o'); reflexivity.
Qed.

Lemma set_accessed_dirty pd up up' :
  pagedir_is_dirty (pagedir_set_accessed pd up false) up' = pagedir_is_dirty pd up'.
Proof.
  unfold pagedir_is_dirty, pagedir_set_accessed. rewrite lookup_alter.
  destruct (decide (up = up')) as [->|]; [|reflexivity].
  destruct (pd !! up'); reflexivity.
Qed.

Lemma set_accessed_accessed pd up up' :
  pagedir_is_accessed (pagedir_set_accessed pd up false) up'
  = if decide (up = up') then false else pagedir_is_accessed pd up'.
Proof.
  unfold pagedir_is_accessed, pagedir_set_accessed. rewrite lookup_alter.
  destruct (decide (up = up')) as [->|]; [|reflexivity].
  destruct (pd !! up'); reflexivity.
Qed.

Lemma sweep_step_dirty v o up fe :
  frame_dirty (sweep_step v o up) fe = frame_dirty v fe.
Proof.
  unfold frame_dirty. destruct (frame_owner fe) as [o'|]; [|reflexivity].
  rewrite sweep_step_threads. destruct (decide (o = o')); [|reflexivity].
  destruct (threads v !! o'); simpl; [|reflexivity]. apply set_accessed_dirty.
Qed.

Lemma sweep_step_accessed v o up fe :
  frame_accessed (sweep_step v o up) fe = true -> frame_accessed v fe = true.
Proof.
  unfold frame_accessed. destruct (frame_owner fe) as [o'|]; [|discriminate].
  rewrite sweep_step_threads. destruct (decide (o = o')); [|tauto].
  destruct (threads v !! o'); simpl; [|discriminate].
  rewrite set_accessed_accessed. destruct (decide _); [discriminate | tauto].
Qed.

Lemma sweep_step_cleared v fe o :
  frame_owner fe = Some o ->
  frame_accessed (sweep_step v o (fe_upage fe)) fe = false.
Proof.
  intros Ho. unfold frame_accessed. rewrite Ho, sweep_step_threads.
  destruct (decide (o = o)); [|congruence].
  destruct (threads v !! o); simpl; [|reflexivity].
  rewrite set_accessed_accessed. destruct (decide _); [reflexivity | congruence].
Qed.

Lemma table_size_bound v : wf v -> 1 <= table_size v <= 1048576.
Proof. unfold wf, PGSIZE. intros (_ & ? & ? & ? & _). lia. Qed.

Lemma wf_sweep_step v o up : wf v -> wf (sweep_step v o up).
Proof.
  intros Hwf. pose proof (table_size_bound v Hwf) as Hts.
  destruct Hwf as (Hlen & Hhand & Hbase & Htop & Hframes).
  assert (Hh : clock_hand (sweep_step v o up)
               = if clock_hand v <? uint32 (table_size v - 1)
                 then clock_hand v + 1 else 0) by reflexivity.
  unfold wf. rewrite Hh.
  change (table_size (sweep_step v o up)) with (table_size v).
  change (frame_table (sweep_step v o up)) with (frame_table v).
  change (base_address (sweep_step v o up)) with (base_address v).
  split; [exact Hlen|]. split.
  { unfold uint32. rewrite Z.mod_small by lia.
    destruct (clock_hand v <? table_size v - 1) eqn:E; lia. }
  split; [exact Hbase|]. split; [exact Htop|].
  intros i fe Hfe.
  destruct (Hframes i fe Hfe) as (o' & t & page & Ho & Ht & Hpage & Hup & Hmem).
  destruct (decide (o = o')) as [->|Hne].
  - exists o', (set_pagedir (fun pd => pagedir_set_accessed pd up false) t), page.
    rewrite sweep_step_threads. destruct (decide (o' = o')); [|congruence].
    rewrite Ht. simpl. repeat split; assumption.
  - exists o', t, page.
    rewrite sweep_step_threads. destruct (decide (o = o')); [congruence|].
    repeat split; assumption.
Qed.

Lemma count_accessed_sweep_step v fe o :
  frame_table v !! idx (clock_hand v) = Some fe ->
  frame_owner fe = Some o ->
  frame_accessed v fe = true ->
  (count_accessed (sweep_step v o (fe_upage fe)) < count_accessed v)%nat.
Proof.
  intros Hfe Ho Hacc. unfold count_accessed.
  change (frame_table (sweep_step v o (fe_upage fe))) with (frame_table v).
  apply (filter_length_lt _ _ _ fe).
  - intros x. apply sweep_step_accessed.
  - apply list_elem_of_lookup. eauto.
  - exact Hacc.
  - rewrite sweep_step_cleared by exact Ho. discriminate.
Qed.

(** The loop of [evict] ends on a frame whose accessed bit is clear; it
    has touched nothing but accessed bits and the hand. *)
Lemma clock_sweep_total (fuel : nat) (v : vm) :
  wf v -> (count_accessed v < S fuel)%nat ->
  exists v1, clock_sweep fuel v = Some v1
    /\ wf v1
    /\ frame_table v1 = frame_table v
    /\ base_address v1 = base_address v
    /\ swap_map v1 = swap_map v
    /\ swap_partition v1 = swap_partition v
    /\ memory v1 = memory v
    /\ (forall o up, page_find v1 o up = page_find v o up)
    /\ (forall fe, frame_dirty v1 fe = frame_dirty v fe)
    /\ (forall fe, frame_table v1 !! idx (clock_hand v1) = Some fe ->
                   frame_accessed v1 fe = false).
Proof.
  revert v. induction fuel as [|fuel IH]; intros v Hwf Hcount;
    pose proof Hwf as (Hlen & Hhand & Hbase & Htop & Hframes);
    assert (Hlt : (idx (clock_hand v) < length (frame_table v))%nat) by (unfold idx; lia);
    apply lookup_lt_is_Some_2 in Hlt as [fe Hfe];
    destruct (Hframes _ _ Hfe) as (o & t & page & Ho & Ht & _);
    assert (Hfa : frame_accessed v fe = pagedir_is_accessed (pagedir t) (fe_upage fe))
      by (unfold frame_accessed; rewrite Ho, Ht; reflexivity);
    simpl; rewrite Hfe; simpl; rewrite Ho; simpl; rewrite Ht; simpl;
    destruct (pagedir_is_accessed (pagedir t) (fe_upage fe)) eqn:Hacc.
  - exfalso. unfold count_accessed in Hcount.
    assert (Hin : fe ∈ filter (fun fe => frame_accessed v fe = true) (frame_table v)).
    { apply list_elem_of_filter. split; [exact Hfa|]. apply list_elem_of_lookup. eauto. }
    destruct (filter _ _); [inversion Hin | simpl in Hcount; lia].
  - exists v. split; [reflexivity|]. split; [exact Hwf|].
    do 5 (split; [reflexivity|]). split; [reflexivity|]. split; [reflexivity|].
    intros fe' Hfe'. rewrite Hfe in Hfe'. injection Hfe' as <-. exact Hfa.
  - pose proof (count_accessed_sweep_step v fe o Hfe Ho Hfa) as Hdec.
    destruct (IH (sweep_step v o (fe_upage fe)) (wf_sweep_step _ _ _ Hwf) ltac:(lia))
      as (v1 & Hv1 & Hwf1 & Hft & Hb & Hsm & Hsp & Hm & Hpf & Hd & Hvictim).
    exists v1. split; [exact Hv1|]. split; [exact Hwf1|].
    do 5 (split; [assumption|]). split; [|split; [|exact Hvictim]].
    + intros o' up'. rewrite Hpf. apply sweep_step_page_find.
    + intros fe'. rewrite Hd. apply sweep_step_dirty.
  - exists v. split; [reflexivity|]. split; [exact Hwf|].
    do 5 (split; [reflexivity|]). split; [reflexivity|]. split; [reflexivity|].
    intros fe' Hfe'. rewrite Hfe in Hfe'. injection Hfe' as <-. exact Hfa.
Qed.

Lemma write_sectors_below (n : nat) i0 sp m addr index k :
  k < index * SECTORS_IN_PAGE + i0 ->
  write_sectors n i0 sp m addr index !! k = sp !! k.
Proof.
  revert i0 sp. induction n as [|n IH]; intros i0 sp Hk; simpl; [reflexivity|].
  rewrite IH by lia. unfold block_write. apply lookup_insert_ne. lia.
Qed.

Lemma write_sectors_lookup (n : nat) i0 sp m addr index i :
  i0 <= i < i0 + Z.of_nat n ->
  write_sectors n i0 sp m addr index !! (index * SECTORS_IN_PAGE + i)
  = Some (to_sector (page_sector m addr i)).
Proof.
  revert i0 sp. induction n as [|n IH]; intros i0 sp Hi; simpl; [lia|].
  destruct (decide (i = i0)) as [->|Hne].
  - rewrite write_sectors_below by lia. unfold block_write. apply lookup_insert_eq.
  - apply IH. lia.
Qed.

Lemma first_free_clear (bm : list bool) (i s : Z) :
  first_free bm i = Some s -> i <= s /\ bm !! Z.to_nat (s - i) = Some false.
Proof.
  revert i. induction bm as [|b bm IH]; intros i H; simpl in H; [discriminate|].
  destruct b.
  - destruct (IH _ H) as [Hle Hlook]. split; [lia|].
    replace (Z.to_nat (s - i)) with (S (Z.to_nat (s - (i + 1)))) by lia. exact Hlook.
  - injection H as <-. split; [lia|]. rewrite Z.sub_diag. reflexivity.
Qed.

Lemma count_accessed_le v : (count_accessed v <= length (frame_table v))%nat.
Proof. unfold count_accessed. apply length_filter. Qed.

Lemma write_sectors_other (n : nat) i0 sp m addr index k :
  ~ (index * SECTORS_IN_PAGE + i0 <= k < index * SECTORS_IN_PAGE + i0 + Z.of_nat n) ->
  write_sectors n i0 sp m addr index !! k = sp !! k.
Proof.
  revert i0 sp. induction n as [|n IH]; intros i0 sp Hk; simpl; [reflexivity|].
  rewrite IH by lia. unfold block_write. apply lookup_insert_ne. lia.
Qed.

(** A sector-sized piece of a page of 4096 bytes fills its sector. *)
Lemma page_piece_sector (bytes : list Z) (i : Z) :
  length bytes = 4096%nat -> 0 <= i < 8 ->
  to_sector (take 512 (drop (idx (512 * i)) bytes)) = take 512 (drop (idx (512 * i)) bytes).
Proof.
  intros Hlen Hi.
  assert (H : length (take 512 (drop (idx (512 * i)) bytes)) = 512%nat)
    by (rewrite length_take, length_drop; unfold idx; lia).
  unfold to_sector. rewrite take_app_le by lia. apply take_ge. lia.
Qed.

(** [frame_deallocate] on the page of the frame [h] of the table. *)
Lemma frame_deallocate_at (w : vm) (h b : Z) (fe : frame_entry) :
  base_address w = b -> 0 <= h <= table_size w -> h * PGSIZE < 4294967296 ->
  frame_table w !! idx h = Some fe ->
  frame_deallocate w (h * PGSIZE + b)
  = Some (set_frame_table w
            (alter (fun fe => mk_frame_entry 0 None (used fe)) (idx h) (frame_table w)),
          true).
Proof.
  intros Hb Hh Hsmall Hfe. unfold frame_deallocate, get_frame. rewrite Hb.
  replace (h * PGSIZE + b - b) with (h * PGSIZE) by lia.
  unfold uint32. rewrite Z.mod_small by (unfold PGSIZE in *; lia).
  rewrite Z.div_mul by (unfold PGSIZE; lia).
  destruct (table_size w <? h) eqn:E; [lia|]. rewrite Hfe. reflexivity.
Qed.

(** C5. [evict] takes the frame the clock hand rests on after the
    sweep.  When the dirty bit of its page is set at that moment the
    page goes to the first free swap slot: the slot is marked used, its
    eight sectors hold the 4096 bytes of the frame in order, no other
    sector of the swap changes and the supplemental entry names the
    slot; with no free slot, and only then, [evict] does not come back
    (the panic of a full swap).  When the dirty bit is clear [evict]
    always comes back, the entry goes back to the file system and the
    swap map and the swap partition are left as they were.  In both
    cases the other fields of the entry stay, the mapping and the frame
    entry are cleared, the other frame entries stay, and the frame is
    zeroed. *)
Theorem evict_swaps_iff_dirty (v : vm) :
  wf v ->
  exists v1 frame owner t page,
    clock_sweep (S (length (frame_table v))) v = Some v1
    /\ frame_table v !! idx (clock_hand v1) = Some frame
    /\ frame_owner frame = Some owner
    /\ threads v !! owner = Some t
    /\ sup_table t !! fe_upage frame = Some page
    /\ let kpage := clock_hand v1 * PGSIZE + base_address v in
       let dirty := pagedir_is_dirty (pagedir t) (fe_upage frame) in
       match evict v with
       | None => dirty = true /\ first_free (swap_map v) 0 = None
       | Some (v', kpage') =>
           exists t' page',
             kpage' = kpage
             /\ clock_hand v' = clock_hand v1
             /\ threads v' !! owner = Some t'
             /\ sup_table t' !! fe_upage frame = Some page'
             /\ (block page' = BLOCK_SWAP <-> dirty = true)
             /\ (if dirty then
                   exists slot,
                     first_free (swap_map v) 0 = Some slot
                     /\ swap_map v !! idx slot = Some false
                     /\ swap_map v' = <[idx slot := true]> (swap_map v)
                     /\ (forall bytes,
                           memory v !! kpage = Some bytes -> length bytes = 4096%nat ->
                           forall i, 0 <= i < 8 ->
                             block_read (swap_partition v') (slot * 8 + i)
                             = take 512 (drop (idx (512 * i)) bytes))
                     /\ (forall s, ~ (slot * 8 <= s < slot * 8 + 8) ->
                           swap_partition v' !! s = swap_partition v !! s)
                     /\ page' = mk_sp_entry (upage page) BLOCK_SWAP 0 (file_addr page)
                                  (read_bytes page) slot (writable page)
                 else
                   swap_map v' = swap_map v
                   /\ swap_partition v' = swap_partition v
                   /\ page' = mk_sp_entry (upage page) BLOCK_FILESYS 0 (file_addr page)
                                (read_bytes page) (-1) (writable page))
             /\ pagedir_get_page (pagedir t') (fe_upage frame) = None
             /\ frame_table v' !! idx (clock_hand v1)
                = Some (mk_frame_entry 0 None (used frame))
             /\ (forall j, j <> idx (clock_hand v1) ->
                   frame_table v' !! j = frame_table v !! j)
             /\ memory v' !! kpage = Some zero_page
       end.
Proof.
  intros Hwf.
  destruct (clock_sweep_total (S (length (frame_table v))) v Hwf)
    as (v1 & Hsweep & Hwf1 & Hft & Hb & Hsm & Hsp & Hm & Hpf & Hd & _).
  { pose proof (count_accessed_le v). lia. }
  pose proof (table_size_bound v1 Hwf1) as Hts.
  destruct Hwf1 as (Hlen & Hhand & Hbase & Htop & Hframes).
  assert (Hlt : (idx (clock_hand v1) < length (frame_table v1))%nat) by (unfold idx; lia).
  apply lookup_lt_is_Some_2 in Hlt as [fe Hfe].
  destruct (Hframes _ _ Hfe) as (o & t1 & page & Ho & Ht1 & Hpage & Hup & Hmem).
  assert (Hfind1 : page_find v1 o (fe_upage fe) = Some page)
    by (unfold page_find; rewrite Ht1; exact Hpage).
  pose proof (Hpf o (fe_upage fe)) as Hfind. rewrite Hfind1 in Hfind.
  unfold page_find in Hfind.
  destruct (threads v !! o) as [t|] eqn:Ht; [|discriminate Hfind]. simpl in Hfind.
  pose proof (Hd fe) as Hdirty. unfold frame_dirty in Hdirty.
  rewrite Ho, Ht1, Ht in Hdirty.
  exists v1, fe, o, t, page.
  split; [exact Hsweep|]. split; [rewrite <- Hft; exact Hfe|]. split; [exact Ho|].
  split; [exact Ht|]. split; [symmetry; exact Hfind|].
  cbv zeta. rewrite <- Hb.
  unfold evict. rewrite Hsweep. cbn [mbind option_bind].
  rewrite Hfe. cbn [mbind option_bind]. rewrite Ho. cbn [mbind option_bind].
  rewrite Ht1. cbn [mbind option_bind]. rewrite Hfind1. cbn [mbind option_bind].
  assert (Hk : uint32 (clock_hand v1 * PGSIZE + base_address v1)
               = clock_hand v1 * PGSIZE + base_address v1).
  { unfold uint32, PGSIZE in *. apply Z.mod_small. lia. }
  rewrite Hk.
  assert (Hsmall : clock_hand v1 * PGSIZE < 4294967296) by (unfold PGSIZE in *; lia).
  assert (Hh : 0 <= clock_hand v1 <= table_size v1) by lia.
  assert (Hmemaddr : mem_addr page = clock_hand v1 * PGSIZE + base_address v1).
  { rewrite Hmem. unfold idx. rewrite Z2Nat.id by lia. lia. }
  rewrite Hdirty.
  destruct (pagedir_is_dirty (pagedir t) (fe_upage fe)) eqn:Hdt.
  - unfold swap_write. rewrite Hsm.
    destruct (first_free (swap_map v) 0) as [slot|] eqn:Hslot;
      cbn [mbind option_bind]; [|split; reflexivity].
    match goal with
    | |- context [frame_deallocate ?w _] =>
        rewrite (frame_deallocate_at w (clock_hand v1) (base_address v1) fe
                   eq_refl Hh Hsmall Hfe)
    end.
    cbn [fmap option_fmap option_map mbind option_bind fst].
    eexists _, _.
    split; [reflexivity|]. split; [reflexivity|]. split.
    { simpl. rewrite lookup_alter_eq, lookup_alter_eq, Ht1. reflexivity. }
    split.
    { simpl. rewrite lookup_alter_eq, Hpage. reflexivity. }
    split; [simpl; tauto|]. split.
    { exists slot. split; [reflexivity|]. split.
      { destruct (first_free_clear _ _ _ Hslot) as [_ Hclear].
        rewrite Z.sub_0_r in Hclear. exact Hclear. }
      split; [reflexivity|]. split; [|split; [|reflexivity]].
      - intros bytes Hbytes Hlen4 i Hi.
        cbn [swap_partition set_memory set_frame_table with_thread set_threads
               page_set_sector set_swap].
        rewrite Hsp, Hm, Hmemaddr.
        unfold block_read. change (slot * 8 + i) with (slot * SECTORS_IN_PAGE + i).
        rewrite (write_sectors_lookup 8 0) by lia. cbn [default].
        unfold page_sector, BLOCK_SECTOR_SIZE. rewrite Hbytes. cbn [default].
        apply page_piece_sector; assumption.
      - intros s Hs.
        cbn [swap_partition set_memory set_frame_table with_thread set_threads
               page_set_sector set_swap].
        rewrite Hsp. apply write_sectors_other.
        unfold SECTORS_IN_PAGE. lia. }
    split.
    { simpl. unfold pagedir_get_page, pagedir_clear_page. rewrite Hup, lookup_alter_eq.
      destruct (pagedir t1 !! fe_upage fe); reflexivity. }
    split.
    { simpl. rewrite list_lookup_alter_eq, Hfe. reflexivity. }
    split.
    { intros j Hj. simpl. rewrite <- Hft. apply list_lookup_alter_ne. congruence. }
    simpl. apply lookup_insert_eq.
  - cbn [mbind option_bind].
    match goal with
    | |- context [frame_deallocate ?w _] =>
        rewrite (frame_deallocate_at w (clock_hand v1) (base_address v1) fe
                   eq_refl Hh Hsmall Hfe)
    end.
    cbn [fmap option_fmap option_map mbind option_bind fst].
    eexists _, _.
    split; [reflexivity|]. split; [reflexivity|]. split.
    { simpl. rewrite lookup_alter_eq, lookup_alter_eq, Ht1. reflexivity. }
    split.
    { simpl. rewrite lookup_alter_eq, Hpage. reflexivity. }
    split; [simpl; split; discriminate|]. split.
    { simpl. split; [assumption|]. split; [assumption | reflexivity]. }
    split.
    { simpl. unfold pagedir_get_page, pagedir_clear_page. rewrite Hup, lookup_alter_eq.
      destruct (pagedir t1 !! fe_upage fe); reflexivity. }
    split.
    { simpl. rewrite list_lookup_alter_eq, Hfe. reflexivity. }
    split.
    { intros j Hj. simpl. rewrite <- Hft. apply list_lookup_alter_ne. congruence. }
    simpl. apply lookup_insert_eq.
Qed.

Section PageFault.

Variable PHYS_BASE : Z.
Variable file_bytes : Z -> Z -> list Z.

(** C6. [page_fault] ends the process with status -1 when the fault is
    a write to a page that is present, or the faulting page is in
    kernel virtual memory, or the page has no supplemental entry and
    the address is more than 32 bytes below the stack pointer. *)
Theorem page_fault_kills (v : vm) (esp error_code fault_addr : Z) :
  0 <= fault_addr -> 0 <= esp < 4294967296 ->
  (Z.land error_code PF_W <> 0 /\ Z.land error_code PF_P <> 0)
  \/ PHYS_BASE <= fault_addr - fault_addr mod PGSIZE
  \/ (page_find v (current v) (fault_addr - fault_addr mod PGSIZE) = None
      /\ ~ (esp - 32 <= fault_addr)) ->
  page_fault PHYS_BASE 32 file_bytes v esp error_code fault_addr = Exit (-1).
Proof.
  intros Hfa Hesp Hwhy. unfold page_fault.
  match goal with |- (if ?c then _ else _) = _ => assert (Hc : c = true) end;
    [|rewrite Hc; reflexivity].
  destruct Hwhy as [[_ Hp] | [Hk | [Hnone Hlow]]].
  - apply Z.eqb_neq in Hp. rewrite Hp. reflexivity.
  - unfold is_user_vaddr.
    destruct (_ - _ <? PHYS_BASE) eqn:E; [lia|]. simpl.
    rewrite orb_true_r. reflexivity.
  - rewrite Hnone.
    assert (Hsg : (uint32 (esp - 32) <=? fault_addr) = false).
    { unfold uint32. rewrite Z.mod_small by lia. lia. }
    rewrite Hsg. simpl. apply orb_true_r.
Qed.

End PageFault.

Lemma wf_vm_two_frames : wf Examples.vm_two_frames.
Proof.
  unfold wf. split; [reflexivity|]. split; [vm_compute; split; [discriminate | reflexivity]|].
  split; [vm_compute; discriminate|]. split; [vm_compute; discriminate|].
  intros [|[|i]] fe Hfe; simpl in Hfe; [| |discriminate]; injection Hfe as <-.
  - eexists 7, _, _. split; [reflexivity|]. split; [vm_compute; reflexivity|].
    split; [vm_compute; reflexivity|]. split; reflexivity.
  - eexists 7, _, _. split; [reflexivity|]. split; [vm_compute; reflexivity|].
    split; [vm_compute; reflexivity|]. split; reflexivity.
Qed.

(** Two frames, the second clean of its accessed bit and dirty: the
    eviction comes back, since the swap has room. *)
Lemma evict_swaps_iff_dirty_witness :
  wf Examples.vm_two_frames /\ evict Examples.vm_two_frames <> None.
Proof.
  split; [exact wf_vm_two_frames|].
  destruct (evict_swaps_iff_dirty Examples.vm_two_frames wf_vm_two_frames)
    as (v1 & frame & owner & t & page & _ & _ & _ & _ & _ & H).
  intros Hnone. cbv zeta in H. rewrite Hnone in H. destruct H as [_ Hfull].
  vm_compute in Hfull. discriminate Hfull.
Defined.

(** A write three kilobytes below the stack pointer to a page without
    supplemental entry. *)
Lemma page_fault_kills_witness :
  (0 <= 3221220000 /\ 0 <= 3221225000 < 4294967296
   /\ page_find Examples.vm_two_frames (current Examples.vm_two_frames)
        (3221220000 - 3221220000 mod PGSIZE) = None
   /\ ~ (3221225000 - 32 <= 3221220000))
  /\ page_fault 3221225472 32 (fun _ _ => []) Examples.vm_two_frames
       3221225000 6 3221220000 = Exit (-1).
Proof.
  assert (H1 : 0 <= 3221220000) by lia.
  assert (H2 : 0 <= 3221225000 < 4294967296) by lia.
  assert (H3 : page_find Examples.vm_two_frames (current Examples.vm_two_frames)
                 (3221220000 - 3221220000 mod PGSIZE) = None) by (vm_compute; reflexivity).
  assert (H4 : ~ (3221225000 - 32 <= 3221220000)) by lia.
  split; [exact (conj H1 (conj H2 (conj H3 H4)))|].
  apply page_fault_kills; [exact H1 | exact H2 |].
  right. right. exact (conj H3 H4).
Defined.

End VMFacts.

Module SysFacts.
Import Inode Sys Examples.

Section WithLimits.

Variable MAX_FILES : Z.
Variable PHYS_BASE : Z.

(** The search of [init_file] stops at the last index whatever is
    stored there. *)
Lemma next_open_index_full (fuel : nat) (t : thread) (fd : Z) :
  (forall k, fd <= k < MAX_FILES - 1 -> is_Some (get_file t k)) ->
  fd <= MAX_FILES - 1 -> MAX_FILES - 1 - fd <= Z.of_nat fuel ->
  next_open_index MAX_FILES fuel t fd = MAX_FILES - 1.
Proof.
  revert fd. induction fuel as [|fuel IH]; intros fd Hocc Hle Hfuel; simpl; [lia|].
  destruct (fd <? MAX_FILES - 1) eqn:Hlt.
  - rewrite bool_decide_eq_true_2 by (apply Hocc; lia). simpl.
    apply IH; [intros k Hk; apply Hocc; lia | lia | lia].
  - rewrite andb_false_r. lia.
Qed.

(** C7 (the code departs from the claim). When no slot at or above
    [next_fd] is free, [init_file] does not return -1: it stores the new
    file over the file in slot [next_fd], returns that descriptor and
    leaves [next_fd] on the last, occupied, slot. *)
Theorem init_file_full_table (t : thread) (f : file) :
  2 <= next_fd t < MAX_FILES ->
  Z.of_nat (Datatypes.length (files t)) = MAX_FILES ->
  (forall k, next_fd t <= k < MAX_FILES -> is_Some (get_file t k)) ->
  let '(t', fd) := init_file MAX_FILES t f in
  fd = next_fd t /\ fd <> -1
  /\ get_file t' fd = Some f
  /\ next_fd t' = MAX_FILES - 1.
Proof.
  intros Hfd Hlen Hocc. unfold init_file.
  destruct (1 <? next_fd t) eqn:H1; [|lia].
  destruct (next_fd t =? MAX_FILES) eqn:H2; [lia|].
  split; [reflexivity|]. split; [lia|]. split.
  - unfold get_file, set_file. simpl.
    rewrite list_lookup_insert_eq by (unfold idx; lia). reflexivity.
  - simpl. apply next_open_index_full; [|lia|lia].
    intros k Hk. unfold get_file, set_file. simpl.
    destruct (decide (k = next_fd t)) as [->|Hne].
    + rewrite list_lookup_insert_eq by (unfold idx; lia). simpl. eauto.
    + rewrite list_lookup_insert_ne by (unfold idx; lia). apply Hocc. lia.
Qed.

(** C8 (the code departs from the claim). For 257 bytes
    [write_to_stdout] calls [putbuf] twice: once with all 257 bytes,
    more than [BUFFER_LIMIT], and once more with the last byte, which so
    reaches the console a second time. *)
Theorem write_to_stdout_257 (s : sys) (buffer : Z) :
  console (write_to_stdout s 257 buffer)
  = console s ++ [load_bytes (umem s) buffer 257; load_bytes (umem s) (buffer + 256) 1]
  /\ eax (write_to_stdout s 257 buffer) = 257.
Proof.
  split; [|reflexivity].
  unfold write_to_stdout. simpl. rewrite <- app_assoc. reflexivity.
Qed.

(** C10, as amended.  When the pointer to the descriptor argument
    fails [check_pointer], each of [filesize], [seek], [tell], [close],
    [read] and [write] ends the process with status -1.  When it passes
    and the four bytes of the argument are mapped, a descriptor outside
    [2, MAX_FILES) makes [filesize], [seek], [tell] and [close] end the
    process with status -1, while [read] returns -1 for such a
    descriptor other than 0 and [write] for one other than 1. *)
Theorem invalid_fd_calls (s : sys) (esp : Z) :
  (check_pointer PHYS_BASE s esp = false ->
   filesize_call MAX_FILES PHYS_BASE s esp = Exit (-1)
   /\ seek_call MAX_FILES PHYS_BASE s esp = Exit (-1)
   /\ tell_call MAX_FILES PHYS_BASE s esp = Exit (-1)
   /\ close_call MAX_FILES PHYS_BASE s esp = Exit (-1)
   /\ read_call MAX_FILES PHYS_BASE s esp = Exit (-1)
   /\ write_call MAX_FILES PHYS_BASE s esp = Exit (-1))
  /\ (check_pointer PHYS_BASE s esp = true ->
      word_mapped (umem s) esp ->
      let fd := int32 (load32 (umem s) esp) in
      ~ (2 <= fd < MAX_FILES) ->
      filesize_call MAX_FILES PHYS_BASE s esp = Exit (-1)
      /\ seek_call MAX_FILES PHYS_BASE s esp = Exit (-1)
      /\ tell_call MAX_FILES PHYS_BASE s esp = Exit (-1)
      /\ close_call MAX_FILES PHYS_BASE s esp = Exit (-1)
      /\ (fd <> 0 -> read_call MAX_FILES PHYS_BASE s esp = Ok (set_eax s (-1)))
      /\ (fd <> 1 -> write_call MAX_FILES PHYS_BASE s esp = Ok (set_eax s (-1)))).
Proof.
  split.
  - intros Hcheck.
    unfold filesize_call, seek_call, tell_call, close_call, read_call, write_call,
      get_argument, checked.
    rewrite Hcheck. repeat split.
  - intros Hcheck _ fd Hfd.
    unfold filesize_call, seek_call, tell_call, close_call, read_call, write_call,
      get_argument, checked.
    rewrite Hcheck. simpl. fold fd.
    assert (Hrange : (fd <? 2) || (MAX_FILES <=? fd) = true).
    { destruct (fd <? 2) eqn:E; [reflexivity|]. simpl. lia. }
    rewrite Hrange. repeat (split; [reflexivity|]). split; intros Hne.
    + assert (H : (fd =? STDOUT_FILENO) || (fd <? 0) || (MAX_FILES <=? fd) = true).
      { unfold STDOUT_FILENO. destruct (fd =? 1) eqn:E1; [reflexivity|].
        destruct (fd <? 0) eqn:E2; [reflexivity|]. simpl. lia. }
      rewrite H. reflexivity.
    + assert (H : (fd <=? STDIN_FILENO) || (MAX_FILES <=? fd) = true).
      { unfold STDIN_FILENO. destruct (fd <=? 0) eqn:E1; [reflexivity|]. simpl. lia. }
      rewrite H. reflexivity.
Qed.

End WithLimits.

(** C9 (the code departs from the claim). A process holds the root
    directory as descriptor 2.  [read] on it returns -1 and [filesize]
    ends the process, but [write] of 20 bytes returns 20: the bytes are
    stored over the first entry of the directory, which now names
    sector 1 under "x" where it named the directory "e". *)
Theorem write_call_on_directory :
  inode_is_dir (fsys sys_dir_fd) 1 = Some true
  /\ get_file (thr sys_dir_fd) 2 = Some (some_file 1)
  /\ write_call 128 3221225472 sys_dir_fd 4096 = Ok sys_dir_fd_written
  /\ eax sys_dir_fd_written = 20
  /\ take 1 (Dir.dir_entries (disk (dev (fsys sys_dir_fd))) (inode_at (fsys sys_dir_fd) 1))
     = [Dir.mk_dir_entry 3 ([101] ++ replicate 14%nat 0) true]
  /\ take 1 (Dir.dir_entries (disk (dev (fsys sys_dir_fd_written)))
               (inode_at (fsys sys_dir_fd_written) 1))
     = [Dir.mk_dir_entry 1 ([120] ++ replicate 14%nat 0) true]
  /\ read_call 128 3221225472 sys_dir_fd 4096 = Ok (set_eax sys_dir_fd (-1))
  /\ filesize_call 128 3221225472 sys_dir_fd 4096 = Exit (-1).
Proof.
  do 7 (split; [vm_compute; reflexivity|]).
  vm_compute; reflexivity.
Qed.

Lemma sys_stdout_argument : word_mapped (umem sys_stdout) 4096.
Proof.
  intros i Hi.
  assert (Hi' : i = 0 \/ i = 1 \/ i = 2 \/ i = 3) by lia.
  destruct Hi' as [-> | [-> | [-> | ->]]]; vm_compute; eauto.
Qed.

(** C10, as the spec states it, fails: [write] with descriptor 1 is
    outside [2, MAX_FILES) and returns the number of bytes. *)
Lemma invalid_fd_claim_fails : ~ invalid_fd_claim 128 3221225472.
Proof.
  intros H. specialize (H sys_stdout 4096).
  assert (Hfd : int32 (load32 (umem sys_stdout) 4096) = 1) by (vm_compute; reflexivity).
  cbv zeta in H. rewrite Hfd in H.
  destruct H as (_ & _ & _ & _ & _ & s' & Hw & He);
    [vm_compute; reflexivity | exact sys_stdout_argument | lia |].
  vm_compute in Hw. injection Hw as <-. vm_compute in He. discriminate He.
Qed.

Lemma init_file_full_table_witness :
  (2 <= next_fd thread_two_open < 4
   /\ Z.of_nat (Datatypes.length (files thread_two_open)) = 4
   /\ forall k, next_fd thread_two_open <= k < 4 -> is_Some (get_file thread_two_open k))
  /\ (let '(t', fd) := init_file 4 thread_two_open (some_file 9) in
      fd = next_fd thread_two_open /\ fd <> -1
      /\ get_file t' fd = Some (some_file 9)
      /\ next_fd t' = 4 - 1).
Proof.
  assert (H0 : next_fd thread_two_open = 3) by reflexivity.
  assert (H1 : 2 <= next_fd thread_two_open < 4) by (rewrite H0; lia).
  assert (H2 : Z.of_nat (Datatypes.length (files thread_two_open)) = 4) by reflexivity.
  assert (H3 : forall k, next_fd thread_two_open <= k < 4 ->
                         is_Some (get_file thread_two_open k)).
  { intros k Hk. rewrite H0 in Hk. assert (k = 3) as -> by lia. vm_compute. eauto. }
  split; [exact (conj H1 (conj H2 H3))|].
  exact (init_file_full_table 4 thread_two_open (some_file 9) H1 H2 H3).
Defined.

(** The process of [sys_stdout], whose descriptor argument is 1: at the
    stack pointer 4096 [filesize] ends the process and [read] returns
    -1; at the null stack pointer [read] and [write] end the process. *)
Lemma invalid_fd_calls_witness :
  (check_pointer 3221225472 sys_stdout 4096 = true
   /\ word_mapped (umem sys_stdout) 4096
   /\ ~ (2 <= int32 (load32 (umem sys_stdout) 4096) < 128)
   /\ filesize_call 128 3221225472 sys_stdout 4096 = Exit (-1)
   /\ read_call 128 3221225472 sys_stdout 4096 = Ok (set_eax sys_stdout (-1)))
  /\ (check_pointer 3221225472 sys_stdout 0 = false
      /\ read_call 128 3221225472 sys_stdout 0 = Exit (-1)
      /\ write_call 128 3221225472 sys_stdout 0 = Exit (-1)).
Proof.
  assert (Hc : check_pointer 3221225472 sys_stdout 4096 = true) by (vm_compute; reflexivity).
  assert (Hfd : int32 (load32 (umem sys_stdout) 4096) = 1) by (vm_compute; reflexivity).
  assert (H : ~ (2 <= int32 (load32 (umem sys_stdout) 4096) < 128)) by (rewrite Hfd; lia).
  assert (Hn : check_pointer 3221225472 sys_stdout 0 = false) by (vm_compute; reflexivity).
  split.
  - split; [exact Hc|]. split; [exact sys_stdout_argument|]. split; [exact H|].
    destruct (proj2 (invalid_fd_calls 128 3221225472 sys_stdout 4096) Hc
                sys_stdout_argument H) as (Hsize & _ & _ & _ & Hr & _).
    split; [exact Hsize|]. apply Hr. rewrite Hfd. discriminate.
  - split; [exact Hn|].
    destruct (proj1 (invalid_fd_calls 128 3221225472 sys_stdout 0) Hn)
      as (_ & _ & _ & _ & Hr & Hw).
    split; [exact Hr | exact Hw].
Defined.

End SysFacts.

(** ** Files within the direct entries (filesys/inode.c) *)

Module FileFacts.
Import Inode.

Lemma block_read_length d s : disk_ok d -> Datatypes.length (block_read d s) = 512%nat.
Proof.
  intros Hd. unfold block_read. destruct (d !! s) as [sec|] eqn:E; simpl.
  - exact (Hd _ _ E).
  - reflexivity.
Qed.

Lemma take_drop_map (l : list Z) (o c : nat) :
  (o + c <= Datatypes.length l)%nat ->
  take c (drop o l) = map (fun k => byte_at l (o + k)) (seq 0 c).
Proof.
  intros H. apply list_eq. intros i.
  rewrite list_lookup_fmap.
  destruct (decide (i < c)%nat) as [Hi|Hi].
  - rewrite lookup_take_lt by exact Hi. rewrite lookup_drop.
    rewrite lookup_seq_lt by exact Hi. simpl. unfold byte_at.
    destruct (l !! (o + i)%nat) eqn:E; [reflexivity|].
    apply lookup_ge_None in E. lia.
  - rewrite lookup_take_ge by lia. rewrite lookup_seq_ge by lia. reflexivity.
Qed.

Lemma byte_to_sector_same d di len p q :
  0 <= p -> p <= q -> q <= len -> p / 512 = q / 512 ->
  byte_to_sector d di q len = byte_to_sector d di p len.
Proof.
  intros Hp Hpq Hq Hdiv. unfold byte_to_sector, BLOCK_SECTOR_SIZE.
  replace (q <=? len) with true by lia. replace (p <=? len) with true by lia.
  rewrite !Z.quot_div_nonneg by lia. rewrite Hdiv. reflexivity.
Qed.

Lemma read_loop_spec (fuel : nat) d ino buf size offset br :
  disk_ok d -> 0 <= offset -> (Z.to_nat size <= fuel)%nat ->
  read_loop fuel d ino buf size offset br
  = (br + Z.max 0 (Z.min size (inode_length ino - offset)),
     buf ++ map (fun k => file_byte d (data ino) (inode_length ino) (offset + Z.of_nat k))
              (seq 0 (Z.to_nat (Z.max 0 (Z.min size (inode_length ino - offset)))))).
Proof.
  intros Hd. revert buf size offset br.
  induction fuel as [|fuel IH]; intros buf size offset br Hofs Hfuel.
  - simpl. replace (Z.max 0 _) with 0 by lia. simpl. rewrite Z.add_0_r, app_nil_r. reflexivity.
  - simpl. destruct (0 <? size) eqn:Hsize.
    2:{ replace (Z.max 0 _) with 0 by lia. simpl. rewrite Z.add_0_r, app_nil_r. reflexivity. }
    set (len := inode_length ino).
    change BLOCK_SECTOR_SIZE with 512.
    assert (Hrem : Z.rem offset 512 = offset mod 512) by (apply Z.rem_mod_nonneg; lia).
    rewrite Hrem. pose proof (Z.mod_pos_bound offset 512 ltac:(lia)) as Hmod.
    remember (if size <? (if len - offset <? 512 - offset mod 512 then len - offset
                          else 512 - offset mod 512)
              then size
              else (if len - offset <? 512 - offset mod 512 then len - offset
                    else 512 - offset mod 512)) as chunk eqn:Hchunk.
    assert (Hchunk' : chunk = Z.min size (Z.min (len - offset) (512 - offset mod 512))).
    { subst chunk. destruct (len - offset <? 512 - offset mod 512) eqn:E1;
        destruct (size <? _) eqn:E2; lia. }
    clear Hchunk.
    destruct (chunk <=? 0) eqn:Hc.
    { replace (Z.max 0 _) with 0 by lia. simpl. rewrite Z.add_0_r, app_nil_r. reflexivity. }
    assert (Hc1 : 0 < chunk) by lia.
    rewrite IH by lia.
    set (n' := Z.max 0 (Z.min (size - chunk) (len - (offset + chunk)))).
    assert (Hn : Z.max 0 (Z.min size (len - offset)) = chunk + n') by (subst n'; lia).
    rewrite Hn. f_equal; [lia|].
    rewrite <- app_assoc. f_equal.
    replace (Z.to_nat (chunk + n')) with (Z.to_nat chunk + Z.to_nat n')%nat by lia.
    rewrite seq_app, map_app. f_equal.
    + (* the chunk *)
      set (s := byte_to_sector d (data ino) offset len).
      assert (Hbytes : (if (offset mod 512 =? 0) && (chunk =? 512) then block_read d s
                        else take (idx chunk) (drop (idx (offset mod 512)) (block_read d s)))
                       = take (idx chunk) (drop (idx (offset mod 512)) (block_read d s))).
      { destruct ((offset mod 512 =? 0) && (chunk =? 512)) eqn:E; [|reflexivity].
        apply andb_true_iff in E as [E1 E2].
        apply Z.eqb_eq in E1, E2. rewrite E1, E2.
        change (idx 0) with 0%nat. rewrite drop_0. symmetry. apply take_ge.
        rewrite block_read_length by exact Hd. unfold idx. lia. }
      rewrite Hbytes. rewrite take_drop_map.
      2:{ rewrite block_read_length by exact Hd. unfold idx. lia. }
      apply map_ext_in. intros k Hk. apply in_seq in Hk. unfold file_byte.
      assert (Hdiv : offset / 512 = (offset + Z.of_nat k) / 512).
      { pose proof (Z.div_mod offset 512 ltac:(lia)).
        apply (Z.div_unique_pos _ _ _ (offset mod 512 + Z.of_nat k)); lia. }
      rewrite (byte_to_sector_same d (data ino) len offset (offset + Z.of_nat k)) by lia.
      fold s. f_equal. unfold idx, BLOCK_SECTOR_SIZE.
      assert (Hm : (offset + Z.of_nat k) mod 512 = offset mod 512 + Z.of_nat k).
      { pose proof (Z.div_mod offset 512 ltac:(lia)).
        symmetry. apply (Z.mod_unique_pos _ _ (offset / 512)); lia. }
      rewrite Hm. lia.
    + replace (seq (0 + Z.to_nat chunk) (Z.to_nat n'))
        with (Nat.add (Z.to_nat chunk) <$> seq 0 (Z.to_nat n'))
        by (rewrite fmap_add_seq; f_equal; lia).
      rewrite <- list_fmap_compose.
      apply map_ext_in. intros k Hk. simpl. f_equal. lia.
Qed.

Lemma read_at_slice d ino size offset :
  disk_ok d -> 0 <= offset ->
  inode_read_at d ino size offset
  = (Z.max 0 (Z.min size (inode_length ino - offset)),
     take (Z.to_nat (Z.max 0 (Z.min size (inode_length ino - offset))))
       (drop (Z.to_nat offset) (contents d ino))).
Proof.
  intros Hd Hofs. unfold inode_read_at. rewrite read_loop_spec by (try assumption; lia).
  simpl. f_equal.
  set (n := Z.max 0 _). unfold contents.
  rewrite <- fmap_drop, <- fmap_take.
  rewrite drop_seq, take_seq.
  replace (Z.to_nat n `min` (Z.to_nat (inode_length ino) - Z.to_nat offset))%nat
    with (Z.to_nat n) by lia.
  replace (seq (0 + Z.to_nat offset) (Z.to_nat n))
    with (Nat.add (Z.to_nat offset) <$> seq 0 (Z.to_nat n))
    by (rewrite fmap_add_seq; f_equal; lia).
  rewrite <- list_fmap_compose.
  apply map_ext_in. intros k Hk. simpl. f_equal. lia.
Qed.

Lemma to_sector_id l : Datatypes.length l = 512%nat -> to_sector l = l.
Proof.
  intros H. unfold to_sector. rewrite take_app_le by lia. apply take_ge. lia.
Qed.

Lemma to_sector_length l : Datatypes.length (to_sector l) = 512%nat.
Proof.
  unfold to_sector. rewrite length_take, length_app. unfold zeros.
  rewrite length_replicate. lia.
Qed.

Lemma disk_ok_write d s buf : disk_ok d -> disk_ok (block_write d s buf).
Proof.
  intros Hd. unfold block_write. apply map_Forall_insert_2; [|exact Hd].
  apply to_sector_length.
Qed.

Lemma block_read_write_eq d s buf : block_read (block_write d s buf) s = to_sector buf.
Proof. unfold block_read, block_write. rewrite lookup_insert_eq. reflexivity. Qed.

Lemma block_read_write_ne d s t buf :
  s <> t -> block_read (block_write d s buf) t = block_read d t.
Proof. intros H. unfold block_read, block_write. rewrite lookup_insert_ne by exact H. reflexivity. Qed.

Lemma memcpy_length old o src :
  Datatypes.length old = 512%nat -> 0 <= o -> (Z.to_nat o + Datatypes.length src <= 512)%nat ->
  Datatypes.length (memcpy old o src) = 512%nat.
Proof.
  intros Hold Ho Hsrc. unfold memcpy, idx.
  rewrite !length_app, length_take, length_drop. lia.
Qed.

Lemma byte_at_memcpy old o src (j : nat) :
  Datatypes.length old = 512%nat -> 0 <= o -> (Z.to_nat o + Datatypes.length src <= 512)%nat ->
  byte_at (memcpy old o src) j
  = if decide (Z.to_nat o <= j < Z.to_nat o + Datatypes.length src)%nat
    then byte_at src (j - Z.to_nat o) else byte_at old j.
Proof.
  intros Hold Ho Hsrc. unfold memcpy, byte_at, idx.
  destruct (decide (j < Z.to_nat o)%nat) as [Hlt|Hge].
  - rewrite lookup_app_l by (rewrite length_take; lia).
    rewrite lookup_take_lt by exact Hlt.
    destruct (decide _) as [H|H]; [lia | reflexivity].
  - rewrite lookup_app_r by (rewrite length_take; lia).
    rewrite length_take. replace (Z.to_nat o `min` Datatypes.length old)%nat with (Z.to_nat o) by lia.
    destruct (decide (j - Z.to_nat o < Datatypes.length src)%nat) as [Hin|Hout].
    + rewrite lookup_app_l by exact Hin.
      destruct (decide _) as [H|H]; [reflexivity | lia].
    + rewrite lookup_app_r by lia. rewrite lookup_drop.
      destruct (decide _) as [H|H]; [lia|].
      f_equal. f_equal. lia.
Qed.

Lemma byte_to_sector_direct d di pos len :
  0 <= pos -> pos <= len -> pos < 5120 ->
  byte_to_sector d di pos len = get (data_blocks di) (pos / 512).
Proof.
  intros H0 H1 H2. unfold byte_to_sector, BLOCK_SECTOR_SIZE, DIRECT_SECTORS.
  replace (pos <=? len) with true by lia.
  rewrite Z.quot_div_nonneg by lia.
  assert (0 <= pos / 512 < 10).
  { split; [apply Z.div_pos; lia|]. apply Z.div_lt_upper_bound; lia. }
  unfold uint32. rewrite Z.mod_small by lia.
  replace (pos / 512 <? 10) with true by lia. reflexivity.
Qed.

Lemma file_byte_direct d di len pos :
  0 <= pos -> pos <= len -> pos < 5120 ->
  file_byte d di len pos = direct_byte (data_blocks di) d pos.
Proof.
  intros. unfold file_byte, direct_byte. rewrite byte_to_sector_direct by assumption. reflexivity.
Qed.

Lemma get_nodup (blocks : list Z) (n : nat) (i j : Z) :
  NoDup (take n blocks) -> (n <= Datatypes.length blocks)%nat ->
  0 <= i < Z.of_nat n -> 0 <= j < Z.of_nat n -> i <> j ->
  get blocks i <> get blocks j.
Proof.
  intros Hnd Hlen Hi Hj Hij Heq. unfold get, idx in Heq.
  destruct (lookup_lt_is_Some_2 blocks (Z.to_nat i) ltac:(lia)) as [x Hx].
  destruct (lookup_lt_is_Some_2 blocks (Z.to_nat j) ltac:(lia)) as [y Hy].
  rewrite Hx, Hy in Heq. simpl in Heq. subst y.
  assert (Z.to_nat i = Z.to_nat j).
  { eapply NoDup_lookup; [exact Hnd| |].
    - rewrite lookup_take_lt by lia. exact Hx.
    - rewrite lookup_take_lt by lia. exact Hy. }
  lia.
Qed.

Lemma get_in_take (blocks : list Z) (n : nat) (i : Z) :
  (n <= Datatypes.length blocks)%nat -> 0 <= i < Z.of_nat n ->
  get blocks i ∈ take n blocks.
Proof.
  intros Hlen Hi. unfold get, idx.
  destruct (lookup_lt_is_Some_2 blocks (Z.to_nat i) ltac:(lia)) as [x Hx].
  rewrite Hx. simpl. apply list_elem_of_lookup. exists (Z.to_nat i).
  rewrite lookup_take_lt by lia. exact Hx.
Qed.

(** One pass of the loop of [inode_write_at] on a file held in the
    direct entries. *)
Lemma write_loop_small (fuel : nat) (ino : inode) (buffer : list Z) (file_size : Z) (n : nat) :
  let blocks := data_blocks (data ino) in
  NoDup (take n blocks) -> (n <= Datatypes.length blocks)%nat ->
  file_size <= 512 * Z.of_nat n -> file_size <= 5120 ->
  forall d size offset bw,
    disk_ok d -> 0 <= offset -> 0 <= bw -> 0 <= size ->
    (Z.to_nat size <= fuel)%nat ->
    offset + size <= file_size ->
    bw + size <= Z.of_nat (Datatypes.length buffer) ->
    exists d',
      write_loop fuel d ino buffer file_size size offset bw = (d', bw + size)
      /\ disk_ok d'
      /\ (forall pos, 0 <= pos < 512 * Z.of_nat n ->
            direct_byte blocks d' pos
            = if (offset <=? pos) && (pos <? offset + size)
              then byte_at buffer (Z.to_nat (bw + (pos - offset)))
              else direct_byte blocks d pos)
      /\ (forall s, s ∉ take n blocks -> d' !! s = d !! s).
Proof.
  intros blocks Hnd Hn Hfs Hfs2.
  induction fuel as [|fuel IH]; intros d size offset bw Hd Hofs Hbw Hsize Hfuel Hend Hbuf.
  - assert (size = 0) by lia. subst size. exists d. simpl.
    split; [f_equal; lia|]. split; [exact Hd|]. split; [|reflexivity].
    intros pos Hpos. replace ((offset <=? pos) && (pos <? offset + 0)) with false; [reflexivity|].
    symmetry. apply andb_false_iff. lia.
  - simpl. destruct (0 <? size) eqn:Hs.
    2:{ assert (size = 0) by lia. subst size. exists d.
        split; [f_equal; lia|]. split; [exact Hd|]. split; [|reflexivity].
        intros pos Hpos.
        replace ((offset <=? pos) && (pos <? offset + 0)) with false; [reflexivity|].
        symmetry. apply andb_false_iff. lia. }
    change BLOCK_SECTOR_SIZE with 512.
    assert (Hrem : Z.rem offset 512 = offset mod 512) by (apply Z.rem_mod_nonneg; lia).
    rewrite Hrem. pose proof (Z.mod_pos_bound offset 512 ltac:(lia)) as Hmod.
    pose proof (Z.div_mod offset 512 ltac:(lia)) as Hdm.
    remember (if size <? (if file_size - offset <? 512 - offset mod 512 then file_size - offset
                          else 512 - offset mod 512)
              then size
              else (if file_size - offset <? 512 - offset mod 512 then file_size - offset
                    else 512 - offset mod 512)) as chunk eqn:Hchunk.
    assert (Hchunk' : chunk = Z.min size (512 - offset mod 512)).
    { subst chunk. destruct (file_size - offset <? 512 - offset mod 512) eqn:E1;
        destruct (size <? _) eqn:E2; lia. }
    clear Hchunk.
    replace (chunk <=? 0) with false by lia.
    assert (Hidx : 0 <= offset / 512 < Z.of_nat n).
    { split; [apply Z.div_pos; lia|]. apply Z.div_lt_upper_bound; lia. }
    rewrite (byte_to_sector_direct d (data ino) offset file_size) by lia.
    fold blocks.
    set (s := get blocks (offset / 512)).
    set (src := take (idx chunk) (drop (idx bw) buffer)).
    assert (Hsrc : Datatypes.length src = Z.to_nat chunk).
    { subst src. unfold idx. rewrite length_take, length_drop. lia. }
    set (d1 := block_write d s (memcpy (block_read d s) (offset mod 512) src)).
    assert (Hd1 : (if (offset mod 512 =? 0) && (chunk =? 512) then block_write d s src
                   else block_write d s
                          (memcpy (if (0 <? offset mod 512) || (chunk <? 512 - offset mod 512)
                                   then block_read d s else zeros) (offset mod 512) src))
                  = d1).
    { subst d1. destruct ((offset mod 512 =? 0) && (chunk =? 512)) eqn:E.
      - apply andb_true_iff in E as [E1 E2]. apply Z.eqb_eq in E1, E2.
        rewrite E1. unfold memcpy. change (idx 0) with 0%nat. rewrite take_0. simpl.
        rewrite drop_ge by (rewrite block_read_length by exact Hd; lia).
        rewrite app_nil_r. reflexivity.
      - destruct ((0 <? offset mod 512) || (chunk <? 512 - offset mod 512)) eqn:E2; [reflexivity|].
        apply orb_false_iff in E2 as [E2 E3]. apply andb_false_iff in E. lia. }
    rewrite Hd1.
    assert (Hdok1 : disk_ok d1) by (apply disk_ok_write; exact Hd).
    destruct (IH d1 (size - chunk) (offset + chunk) (bw + chunk) Hdok1
                ltac:(lia) ltac:(lia) ltac:(lia) ltac:(lia) ltac:(lia) ltac:(lia))
      as (d' & Hrun & Hdok' & Hbytes & Hother).
    exists d'. rewrite Hrun. split; [f_equal; lia|]. split; [exact Hdok'|]. split.
    + intros pos Hpos. rewrite (Hbytes pos Hpos).
      destruct ((offset + chunk <=? pos) && (pos <? offset + chunk + (size - chunk))) eqn:E.
      * apply andb_true_iff in E as [E1 E2].
        replace ((offset <=? pos) && (pos <? offset + size)) with true
          by (symmetry; apply andb_true_iff; lia).
        f_equal. lia.
      * assert (Hnot : ~ (offset + chunk <= pos < offset + size)).
        { apply andb_false_iff in E. lia. }
        pose proof (Z.mod_pos_bound pos 512 ltac:(lia)) as Hpm.
        pose proof (Z.div_mod pos 512 ltac:(lia)) as Hpdm.
        assert (Hpidx : 0 <= pos / 512 < Z.of_nat n).
        { split; [apply Z.div_pos; lia|]. apply Z.div_lt_upper_bound; lia. }
        unfold direct_byte. destruct (decide (pos / 512 = offset / 512)) as [Heq|Hne].
        -- rewrite Heq. fold s. subst d1. rewrite block_read_write_eq.
           rewrite to_sector_id
             by (apply memcpy_length; [apply block_read_length; exact Hd | lia | lia]).
           rewrite byte_at_memcpy by (try apply block_read_length; try exact Hd; lia).
           destruct (decide _) as [Hin|Hout].
           ++ replace ((offset <=? pos) && (pos <? offset + size)) with true
                by (symmetry; apply andb_true_iff; lia).
              subst src. unfold byte_at, idx.
              rewrite lookup_take_lt by lia. rewrite lookup_drop. f_equal. f_equal. lia.
           ++ replace ((offset <=? pos) && (pos <? offset + size)) with false
                by (symmetry; apply andb_false_iff; lia).
              reflexivity.
        -- assert (Hsne : s <> get blocks (pos / 512)).
           { subst s. apply (get_nodup blocks n); try assumption; lia. }
           subst d1. rewrite block_read_write_ne by exact Hsne.
           replace ((offset <=? pos) && (pos <? offset + size)) with false; [reflexivity|].
           symmetry. apply andb_false_iff.
           destruct (decide (pos < offset)); [lia|]. right.
           assert (pos / 512 > offset / 512).
           { assert (offset / 512 <= pos / 512) by (apply Z.div_le_mono; lia). lia. }
           lia.
    + intros t Ht. rewrite (Hother t Ht). subst d1. unfold block_write.
      apply lookup_insert_ne. intros <-. apply Ht. subst s.
      apply get_in_take; assumption.
Qed.

Lemma free_map_count_cons b fm :
  free_map_count (b :: fm) = (if b then 0 else 1) + free_map_count fm.
Proof.
  unfold free_map_count. rewrite filter_cons. destruct b; destruct (decide _); simpl;
    try congruence; lia.
Qed.

Lemma free_map_count_nonneg fm : 0 <= free_map_count fm.
Proof. unfold free_map_count. lia. Qed.

Lemma count_insert_true (fm : list bool) (i : nat) :
  fm !! i = Some false -> free_map_count (<[i := true]> fm) = free_map_count fm - 1.
Proof.
  revert i. induction fm as [|b fm IH]; intros i H; [discriminate|].
  destruct i as [|i]; simpl in *.
  - injection H as ->. rewrite !free_map_count_cons. lia.
  - rewrite !free_map_count_cons. rewrite IH by exact H. lia.
Qed.

Lemma count_insert_false (fm : list bool) (i : nat) :
  fm !! i = Some true -> free_map_count (<[i := false]> fm) = free_map_count fm + 1.
Proof.
  revert i. induction fm as [|b fm IH]; intros i H; [discriminate|].
  destruct i as [|i]; simpl in *.
  - injection H as ->. rewrite !free_map_count_cons. lia.
  - rewrite !free_map_count_cons. rewrite IH by exact H. lia.
Qed.

Lemma first_free_none (bm : list bool) (i : Z) :
  first_free bm i = None -> free_map_count bm = 0.
Proof.
  revert i. induction bm as [|b bm IH]; intros i H; simpl in H; [reflexivity|].
  destruct b; [|discriminate]. rewrite free_map_count_cons. rewrite (IH _ H). reflexivity.
Qed.

(** A successful [free_map_allocate]. *)
Lemma free_map_allocate_some (fm : list bool) (old : Z) :
  0 < free_map_count fm ->
  exists s, free_map_allocate fm old = (<[idx s := true]> fm, s, true)
            /\ 0 <= s /\ fm !! idx s = Some false.
Proof.
  intros Hc. unfold free_map_allocate.
  destruct (first_free fm 0) as [s|] eqn:E.
  - apply VMFacts.first_free_clear in E as [Hs Hl]. exists s.
    split; [reflexivity|]. split; [lia|]. unfold idx.
    replace (s - 0) with s in Hl by lia. exact Hl.
  - apply first_free_none in E. lia.
Qed.

Lemma get_set_eq (arr : list Z) (i v : Z) :
  (idx i < Datatypes.length arr)%nat -> get (set arr i v) i = v.
Proof.
  intros H. unfold get, set. rewrite list_lookup_insert_eq by exact H. reflexivity.
Qed.

(** What the allocation loop shared by [extend] and
    [allocate_first_level] does when the free map has room. *)
Lemma allocate_zeroed_spec (n : nat) :
  forall (index : Z) (f : fs) (arr : list Z),
    disk_ok (disk f) -> 0 <= index ->
    (idx index + n <= Datatypes.length arr)%nat ->
    Z.of_nat n <= free_map_count (free_map f) ->
    exists new f',
      allocate_zeroed n index f arr
      = (f', take (idx index) arr ++ new ++ drop (idx index + n) arr)
      /\ Datatypes.length new = n
      /\ NoDup new
      /\ Forall (fun s => 0 <= s /\ free_map f !! idx s = Some false
                          /\ block_read (disk f') s = zeros) new
      /\ (forall i, free_map f' !! i
                    = if bool_decide (i ∈ (idx <$> new)) then Some true else free_map f !! i)
      /\ free_map_count (free_map f') = free_map_count (free_map f) - Z.of_nat n
      /\ disk_ok (disk f')
      /\ (forall s, s ∉ new -> disk f' !! s = disk f !! s).
Proof.
  induction n as [|n IH]; intros index f arr Hd Hidx Hlen Hroom.
  - exists [], f. simpl. rewrite Nat.add_0_r, take_drop.
    split; [reflexivity|]. split; [reflexivity|]. split; [constructor|].
    split; [constructor|]. split; [intros i; reflexivity|].
    split; [lia|]. split; [exact Hd|]. reflexivity.
  - simpl.
    destruct (free_map_allocate_some (free_map f) (get arr index) ltac:(lia))
      as (s & Halloc & Hs0 & Hsfree).
    rewrite Halloc. rewrite get_set_eq by lia.
    set (f1 := mk_fs (block_write (disk f) s zeros) (<[idx s := true]> (free_map f))).
    destruct (IH (index + 1) f1 (set arr index s)) as (new & f' & Hrun & Hnl & Hnd & Hall & Hfm & Hcnt & Hd' & Hother).
    { apply disk_ok_write. exact Hd. }
    { lia. }
    { unfold set. rewrite length_insert. unfold idx in *. lia. }
    { subst f1. simpl. rewrite count_insert_true by exact Hsfree. lia. }
    assert (Hsnew : s ∉ new).
    { intros Hin. rewrite Forall_forall in Hall. destruct (Hall s Hin) as (_ & Hf & _).
      subst f1. simpl in Hf. rewrite list_lookup_insert_eq in Hf; [discriminate|].
      apply lookup_lt_is_Some. eauto. }
    exists (s :: new), f'. rewrite Hrun.
    split.
    { f_equal. unfold set, idx in *.
      replace (Z.to_nat (index + 1)) with (S (Z.to_nat index)) by lia.
      rewrite (take_S_r _ _ s) by (apply list_lookup_insert_eq; lia).
      rewrite take_insert_ge by lia.
      rewrite drop_insert_lt by lia.
      rewrite <- app_assoc. simpl.
      rewrite Nat.add_succ_r. reflexivity. }
    split; [simpl; lia|].
    split; [constructor; assumption|].
    split.
    { constructor.
      - split; [exact Hs0|]. split; [exact Hsfree|].
        unfold block_read. rewrite (Hother s Hsnew). subst f1. simpl.
        unfold block_write. rewrite lookup_insert_eq. simpl. apply to_sector_id. reflexivity.
      - rewrite Forall_forall in Hall |- *. intros t Ht.
        destruct (Hall t Ht) as (Ht0 & Htf & Htz). split; [exact Ht0|]. split; [|exact Htz].
        subst f1. simpl in Htf.
        destruct (decide (idx s = idx t)) as [Heq|Hne].
        + rewrite Heq in Htf. rewrite list_lookup_insert_eq in Htf; [discriminate|].
          rewrite <- Heq. apply lookup_lt_is_Some. eauto.
        + rewrite list_lookup_insert_ne in Htf by exact Hne. exact Htf. }
    split.
    { intros i. rewrite Hfm. subst f1. simpl.
      rewrite ?fmap_cons.
      destruct (bool_decide (i ∈ idx <$> new)) eqn:E1.
      - apply bool_decide_eq_true in E1.
        rewrite bool_decide_eq_true_2 by (apply elem_of_cons; right; exact E1). reflexivity.
      - apply bool_decide_eq_false in E1.
        destruct (decide (i = idx s)) as [->|Hne].
        + rewrite bool_decide_eq_true_2 by (apply elem_of_cons; left; reflexivity).
          apply list_lookup_insert_eq. apply lookup_lt_is_Some. eauto.
        + rewrite bool_decide_eq_false_2
            by (intros [H|H]%elem_of_cons; [congruence | exact (E1 H)]).
          apply list_lookup_insert_ne. congruence. }
    split.
    { rewrite Hcnt. subst f1. simpl. rewrite count_insert_true by exact Hsfree. lia. }
    split; [exact Hd'|].
    intros t Ht. rewrite Hother by (intros H; apply Ht; apply elem_of_cons; right; exact H).
    subst f1. simpl. unfold block_write. apply lookup_insert_ne.
    intros <-. apply Ht. apply elem_of_cons. left. reflexivity.
Qed.

Lemma le32_decode (n : Z) :
  0 <= n < 4294967296 ->
  n mod 256 + 256 * ((n / 256) mod 256) + 65536 * ((n / 65536) mod 256)
  + 16777216 * ((n / 16777216) mod 256) = n.
Proof.
  intros Hn.
  assert (E2 : n / 65536 = n / 256 / 256) by (rewrite Z.div_div by lia; reflexivity).
  assert (E3 : n / 16777216 = n / 65536 / 256) by (rewrite Z.div_div by lia; reflexivity).
  pose proof (Z.div_mod n 256 ltac:(lia)) as H0.
  pose proof (Z.div_mod (n / 256) 256 ltac:(lia)) as H1.
  pose proof (Z.div_mod (n / 65536) 256 ltac:(lia)) as H2.
  rewrite <- E2 in H1. rewrite <- E3 in H2.
  assert (H3 : n / 16777216 < 256) by (apply Z.div_lt_upper_bound; lia).
  assert (H4 : 0 <= n / 16777216) by (apply Z.div_pos; lia).
  rewrite (Z.mod_small (n / 16777216) 256) by lia.
  lia.
Qed.

Lemma word_at_app_le32 (w : Z) (rest : list Z) (i : nat) :
  word_at (le32 w ++ rest) (Z.of_nat (S i)) = word_at rest (Z.of_nat i).
Proof.
  unfold word_at, idx. rewrite !Nat2Z.id.
  replace (4 * S i)%nat with (4 + 4 * i)%nat by lia.
  unfold byte_at. simpl. rewrite !Nat.add_0_r. reflexivity.
Qed.

Lemma word_at_flat_map (ws pad : list Z) (i : nat) :
  Forall (fun w => 0 <= w < 4294967296) ws ->
  (forall k, byte_at pad k = 0) ->
  word_at (flat_map le32 ws ++ pad) (Z.of_nat i) = default 0 (ws !! i).
Proof.
  intros Hws Hpad. revert i. induction Hws as [|w ws Hw Hws IH]; intros i.
  - simpl. unfold word_at. rewrite !Hpad. destruct i; reflexivity.
  - destruct i as [|i].
    + unfold word_at, byte_at. simpl. apply le32_decode. exact Hw.
    + change (flat_map le32 (w :: ws) ++ pad) with (le32 w ++ (flat_map le32 ws ++ pad)).
      rewrite word_at_app_le32. simpl. apply IH.
Qed.

Lemma byte_at_zeros k : byte_at zeros k = 0.
Proof.
  unfold byte_at, zeros. destruct (replicate 512 0 !! k) as [x|] eqn:E; [|reflexivity].
  apply lookup_replicate in E as [-> _]. reflexivity.
Qed.

Lemma word_at_take (l : list Z) (i : nat) :
  (i < 128)%nat -> word_at (take 512 l) (Z.of_nat i) = word_at l (Z.of_nat i).
Proof.
  intros Hi. unfold word_at, byte_at, idx. rewrite Nat2Z.id.
  rewrite !lookup_take_lt by lia. reflexivity.
Qed.

(** A sector written from words in range is read back as the same
    words, followed by zeros. *)
Lemma words_of_sector_of_words (ws : list Z) :
  (Datatypes.length ws <= 128)%nat ->
  Forall (fun w => 0 <= w < 4294967296) ws ->
  words_of_sector (sector_of_words ws)
  = ws ++ replicate (128 - Datatypes.length ws) 0.
Proof.
  intros Hlen Hws. apply list_eq. intros i.
  unfold words_of_sector, sector_of_words, to_sector.
  rewrite list_lookup_fmap.
  destruct (decide (i < 128)%nat) as [Hi|Hi].
  - rewrite lookup_seq_lt by exact Hi. simpl.
    rewrite word_at_take by exact Hi.
    rewrite word_at_flat_map by (try exact Hws; apply byte_at_zeros).
    destruct (decide (i < Datatypes.length ws)%nat) as [Hin|Hout].
    + rewrite lookup_app_l by exact Hin.
      destruct (lookup_lt_is_Some_2 ws i Hin) as [w Hw]. rewrite Hw. reflexivity.
    + rewrite lookup_app_r by lia. rewrite lookup_replicate_2 by lia.
      rewrite (proj2 (lookup_ge_None ws i)) by lia. reflexivity.
  - rewrite lookup_seq_ge by lia. simpl. symmetry. apply lookup_ge_None.
    rewrite length_app, length_replicate. lia.
Qed.

Lemma int32_uint32 z : -2147483648 <= z < 2147483648 -> int32 (uint32 z) = z.
Proof.
  intros Hz. unfold int32, uint32. rewrite Z.mod_mod by lia.
  destruct (decide (0 <= z)).
  - rewrite Z.mod_small by lia. replace (z <? 2147483648) with true by lia. reflexivity.
  - replace (z mod 4294967296) with (z + 4294967296).
    + replace (z + 4294967296 <? 2147483648) with false by lia. lia.
    + apply (Z.mod_unique_pos _ _ (-1)); lia.
Qed.

Lemma uint32_small z : 0 <= z < 4294967296 -> uint32 z = z.
Proof. intros. unfold uint32. apply Z.mod_small. assumption. Qed.

Lemma uint32_range z : 0 <= uint32 z < 4294967296.
Proof. unfold uint32. apply Z.mod_pos_bound. lia. Qed.

(** The on-disk inode is decoded from its sector as it was encoded. *)
Lemma inode_disk_roundtrip_aux (di : inode_disk) :
  inode_disk_ok di -> inode_disk_of_sector (inode_disk_to_sector di) = di.
Proof.
  intros (Hlen & Hblocks & Hl & Hm & Hp & Hd).
  unfold inode_disk_of_sector, inode_disk_to_sector.
  rewrite take_app_le by lia. rewrite (take_ge (data_blocks di)) by lia.
  rewrite words_of_sector_of_words.
  2:{ rewrite length_app. simpl. lia. }
  2:{ apply Forall_app. split; [exact Hblocks|].
      repeat (constructor; [apply uint32_range|]). constructor. }
  rewrite <- app_assoc.
  rewrite take_app_le by lia. rewrite (take_ge (data_blocks di)) by lia.
  unfold get, idx.
  change (Z.to_nat 12) with 12%nat. change (Z.to_nat 13) with 13%nat.
  change (Z.to_nat 14) with 14%nat. change (Z.to_nat 15) with 15%nat.
  rewrite !(lookup_app_r (data_blocks di)) by lia. rewrite Hlen. simpl.
  rewrite int32_uint32 by exact Hl. rewrite !uint32_small by assumption.
  destruct di; reflexivity.
Qed.

Lemma int32_small z : 0 <= z < 2147483648 -> int32 z = z.
Proof.
  intros Hz. unfold int32, uint32. rewrite Z.mod_small by lia.
  replace (z <? 2147483648) with true by lia. reflexivity.
Qed.

Lemma bytes_to_sectors_small len :
  0 <= len < 2147483648 -> bytes_to_sectors len = (len + 511) / 512.
Proof.
  intros H. unfold bytes_to_sectors, BLOCK_SECTOR_SIZE.
  rewrite Z.quot_div_nonneg by lia.
  replace (len + 512 - 1) with (len + 511) by lia.
  apply uint32_small. split; [apply Z.div_pos; lia|].
  apply Z.div_lt_upper_bound; lia.
Qed.

Lemma sectors_bound len : 0 <= len <= 5120 -> 0 <= (len + 511) / 512 <= 10.
Proof.
  intros H. split; [apply Z.div_pos; lia|].
  assert ((len + 511) / 512 < 11) by (apply Z.div_lt_upper_bound; lia). lia.
Qed.

Lemma sectors_cover len : 0 <= len -> len <= 512 * ((len + 511) / 512).
Proof.
  intros H. pose proof (Z.div_mod (len + 511) 512 ltac:(lia)).
  pose proof (Z.mod_pos_bound (len + 511) 512 ltac:(lia)). lia.
Qed.

Lemma sectors_mono a b : 0 <= a <= b -> (a + 511) / 512 <= (b + 511) / 512.
Proof. intros H. apply Z.div_le_mono; lia. Qed.

(** [extend] when the file stays within the direct entries. *)
Lemma extend_small (f : fs) (di : inode_disk) (total start : Z) :
  0 <= start <= total -> total <= 10 ->
  extend f di total start
  = let '(f', blocks) :=
      allocate_zeroed (Z.to_nat (total - start)) start f (data_blocks di) in
    (f', set_data_blocks di blocks).
Proof.
  intros Hs Ht. unfold extend, DIRECT_SECTORS.
  assert (Hnd : int32 (if 10 <=? total then 10 else total) = total).
  { destruct (10 <=? total) eqn:E; rewrite int32_small by lia; lia. }
  rewrite Hnd. rewrite (int32_small start) by lia.
  destruct (allocate_zeroed _ _ _ _) as [f' blocks].
  replace (uint32 (total - total)) with 0 by (rewrite Z.sub_diag; reflexivity).
  reflexivity.
Qed.

Lemma check_length_small (fm : list bool) (k : Z) :
  0 <= k <= 10 -> check_length fm k = (k <=? free_map_count fm).
Proof.
  intros Hk. unfold check_length, DIRECT_SECTORS, SECTORS_BEFORE_SL, POINTERS_IN_SECTOR,
    DIRECT_SECTORS.
  replace (10 <? k) with false by lia. replace (10 + 128 <? k) with false by lia.
  rewrite uint32_small by lia. reflexivity.
Qed.

Lemma set_data_same ino : set_data ino (set_data_blocks (data ino) (data_blocks (data ino))) = ino.
Proof. destruct ino as [? ? ? ? []]; reflexivity. Qed.

(** [inode_write_at] on a file that stays within the direct entries,
    when the free map has room for the sectors it adds. *)
Lemma inode_write_at_small_eq f ino buffer size offset :
  0 <= inode_length ino <= 5120 -> deny_write_cnt ino = 0 ->
  0 <= offset -> 0 <= size -> offset + size <= 5120 ->
  (offset + size + 511) / 512 - (inode_length ino + 511) / 512
    <= free_map_count (free_map f) ->
  inode_write_at f ino buffer size offset
  = let L := inode_length ino in
    let N' := offset + size in
    let '(f1, blocks1) :=
      allocate_zeroed (Z.to_nat ((N' + 511) / 512 - (L + 511) / 512)) ((L + 511) / 512) f
        (data_blocks (data ino)) in
    let ino1 := set_data ino (set_data_blocks (data ino) blocks1) in
    let '(d2, n) := write_loop (Z.to_nat size) (disk f1) ino1 buffer (Z.max L N') size offset 0 in
    if L <? N' then
      (mk_fs (block_write d2 (sector ino) (inode_disk_to_sector (set_length (data ino1) N')))
         (free_map f1),
       set_data ino1 (set_length (data ino1) N'), n)
    else (mk_fs d2 (free_map f1), ino1, n).
Proof.
  intros HL Hdeny Hofs Hsize Hend Hroom. unfold inode_write_at.
  rewrite Hdeny. simpl negb. cbv iota.
  unfold inode_length in *. set (L := length (data ino)) in *.
  rewrite (int32_small (offset + size)) by lia.
  set (N' := offset + size) in *.
  rewrite (bytes_to_sectors_small N') by lia. rewrite (bytes_to_sectors_small L) by lia.
  pose proof (sectors_bound L HL) as Hc. pose proof (sectors_bound N' ltac:(lia)) as Hc'.
  set (c := (L + 511) / 512) in *. set (c' := (N' + 511) / 512) in *.
  assert (Hfs : (if L <? N' then N' else L) = Z.max L N') by (destruct (L <? N') eqn:E; lia).
  rewrite Hfs.
  destruct (c <? c') eqn:Hgrow.
  - rewrite uint32_small by lia. rewrite check_length_small by lia.
    replace (c' - c <=? free_map_count (free_map f)) with true by lia. simpl andb. cbv iota.
    rewrite extend_small by lia.
    destruct (allocate_zeroed _ _ _ _) as [f1 blocks1]. simpl.
    destruct (write_loop _ _ _ _ _ _ _ _) as [d2 n].
    destruct (L <? N'); reflexivity.
  - simpl andb. cbv iota.
    replace (Z.to_nat (c' - c)) with 0%nat by lia. simpl allocate_zeroed. cbv iota beta.
    rewrite set_data_same.
    destruct (write_loop _ _ _ _ _ _ _ _) as [d2 n].
    destruct (L <? N'); reflexivity.
Qed.

Lemma direct_byte_eq blocks1 blocks d1 d k :
  get blocks1 (k / 512) = get blocks (k / 512) ->
  d1 !! get blocks (k / 512) = d !! get blocks (k / 512) ->
  direct_byte blocks1 d1 k = direct_byte blocks d k.
Proof. intros H1 H2. unfold direct_byte, block_read. rewrite H1, H2. reflexivity. Qed.

Lemma div512_bounds k n : 0 <= k < 512 * n -> 0 <= k / 512 < n.
Proof.
  intros H. split; [apply Z.div_pos; lia|]. apply Z.div_lt_upper_bound; lia.
Qed.

Lemma direct_sectors_eq ino :
  0 <= inode_length ino <= 5120 ->
  direct_sectors ino = take (Z.to_nat ((inode_length ino + 511) / 512)) (data_blocks (data ino)).
Proof.
  intros H. unfold direct_sectors. rewrite bytes_to_sectors_small by lia. reflexivity.
Qed.

Lemma write_small_main f ino buffer size offset :
  small_file f ino -> deny_write_cnt ino = 0 ->
  0 <= offset -> 0 <= size -> offset + size <= 5120 ->
  Z.of_nat (Datatypes.length buffer) = size ->
  (offset + size + 511) / 512 - (inode_length ino + 511) / 512
    <= free_map_count (free_map f) ->
  exists f' ino',
    inode_write_at f ino buffer size offset = (f', ino', size)
    /\ inode_length ino' = Z.max (inode_length ino) (offset + size)
    /\ sector ino' = sector ino /\ open_cnt ino' = open_cnt ino
    /\ removed ino' = removed ino /\ deny_write_cnt ino' = deny_write_cnt ino
    /\ parent_directory (data ino') = parent_directory (data ino)
    /\ is_directory (data ino') = is_directory (data ino)
    /\ small_file f' ino'
    /\ free_map_count (free_map f')
       = free_map_count (free_map f)
         - Z.max 0 ((offset + size + 511) / 512 - (inode_length ino + 511) / 512)
    /\ (forall k, 0 <= k < Z.max (inode_length ino) (offset + size) ->
          direct_byte (data_blocks (data ino')) (disk f') k
          = if (offset <=? k) && (k <? offset + size)
            then byte_at buffer (Z.to_nat (k - offset))
            else if k <? inode_length ino then direct_byte (data_blocks (data ino)) (disk f) k
                 else 0)
    /\ (forall s, 0 <= s -> free_map f !! idx s = Some true ->
          s ∉ direct_sectors ino -> s <> sector ino ->
          disk f' !! s = disk f !! s /\ free_map f' !! idx s = Some true).
Proof.
  intros (HL & Hb12 & Hnd & Hused & (Hsec0 & Hsecu) & Hdok & Hslack) Hdeny Hofs Hsize Hend
    Hbuf Hroom.
  rewrite inode_write_at_small_eq by assumption. cbv zeta.
  rewrite direct_sectors_eq in Hnd, Hused by exact HL.
  rewrite direct_sectors_eq by exact HL.
  unfold inode_length in *.
  set (L := length (data ino)) in *. set (N' := offset + size) in *.
  set (blocks := data_blocks (data ino)) in *.
  pose proof (sectors_bound L HL) as Hc. pose proof (sectors_bound N' ltac:(lia)) as Hc'.
  set (c := (L + 511) / 512) in *. set (c' := (N' + 511) / 512) in *.
  pose proof (free_map_count_nonneg (free_map f)) as Hcnt0.
  destruct (allocate_zeroed_spec (Z.to_nat (c' - c)) c f blocks Hdok ltac:(lia)
              ltac:(unfold idx; lia) ltac:(lia))
    as (new & f1 & Hrun & Hnl & Hndn & Hall & Hfm & Hcnt & Hd1 & Hother).
  rewrite Hrun. unfold idx in *.
  set (blocks1 := take (Z.to_nat c) blocks ++ new
                  ++ drop (Z.to_nat c + Z.to_nat (c' - c)) blocks) in *.
  set (ino1 := set_data ino (set_data_blocks (data ino) blocks1)).
  set (N := Z.max L N').
  set (cN := Z.to_nat (Z.max c c')).
  assert (Hb1len : Datatypes.length blocks1 = 12%nat).
  { subst blocks1. unfold idx. rewrite !length_app, length_take, length_drop. lia. }
  assert (Htake : take cN blocks1 = take (Z.to_nat c) blocks ++ new).
  { subst blocks1 cN. unfold idx.
    rewrite take_app_ge by (rewrite length_take; lia).
    rewrite length_take. f_equal.
    rewrite take_app_le by lia. apply take_ge. lia. }
  assert (Hdisj : forall s, s ∈ take (Z.to_nat c) blocks -> s ∉ new).
  { intros s Hs Hn. rewrite Forall_forall in Hused, Hall.
    destruct (Hused s Hs) as (_ & Ht & _). destruct (Hall s Hn) as (_ & Hf & _). congruence. }
  assert (Hnd1 : NoDup (take cN blocks1)).
  { rewrite Htake. apply NoDup_app. split; [exact Hnd|]. split; [exact Hdisj | exact Hndn]. }
  assert (HcN : N <= 512 * Z.of_nat cN).
  { subst N cN. pose proof (sectors_cover L ltac:(lia)). pose proof (sectors_cover N' ltac:(lia)).
    fold c in H. fold c' in H0. lia. }
  assert (HcN2 : Z.of_nat cN = (N + 511) / 512).
  { subst N cN. destruct (Z.le_ge_cases L N') as [H|H].
    - rewrite (Z.max_r L N') by lia. assert (c <= c') by (apply sectors_mono; lia).
      fold c'. lia.
    - rewrite (Z.max_l L N') by lia. assert (c' <= c) by (apply sectors_mono; lia).
      fold c. lia. }
  destruct (write_loop_small (Z.to_nat size) ino1 buffer N cN Hnd1 ltac:(simpl; lia) HcN
              ltac:(lia) (disk f1) size offset 0 Hd1 Hofs ltac:(lia) Hsize ltac:(lia)
              ltac:(lia) ltac:(lia))
    as (d2 & Hrun2 & Hdok2 & Hbytes & Hother2).
  rewrite Hrun2. change (data_blocks (data ino1)) with blocks1 in *.
  (* the bytes after the allocation *)
  assert (Hget1 : forall i, 0 <= i < c -> get blocks1 i = get blocks i).
  { intros i Hi. subst blocks1. unfold get, idx.
    rewrite lookup_app_l by (rewrite length_take; lia).
    rewrite lookup_take_lt by lia. reflexivity. }
  assert (Hget2 : forall i, c <= i < Z.of_nat cN -> get blocks1 i ∈ new).
  { intros i Hi. subst blocks1. unfold get, idx.
    rewrite lookup_app_r by (rewrite length_take; lia). rewrite length_take.
    rewrite lookup_app_l by lia.
    destruct (lookup_lt_is_Some_2 new (Z.to_nat i - Z.to_nat c `min` Datatypes.length blocks)
                ltac:(lia)) as [x Hx].
    rewrite Hx. simpl. apply list_elem_of_lookup. eauto. }
  assert (Hgetold : forall i, 0 <= i < c -> get blocks i ∈ take (Z.to_nat c) blocks).
  { intros i Hi. apply get_in_take; lia. }
  assert (H1 : forall k, 0 <= k < 512 * Z.of_nat cN ->
                 direct_byte blocks1 (disk f1) k = if k <? L then direct_byte blocks (disk f) k else 0).
  { intros k Hk. pose proof (div512_bounds k _ Hk) as Hi.
    pose proof (Z.div_mod k 512 ltac:(lia)) as Hkdm.
    pose proof (Z.mod_pos_bound k 512 ltac:(lia)) as Hkm.
    destruct (decide (k / 512 < c)) as [Hlt|Hge].
    - rewrite (direct_byte_eq blocks1 blocks (disk f1) (disk f) k).
      2:{ apply Hget1. lia. }
      2:{ apply Hother. apply Hdisj. apply Hgetold. lia. }
      destruct (k <? L) eqn:HkL; [reflexivity|].
      apply Z.ltb_ge in HkL.
      pose proof (Z.div_mod L 512 ltac:(lia)) as HLdm.
      pose proof (Z.mod_pos_bound L 512 ltac:(lia)) as HLm.
      pose proof (Z.div_mod (L + 511) 512 ltac:(lia)) as HLdm'.
      pose proof (Z.mod_pos_bound (L + 511) 512 ltac:(lia)) as HLm'.
      fold c in HLdm'.
      assert (HLdiv : L / 512 <= k / 512) by (apply Z.div_le_mono; lia).
      destruct Hslack as [Hz|Hz]; [exfalso; lia|].
      assert (Hkd : k / 512 = L / 512) by lia.
      unfold direct_byte. rewrite Hkd. unfold byte_at.
      destruct (block_read (disk f) (get blocks (L / 512)) !! Z.to_nat (k mod 512))
        as [x|] eqn:Hx; [|reflexivity].
      simpl. rewrite Forall_lookup in Hz.
      apply (Hz (Z.to_nat (k mod 512) - Z.to_nat (L mod 512))%nat).
      rewrite lookup_drop. rewrite <- Hx. f_equal. lia.
    - replace (k <? L) with false.
      2:{ symmetry. apply Z.ltb_ge. pose proof (sectors_cover L ltac:(lia)). fold c in H. lia. }
      assert (Hin : get blocks1 (k / 512) ∈ new) by (apply Hget2; lia).
      rewrite Forall_forall in Hall. destruct (Hall _ Hin) as (_ & _ & Hz).
      unfold direct_byte. rewrite Hz. apply byte_at_zeros. }
  (* the sectors of the file are not the sector of the inode *)
  assert (Hnotself : forall i, 0 <= i < Z.of_nat cN -> get blocks1 i <> sector ino).
  { intros i Hi. destruct (decide (i < c)) as [Hlt|Hge].
    - rewrite Hget1 by lia. rewrite Forall_forall in Hused.
      destruct (Hused _ (Hgetold i ltac:(lia))) as (_ & _ & Hne). exact Hne.
    - intros Heq. rewrite Forall_forall in Hall.
      destruct (Hall _ (Hget2 i ltac:(lia))) as (_ & Hf & _). rewrite Heq in Hf. congruence. }
  set (di2 := set_length (data ino1) N').
  set (d3 := if L <? N' then block_write d2 (sector ino) (inode_disk_to_sector di2) else d2).
  set (ino2 := if L <? N' then set_data ino1 di2 else ino1).
  exists (mk_fs d3 (free_map f1)), ino2.
  assert (Hblocks2 : data_blocks (data ino2) = blocks1) by (subst ino2; destruct (L <? N'); reflexivity).
  assert (Hlen2 : length (data ino2) = N).
  { subst ino2 N. destruct (L <? N') eqn:E; simpl; lia. }
  assert (Hd3 : forall s, s <> sector ino -> d3 !! s = d2 !! s).
  { intros s Hs. subst d3. destruct (L <? N'); [|reflexivity].
    unfold block_write. apply lookup_insert_ne. congruence. }
  assert (Hdok3 : disk_ok d3).
  { subst d3. destruct (L <? N'); [apply disk_ok_write|]; exact Hdok2. }
  assert (Hfinal : forall k, 0 <= k < 512 * Z.of_nat cN ->
            direct_byte blocks1 d3 k
            = if (offset <=? k) && (k <? offset + size)
              then byte_at buffer (Z.to_nat (k - offset))
              else if k <? L then direct_byte blocks (disk f) k else 0).
  { intros k Hk. rewrite <- H1 by exact Hk.
    replace (Z.to_nat (k - offset)) with (Z.to_nat (0 + (k - offset))) by (f_equal; lia).
    rewrite <- (Hbytes k Hk). apply direct_byte_eq; [reflexivity|].
    apply Hd3. apply Hnotself. apply div512_bounds. exact Hk. }
  split.
  { subst d3 ino2 di2. destruct (L <? N'); reflexivity. }
  split; [exact Hlen2|].
  split; [subst ino2; destruct (L <? N'); reflexivity|].
  split; [subst ino2; destruct (L <? N'); reflexivity|].
  split; [subst ino2; destruct (L <? N'); reflexivity|].
  split; [subst ino2; destruct (L <? N'); reflexivity|].
  split; [subst ino2; destruct (L <? N'); reflexivity|].
  split; [subst ino2; destruct (L <? N'); reflexivity|].
  assert (Hfm_used : forall s, free_map f !! Z.to_nat s = Some true ->
                               free_map f1 !! Z.to_nat s = Some true).
  { intros s Hs. rewrite Hfm. destruct (bool_decide _); [reflexivity | exact Hs]. }
  split.
  { (* the invariant *)
    unfold small_file, inode_length. simpl disk. simpl free_map.
    rewrite Hlen2, Hblocks2.
    assert (Hsec2 : sector ino2 = sector ino) by (subst ino2; destruct (L <? N'); reflexivity).
    rewrite Hsec2.
    assert (Hds : direct_sectors ino2 = take cN blocks1).
    { unfold direct_sectors, inode_length. rewrite Hlen2, Hblocks2.
      rewrite bytes_to_sectors_small by lia. rewrite <- HcN2. rewrite Nat2Z.id. reflexivity. }
    rewrite Hds.
    split; [lia|]. split; [exact Hb1len|]. split; [exact Hnd1|].
    split.
    { rewrite Htake. apply Forall_app. rewrite Forall_forall in Hused, Hall. split.
      - apply Forall_forall. intros s Hs. destruct (Hused s Hs) as (H0 & Hu & Hne).
        split; [exact H0|]. split; [apply Hfm_used; exact Hu | exact Hne].
      - apply Forall_forall. intros s Hs. destruct (Hall s Hs) as (H0 & Hf & _).
        split; [exact H0|]. split.
        + unfold idx. rewrite Hfm. rewrite bool_decide_eq_true_2; [reflexivity|].
          apply list_elem_of_fmap. exists s. split; [reflexivity | exact Hs].
        + intros ->. unfold idx in Hsecu. congruence. }
    split; [split; [exact Hsec0 | apply Hfm_used; exact Hsecu]|].
    split; [exact Hdok3|].
    destruct (decide (N mod 512 = 0)) as [Hz|Hnz]; [left; exact Hz | right].
    pose proof (Z.div_mod N 512 ltac:(lia)) as HNdm.
    pose proof (Z.mod_pos_bound N 512 ltac:(lia)) as HNm.
    pose proof (Z.div_mod (N + 511) 512 ltac:(lia)) as HNdm'.
    pose proof (Z.mod_pos_bound (N + 511) 512 ltac:(lia)) as HNm'.
    apply Forall_lookup. intros j x Hx. rewrite lookup_drop in Hx.
    assert (Hj : (Z.to_nat (N mod 512) + j < 512)%nat).
    { apply lookup_lt_Some in Hx. rewrite block_read_length in Hx by exact Hdok3. exact Hx. }
    assert (Hk : 0 <= N + Z.of_nat j < 512 * Z.of_nat cN) by lia.
    pose proof (Hfinal _ Hk) as Hb.
    replace ((offset <=? N + Z.of_nat j) && (N + Z.of_nat j <? offset + size)) with false in Hb
      by (symmetry; apply andb_false_iff; right; apply Z.ltb_ge; subst N N'; lia).
    replace (N + Z.of_nat j <? L) with false in Hb by (symmetry; apply Z.ltb_ge; subst N; lia).
    unfold direct_byte in Hb.
    assert (Hdiv : (N + Z.of_nat j) / 512 = N / 512).
    { symmetry. apply (Z.div_unique_pos _ _ _ (N mod 512 + Z.of_nat j)); lia. }
    assert (Hmod : (N + Z.of_nat j) mod 512 = N mod 512 + Z.of_nat j).
    { symmetry. apply (Z.mod_unique_pos _ _ (N / 512)); lia. }
    rewrite Hdiv, Hmod in Hb. unfold byte_at in Hb.
    replace (Z.to_nat (N mod 512 + Z.of_nat j)) with (Z.to_nat (N mod 512) + j)%nat in Hb by lia.
    rewrite Hx in Hb. exact Hb. }
  split.
  { simpl. rewrite Hcnt. lia. }
  split.
  { intros k Hk. rewrite Hblocks2. simpl disk. apply Hfinal. fold N in Hk. lia. }
  intros s Hs0 Hsu Hsn Hss. simpl. split; [|apply Hfm_used; exact Hsu].
  rewrite Hd3 by exact Hss. rewrite Hother2.
  - apply Hother. intros Hin. rewrite Forall_forall in Hall.
    destruct (Hall s Hin) as (_ & Hf & _). unfold idx in Hsu. congruence.
  - rewrite Htake. intros [Hin|Hin]%elem_of_app; [exact (Hsn Hin)|].
    rewrite Forall_forall in Hall. destruct (Hall s Hin) as (_ & Hf & _).
    unfold idx in Hsu. congruence.
Qed.

Lemma contents_length d ino :
  Datatypes.length (contents d ino) = Z.to_nat (inode_length ino).
Proof. unfold contents. rewrite length_map, length_seq. reflexivity. Qed.

Lemma contents_lookup d ino (k : nat) :
  (k < Z.to_nat (inode_length ino))%nat -> inode_length ino <= 5120 ->
  contents d ino !! k = Some (direct_byte (data_blocks (data ino)) d (Z.of_nat k)).
Proof.
  intros Hk HL. unfold contents. rewrite list_lookup_fmap.
  rewrite lookup_seq_lt by exact Hk. simpl. f_equal.
  apply file_byte_direct; lia.
Qed.

(** The bytes of a file after a write, as a list. *)
Lemma write_small_contents f ino buffer size offset f' ino' :
  0 <= inode_length ino <= 5120 -> 0 <= offset -> 0 <= size -> offset + size <= 5120 ->
  Z.of_nat (Datatypes.length buffer) = size ->
  inode_length ino' = Z.max (inode_length ino) (offset + size) ->
  (forall k, 0 <= k < Z.max (inode_length ino) (offset + size) ->
     direct_byte (data_blocks (data ino')) (disk f') k
     = if (offset <=? k) && (k <? offset + size)
       then byte_at buffer (Z.to_nat (k - offset))
       else if k <? inode_length ino then direct_byte (data_blocks (data ino)) (disk f) k
            else 0) ->
  contents (disk f') ino'
  = let base := contents (disk f) ino
                ++ replicate (Z.to_nat (inode_length ino' - inode_length ino)) 0 in
    take (Z.to_nat offset) base ++ buffer ++ drop (Z.to_nat (offset + size)) base.
Proof.
  intros HL Hofs Hsize Hend Hbuf Hlen' Hbytes. cbv zeta.
  set (L := inode_length ino) in *. set (N := inode_length ino') in *.
  set (base := contents (disk f) ino ++ replicate (Z.to_nat (N - L)) 0).
  assert (Hbl : Datatypes.length base = Z.to_nat N).
  { subst base. rewrite length_app, contents_length, length_replicate. fold L. lia. }
  apply list_eq. intros k.
  destruct (decide (k < Z.to_nat N)%nat) as [Hk|Hk].
  - rewrite contents_lookup by (fold N; lia). rewrite Hbytes by lia.
    destruct (decide (k < Z.to_nat offset)%nat) as [H1|H1].
    + rewrite lookup_app_l by (rewrite length_take; lia).
      rewrite lookup_take_lt by exact H1.
      replace ((offset <=? Z.of_nat k) && (Z.of_nat k <? offset + size)) with false
        by (symmetry; apply andb_false_iff; lia).
      subst base. destruct (Z.of_nat k <? L) eqn:HkL.
      * rewrite lookup_app_l by (rewrite contents_length; fold L; lia).
        rewrite contents_lookup by (fold L; lia). reflexivity.
      * rewrite lookup_app_r by (rewrite contents_length; fold L; lia).
        rewrite lookup_replicate_2; [reflexivity|]. rewrite contents_length. fold L. lia.
    + rewrite lookup_app_r by (rewrite length_take; lia).
      rewrite length_take. replace (Z.to_nat offset `min` Datatypes.length base)%nat
        with (Z.to_nat offset) by lia.
      destruct (decide (k < Z.to_nat (offset + size))%nat) as [H2|H2].
      * rewrite lookup_app_l by lia.
        replace ((offset <=? Z.of_nat k) && (Z.of_nat k <? offset + size)) with true
          by (symmetry; apply andb_true_iff; lia).
        unfold byte_at.
        replace (Z.to_nat (Z.of_nat k - offset)) with (k - Z.to_nat offset)%nat by lia.
        destruct (lookup_lt_is_Some_2 buffer (k - Z.to_nat offset) ltac:(lia)) as [x Hx].
        rewrite Hx. reflexivity.
      * rewrite lookup_app_r by lia. rewrite lookup_drop.
        replace ((offset <=? Z.of_nat k) && (Z.of_nat k <? offset + size)) with false
          by (symmetry; apply andb_false_iff; lia).
        replace (Z.to_nat (offset + size) + (k - Z.to_nat offset - Datatypes.length buffer))%nat
          with k by lia.
        subst base. destruct (Z.of_nat k <? L) eqn:HkL.
        -- rewrite lookup_app_l by (rewrite contents_length; fold L; lia).
           rewrite contents_lookup by (fold L; lia). reflexivity.
        -- rewrite lookup_app_r by (rewrite contents_length; fold L; lia).
           rewrite lookup_replicate_2; [reflexivity|]. rewrite contents_length. fold L. lia.
  - rewrite (proj2 (lookup_ge_None _ _)) by (rewrite contents_length; fold N; lia).
    symmetry. apply lookup_ge_None.
    rewrite !length_app, length_take, length_drop. lia.
Qed.

Lemma write_small_spec (f : fs) (ino : inode) (buffer : list Z) (size offset : Z) :
  small_file f ino -> deny_write_cnt ino = 0 ->
  0 <= offset -> 0 <= size -> offset + size <= 5120 ->
  Z.of_nat (Datatypes.length buffer) = size ->
  (offset + size + 511) / 512 - (inode_length ino + 511) / 512
    <= free_map_count (free_map f) ->
  exists f' ino',
    inode_write_at f ino buffer size offset = (f', ino', size)
    /\ inode_length ino' = Z.max (inode_length ino) (offset + size)
    /\ small_file f' ino'
    /\ free_map_count (free_map f')
       = free_map_count (free_map f)
         - Z.max 0 ((offset + size + 511) / 512 - (inode_length ino + 511) / 512)
    /\ contents (disk f') ino'
       = (let base := contents (disk f) ino
                      ++ replicate (Z.to_nat (inode_length ino' - inode_length ino)) 0 in
          take (Z.to_nat offset) base ++ buffer ++ drop (Z.to_nat (offset + size)) base)
    /\ inode_read_at (disk f') ino' size offset = (size, buffer).
Proof.
  intros Hsf Hdeny Hofs Hsize Hend Hbuf Hroom.
  destruct (write_small_main f ino buffer size offset Hsf Hdeny Hofs Hsize Hend Hbuf Hroom)
    as (f' & ino' & Hw & Hlen & _ & _ & _ & _ & _ & _ & Hsf' & Hcnt & Hbytes & _).
  destruct Hsf as (HL & _).
  pose proof (write_small_contents f ino buffer size offset f' ino' HL Hofs Hsize Hend Hbuf
                Hlen Hbytes) as Hc.
  exists f', ino'. split; [exact Hw|]. split; [exact Hlen|]. split; [exact Hsf'|].
  split; [exact Hcnt|]. split; [exact Hc|].
  rewrite read_at_slice by (try exact Hofs; apply Hsf').
  rewrite Hlen. replace (Z.max 0 (Z.min size (Z.max (inode_length ino) (offset + size) - offset)))
    with size by lia.
  f_equal. rewrite Hc. cbv zeta.
  set (base := contents (disk f) ino ++ _).
  assert (Hbl : Datatypes.length base = Z.to_nat (inode_length ino')).
  { subst base. rewrite length_app, contents_length, length_replicate. lia. }
  rewrite drop_app_length' by (rewrite length_take; lia).
  rewrite take_app_length' by lia. reflexivity.
Qed.

(** X3. Such a write leaves alone every sector that is in use and is
    neither a data sector of the file nor the sector of its inode. *)
Theorem inode_write_at_frame (f : fs) (ino : inode) (buffer : list Z) (size offset s : Z) :
  small_file f ino -> deny_write_cnt ino = 0 ->
  0 <= offset -> 0 <= size -> offset + size <= 5120 ->
  Z.of_nat (Datatypes.length buffer) = size ->
  (offset + size + 511) / 512 - (inode_length ino + 511) / 512
    <= free_map_count (free_map f) ->
  0 <= s -> free_map f !! idx s = Some true ->
  s ∉ direct_sectors ino -> s <> sector ino ->
  let f' := (inode_write_at f ino buffer size offset).1.1 in
  disk f' !! s = disk f !! s /\ free_map f' !! idx s = Some true.
Proof.
  intros Hsf Hdeny Hofs Hsize Hend Hbuf Hroom Hs0 Hsu Hsn Hss.
  destruct (write_small_main f ino buffer size offset Hsf Hdeny Hofs Hsize Hend Hbuf Hroom)
    as (f' & ino' & Hw & _ & _ & _ & _ & _ & _ & _ & _ & _ & _ & Hframe).
  rewrite Hw. simpl. apply Hframe; assumption.
Qed.

Lemma to_sector_idem l : to_sector (to_sector l) = to_sector l.
Proof. apply to_sector_id. apply to_sector_length. Qed.

Lemma inode_open_fresh (f : fs) (m : gmap Z inode) (s : Z) :
  m !! s = None ->
  inode_open (mk_state f m) s
  = (mk_state f (<[s := mk_inode s 1 false 0 (inode_disk_of_sector (block_read (disk f) s))]> m),
     s).
Proof. intros H. unfold inode_open. simpl. rewrite H. reflexivity. Qed.

Lemma create_small_spec (f : fs) (sec len parent is_dir : Z) :
  disk_ok (disk f) -> 0 <= len <= 5120 ->
  0 <= sec -> free_map f !! idx sec = Some true ->
  (len + 511) / 512 <= free_map_count (free_map f) ->
  Z.of_nat (Datatypes.length (free_map f)) <= 4294967296 ->
  0 <= parent < 4294967296 ->
  exists f' ino,
    inode_create f sec len parent is_dir = Some (f', true)
    /\ (forall m, m !! sec = None ->
          inode_open (mk_state f' m) sec = (mk_state f' (<[sec := ino]> m), sec))
    /\ sector ino = sec /\ open_cnt ino = 1 /\ removed ino = false
    /\ deny_write_cnt ino = 0
    /\ inode_length ino = len
    /\ parent_directory (data ino) = parent
    /\ is_directory (data ino) = uint32 is_dir
    /\ small_file f' ino
    /\ contents (disk f') ino = replicate (Z.to_nat len) 0
    /\ free_map_count (free_map f') = free_map_count (free_map f) - (len + 511) / 512
    /\ Forall (fun s => free_map f !! idx s = Some false) (direct_sectors ino)
    /\ (forall i, free_map f' !! i
                  = if bool_decide (i ∈ (idx <$> direct_sectors ino)) then Some true
                    else free_map f !! i)
    /\ (forall s, 0 <= s -> free_map f !! idx s = Some true -> s <> sec ->
          disk f' !! s = disk f !! s).
Proof.
  intros Hdok Hlen Hsec0 Hsecu Hroom Hfmlen Hparent.
  unfold inode_create. replace (len <? 0) with false by lia.
  rewrite bytes_to_sectors_small by lia.
  pose proof (sectors_bound len Hlen) as Hc. set (c := (len + 511) / 512) in *.
  rewrite check_length_small by lia.
  replace (c <=? free_map_count (free_map f)) with true by lia. simpl negb. cbv iota.
  rewrite extend_small by lia. cbn [data_blocks].
  destruct (allocate_zeroed_spec (Z.to_nat (c - 0)) 0 f (replicate 12 0) Hdok ltac:(lia)
              ltac:(rewrite length_replicate; unfold idx; lia) ltac:(lia))
    as (new & f1 & Hrun & Hnl & Hndn & Hall & Hfm & Hcnt & Hd1 & Hother).
  rewrite Hrun. unfold idx in *. change (Z.to_nat 0) with 0%nat in *.
  rewrite take_0 in *. simpl app. rewrite ?Nat.add_0_l.
  replace (Z.to_nat (c - 0)) with (Z.to_nat c) in * by lia.
  set (blocks1 := new ++ drop (Z.to_nat c) (replicate 12 0)).
  set (di := set_data_blocks (mk_inode_disk (replicate 12 0) len INODE_MAGIC parent
                                (uint32 is_dir)) blocks1).
  assert (Hb1len : Datatypes.length blocks1 = 12%nat).
  { subst blocks1. rewrite length_app, length_drop, length_replicate. lia. }
  assert (Hnewrange : Forall (fun w => 0 <= w < 4294967296) new).
  { rewrite Forall_forall in Hall |- *. intros s Hs. destruct (Hall s Hs) as (H0 & Hf & _).
    apply lookup_lt_Some in Hf. lia. }
  assert (Hdi_ok : inode_disk_ok di).
  { unfold inode_disk_ok. subst di. simpl. split; [exact Hb1len|]. split.
    - subst blocks1. apply Forall_app. split; [exact Hnewrange|].
      apply Forall_forall. intros x Hx. apply list_elem_of_lookup in Hx as [i Hx].
      rewrite lookup_drop in Hx. apply lookup_replicate in Hx as [-> _]. lia.
    - split; [lia|]. split; [unfold INODE_MAGIC; lia|]. split; [exact Hparent|].
      apply uint32_range. }
  set (d2 := block_write (disk f1) sec (inode_disk_to_sector di)).
  set (ino := mk_inode sec 1 false 0 di).
  assert (Hread : inode_disk_of_sector (block_read d2 sec) = di).
  { subst d2. rewrite block_read_write_eq. unfold inode_disk_to_sector at 1, sector_of_words.
    rewrite to_sector_idem. apply inode_disk_roundtrip_aux. exact Hdi_ok. }
  exists (mk_fs d2 (free_map f1)), ino.
  split; [reflexivity|].
  split. { intros m Hm. rewrite inode_open_fresh by exact Hm. simpl. rewrite Hread. reflexivity. }
  do 7 (split; [reflexivity|]).
  assert (Hfm_used : forall s, free_map f !! Z.to_nat s = Some true ->
                               free_map f1 !! Z.to_nat s = Some true).
  { intros s Hs. rewrite Hfm. destruct (bool_decide _); [reflexivity | exact Hs]. }
  assert (Hnewsec : forall s, s ∈ new -> s <> sec).
  { intros s Hs ->. rewrite Forall_forall in Hall. destruct (Hall _ Hs) as (_ & Hf & _).
    congruence. }
  assert (Hget : forall i, 0 <= i < c -> get blocks1 i ∈ new).
  { intros i Hi. subst blocks1. unfold get, idx. rewrite lookup_app_l by lia.
    destruct (lookup_lt_is_Some_2 new (Z.to_nat i) ltac:(lia)) as [x Hx].
    rewrite Hx. simpl. apply list_elem_of_lookup. eauto. }
  assert (Hzero : forall i, 0 <= i < c -> block_read d2 (get blocks1 i) = zeros).
  { intros i Hi. pose proof (Hget i Hi) as Hin. subst d2.
    rewrite block_read_write_ne by (intros Heq; exact (Hnewsec _ Hin (eq_sym Heq))).
    rewrite Forall_forall in Hall. destruct (Hall _ Hin) as (_ & _ & Hz). exact Hz. }
  pose proof (sectors_cover len ltac:(lia)) as Hcover. fold c in Hcover.
  assert (Hds : direct_sectors ino = new).
  { unfold direct_sectors, inode_length. simpl.
    rewrite bytes_to_sectors_small by lia. fold c.
    subst blocks1. rewrite take_app_length' by lia. reflexivity. }
  split.
  { unfold small_file. rewrite Hds. unfold inode_length. simpl.
    split; [lia|]. split; [exact Hb1len|]. split; [exact Hndn|].
    split.
    { rewrite Forall_forall in Hall |- *. intros s Hs. destruct (Hall s Hs) as (H0 & Hf & _).
      split; [exact H0|]. split; [|apply Hnewsec; exact Hs].
      unfold idx. rewrite Hfm. rewrite bool_decide_eq_true_2; [reflexivity|].
      apply list_elem_of_fmap. exists s. split; [reflexivity | exact Hs]. }
    split; [split; [exact Hsec0 | apply Hfm_used; exact Hsecu]|].
    split; [subst d2; apply disk_ok_write; exact Hd1|].
    destruct (decide (len mod 512 = 0)) as [Hz|Hnz]; [left; exact Hz | right].
    pose proof (Z.div_mod len 512 ltac:(lia)). pose proof (Z.mod_pos_bound len 512 ltac:(lia)).
    rewrite Hzero.
    - apply Forall_forall. intros x Hx. apply list_elem_of_lookup in Hx as [i Hx].
      rewrite lookup_drop in Hx. apply lookup_replicate in Hx as [-> _]. reflexivity.
    - split; [apply Z.div_pos; lia|]. apply Z.div_lt_upper_bound; lia. }
  split.
  { apply list_eq. intros k. destruct (decide (k < Z.to_nat len)%nat) as [Hk|Hk].
    - rewrite contents_lookup by (unfold inode_length; simpl; lia).
      rewrite lookup_replicate_2 by exact Hk. f_equal. unfold direct_byte. simpl.
      rewrite Hzero by (apply div512_bounds; lia). apply byte_at_zeros.
    - rewrite (proj2 (lookup_ge_None _ _))
        by (rewrite contents_length; unfold inode_length; simpl; lia).
      symmetry. apply lookup_ge_None. rewrite length_replicate. lia. }
  split; [simpl; rewrite Hcnt; lia|].
  split.
  { rewrite Hds. rewrite Forall_forall in Hall |- *. intros s Hs.
    destruct (Hall s Hs) as (_ & Hf & _). exact Hf. }
  split; [intros i; rewrite Hds; simpl; apply Hfm|].
  intros s Hs0 Hsu Hne. simpl.
  subst d2. unfold block_write. rewrite lookup_insert_ne by congruence.
  apply Hother. intros Hin. rewrite Forall_forall in Hall.
  destruct (Hall _ Hin) as (_ & Hf & _). congruence.
Qed.

Lemma release_range_spec (arr : list Z) (n : nat) :
  forall (index : Z) (fm : list bool),
    0 <= index -> (Z.to_nat index + n <= Datatypes.length arr)%nat ->
    NoDup (take n (drop (Z.to_nat index) arr)) ->
    Forall (fun s => 0 <= s /\ fm !! Z.to_nat s = Some true) (take n (drop (Z.to_nat index) arr)) ->
    free_map_count (release_range n index arr fm) = free_map_count fm + Z.of_nat n
    /\ forall i, release_range n index arr fm !! i
                 = if bool_decide (i ∈ (Z.to_nat <$> take n (drop (Z.to_nat index) arr)))
                   then Some false else fm !! i.
Proof.
  induction n as [|n IH]; intros index fm Hidx Hlen Hnd Hused.
  - simpl. split; [lia|]. intros i. reflexivity.
  - simpl release_range.
    destruct (lookup_lt_is_Some_2 arr (Z.to_nat index) ltac:(lia)) as [s Hs].
    assert (Hl : take (S n) (drop (Z.to_nat index) arr)
                 = s :: take n (drop (Z.to_nat (index + 1)) arr)).
    { rewrite (drop_S _ _ _ Hs). simpl. do 2 f_equal. f_equal. lia. }
    rewrite Hl in Hnd, Hused |- *.
    apply NoDup_cons in Hnd as [Hsn Hnd]. apply Forall_cons in Hused as [(Hs0 & Hsu) Hused].
    assert (Hget : get arr index = s) by (unfold get, idx; rewrite Hs; reflexivity).
    rewrite Hget. unfold free_map_release, idx.
    destruct (IH (index + 1) (<[Z.to_nat s := false]> fm)) as [Hc Hl'].
    { lia. } { lia. } { exact Hnd. }
    { rewrite Forall_forall in Hused |- *. intros t Ht. destruct (Hused t Ht) as [Ht0 Htu].
      split; [exact Ht0|]. rewrite list_lookup_insert_ne; [exact Htu|].
      intros Heq. apply Hsn. replace s with t by lia. exact Ht. }
    split.
    + rewrite Hc. rewrite count_insert_false by exact Hsu. lia.
    + intros i. rewrite Hl'. rewrite fmap_cons.
      destruct (bool_decide (i ∈ Z.to_nat <$> take n (drop (Z.to_nat (index + 1)) arr))) eqn:E.
      * apply bool_decide_eq_true in E.
        rewrite bool_decide_eq_true_2 by (apply elem_of_cons; right; exact E). reflexivity.
      * apply bool_decide_eq_false in E. destruct (decide (i = Z.to_nat s)) as [->|Hne].
        -- rewrite bool_decide_eq_true_2 by (apply elem_of_cons; left; reflexivity).
           apply list_lookup_insert_eq. apply lookup_lt_is_Some. eauto.
        -- rewrite bool_decide_eq_false_2
             by (intros [H|H]%elem_of_cons; [congruence | exact (E H)]).
           apply list_lookup_insert_ne. congruence.
Qed.

Lemma release_data_small (f : fs) (ino : inode) :
  0 <= inode_length ino <= 5120 ->
  release_data f ino
  = mk_fs (disk f)
      (release_range (Z.to_nat ((inode_length ino + 511) / 512)) 0 (data_blocks (data ino))
         (free_map f)).
Proof.
  intros HL. unfold release_data, inode_length in *.
  rewrite bytes_to_sectors_small by lia.
  pose proof (sectors_bound _ HL) as Hc. set (c := (length (data ino) + 511) / 512) in *.
  rewrite int32_small by lia. unfold DIRECT_SECTORS.
  replace (c <=? 10) with true by lia. rewrite Z.sub_diag. reflexivity.
Qed.

Lemma close_releases_spec (st : state) (p : Z) (ino : inode) :
  open_inodes st !! p = Some ino -> small_file (dev st) ino ->
  open_cnt ino = 1 -> removed ino = true ->
  exists st',
    inode_close st p = Some st'
    /\ open_inodes st' = delete p (open_inodes st)
    /\ disk (dev st') = disk (dev st)
    /\ free_map_count (free_map (dev st'))
       = free_map_count (free_map (dev st)) + (inode_length ino + 511) / 512 + 1
    /\ forall i, free_map (dev st') !! i
                 = if bool_decide (i ∈ (idx <$> sector ino :: direct_sectors ino))
                   then Some false else free_map (dev st) !! i.
Proof.
  intros Hp (HL & Hb12 & Hnd & Hused & (Hsec0 & Hsecu) & Hdok & _) Hcnt Hrem.
  unfold inode_close. rewrite Hp, Hcnt, Hrem. simpl.
  rewrite release_data_small by exact HL. simpl.
  rewrite direct_sectors_eq in * by exact HL.
  pose proof (sectors_bound _ HL) as Hc. set (c := (inode_length ino + 511) / 512) in *.
  unfold idx in *.
  destruct (release_range_spec (data_blocks (data ino)) (Z.to_nat c) 0 (free_map (dev st))
              ltac:(lia) ltac:(simpl; lia)) as [Hc1 Hl1].
  { exact Hnd. }
  { rewrite Forall_forall in Hused |- *. intros s Hs. destruct (Hused s Hs) as (H0 & Hu & _).
    split; assumption. }
  change (Z.to_nat 0) with 0%nat in *. rewrite drop_0 in *.
  set (fm1 := release_range (Z.to_nat c) 0 (data_blocks (data ino)) (free_map (dev st))) in *.
  assert (Hsec1 : fm1 !! Z.to_nat (sector ino) = Some true).
  { rewrite Hl1. rewrite bool_decide_eq_false_2; [exact Hsecu|].
    intros (s & Heq & Hs)%list_elem_of_fmap. rewrite Forall_forall in Hused.
    destruct (Hused s Hs) as (H0 & _ & Hne). apply Hne. lia. }
  eexists. split; [reflexivity|]. simpl.
  split; [reflexivity|]. split; [reflexivity|].
  unfold free_map_release, idx. split.
  - rewrite count_insert_false by exact Hsec1. rewrite Hc1. lia.
  - intros i. rewrite ?fmap_cons. destruct (decide (i = Z.to_nat (sector ino))) as [->|Hne].
    + rewrite bool_decide_eq_true_2 by (apply elem_of_cons; left; reflexivity).
      apply list_lookup_insert_eq. apply lookup_lt_is_Some. eauto.
    + rewrite list_lookup_insert_ne by congruence. rewrite Hl1.
      destruct (bool_decide (i ∈ Z.to_nat <$> take (Z.to_nat c) (data_blocks (data ino)))) eqn:E.
      * apply bool_decide_eq_true in E.
        rewrite bool_decide_eq_true_2 by (apply elem_of_cons; right; exact E). reflexivity.
      * apply bool_decide_eq_false in E.
        rewrite bool_decide_eq_false_2
          by (intros [H|H]%elem_of_cons; [congruence | exact (E H)]).
        reflexivity.
Qed.

Lemma small_file_set_removed f ino b : small_file f ino -> small_file f (set_removed ino b).
Proof. intros H. exact H. Qed.

(** X6. A sector is reserved, a file that fits the direct entries is
    created on it, opened, removed and closed: the free map is again
    what it was before the sector was reserved, and no inode is left
    open. *)
Theorem create_delete_roundtrip (f : fs) (len parent is_dir : Z) :
  disk_ok (disk f) -> 0 <= len <= 5120 ->
  (len + 511) / 512 + 1 <= free_map_count (free_map f) ->
  Z.of_nat (Datatypes.length (free_map f)) <= 4294967296 ->
  0 <= parent < 4294967296 ->
  exists fm1 sec f2 st3 st4 st5,
    free_map_allocate (free_map f) 0 = (fm1, sec, true)
    /\ inode_create (mk_fs (disk f) fm1) sec len parent is_dir = Some (f2, true)
    /\ inode_open (mk_state f2 ∅) sec = (st3, sec)
    /\ inode_remove st3 sec = Some st4
    /\ inode_close st4 sec = Some st5
    /\ free_map (dev st5) = free_map f
    /\ open_inodes st5 = ∅.
Proof.
  intros Hdok Hlen Hroom Hfml Hparent.
  pose proof (sectors_bound len Hlen) as Hc.
  destruct (free_map_allocate_some (free_map f) 0 ltac:(lia)) as (sec & Halloc & Hsec0 & Hsecf).
  set (fm1 := <[idx sec := true]> (free_map f)) in *.
  assert (Hsec1 : fm1 !! idx sec = Some true).
  { subst fm1. apply list_lookup_insert_eq. apply lookup_lt_is_Some. eauto. }
  destruct (create_small_spec (mk_fs (disk f) fm1) sec len parent is_dir)
    as (f2 & ino & Hcreate & Hopen & Hsec & Hcnt & Hrem & Hdeny & HL & _ & _ & Hsf & _ & _
        & Hfree & Hfm2 & _); simpl; try assumption.
  { subst fm1. rewrite count_insert_true by exact Hsecf. lia. }
  { subst fm1. rewrite length_insert. exact Hfml. }
  set (ino' := set_removed ino true).
  set (st4 := mk_state f2 (<[sec := ino']> (<[sec := ino]> ∅))).
  destruct (close_releases_spec st4 sec ino') as (st5 & Hclose & Hopen5 & _ & _ & Hfm5).
  { subst st4. simpl. apply lookup_insert_eq. }
  { apply small_file_set_removed. exact Hsf. }
  { exact Hcnt. }
  { reflexivity. }
  exists fm1, sec, f2, (mk_state f2 (<[sec := ino]> ∅)), st4, st5.
  split; [exact Halloc|]. split; [exact Hcreate|].
  split; [apply Hopen; apply lookup_empty|].
  split. { unfold inode_remove. simpl. rewrite lookup_insert_eq. reflexivity. }
  split; [exact Hclose|].
  split.
  - apply list_eq. intros i. rewrite Hfm5. subst st4. simpl.
    change (direct_sectors ino') with (direct_sectors ino).
    change (sector ino') with (sector ino). rewrite Hsec. rewrite ?fmap_cons.
    destruct (decide (i = idx sec)) as [->|Hne].
    + rewrite bool_decide_eq_true_2 by (apply elem_of_cons; left; reflexivity).
      symmetry. exact Hsecf.
    + rewrite Hfm2. simpl.
      destruct (bool_decide (i ∈ idx <$> direct_sectors ino)) eqn:E.
      * apply bool_decide_eq_true in E.
        rewrite bool_decide_eq_true_2 by (apply elem_of_cons; right; exact E).
        apply list_elem_of_fmap in E as (s & -> & Hs).
        rewrite Forall_forall in Hfree. specialize (Hfree s Hs). simpl in Hfree.
        subst fm1. rewrite list_lookup_insert_ne in Hfree by congruence. symmetry. exact Hfree.
      * apply bool_decide_eq_false in E.
        rewrite bool_decide_eq_false_2
          by (intros [H|H]%elem_of_cons; [congruence | exact (E H)]).
        subst fm1. apply list_lookup_insert_ne. congruence.
  - rewrite Hopen5. subst st4. simpl. rewrite insert_insert_eq. rewrite delete_insert_eq.
    apply delete_empty.
Qed.

(** X8. After [inode_deny_write] every write to the inode returns 0
    and changes nothing, and [inode_allow_write] brings the state back;
    [inode_deny_write] itself is refused by its assertion once every
    opener has denied writes. *)
Theorem inode_deny_write_blocks (st : state) (p : Z) (ino : inode) :
  open_inodes st !! p = Some ino ->
  0 <= deny_write_cnt ino ->
  (deny_write_cnt ino < open_cnt ino ->
   exists st1,
     inode_deny_write st p = Some st1
     /\ (forall buffer size offset, write_at st1 p buffer size offset = Some (st1, 0))
     /\ inode_allow_write st1 p = Some st)
  /\ (open_cnt ino <= deny_write_cnt ino -> inode_deny_write st p = None).
Proof.
  intros Hp Hd. split.
  - intros Hlt. unfold inode_deny_write. rewrite Hp. cbn [mbind option_bind].
    cbn [set_deny_write_cnt deny_write_cnt open_cnt].
    replace (deny_write_cnt ino + 1 <=? open_cnt ino) with true by lia.
    eexists. split; [reflexivity|]. split.
    + intros buffer size offset. unfold write_at, inode_write_at. cbn [open_inodes dev].
      rewrite lookup_insert_eq. cbn [set_deny_write_cnt deny_write_cnt].
      replace (deny_write_cnt ino + 1 =? 0) with false by lia. simpl negb. cbv iota.
      rewrite insert_insert_eq. reflexivity.
    + unfold inode_allow_write. cbn [open_inodes dev]. rewrite lookup_insert_eq.
      cbn [mbind option_bind set_deny_write_cnt deny_write_cnt open_cnt].
      replace ((0 <? deny_write_cnt ino + 1) && (deny_write_cnt ino + 1 <=? open_cnt ino))
        with true by (symmetry; apply andb_true_iff; lia).
      rewrite insert_insert_eq. destruct st as [f m]. simpl in *. f_equal. f_equal.
      apply insert_id. rewrite Hp. f_equal. destruct ino.
      unfold set_deny_write_cnt. cbn [sector open_cnt removed deny_write_cnt data].
      f_equal. lia.
  - intros Hge. unfold inode_deny_write. rewrite Hp. cbn [mbind option_bind].
    cbn [set_deny_write_cnt deny_write_cnt open_cnt].
    replace (deny_write_cnt ino + 1 <=? open_cnt ino) with false by lia. reflexivity.
Qed.

(** X7. An on-disk inode whose fields fit their C types is decoded from
    its sector exactly as it was encoded. *)
Theorem inode_disk_roundtrip (di : inode_disk) :
  inode_disk_ok di ->
  Datatypes.length (inode_disk_to_sector di) = 512%nat
  /\ inode_disk_of_sector (inode_disk_to_sector di) = di.
Proof.
  intros H. split; [apply to_sector_length | apply inode_disk_roundtrip_aux; exact H].
Qed.

(** X1. [inode_read_at] returns the bytes of the file from [offset],
    at most [size] of them and none past the end of the file, with
    their number; a read that starts at or past the end returns nothing. *)
Theorem inode_read_at_slice d ino size offset :
  disk_ok d -> 0 <= offset ->
  inode_read_at d ino size offset
  = (Z.max 0 (Z.min size (inode_length ino - offset)),
     take (Z.to_nat (Z.max 0 (Z.min size (inode_length ino - offset))))
       (drop (Z.to_nat offset) (contents d ino))).
Proof. exact (read_at_slice _ _ _ _). Qed.

(** X2. A write to a file that stays within the direct entries, with
    room in the free map for the sectors it adds, is complete: it
    returns [size], the file holds the old bytes, zeros in any gap and
    [buffer] at [offset], the free map loses exactly the sectors added,
    and the bytes are read back as written. *)
Theorem inode_write_at_small (f : fs) (ino : inode) (buffer : list Z) (size offset : Z) :
  small_file f ino -> deny_write_cnt ino = 0 ->
  0 <= offset -> 0 <= size -> offset + size <= 5120 ->
  Z.of_nat (Datatypes.length buffer) = size ->
  (offset + size + 511) / 512 - (inode_length ino + 511) / 512
    <= free_map_count (free_map f) ->
  exists f' ino',
    inode_write_at f ino buffer size offset = (f', ino', size)
    /\ inode_length ino' = Z.max (inode_length ino) (offset + size)
    /\ small_file f' ino'
    /\ free_map_count (free_map f')
       = free_map_count (free_map f)
         - Z.max 0 ((offset + size + 511) / 512 - (inode_length ino + 511) / 512)
    /\ contents (disk f') ino'
       = (let base := contents (disk f) ino
                      ++ replicate (Z.to_nat (inode_length ino' - inode_length ino)) 0 in
          take (Z.to_nat offset) base ++ buffer ++ drop (Z.to_nat (offset + size)) base)
    /\ inode_read_at (disk f') ino' size offset = (size, buffer).
Proof. exact (write_small_spec _ _ _ _ _). Qed.

(** X4. [inode_create] of a file that fits the direct entries, on a
    reserved sector and with room in the free map: the inode read back
    by [inode_open] has the length, parent and kind asked for, the file
    is all zeros, its sectors are fresh and distinct, and the free map
    loses exactly the data sectors. *)
Theorem inode_create_small (f : fs) (sec len parent is_dir : Z) :
  disk_ok (disk f) -> 0 <= len <= 5120 ->
  0 <= sec -> free_map f !! idx sec = Some true ->
  (len + 511) / 512 <= free_map_count (free_map f) ->
  Z.of_nat (Datatypes.length (free_map f)) <= 4294967296 ->
  0 <= parent < 4294967296 ->
  exists f' ino,
    inode_create f sec len parent is_dir = Some (f', true)
    /\ (forall m, m !! sec = None ->
          inode_open (mk_state f' m) sec = (mk_state f' (<[sec := ino]> m), sec))
    /\ sector ino = sec /\ open_cnt ino = 1 /\ removed ino = false
    /\ deny_write_cnt ino = 0
    /\ inode_length ino = len
    /\ parent_directory (data ino) = parent
    /\ is_directory (data ino) = uint32 is_dir
    /\ small_file f' ino
    /\ contents (disk f') ino = replicate (Z.to_nat len) 0
    /\ free_map_count (free_map f') = free_map_count (free_map f) - (len + 511) / 512
    /\ Forall (fun s => free_map f !! idx s = Some false) (direct_sectors ino)
    /\ (forall i, free_map f' !! i
                  = if bool_decide (i ∈ (idx <$> direct_sectors ino)) then Some true
                    else free_map f !! i)
    /\ (forall s, 0 <= s -> free_map f !! idx s = Some true -> s <> sec ->
          disk f' !! s = disk f !! s).
Proof. exact (create_small_spec _ _ _ _ _). Qed.

(** X5. Closing the last reference to a removed file held in the direct
    entries gives its data sectors and the sector of its inode back to
    the free map, no other, and touches no sector of the device. *)
Theorem inode_close_releases (st : state) (p : Z) (ino : inode) :
  open_inodes st !! p = Some ino -> small_file (dev st) ino ->
  open_cnt ino = 1 -> removed ino = true ->
  exists st',
    inode_close st p = Some st'
    /\ open_inodes st' = delete p (open_inodes st)
    /\ disk (dev st') = disk (dev st)
    /\ free_map_count (free_map (dev st'))
       = free_map_count (free_map (dev st)) + (inode_length ino + 511) / 512 + 1
    /\ forall i, free_map (dev st') !! i
                 = if bool_decide (i ∈ (idx <$> sector ino :: direct_sectors ino))
                   then Some false else free_map (dev st) !! i.
Proof. exact (close_releases_spec _ _ _). Qed.

Lemma ex_disk_ok_st_1 : disk_ok (disk (dev Examples.st_1)).
Proof. apply (bool_decide_unpack _). vm_compute. exact I. Qed.

Lemma ex_small_st_1 : small_file (dev Examples.st_1) (Examples.inode_at Examples.st_1 3).
Proof. apply (bool_decide_unpack _). vm_compute. exact I. Qed.

Lemma inode_read_at_slice_witness :
  disk_ok (disk (dev Examples.st_1)) /\ 0 <= 0
  /\ inode_read_at (disk (dev Examples.st_1)) (Examples.inode_at Examples.st_1 3) 4 0
     = (Z.max 0 (Z.min 4 (inode_length (Examples.inode_at Examples.st_1 3) - 0)),
        take (Z.to_nat (Z.max 0 (Z.min 4 (inode_length (Examples.inode_at Examples.st_1 3) - 0))))
          (drop (Z.to_nat 0)
             (contents (disk (dev Examples.st_1)) (Examples.inode_at Examples.st_1 3)))).
Proof.
  split; [exact ex_disk_ok_st_1|]. split; [lia|].
  exact (inode_read_at_slice (disk (dev Examples.st_1)) (Examples.inode_at Examples.st_1 3) 4 0
           ex_disk_ok_st_1 (Z.le_refl 0)).
Defined.

Lemma inode_write_at_small_witness :
  small_file (dev Examples.st_1) (Examples.inode_at Examples.st_1 3)
  /\ exists f' ino',
       inode_write_at (dev Examples.st_1) (Examples.inode_at Examples.st_1 3) [7; 8; 9] 3 600
       = (f', ino', 3)
       /\ inode_read_at (disk f') ino' 3 600 = (3, [7; 8; 9]).
Proof.
  split; [exact ex_small_st_1|].
  destruct (inode_write_at_small (dev Examples.st_1) (Examples.inode_at Examples.st_1 3)
              [7; 8; 9] 3 600 ex_small_st_1 ltac:(vm_compute; reflexivity) ltac:(lia)
              ltac:(lia) ltac:(lia) ltac:(reflexivity) ltac:(vm_compute; discriminate))
    as (f' & ino' & Hw & _ & _ & _ & _ & Hr).
  exists f', ino'. split; [exact Hw | exact Hr].
Defined.

Lemma inode_write_at_frame_witness :
  small_file (dev Examples.st_1) (Examples.inode_at Examples.st_1 3)
  /\ free_map (dev Examples.st_1) !! idx 1 = Some true
  /\ (1 ∉ direct_sectors (Examples.inode_at Examples.st_1 3))
  /\ disk (inode_write_at (dev Examples.st_1) (Examples.inode_at Examples.st_1 3)
             [7; 8; 9] 3 600).1.1 !! 1
     = disk (dev Examples.st_1) !! 1.
Proof.
  assert (H1 : free_map (dev Examples.st_1) !! idx 1 = Some true) by (vm_compute; reflexivity).
  assert (H2 : 1 ∉ direct_sectors (Examples.inode_at Examples.st_1 3))
    by (apply (bool_decide_unpack _); vm_compute; exact I).
  split; [exact ex_small_st_1|]. split; [exact H1|]. split; [exact H2|].
  refine (proj1 (inode_write_at_frame (dev Examples.st_1) (Examples.inode_at Examples.st_1 3)
                   [7; 8; 9] 3 600 1 ex_small_st_1 _ _ _ _ _ _ _ H1 H2 _));
    [vm_compute; reflexivity | lia | lia | lia | reflexivity | vm_compute; discriminate
    | lia | vm_compute; discriminate].
Defined.

Lemma ex_disk_ok_reserved : disk_ok (disk (Examples.reserve (Examples.formatted 30)).1).
Proof. apply (bool_decide_unpack _). vm_compute. exact I. Qed.

Lemma inode_create_small_witness :
  disk_ok (disk (Examples.reserve (Examples.formatted 30)).1)
  /\ free_map (Examples.reserve (Examples.formatted 30)).1 !! idx 3 = Some true
  /\ exists f' ino,
       inode_create (Examples.reserve (Examples.formatted 30)).1 3 1000 1 0 = Some (f', true)
       /\ inode_length ino = 1000
       /\ contents (disk f') ino = replicate (Z.to_nat 1000) 0.
Proof.
  assert (H1 : free_map (Examples.reserve (Examples.formatted 30)).1 !! idx 3 = Some true)
    by (vm_compute; reflexivity).
  split; [exact ex_disk_ok_reserved|]. split; [exact H1|].
  destruct (inode_create_small (Examples.reserve (Examples.formatted 30)).1 3 1000 1 0
              ex_disk_ok_reserved)
    as (f' & ino & Hc & _ & _ & _ & _ & _ & Hl & _ & _ & _ & Hz & _);
    [lia | lia | exact H1 | vm_compute; discriminate | vm_compute; discriminate | lia |].
  exists f', ino. split; [exact Hc|]. split; [exact Hl | exact Hz].
Defined.

Lemma ex_small_removed :
  small_file (dev Examples.st_1) (set_removed (Examples.inode_at Examples.st_1 3) true).
Proof. apply (bool_decide_unpack _). vm_compute. exact I. Qed.

Lemma ex_removed_open :
  open_inodes (mk_state (dev Examples.st_1)
                 {[3 := set_removed (Examples.inode_at Examples.st_1 3) true]}) !! 3
  = Some (set_removed (Examples.inode_at Examples.st_1 3) true).
Proof. apply lookup_insert_eq. Qed.

Lemma ex_removed_cnt : open_cnt (set_removed (Examples.inode_at Examples.st_1 3) true) = 1.
Proof. vm_compute. reflexivity. Qed.

Lemma inode_close_releases_witness :
  small_file (dev Examples.st_1) (set_removed (Examples.inode_at Examples.st_1 3) true)
  /\ exists st',
       inode_close
         (mk_state (dev Examples.st_1)
            {[3 := set_removed (Examples.inode_at Examples.st_1 3) true]}) 3 = Some st'
       /\ disk (dev st') = disk (dev Examples.st_1).
Proof.
  split; [exact ex_small_removed|].
  destruct (inode_close_releases
              (mk_state (dev Examples.st_1)
                 {[3 := set_removed (Examples.inode_at Examples.st_1 3) true]}) 3
              (set_removed (Examples.inode_at Examples.st_1 3) true)
              ex_removed_open ex_small_removed ex_removed_cnt eq_refl)
    as (st' & Hc & _ & Hd & _).
  exists st'. split; [exact Hc | exact Hd].
Defined.

Lemma ex_disk_ok_formatted : disk_ok (disk (Examples.formatted 30)).
Proof. apply (bool_decide_unpack _). vm_compute. exact I. Qed.

Lemma create_delete_roundtrip_witness :
  disk_ok (disk (Examples.formatted 30))
  /\ exists fm1 sec f2 st3 st4 st5,
       free_map_allocate (free_map (Examples.formatted 30)) 0 = (fm1, sec, true)
       /\ inode_create (mk_fs (disk (Examples.formatted 30)) fm1) sec 1000 1 0 = Some (f2, true)
       /\ inode_open (mk_state f2 ∅) sec = (st3, sec)
       /\ inode_remove st3 sec = Some st4
       /\ inode_close st4 sec = Some st5
       /\ free_map (dev st5) = free_map (Examples.formatted 30)
       /\ open_inodes st5 = ∅.
Proof.
  split; [exact ex_disk_ok_formatted|].
  apply (create_delete_roundtrip (Examples.formatted 30) 1000 1 0 ex_disk_ok_formatted);
    [lia | vm_compute; discriminate | vm_compute; discriminate | lia].
Defined.

Lemma inode_disk_roundtrip_witness :
  inode_disk_ok (data (Examples.inode_at Examples.st_1 3))
  /\ inode_disk_of_sector (inode_disk_to_sector (data (Examples.inode_at Examples.st_1 3)))
     = data (Examples.inode_at Examples.st_1 3).
Proof.
  assert (H : inode_disk_ok (data (Examples.inode_at Examples.st_1 3)))
    by (apply (bool_decide_unpack _); vm_compute; exact I).
  split; [exact H|].
  exact (proj2 (inode_disk_roundtrip (data (Examples.inode_at Examples.st_1 3)) H)).
Defined.

Lemma inode_deny_write_blocks_witness :
  open_inodes Examples.st_1 !! 3 = Some (Examples.inode_at Examples.st_1 3)
  /\ exists st1,
       inode_deny_write Examples.st_1 3 = Some st1
       /\ write_at st1 3 [7] 1 0 = Some (st1, 0)
       /\ inode_allow_write st1 3 = Some Examples.st_1.
Proof.
  assert (H : open_inodes Examples.st_1 !! 3 = Some (Examples.inode_at Examples.st_1 3))
    by (vm_compute; reflexivity).
  split; [exact H|].
  destruct (inode_deny_write_blocks Examples.st_1 3 (Examples.inode_at Examples.st_1 3) H)
    as [Hok _]; [vm_compute; discriminate|].
  destruct Hok as (st1 & Hd & Hw & Ha); [vm_compute; reflexivity|].
  exists st1. split; [exact Hd|]. split; [apply Hw | exact Ha].
Defined.

End FileFacts.

(** ** Directories within the direct entries (filesys/directory.c) *)

Module EntryFacts.
Import Inode Dir FileFacts.

Lemma read_entry_spec d ino ofs :
  disk_ok d -> 0 <= ofs ->
  read_entry d ino ofs
  = if ofs + 20 <=? inode_length ino
    then Some (dir_entry_of_bytes (take 20 (drop (Z.to_nat ofs) (contents d ino))))
    else None.
Proof.
  intros Hd Hofs. unfold read_entry, entry_size.
  rewrite read_at_slice by assumption.
  destruct (ofs + 20 <=? inode_length ino) eqn:E.
  - replace (Z.max 0 (Z.min 20 (inode_length ino - ofs))) with 20 by lia. reflexivity.
  - replace (Z.max 0 (Z.min 20 (inode_length ino - ofs)) =? 20) with false by lia.
    reflexivity.
Qed.

Lemma slots_bound L (j : nat) : 20 * Z.of_nat j + 20 <= L <-> (j < Z.to_nat (L / 20))%nat.
Proof.
  split; intros H.
  - assert (Z.of_nat j + 1 <= L / 20) by (apply Z.div_le_lower_bound; lia). lia.
  - assert (0 <= L / 20) by lia.
    assert (Z.of_nat j + 1 <= L / 20) by lia.
    pose proof (Z.mul_div_le L 20 ltac:(lia)). lia.
Qed.

Lemma entries_from_spec (fuel : nat) d ino :
  disk_ok d ->
  forall j0 : nat,
    inode_length ino - 20 * Z.of_nat j0 < Z.of_nat fuel ->
    entries_from fuel d ino (20 * Z.of_nat j0)
    = map (fun j => dir_entry_of_bytes (slot_bytes d ino j))
        (seq j0 (Z.to_nat (inode_length ino / 20) - j0)).
Proof.
  intros Hd. induction fuel as [|fuel IH]; intros j0 Hfuel.
  - simpl. replace (Z.to_nat (inode_length ino / 20) - j0)%nat with 0%nat; [reflexivity|].
    destruct (decide (j0 < Z.to_nat (inode_length ino / 20))%nat) as [H|H]; [|lia].
    apply slots_bound in H. lia.
  - simpl. rewrite read_entry_spec by (try assumption; lia).
    destruct (20 * Z.of_nat j0 + 20 <=? inode_length ino) eqn:E.
    + apply Z.leb_le in E. pose proof (proj1 (slots_bound _ _) E) as Hj.
      replace (Z.to_nat (inode_length ino / 20) - j0)%nat
        with (S (Z.to_nat (inode_length ino / 20) - S j0)) by lia.
      simpl. f_equal.
      * unfold slot_bytes. do 3 f_equal. lia.
      * unfold entry_size. replace (20 * Z.of_nat j0 + 20) with (20 * Z.of_nat (S j0)) by lia.
        apply IH. lia.
    + replace (Z.to_nat (inode_length ino / 20) - j0)%nat with 0%nat; [reflexivity|].
      destruct (decide (j0 < Z.to_nat (inode_length ino / 20))%nat) as [H|H]; [|lia].
      apply slots_bound in H. lia.
Qed.

(** The entries of a directory are its bytes, twenty at a time. *)
Lemma dir_entries_spec d ino :
  disk_ok d ->
  dir_entries d ino
  = map (fun j => dir_entry_of_bytes (slot_bytes d ino j))
      (seq 0 (Z.to_nat (inode_length ino / 20))).
Proof.
  intros Hd. unfold dir_entries.
  pose proof (entries_from_spec (scan_fuel ino) d ino Hd 0) as H.
  change (20 * Z.of_nat 0) with 0 in H. rewrite H by (unfold scan_fuel; lia).
  rewrite Nat.sub_0_r. reflexivity.
Qed.

Lemma dir_entries_length d ino :
  disk_ok d -> Datatypes.length (dir_entries d ino) = Z.to_nat (inode_length ino / 20).
Proof. intros Hd. rewrite dir_entries_spec by exact Hd. rewrite length_map, length_seq. reflexivity. Qed.

Lemma dir_entries_lookup d ino (j : nat) :
  disk_ok d -> (j < Z.to_nat (inode_length ino / 20))%nat ->
  dir_entries d ino !! j = Some (dir_entry_of_bytes (slot_bytes d ino j)).
Proof.
  intros Hd Hj. rewrite dir_entries_spec by exact Hd.
  rewrite list_lookup_fmap, lookup_seq_lt by exact Hj. reflexivity.
Qed.

(** The scans of [lookup] and [lookup_sector] find the first entry, in
    the order of the directory, that is in use and passes the test. *)
Lemma scan_find (fuel : nat) d ino (test : dir_entry -> bool) ofs :
  scan fuel d ino test ofs
  = (fun '(k, e) => (e, ofs + 20 * Z.of_nat k))
      <$> list_find (fun e => in_use e && test e = true) (entries_from fuel d ino ofs).
Proof.
  revert ofs. induction fuel as [|fuel IH]; intros ofs; simpl; [reflexivity|].
  destruct (read_entry d ino ofs) as [e|]; [|reflexivity].
  simpl. destruct (decide (in_use e && test e = true)) as [H|H].
  - rewrite H. simpl. do 2 f_equal. lia.
  - apply not_true_is_false in H. rewrite H. rewrite IH.
    destruct (list_find _ _) as [[k e']|]; simpl; [|reflexivity].
    unfold entry_size. do 2 f_equal. lia.
Qed.

Lemma lookup_find d ino nm :
  lookup d ino nm
  = (fun '(k, e) => (e, 20 * Z.of_nat k)) <$> list_find (matches nm) (dir_entries d ino).
Proof.
  unfold lookup, dir_entries. rewrite scan_find.
  unfold matches. destruct (list_find _ _) as [[k e]|]; reflexivity.
Qed.

Lemma slot_after (cs pad buffer : list Z) (k j : nat) :
  Datatypes.length buffer = 20%nat ->
  (20 * k <= Datatypes.length cs)%nat ->
  (20 * k + 20 <= Datatypes.length (cs ++ pad))%nat ->
  (j <> k -> 20 * j + 20 <= Datatypes.length cs)%nat ->
  take 20 (drop (20 * j)
             (take (20 * k) (cs ++ pad) ++ buffer ++ drop (20 * k + 20) (cs ++ pad)))
  = if decide (j = k) then buffer else take 20 (drop (20 * j) cs).
Proof.
  intros Hb Hk Hk2 Hj. rewrite length_app in Hk2.
  destruct (decide (j = k)) as [->|Hne].
  - rewrite drop_app_length' by (rewrite length_take, length_app; lia).
    rewrite take_app_length' by lia. reflexivity.
  - specialize (Hj Hne). apply list_eq. intros i.
    destruct (decide (i < 20)%nat) as [Hi|Hi].
    2:{ rewrite !lookup_take_ge by lia. reflexivity. }
    rewrite !lookup_take_lt by exact Hi. rewrite !lookup_drop.
    destruct (decide (j < k)%nat) as [Hlt|Hgt].
    + rewrite lookup_app_l by (rewrite length_take, length_app; lia).
      rewrite lookup_take_lt by lia. apply lookup_app_l. lia.
    + rewrite lookup_app_r by (rewrite length_take, length_app; lia).
      rewrite length_take, length_app.
      rewrite lookup_app_r by lia. rewrite lookup_drop.
      replace (20 * k + 20 + (20 * j + i - (20 * k) `min` (Datatypes.length cs + Datatypes.length pad)
                              - Datatypes.length buffer))%nat
        with (20 * j + i)%nat by lia.
      apply lookup_app_l. lia.
Qed.

(** What a write of one entry into a slot does to the entries. *)
Lemma dir_entries_write d ino d' ino' (buffer : list Z) (k : nat) :
  disk_ok d -> disk_ok d' -> 0 <= inode_length ino ->
  Datatypes.length buffer = 20%nat ->
  20 * Z.of_nat k <= inode_length ino ->
  inode_length ino' = Z.max (inode_length ino) (20 * Z.of_nat k + 20) ->
  contents d' ino'
  = (let base := contents d ino
                 ++ replicate (Z.to_nat (inode_length ino' - inode_length ino)) 0 in
     take (Z.to_nat (20 * Z.of_nat k)) base ++ buffer
     ++ drop (Z.to_nat (20 * Z.of_nat k + 20)) base) ->
  dir_entries d' ino'
  = take k (dir_entries d ino) ++ [dir_entry_of_bytes buffer]
    ++ drop (S k) (dir_entries d ino).
Proof.
  intros Hd Hd' HL Hb Hk HN Hc. cbv zeta in Hc.
  set (L := inode_length ino) in *. set (N := inode_length ino') in *.
  set (es := dir_entries d ino).
  assert (Hn : Datatypes.length es = Z.to_nat (L / 20)) by (apply dir_entries_length; exact Hd).
  assert (HkL : (k <= Z.to_nat (L / 20))%nat).
  { assert (Z.of_nat k <= L / 20) by (apply Z.div_le_lower_bound; lia). lia. }
  assert (Hn' : Z.to_nat (N / 20) = Nat.max (Z.to_nat (L / 20)) (S k)).
  { rewrite HN. destruct (Z.le_gt_cases (20 * Z.of_nat k + 20) L) as [H|H].
    - rewrite Z.max_l by lia. apply slots_bound in H. lia.
    - rewrite Z.max_r by lia.
      replace (20 * Z.of_nat k + 20) with ((Z.of_nat k + 1) * 20) by lia.
      rewrite Z.div_mul by lia.
      assert (L / 20 < Z.of_nat k + 1) by (apply Z.div_lt_upper_bound; lia). lia. }
  apply list_eq. intros j.
  destruct (decide (j < Z.to_nat (N / 20))%nat) as [Hj|Hj].
  - rewrite dir_entries_lookup by assumption. unfold slot_bytes. rewrite Hc.
    replace (Z.to_nat (20 * Z.of_nat k)) with (20 * k)%nat by lia.
    replace (Z.to_nat (20 * Z.of_nat k + 20)) with (20 * k + 20)%nat by lia.
    rewrite slot_after.
    + destruct (decide (j = k)) as [->|Hne].
      * rewrite lookup_app_r by (rewrite length_take; lia).
        rewrite length_take. replace (k - k `min` Datatypes.length es)%nat with 0%nat by lia.
        reflexivity.
      * destruct (decide (j < k)%nat) as [Hlt|Hgt].
        -- rewrite lookup_app_l by (rewrite length_take; lia).
           rewrite lookup_take_lt by exact Hlt. subst es.
           rewrite dir_entries_lookup by (try assumption; fold L; lia). reflexivity.
        -- rewrite lookup_app_r by (rewrite length_take; lia).
           rewrite length_take. replace (j - k `min` Datatypes.length es)%nat with (S (j - S k)) by lia.
           simpl. rewrite lookup_drop. replace (S k + (j - S k))%nat with j by lia.
           subst es. rewrite dir_entries_lookup by (try assumption; fold L; lia). reflexivity.
    + exact Hb.
    + rewrite contents_length. fold L. lia.
    + rewrite length_app, contents_length, length_replicate. fold L. lia.
    + intros Hne. rewrite contents_length. fold L.
      assert (j < Z.to_nat (L / 20))%nat by lia.
      apply slots_bound in H. lia.
  - rewrite (proj2 (lookup_ge_None _ _)) by (rewrite dir_entries_length by assumption; fold N; lia).
    symmetry. apply lookup_ge_None.
    rewrite !length_app, length_take, length_drop. simpl. lia.
Qed.

Lemma list_find_splice_other {A} (P : A -> Prop) `{!forall x, Decision (P x)}
    (l : list A) (k : nat) (y : A) :
  (k <= Datatypes.length l)%nat -> ~ P y -> (forall x, l !! k = Some x -> ~ P x) ->
  list_find P (take k l ++ [y] ++ drop (S k) l) = list_find P l.
Proof.
  revert k. induction l as [|x l IH]; intros k Hk Hy Hx.
  - simpl in Hk. replace k with 0%nat by lia. simpl. destruct (decide (P y)); [contradiction|].
    reflexivity.
  - destruct k as [|k].
    + simpl. rewrite drop_0. destruct (decide (P y)); [contradiction|].
      destruct (decide (P x)) as [Hp|Hp]; [exfalso; exact (Hx x eq_refl Hp)|]. reflexivity.
    + simpl. destruct (decide (P x)); [reflexivity|].
      rewrite <- (IH k); [reflexivity | simpl in Hk; lia | exact Hy | exact Hx].
Qed.

Lemma list_find_splice_new {A} (P : A -> Prop) `{!forall x, Decision (P x)}
    (l : list A) (k : nat) (y : A) :
  (k <= Datatypes.length l)%nat -> P y ->
  (forall j x, (j < k)%nat -> l !! j = Some x -> ~ P x) ->
  list_find P (take k l ++ [y] ++ drop (S k) l) = Some (k, y).
Proof.
  intros Hk Hy Hbefore. apply list_find_Some. split.
  - rewrite lookup_app_r by (rewrite length_take; lia).
    rewrite length_take. replace (k - k `min` Datatypes.length l)%nat with 0%nat by lia.
    reflexivity.
  - split; [exact Hy|]. intros j x Hj Hlt.
    rewrite lookup_app_l in Hj by (rewrite length_take; lia).
    rewrite lookup_take_lt in Hj by exact Hlt. eapply Hbefore; eassumption.
Qed.

Lemma read_bytes_length d ino ofs :
  disk_ok d -> 0 <= ofs -> 0 <= inode_length ino ->
  Datatypes.length (inode_read_at d ino 20 ofs).2
  = Z.to_nat (Z.max 0 (Z.min 20 (inode_length ino - ofs))).
Proof.
  intros Hd Hofs HL. rewrite read_at_slice by assumption. simpl.
  rewrite length_take, length_drop, contents_length. lia.
Qed.

Lemma add_slot_S (fuel : nat) d ino e ofs :
  add_slot (S fuel) d ino e ofs
  = let '(n, bs) := inode_read_at d ino entry_size ofs in
    let e := bs ++ drop (Datatypes.length bs) e in
    if n =? entry_size then
      if in_use (dir_entry_of_bytes e) then add_slot fuel d ino e (ofs + entry_size)
      else (e, ofs)
    else (e, ofs).
Proof. reflexivity. Qed.

(** The slot [dir_add] writes to: the first one that is not in use, or
    the end of the entries. *)
Lemma add_slot_spec (fuel : nat) d ino :
  disk_ok d -> 0 <= inode_length ino ->
  forall (j0 : nat) (e : list Z),
    Datatypes.length e = 20%nat ->
    (j0 <= Z.to_nat (inode_length ino / 20))%nat ->
    inode_length ino - 20 * Z.of_nat j0 < Z.of_nat fuel ->
    exists e' (k : nat),
      add_slot fuel d ino e (20 * Z.of_nat j0) = (e', 20 * Z.of_nat k)
      /\ Datatypes.length e' = 20%nat
      /\ (j0 <= k <= Z.to_nat (inode_length ino / 20))%nat
      /\ (forall j x, (j0 <= j < k)%nat -> dir_entries d ino !! j = Some x -> in_use x = true)
      /\ (forall x, dir_entries d ino !! k = Some x -> in_use x = false).
Proof.
  intros Hd HL. induction fuel as [|fuel IH]; intros j0 e He Hj0 Hfuel.
  - exfalso. assert (Z.of_nat j0 <= inode_length ino / 20) by lia.
    pose proof (Z.mul_div_le (inode_length ino) 20 ltac:(lia)). lia.
  - rewrite add_slot_S. unfold entry_size.
    pose proof (read_bytes_length d ino (20 * Z.of_nat j0) Hd ltac:(lia) HL) as Hbl.
    rewrite read_at_slice in * by (try assumption; lia). cbn [snd] in Hbl.
    cbv beta iota zeta.
    set (n := Z.max 0 (Z.min 20 (inode_length ino - 20 * Z.of_nat j0))) in *.
    set (bs := take (Z.to_nat n) (drop (Z.to_nat (20 * Z.of_nat j0)) (contents d ino))) in *.
    assert (He' : Datatypes.length (bs ++ drop (Datatypes.length bs) e) = 20%nat).
    { rewrite length_app, length_drop. lia. }
    destruct (n =? 20) eqn:En.
    + apply Z.eqb_eq in En.
      assert (Hfull : 20 * Z.of_nat j0 + 20 <= inode_length ino) by lia.
      pose proof (proj1 (slots_bound _ _) Hfull) as Hj.
      assert (Hbs : bs ++ drop (Datatypes.length bs) e = slot_bytes d ino j0).
      { rewrite drop_ge by lia. rewrite app_nil_r. subst bs. unfold slot_bytes.
        rewrite En. do 2 f_equal. lia. }
      assert (Hent : dir_entries d ino !! j0
                     = Some (dir_entry_of_bytes (bs ++ drop (Datatypes.length bs) e))).
      { rewrite Hbs. apply dir_entries_lookup; assumption. }
      destruct (in_use (dir_entry_of_bytes (bs ++ drop (Datatypes.length bs) e))) eqn:Hin.
      * replace (20 * Z.of_nat j0 + 20) with (20 * Z.of_nat (S j0)) by lia.
        destruct (IH (S j0) _ He' ltac:(lia) ltac:(lia)) as (e' & k & Hrun & Hl & Hk & Hb & Ha).
        exists e', k. split; [exact Hrun|]. split; [exact Hl|]. split; [lia|].
        split; [|exact Ha].
        intros j x Hjk Hx. destruct (decide (j = j0)) as [->|Hne].
        -- rewrite Hent in Hx. injection Hx as <-. exact Hin.
        -- apply (Hb j x); [lia | exact Hx].
      * exists (bs ++ drop (Datatypes.length bs) e), j0.
        split; [reflexivity|]. split; [exact He'|]. split; [lia|].
        split; [intros j x Hjk; lia|].
        intros x Hx. rewrite Hent in Hx. injection Hx as <-. exact Hin.
    + exists (bs ++ drop (Datatypes.length bs) e), j0.
      split; [reflexivity|]. split; [exact He'|].
      assert (Hshort : ~ (20 * Z.of_nat j0 + 20 <= inode_length ino)) by lia.
      rewrite slots_bound in Hshort.
      split; [lia|]. split; [intros j x Hjk; lia|].
      intros x Hx. apply lookup_lt_Some in Hx. rewrite dir_entries_length in Hx by exact Hd. lia.
Qed.

Lemma c_string_no_nul l : 0 ∉ c_string l.
Proof.
  induction l as [|c l IH]; simpl; [apply not_elem_of_nil|].
  destruct (c =? 0) eqn:E; [apply not_elem_of_nil|].
  apply not_elem_of_cons. split; [lia | exact IH].
Qed.

Lemma c_string_app_nul s r : 0 ∉ s -> c_string (s ++ 0 :: r) = s.
Proof.
  induction s as [|c s IH]; intros H; simpl; [reflexivity|].
  apply not_elem_of_cons in H as [Hc Hs].
  replace (c =? 0) with false by lia. f_equal. apply IH. exact Hs.
Qed.

Lemma c_string_strlcpy dst src :
  (Datatypes.length (c_string src) <= 14)%nat ->
  c_string (strlcpy dst src 15) = c_string src.
Proof.
  intros H. unfold strlcpy. change (15 - 1)%nat with 14%nat.
  rewrite take_ge by exact H. simpl app.
  apply c_string_app_nul. apply c_string_no_nul.
Qed.

Lemma strlcpy_length dst src :
  Datatypes.length dst = 15%nat -> Datatypes.length (strlcpy dst src 15) = 15%nat.
Proof.
  intros H. unfold strlcpy. change (15 - 1)%nat with 14%nat.
  set (s := take 14 (c_string src)).
  assert (Datatypes.length s <= 14)%nat by (subst s; rewrite length_take; lia).
  rewrite length_app. cbn [app Datatypes.length]. rewrite length_drop. lia.
Qed.

Lemma le32_length n : Datatypes.length (le32 n) = 4%nat.
Proof. reflexivity. Qed.

Lemma word_at_le32 n rest : 0 <= n < 4294967296 -> word_at (le32 n ++ rest) 0 = n.
Proof. intros H. unfold word_at, byte_at. simpl. apply le32_decode. exact H. Qed.

(** An entry put together as in [dir_add] is decoded as it was built. *)
Lemma dir_entry_of_bytes_built (sec : Z) (nm : list Z) (b : Z) :
  0 <= sec < 4294967296 -> Datatypes.length nm = 15%nat ->
  dir_entry_of_bytes (le32 sec ++ nm ++ [b]) = mk_dir_entry sec nm (negb (b =? 0)).
Proof.
  intros Hs Hn. unfold dir_entry_of_bytes. rewrite word_at_le32 by exact Hs. f_equal.
  - change (drop 4 (le32 sec ++ nm ++ [b])) with (nm ++ [b]).
    rewrite take_app_length' by (symmetry; exact Hn). reflexivity.
  - unfold byte_at. change (le32 sec ++ nm ++ [b]) with (le32 sec ++ (nm ++ [b])).
    rewrite lookup_app_r by (simpl; lia). simpl Datatypes.length.
    rewrite lookup_app_r by lia. rewrite Hn. reflexivity.
Qed.

Lemma one_more_sector (L N : Z) :
  0 <= L -> N <= L + 20 -> (N + 511) / 512 - (L + 511) / 512 <= 1.
Proof.
  intros HL HN.
  assert ((N + 511) / 512 <= (L + 511 + 1 * 512) / 512) by (apply Z.div_le_mono; lia).
  rewrite Z.div_add in H by lia. lia.
Qed.

Lemma write_at_small st p ino buffer size offset :
  open_inodes st !! p = Some ino ->
  small_file (dev st) ino -> deny_write_cnt ino = 0 ->
  0 <= offset -> 0 <= size -> offset + size <= 5120 ->
  Z.of_nat (Datatypes.length buffer) = size ->
  (offset + size + 511) / 512 - (inode_length ino + 511) / 512
    <= free_map_count (free_map (dev st)) ->
  exists f' ino',
    write_at st p buffer size offset
    = Some (mk_state f' (<[p := ino']> (open_inodes st)), size)
    /\ inode_write_at (dev st) ino buffer size offset = (f', ino', size)
    /\ inode_length ino' = Z.max (inode_length ino) (offset + size)
    /\ small_file f' ino'
    /\ contents (disk f') ino'
       = (let base := contents (disk (dev st)) ino
                      ++ replicate (Z.to_nat (inode_length ino' - inode_length ino)) 0 in
          take (Z.to_nat offset) base ++ buffer ++ drop (Z.to_nat (offset + size)) base).
Proof.
  intros Hp Hsf Hdeny Hofs Hsize Hend Hbuf Hroom.
  destruct (write_small_spec (dev st) ino buffer size offset Hsf Hdeny Hofs Hsize Hend
              Hbuf Hroom) as (f' & ino' & Hw & Hlen & Hsf' & _ & Hc & _).
  exists f', ino'. unfold write_at. rewrite Hp, Hw.
  split; [reflexivity|]. split; [reflexivity|]. split; [exact Hlen|].
  split; [exact Hsf' | exact Hc].
Qed.

Lemma dir_add_main (st : state) (dr : dir) (nm : list Z) (sec : Z) (e0 : list Z) (ino : Inode.inode) :
  open_inodes st !! inode dr = Some ino ->
  small_file (dev st) ino -> deny_write_cnt ino = 0 ->
  inode_length ino + 20 <= 5120 ->
  1 <= free_map_count (free_map (dev st)) ->
  (1 <= Datatypes.length (c_string nm) <= 14)%nat ->
  lookup (disk (dev st)) ino nm = None ->
  0 <= sec < 4294967296 ->
  Datatypes.length e0 = 20%nat ->
  exists f' ino' (k : nat) e_new,
    dir_add st dr nm sec e0
    = Some (mk_state f' (<[inode dr := ino']> (open_inodes st)), true)
    /\ small_file f' ino'
    /\ dir_entries (disk f') ino'
       = take k (dir_entries (disk (dev st)) ino) ++ [e_new]
         ++ drop (S k) (dir_entries (disk (dev st)) ino)
    /\ (k <= Datatypes.length (dir_entries (disk (dev st)) ino))%nat
    /\ (forall j x, (j < k)%nat -> dir_entries (disk (dev st)) ino !! j = Some x ->
          in_use x = true)
    /\ (forall x, dir_entries (disk (dev st)) ino !! k = Some x -> in_use x = false)
    /\ inode_sector e_new = sec /\ in_use e_new = true
    /\ c_string (name e_new) = c_string nm.
Proof.
  intros Hp Hsf Hdeny Hroom Hfree Hname Hnew Hsec He0.
  pose proof Hsf as (HL & _ & _ & _ & _ & Hdok & _).
  unfold dir_add. rewrite Hp. cbn [mbind option_bind].
  unfold NAME_MAX.
  replace ((Z.of_nat (Datatypes.length (c_string nm)) =? 0)
           || (14 <? Z.of_nat (Datatypes.length (c_string nm)))) with false
    by (symmetry; apply orb_false_iff; lia).
  rewrite Hnew. rewrite bool_decide_eq_false_2 by (intros [x Hx]; discriminate).
  assert (HL0 : 0 <= inode_length ino) by lia.
  assert (Hfuel : inode_length ino - 20 * Z.of_nat 0 < Z.of_nat (scan_fuel ino))
    by (unfold scan_fuel; lia).
  destruct (add_slot_spec (scan_fuel ino) (disk (dev st)) ino Hdok HL0 0 e0 He0
              (Nat.le_0_l _) Hfuel)
    as (e' & k & Hrun & He' & Hk & Hbefore & Hat).
  change (20 * Z.of_nat 0) with 0 in Hrun. rewrite Hrun.
  set (namefield := strlcpy (take 15 (drop 4 e')) nm 15).
  assert (Hnf : Datatypes.length namefield = 15%nat).
  { subst namefield. apply strlcpy_length. rewrite length_take, length_drop. lia. }
  set (bytes := le32 sec ++ namefield ++ [1]).
  assert (Hbl : Datatypes.length bytes = 20%nat).
  { subst bytes. rewrite !length_app, le32_length, Hnf. reflexivity. }
  assert (HkL : 20 * Z.of_nat k <= inode_length ino).
  { pose proof (Z.div_pos (inode_length ino) 20 ltac:(lia) ltac:(lia)).
    assert (Z.of_nat k <= inode_length ino / 20) by lia.
    pose proof (Z.mul_div_le (inode_length ino) 20 ltac:(lia)). lia. }
  pose proof (one_more_sector (inode_length ino) (20 * Z.of_nat k + 20) ltac:(lia) ltac:(lia)).
  destruct (write_at_small st (inode dr) ino bytes 20 (20 * Z.of_nat k) Hp Hsf Hdeny
              ltac:(lia) ltac:(lia) ltac:(lia) ltac:(lia) ltac:(lia))
    as (f' & ino' & Hw & _ & Hlen & Hsf' & Hc).
  unfold entry_size. rewrite Hw. cbn [mbind option_bind].
  exists f', ino', k, (mk_dir_entry sec namefield true).
  split; [reflexivity|]. split; [exact Hsf'|].
  split.
  { change (mk_dir_entry sec namefield true)
      with (mk_dir_entry sec namefield (negb (1 =? 0))).
    rewrite <- (dir_entry_of_bytes_built sec namefield 1 Hsec Hnf). fold bytes.
    apply dir_entries_write; try assumption; try lia. apply Hsf'. }
  split; [rewrite dir_entries_length by exact Hdok; lia|].
  split; [intros j x Hj; apply Hbefore; lia|].
  split; [exact Hat|]. split; [reflexivity|]. split; [reflexivity|].
  simpl. subst namefield. apply c_string_strlcpy. lia.
Qed.

(** X9. [dir_add] of a valid name that is not in the directory, in a
    directory held in the direct entries with a sector to grow into:
    the new entry takes the first slot that is not in use, or follows
    the last entry; every other entry is as before. *)
Theorem dir_add_entries (st : state) (dr : dir) (nm : list Z) (sec : Z) (e0 : list Z)
    (ino : Inode.inode) :
  open_inodes st !! inode dr = Some ino ->
  small_file (dev st) ino -> deny_write_cnt ino = 0 ->
  inode_length ino + 20 <= 5120 ->
  1 <= free_map_count (free_map (dev st)) ->
  (1 <= Datatypes.length (c_string nm) <= 14)%nat ->
  lookup (disk (dev st)) ino nm = None ->
  0 <= sec < 4294967296 ->
  Datatypes.length e0 = 20%nat ->
  exists st' ino' (k : nat) e_new,
    dir_add st dr nm sec e0 = Some (st', true)
    /\ open_inodes st' = <[inode dr := ino']> (open_inodes st)
    /\ small_file (dev st') ino'
    /\ dir_entries (disk (dev st')) ino'
       = take k (dir_entries (disk (dev st)) ino) ++ [e_new]
         ++ drop (S k) (dir_entries (disk (dev st)) ino)
    /\ (k <= Datatypes.length (dir_entries (disk (dev st)) ino))%nat
    /\ (forall j x, (j < k)%nat -> dir_entries (disk (dev st)) ino !! j = Some x ->
          in_use x = true)
    /\ (forall x, dir_entries (disk (dev st)) ino !! k = Some x -> in_use x = false)
    /\ inode_sector e_new = sec /\ in_use e_new = true
    /\ c_string (name e_new) = c_string nm.
Proof.
  intros Hp Hsf Hdeny Hroom Hfree Hname Hnew Hsec He0.
  destruct (dir_add_main st dr nm sec e0 ino Hp Hsf Hdeny Hroom Hfree Hname Hnew Hsec He0)
    as (f' & ino' & k & e_new & Hadd & H).
  exists (mk_state f' (<[inode dr := ino']> (open_inodes st))), ino', k, e_new.
  split; [exact Hadd|]. split; [reflexivity|]. exact H.
Qed.

(** X10. After such a [dir_add] the name is found, with the sector it
    was added with, and every other name is found exactly as before. *)
Theorem dir_add_lookup (st : state) (dr : dir) (nm : list Z) (sec : Z) (e0 : list Z)
    (ino : Inode.inode) :
  open_inodes st !! inode dr = Some ino ->
  small_file (dev st) ino -> deny_write_cnt ino = 0 ->
  inode_length ino + 20 <= 5120 ->
  1 <= free_map_count (free_map (dev st)) ->
  (1 <= Datatypes.length (c_string nm) <= 14)%nat ->
  lookup (disk (dev st)) ino nm = None ->
  0 <= sec < 4294967296 ->
  Datatypes.length e0 = 20%nat ->
  exists st' ino',
    dir_add st dr nm sec e0 = Some (st', true)
    /\ open_inodes st' !! inode dr = Some ino'
    /\ (exists e ofs, lookup (disk (dev st')) ino' nm = Some (e, ofs)
                      /\ inode_sector e = sec /\ c_string (name e) = c_string nm)
    /\ (forall nm', c_string nm' <> c_string nm ->
          lookup (disk (dev st')) ino' nm' = lookup (disk (dev st)) ino nm').
Proof.
  intros Hp Hsf Hdeny Hroom Hfree Hname Hnew Hsec He0.
  destruct (dir_add_main st dr nm sec e0 ino Hp Hsf Hdeny Hroom Hfree Hname Hnew Hsec He0)
    as (f' & ino' & k & e_new & Hadd & _ & Hes & Hk & Hbefore & Hat & Hs & Hu & Hn).
  exists (mk_state f' (<[inode dr := ino']> (open_inodes st))), ino'.
  split; [exact Hadd|]. split; [simpl; apply lookup_insert_eq|]. simpl.
  rewrite lookup_find in Hnew.
  destruct (list_find (matches nm) (dir_entries (disk (dev st)) ino)) as [[? ?]|] eqn:Hfind;
    [discriminate|].
  apply list_find_None in Hfind. rewrite Forall_forall in Hfind.
  split.
  - exists e_new, (20 * Z.of_nat k). split; [|split; assumption].
    rewrite lookup_find, Hes. rewrite list_find_splice_new; [reflexivity | exact Hk | |].
    + unfold matches, streq. rewrite Hu, Hn.
      rewrite bool_decide_eq_true_2 by reflexivity. reflexivity.
    + intros j x Hj Hx. apply Hfind. apply list_elem_of_lookup. eauto.
  - intros nm' Hne. rewrite !lookup_find, Hes.
    rewrite list_find_splice_other; [reflexivity | exact Hk | |].
    + unfold matches, streq. rewrite Hn.
      rewrite bool_decide_eq_false_2 by exact Hne. rewrite andb_false_r. discriminate.
    + intros x Hx. unfold matches. rewrite (Hat x Hx). discriminate.
Qed.


(** X12. [dir_lookup] of a name that is not there answers null and
    changes nothing; of a name that is there it answers the inode of the
    entry found, with one more reference, which [inode_close] gives
    back. *)
Theorem dir_lookup_reference (st : state) (dr : dir) (nm : list Z) (ino : Inode.inode) :
  wf st -> open_inodes st !! inode dr = Some ino ->
  match lookup (disk (dev st)) ino nm with
  | None => dir_lookup st dr nm = Some (st, None)
  | Some (e, _) =>
      exists st',
        dir_lookup st dr nm = Some (st', Some (inode_sector e))
        /\ wf st'
        /\ inode_open_cnt st' (inode_sector e)
           = Some (default 0 (inode_open_cnt st (inode_sector e)) + 1)
        /\ inode_close st' (inode_sector e) = Some st
  end.
Proof.
  intros Hwf Hp. unfold dir_lookup. rewrite Hp. cbn [mbind option_bind].
  destruct (lookup (disk (dev st)) ino nm) as [[e ofs]|]; [|reflexivity].
  pose proof (DirFacts.inode_open_close st (inode_sector e) Hwf) as Hclose.
  pose proof (DirFacts.wf_inode_open st (inode_sector e) Hwf) as Hwf'.
  pose proof (DirFacts.inode_open_ptr st (inode_sector e)) as Hptr.
  assert (Hcnt : inode_open_cnt (inode_open st (inode_sector e)).1 (inode_sector e)
                 = Some (default 0 (inode_open_cnt st (inode_sector e)) + 1)).
  { unfold inode_open_cnt, inode_open.
    destruct (open_inodes st !! inode_sector e) as [t|] eqn:Ht; simpl;
      rewrite lookup_insert_eq; reflexivity. }
  destruct (inode_open st (inode_sector e)) as [st' p]. simpl in *. subst p.
  exists st'. split; [reflexivity|]. split; [exact Hwf'|]. split; [exact Hcnt | exact Hclose].
Qed.

Lemma readdir_loop_find (fuel : nat) d ino ps :
  readdir_loop fuel d ino ps
  = match list_find (fun e => in_use e = true) (entries_from fuel d ino ps) with
    | Some (k, e) => (ps + 20 * Z.of_nat (S k), Some (take (idx NAME_MAX) (c_string (name e))))
    | None => (ps + 20 * Z.of_nat (Datatypes.length (entries_from fuel d ino ps)), None)
    end.
Proof.
  revert ps. induction fuel as [|fuel IH]; intros ps.
  - simpl. f_equal. lia.
  - simpl. destruct (read_entry d ino ps) as [e|]; [|simpl; f_equal; lia].
    simpl. destruct (decide (in_use e = true)) as [H|H].
    + rewrite H. unfold entry_size. f_equal.
    + apply not_true_is_false in H. rewrite H. rewrite IH. unfold entry_size.
      destruct (list_find _ _) as [[k e']|]; simpl; f_equal; lia.
Qed.

Lemma entries_from_drop d ino (j0 : nat) :
  disk_ok d ->
  entries_from (scan_fuel ino) d ino (20 * Z.of_nat j0) = drop j0 (dir_entries d ino).
Proof.
  intros Hd. rewrite entries_from_spec by (try exact Hd; unfold scan_fuel; lia).
  rewrite dir_entries_spec by exact Hd. rewrite <- fmap_drop, drop_seq. reflexivity.
Qed.

(** X13. [dir_readdir] at the start of slot [j0] skips the slots that
    are not in use, returns the name of the first entry in use from
    there on and moves the position just behind it; when no entry in
    use is left it returns false with the position at the end of the
    entries. *)
Theorem dir_readdir_next (st : state) (dr : dir) (ino : Inode.inode) (j0 : nat) :
  open_inodes st !! inode dr = Some ino -> disk_ok (disk (dev st)) ->
  pos dr = 20 * Z.of_nat j0 ->
  dir_readdir st dr
  = Some match list_find (fun e => in_use e = true)
                 (drop j0 (dir_entries (disk (dev st)) ino)) with
         | Some (k, e) =>
             (mk_dir (inode dr) (20 * Z.of_nat (j0 + k + 1)),
              Some (take 14 (c_string (name e))))
         | None =>
             (mk_dir (inode dr)
                (20 * Z.of_nat (Nat.max j0 (Datatypes.length (dir_entries (disk (dev st)) ino)))),
              None)
         end.
Proof.
  intros Hp Hd Hpos. unfold dir_readdir. rewrite Hp, Hpos.
  rewrite readdir_loop_find. rewrite entries_from_drop by exact Hd.
  destruct (list_find _ _) as [[k e]|]; simpl.
  - do 3 f_equal. lia.
  - do 3 f_equal. rewrite length_drop. lia.
Qed.

Lemma slot_bytes_length d ino (j : nat) :
  (j < Z.to_nat (inode_length ino / 20))%nat -> Datatypes.length (slot_bytes d ino j) = 20%nat.
Proof.
  intros Hj. apply slots_bound in Hj. unfold slot_bytes.
  rewrite length_take, length_drop, contents_length. lia.
Qed.

Lemma dir_entries_name_length d ino (j : nat) e :
  disk_ok d -> dir_entries d ino !! j = Some e -> Datatypes.length (name e) = 15%nat.
Proof.
  intros Hd He. pose proof (lookup_lt_Some _ _ _ He) as Hj.
  rewrite dir_entries_length in Hj by exact Hd.
  rewrite dir_entries_lookup in He by assumption. injection He as <-.
  unfold dir_entry_of_bytes. simpl. rewrite length_take, length_drop.
  rewrite slot_bytes_length by exact Hj. reflexivity.
Qed.

Lemma dir_entry_of_bytes_parts (sec : Z) (nm : list Z) (b : Z) :
  Datatypes.length nm = 15%nat ->
  name (dir_entry_of_bytes (le32 sec ++ nm ++ [b])) = nm
  /\ in_use (dir_entry_of_bytes (le32 sec ++ nm ++ [b])) = negb (b =? 0).
Proof.
  intros Hn. unfold dir_entry_of_bytes. cbn [name in_use]. split.
  - change (drop 4 (le32 sec ++ nm ++ [b])) with (nm ++ [b]).
    rewrite take_app_length' by (symmetry; exact Hn). reflexivity.
  - unfold byte_at. change (le32 sec ++ nm ++ [b]) with (le32 sec ++ (nm ++ [b])).
    rewrite lookup_app_r by (simpl; lia). simpl Datatypes.length.
    rewrite lookup_app_r by lia. rewrite Hn. reflexivity.
Qed.

Lemma dir_entry_to_bytes_full (e : dir_entry) :
  Datatypes.length (name e) = 15%nat ->
  dir_entry_to_bytes e = le32 (inode_sector e) ++ name e ++ [if in_use e then 1 else 0].
Proof.
  intros Hn. unfold dir_entry_to_bytes.
  rewrite take_app_le by lia. rewrite take_ge by lia. reflexivity.
Qed.

(** An entry written back with its flag cleared. *)
Lemma dir_entry_cleared (e : dir_entry) :
  Datatypes.length (name e) = 15%nat ->
  let e' := dir_entry_of_bytes
              (dir_entry_to_bytes (mk_dir_entry (inode_sector e) (name e) false)) in
  in_use e' = false /\ name e' = name e
  /\ Datatypes.length
       (dir_entry_to_bytes (mk_dir_entry (inode_sector e) (name e) false)) = 20%nat.
Proof.
  intros Hn. cbv zeta. rewrite dir_entry_to_bytes_full by exact Hn.
  cbn [inode_sector name in_use].
  destruct (dir_entry_of_bytes_parts (inode_sector e) (name e) 0 Hn) as [H1 H2].
  split; [exact H2|]. split; [exact H1|].
  rewrite !length_app, le32_length, Hn. reflexivity.
Qed.

Section WithRoot.

Variable ROOT_DIR_SECTOR : Z.

(** X14. [dir_remove] of a name other than "." whose entry names a
    regular file, in a directory held in the direct entries: the call
    succeeds, the slot of the entry is no longer in use and keeps its
    name, every other slot is as before, and the inode of the file is
    marked removed if it is open elsewhere and is gone from the open
    inodes if it is not. *)
Theorem dir_remove_file (st : state) (dr : dir) (nm : list Z) (ino : Inode.inode)
    (e : dir_entry) (ofs : Z) :
  wf st ->
  open_inodes st !! inode dr = Some ino ->
  small_file (dev st) ino -> deny_write_cnt ino = 0 ->
  streq nm CURRENT_DIRECTORY = false ->
  lookup (disk (dev st)) ino nm = Some (e, ofs) ->
  inode_sector e <> inode dr ->
  inode_is_dir (inode_open st (inode_sector e)).1 (inode_sector e) = Some false ->
  exists st' ino' (k : nat) e',
    dir_remove ROOT_DIR_SECTOR st dr nm = Some (st', true)
    /\ ofs = 20 * Z.of_nat k
    /\ open_inodes st' !! inode dr = Some ino'
    /\ dir_entries (disk (dev st)) ino !! k = Some e
    /\ dir_entries (disk (dev st')) ino' = <[k := e']> (dir_entries (disk (dev st)) ino)
    /\ in_use e' = false /\ name e' = name e
    /\ (forall t, open_inodes st !! inode_sector e = Some t ->
          open_inodes st' !! inode_sector e = Some (set_removed t true))
    /\ (open_inodes st !! inode_sector e = None ->
          open_inodes st' !! inode_sector e = None).
Proof.
  intros Hwf Hp Hsf Hdeny Hdot Hlook Hne Hfile.
  pose proof Hsf as (HL & _ & _ & _ & _ & Hdok & _).
  unfold dir_remove, find_entry. rewrite Hdot, Hp. cbn [mbind option_bind].
  rewrite Hlook. unfold inode_open at 1.
  rewrite lookup_find in Hlook.
  destruct (list_find (matches nm) (dir_entries (disk (dev st)) ino)) as [[k e1]|] eqn:Hfind;
    [|discriminate].
  simpl in Hlook. injection Hlook as -> <-.
  apply list_find_Some in Hfind as (Hk & Hmatch & _).
  pose proof (lookup_lt_Some _ _ _ Hk) as Hklt.
  rewrite dir_entries_length in Hklt by exact Hdok.
  pose proof (proj2 (slots_bound _ _) Hklt) as Hkb.
  pose proof (dir_entries_name_length _ _ _ _ Hdok Hk) as Hnl.
  destruct (dir_entry_cleared e Hnl) as (Hu' & Hn' & Hbl).
  set (bytes := dir_entry_to_bytes (mk_dir_entry (inode_sector e) (name e) false)) in *.
  set (p := inode_sector e) in *.
  pose proof (free_map_count_nonneg (free_map (dev st))) as Hcnt0.
  assert (Hsec : (20 * Z.of_nat k + 20 + 511) / 512 - (inode_length ino + 511) / 512 <= 0).
  { assert ((20 * Z.of_nat k + 20 + 511) / 512 <= (inode_length ino + 511) / 512)
      by (apply Z.div_le_mono; lia). lia. }
  assert (Hinsert : forall (f' : fs) ino',
            inode_length ino' = Z.max (inode_length ino) (20 * Z.of_nat k + 20) ->
            small_file f' ino' ->
            contents (disk f') ino'
            = (let base := contents (disk (dev st)) ino
                           ++ replicate (Z.to_nat (inode_length ino' - inode_length ino)) 0 in
               take (Z.to_nat (20 * Z.of_nat k)) base ++ bytes
               ++ drop (Z.to_nat (20 * Z.of_nat k + 20)) base) ->
            dir_entries (disk f') ino'
            = <[k := dir_entry_of_bytes bytes]> (dir_entries (disk (dev st)) ino)).
  { intros f' ino' Hlen Hsf' Hc.
    rewrite (dir_entries_write (disk (dev st)) ino (disk f') ino' bytes k);
      try assumption; try lia; [|apply Hsf'].
    symmetry. apply insert_take_drop. rewrite dir_entries_length by exact Hdok. exact Hklt. }
  unfold inode_is_dir in Hfile. unfold inode_open in Hfile.
  destruct (open_inodes st !! p) as [t|] eqn:Ht; cbn [fst snd] in *.
  - (* the file is open elsewhere *)
    cbn [open_inodes fst] in Hfile. rewrite lookup_insert_eq in Hfile.
    cbn [fmap option_fmap option_map data set_open_cnt] in Hfile.
    injection Hfile as Hfile.
    cbv beta iota zeta.
    unfold inode_is_dir. cbn [open_inodes]. rewrite lookup_insert_eq.
    cbn [fmap option_fmap option_map mbind option_bind data set_open_cnt]. rewrite Hfile.
    cbv beta iota. cbn [mbind option_bind].
    set (st1 := mk_state (dev st) (<[p := set_open_cnt t (open_cnt t + 1)]> (open_inodes st))).
    assert (Hp1 : open_inodes st1 !! inode dr = Some ino).
    { subst st1. simpl. rewrite lookup_insert_ne by exact Hne. exact Hp. }
    destruct (write_at_small st1 (inode dr) ino bytes 20 (20 * Z.of_nat k) Hp1 Hsf Hdeny
                ltac:(lia) ltac:(lia) ltac:(lia) ltac:(lia) ltac:(simpl; lia))
      as (f' & ino' & Hw & _ & Hlen & Hsf' & Hc).
    unfold entry_size. rewrite Hw. cbn [mbind option_bind]. simpl negb. cbv iota.
    unfold inode_remove. subst st1. cbn [open_inodes dev].
    rewrite lookup_insert_ne by congruence. rewrite lookup_insert_eq.
    cbn [mbind option_bind]. unfold remove_done. rewrite Hdot. cbn [mbind option_bind].
    unfold inode_close. cbn [open_inodes dev]. rewrite lookup_insert_eq.
    cbn [open_cnt set_removed set_open_cnt].
    destruct (Hwf _ _ Ht) as [_ Hcnt].
    replace (open_cnt t + 1 - 1 =? 0) with false by lia. cbn [mbind option_bind].
    eexists _, ino', k, (dir_entry_of_bytes bytes).
    split; [reflexivity|]. split; [reflexivity|]. cbn [open_inodes dev].
    split.
    { rewrite lookup_insert_ne by congruence. rewrite lookup_insert_ne by congruence.
      apply lookup_insert_eq. }
    split; [exact Hk|].
    split; [apply Hinsert; assumption|].
    split; [exact Hu'|]. split; [exact Hn'|].
    split.
    + intros t' [= <-]. rewrite lookup_insert_eq. f_equal. destruct t.
      unfold set_removed, set_open_cnt. cbn [sector open_cnt removed deny_write_cnt data].
      f_equal. lia.
    + discriminate.
  - (* the file is not open *)
    cbn [open_inodes fst] in Hfile. rewrite lookup_insert_eq in Hfile.
    cbn [fmap option_fmap option_map data set_open_cnt] in Hfile.
    injection Hfile as Hfile.
    cbv beta iota zeta.
    unfold inode_is_dir. cbn [open_inodes]. rewrite lookup_insert_eq.
    cbn [fmap option_fmap option_map mbind option_bind data].
    assert (Hfile' : negb (is_directory (inode_disk_of_sector (block_read (disk (dev st)) p))
                           =? 0) = false) by exact Hfile.
    rewrite Hfile'.
    cbv beta iota. cbn [mbind option_bind].
    set (t0 := mk_inode p 1 false 0 (inode_disk_of_sector (block_read (disk (dev st)) p))).
    set (st1 := mk_state (dev st) (<[p := t0]> (open_inodes st))).
    assert (Hp1 : open_inodes st1 !! inode dr = Some ino).
    { subst st1. simpl. rewrite lookup_insert_ne by exact Hne. exact Hp. }
    destruct (write_at_small st1 (inode dr) ino bytes 20 (20 * Z.of_nat k) Hp1 Hsf Hdeny
                ltac:(lia) ltac:(lia) ltac:(lia) ltac:(lia) ltac:(simpl; lia))
      as (f' & ino' & Hw & _ & Hlen & Hsf' & Hc).
    unfold entry_size. rewrite Hw. cbn [mbind option_bind]. simpl negb. cbv iota.
    unfold inode_remove. subst st1. cbn [open_inodes dev].
    rewrite lookup_insert_ne by congruence. rewrite lookup_insert_eq.
    cbn [mbind option_bind]. unfold remove_done. rewrite Hdot. cbn [mbind option_bind].
    unfold inode_close. cbn [open_inodes dev]. rewrite lookup_insert_eq.
    subst t0. cbn [open_cnt set_removed removed]. simpl Z.eqb. cbv iota.
    cbn [mbind option_bind].
    eexists _, ino', k, (dir_entry_of_bytes bytes).
    split; [reflexivity|]. split; [reflexivity|]. cbn [open_inodes dev disk].
    split.
    { rewrite lookup_delete_ne by congruence. rewrite lookup_insert_ne by congruence.
      apply lookup_insert_eq. }
    split; [exact Hk|].
    split; [rewrite DirFacts.release_data_disk; apply Hinsert; assumption|].
    split; [exact Hu'|]. split; [exact Hn'|].
    split; [discriminate|].
    intros _. apply lookup_delete_eq.
Qed.

End WithRoot.

(** X17. A directory entry with a sector number of 32 bits and a name
    array of fifteen characters is decoded from its twenty bytes as it
    was encoded. *)
Theorem dir_entry_roundtrip (e : dir_entry) :
  0 <= inode_sector e < 4294967296 -> Datatypes.length (name e) = 15%nat ->
  Datatypes.length (dir_entry_to_bytes e) = 20%nat
  /\ dir_entry_of_bytes (dir_entry_to_bytes e) = e.
Proof.
  intros Hs Hn. rewrite dir_entry_to_bytes_full by exact Hn. split.
  - rewrite !length_app, le32_length, Hn. reflexivity.
  - rewrite dir_entry_of_bytes_built by assumption.
    destruct e as [s n u]. simpl. f_equal. destruct u; reflexivity.
Qed.

(** X16. [lookup] answers the first entry, in the order of the
    directory, that is in use and has the name asked for, with the
    offset of its slot; it answers nothing exactly when no entry in use
    has that name. *)
Theorem lookup_first_match (d : gmap Z (list Z)) (ino : Inode.inode) (nm : list Z) :
  (forall e ofs,
     lookup d ino nm = Some (e, ofs) <->
     exists k : nat,
       ofs = 20 * Z.of_nat k
       /\ dir_entries d ino !! k = Some e
       /\ in_use e = true /\ c_string nm = c_string (name e)
       /\ forall j e', (j < k)%nat -> dir_entries d ino !! j = Some e' ->
            ~ (in_use e' = true /\ c_string nm = c_string (name e')))
  /\ (lookup d ino nm = None <->
      forall e, e ∈ dir_entries d ino ->
        ~ (in_use e = true /\ c_string nm = c_string (name e))).
Proof.
  assert (Hm : forall e, matches nm e <-> in_use e = true /\ c_string nm = c_string (name e)).
  { intros e. unfold matches, streq. rewrite andb_true_iff, bool_decide_eq_true. tauto. }
  split.
  - intros e ofs. rewrite lookup_find. split.
    + destruct (list_find _ _) as [[k e1]|] eqn:Hf; [|discriminate].
      simpl. intros [= -> <-]. apply list_find_Some in Hf as (Hk & Hmatch & Hbefore).
      exists k. split; [reflexivity|]. split; [exact Hk|].
      apply Hm in Hmatch as [H1 H2]. split; [exact H1|]. split; [exact H2|].
      intros j e' Hj He' Hc. apply (Hbefore j e' He' Hj). apply Hm. exact Hc.
    + intros (k & -> & Hk & H1 & H2 & Hbefore).
      assert (Hf : list_find (matches nm) (dir_entries d ino) = Some (k, e)).
      { apply list_find_Some. split; [exact Hk|]. split; [apply Hm; tauto|].
        intros j e' He' Hj Hc. apply (Hbefore j e' Hj He'). apply Hm. exact Hc. }
      rewrite Hf. reflexivity.
  - rewrite lookup_find. split.
    + destruct (list_find _ _) as [[k e1]|] eqn:Hf; [discriminate|]. intros _.
      apply list_find_None in Hf. rewrite Forall_forall in Hf.
      intros e He Hc. apply (Hf e He). apply Hm. exact Hc.
    + intros H. assert (Hf : list_find (matches nm) (dir_entries d ino) = None).
      { apply list_find_None. apply Forall_forall. intros e He Hc. apply (H e He).
        apply Hm. exact Hc. }
      rewrite Hf. reflexivity.
Qed.

Lemma slot_bytes_zero d ino (j : nat) :
  contents d ino = replicate (Z.to_nat (inode_length ino)) 0 ->
  (j < Z.to_nat (inode_length ino / 20))%nat ->
  slot_bytes d ino j = replicate 20 0.
Proof.
  intros Hc Hj. apply slots_bound in Hj. unfold slot_bytes. rewrite Hc.
  rewrite drop_replicate, take_replicate. f_equal. lia.
Qed.

(** X15. [dir_create] with room for [entry_cnt] entries, on a reserved
    sector: the inode is that of a directory with the parent given, it
    has [entry_cnt] slots and none of them is in use, so no name is
    found in it. *)
Theorem dir_create_empty (f : fs) (sec entry_cnt parent : Z) :
  disk_ok (disk f) -> 0 <= entry_cnt <= 256 ->
  0 <= sec -> free_map f !! idx sec = Some true ->
  (20 * entry_cnt + 511) / 512 <= free_map_count (free_map f) ->
  Z.of_nat (Datatypes.length (free_map f)) <= 4294967296 ->
  0 <= parent < 4294967296 ->
  exists f' ino,
    dir_create f sec entry_cnt parent = Some (f', true)
    /\ (forall m, m !! sec = None ->
          inode_open (mk_state f' m) sec = (mk_state f' (<[sec := ino]> m), sec))
    /\ is_directory (data ino) = 1
    /\ parent_directory (data ino) = parent
    /\ Datatypes.length (dir_entries (disk f') ino) = Z.to_nat entry_cnt
    /\ live_entries (disk f') ino = []
    /\ forall nm, lookup (disk f') ino nm = None.
Proof.
  intros Hdok Hcnt Hsec0 Hsecu Hroom Hfml Hparent. unfold dir_create, entry_size.
  rewrite int32_small by lia.
  destruct (create_small_spec f sec (entry_cnt * 20) parent 1 Hdok ltac:(lia) Hsec0 Hsecu
              ltac:(replace (entry_cnt * 20) with (20 * entry_cnt) by lia; exact Hroom)
              Hfml Hparent)
    as (f' & ino & Hcreate & Hopen & _ & _ & _ & _ & HL & Hpar & Hdir & Hsf & Hc & _).
  exists f', ino. split; [exact Hcreate|]. split; [exact Hopen|].
  split; [rewrite Hdir; reflexivity|]. split; [exact Hpar|].
  pose proof Hsf as (_ & _ & _ & _ & _ & Hdok' & _).
  assert (Hn : Z.to_nat (inode_length ino / 20) = Z.to_nat entry_cnt).
  { rewrite HL. rewrite Z.div_mul by lia. reflexivity. }
  assert (Hfree : forall e, e ∈ dir_entries (disk f') ino -> in_use e = false).
  { intros e He. apply list_elem_of_lookup in He as [j Hj].
    pose proof (lookup_lt_Some _ _ _ Hj) as Hlt.
    rewrite dir_entries_length in Hlt by exact Hdok'.
    rewrite dir_entries_lookup in Hj by assumption. injection Hj as <-.
    rewrite slot_bytes_zero by (try exact Hlt; rewrite Hc, HL; reflexivity).
    reflexivity. }
  split; [rewrite dir_entries_length by exact Hdok'; exact Hn|].
  split.
  - unfold live_entries.
    destruct (filter (fun e => in_use e = true) (dir_entries (disk f') ino)) as [|e l] eqn:Hfl;
      [reflexivity|].
    assert (He : e ∈ filter (fun e => in_use e = true) (dir_entries (disk f') ino))
      by (rewrite Hfl; apply elem_of_cons; left; reflexivity).
    apply list_elem_of_filter in He as [Hu He]. rewrite (Hfree e He) in Hu. discriminate.
  - intros nm. rewrite lookup_find.
    assert (Hf : list_find (matches nm) (dir_entries (disk f') ino) = None).
    { apply list_find_None. apply Forall_forall. intros e He. unfold matches.
      rewrite (Hfree e He). discriminate. }
    rewrite Hf. reflexivity.
Qed.

Lemma ex_small_mkdir : small_file (dev Examples.st_mkdir) (Examples.inode_at Examples.st_mkdir 1).
Proof. apply (bool_decide_unpack _). vm_compute. exact I. Qed.

Lemma ex_wf_mkdir : wf Examples.st_mkdir.
Proof.
  assert (H : open_inodes Examples.st_mkdir
              = {[1 := Examples.inode_at Examples.st_mkdir 1]})
    by (vm_compute; reflexivity).
  intros p ino Hp. rewrite H in Hp.
  apply lookup_singleton_Some in Hp as [<- <-]. vm_compute. split; [reflexivity | discriminate].
Qed.

(** The test can be decided. *)
Lemma ex_root_open :
  open_inodes Examples.st_mkdir !! inode (mk_dir 1 0)
  = Some (Examples.inode_at Examples.st_mkdir 1).
Proof. vm_compute. reflexivity. Qed.

Lemma ex_no_x :
  lookup (disk (dev Examples.st_mkdir)) (Examples.inode_at Examples.st_mkdir 1) [120] = None.
Proof. vm_compute. reflexivity. Qed.

Lemma dir_add_entries_witness :
  small_file (dev Examples.st_mkdir) (Examples.inode_at Examples.st_mkdir 1)
  /\ lookup (disk (dev Examples.st_mkdir)) (Examples.inode_at Examples.st_mkdir 1) [120] = None
  /\ exists st' ino' (k : nat) e_new,
       dir_add Examples.st_mkdir (mk_dir 1 0) [120] 9 (replicate 20 0) = Some (st', true)
       /\ open_inodes st' = <[inode (mk_dir 1 0) := ino']> (open_inodes Examples.st_mkdir)
       /\ small_file (dev st') ino'
       /\ dir_entries (disk (dev st')) ino'
          = take k (dir_entries (disk (dev Examples.st_mkdir))
                      (Examples.inode_at Examples.st_mkdir 1))
            ++ [e_new]
            ++ drop (S k) (dir_entries (disk (dev Examples.st_mkdir))
                             (Examples.inode_at Examples.st_mkdir 1)).
Proof.
  split; [exact ex_small_mkdir|]. split; [exact ex_no_x|].
  destruct (dir_add_entries Examples.st_mkdir (mk_dir 1 0) [120] 9 (replicate 20 0)
              (Examples.inode_at Examples.st_mkdir 1) ex_root_open ex_small_mkdir)
    as (st' & ino' & k & e_new & Ha & Ho & Hsf & Hes & _);
    [vm_compute; reflexivity | vm_compute; discriminate | vm_compute; discriminate
    | simpl; lia | exact ex_no_x | lia | reflexivity |].
  exists st', ino', k, e_new. split; [exact Ha|]. split; [exact Ho|].
  split; [exact Hsf | exact Hes].
Defined.

Lemma dir_add_lookup_witness :
  small_file (dev Examples.st_mkdir) (Examples.inode_at Examples.st_mkdir 1)
  /\ lookup (disk (dev Examples.st_mkdir)) (Examples.inode_at Examples.st_mkdir 1) [120] = None
  /\ exists st' ino',
       dir_add Examples.st_mkdir (mk_dir 1 0) [120] 9 (replicate 20 0) = Some (st', true)
       /\ open_inodes st' !! inode (mk_dir 1 0) = Some ino'
       /\ exists e ofs, lookup (disk (dev st')) ino' [120] = Some (e, ofs)
                        /\ inode_sector e = 9 /\ c_string (name e) = c_string [120].
Proof.
  split; [exact ex_small_mkdir|]. split; [exact ex_no_x|].
  destruct (dir_add_lookup Examples.st_mkdir (mk_dir 1 0) [120] 9 (replicate 20 0)
              (Examples.inode_at Examples.st_mkdir 1) ex_root_open ex_small_mkdir)
    as (st' & ino' & Ha & Ho & Hl & _);
    [vm_compute; reflexivity | vm_compute; discriminate | vm_compute; discriminate
    | simpl; lia | exact ex_no_x | lia | reflexivity |].
  exists st', ino'. split; [exact Ha|]. split; [exact Ho | exact Hl].
Defined.


Lemma dir_lookup_reference_witness :
  wf Examples.st_mkdir
  /\ match lookup (disk (dev Examples.st_mkdir)) (Examples.inode_at Examples.st_mkdir 1) [101]
     with
     | None => dir_lookup Examples.st_mkdir (mk_dir 1 0) [101] = Some (Examples.st_mkdir, None)
     | Some (e, _) =>
         exists st',
           dir_lookup Examples.st_mkdir (mk_dir 1 0) [101] = Some (st', Some (inode_sector e))
           /\ wf st'
           /\ inode_open_cnt st' (inode_sector e)
              = Some (default 0 (inode_open_cnt Examples.st_mkdir (inode_sector e)) + 1)
           /\ inode_close st' (inode_sector e) = Some Examples.st_mkdir
     end.
Proof.
  split; [exact ex_wf_mkdir|].
  exact (dir_lookup_reference Examples.st_mkdir (mk_dir 1 0) [101]
           (Examples.inode_at Examples.st_mkdir 1) ex_wf_mkdir ex_root_open).
Defined.

Lemma ex_disk_ok_mkdir : disk_ok (disk (dev Examples.st_mkdir)).
Proof. apply (bool_decide_unpack _). vm_compute. exact I. Qed.

Lemma dir_readdir_next_witness :
  disk_ok (disk (dev Examples.st_mkdir))
  /\ dir_readdir Examples.st_mkdir (mk_dir 1 0)
     = Some match list_find (fun e => in_use e = true)
                    (drop 0 (dir_entries (disk (dev Examples.st_mkdir))
                               (Examples.inode_at Examples.st_mkdir 1))) with
            | Some (k, e) =>
                (mk_dir (inode (mk_dir 1 0)) (20 * Z.of_nat (0 + k + 1)),
                 Some (take 14 (c_string (name e))))
            | None =>
                (mk_dir (inode (mk_dir 1 0))
                   (20 * Z.of_nat (Nat.max 0 (Datatypes.length
                                                (dir_entries (disk (dev Examples.st_mkdir))
                                                   (Examples.inode_at Examples.st_mkdir 1))))),
                 None)
            end.
Proof.
  split; [exact ex_disk_ok_mkdir|].
  exact (dir_readdir_next Examples.st_mkdir (mk_dir 1 0) (Examples.inode_at Examples.st_mkdir 1)
           0 ex_root_open ex_disk_ok_mkdir eq_refl).
Defined.

Lemma ex_disk_ok_reserved_dir_create : 20 * 16 + 511 <= 512 * 28.
Proof. lia. Qed.

Lemma dir_create_empty_witness :
  disk_ok (disk (Examples.reserve (Examples.formatted 30)).1)
  /\ free_map (Examples.reserve (Examples.formatted 30)).1 !! idx 3 = Some true
  /\ exists f' ino,
       dir_create (Examples.reserve (Examples.formatted 30)).1 3 16 1 = Some (f', true)
       /\ forall nm, lookup (disk f') ino nm = None.
Proof.
  assert (H1 : free_map (Examples.reserve (Examples.formatted 30)).1 !! idx 3 = Some true)
    by (vm_compute; reflexivity).
  split; [exact ex_disk_ok_reserved|]. split; [exact H1|].
  destruct (dir_create_empty (Examples.reserve (Examples.formatted 30)).1 3 16 1
              ex_disk_ok_reserved)
    as (f' & ino & Hc & _ & _ & _ & _ & _ & Hl);
    [lia | lia | exact H1 | vm_compute; discriminate | vm_compute; discriminate | lia |].
  exists f', ino. split; [exact Hc | exact Hl].
Defined.

Lemma dir_entry_roundtrip_witness :
  dir_entry_of_bytes (dir_entry_to_bytes (mk_dir_entry 3 ([101] ++ replicate 14 0) true))
  = mk_dir_entry 3 ([101] ++ replicate 14 0) true.
Proof.
  refine (proj2 (dir_entry_roundtrip (mk_dir_entry 3 ([101] ++ replicate 14 0) true) _ _));
    [simpl; lia | reflexivity].
Defined.

Lemma ex_wf_e_open : wf Examples.st_e_open.
Proof. apply DirFacts.wf_inode_open. exact DirFacts.wf_st_nonempty. Qed.

Lemma ex_e_open : open_inodes Examples.st_e_open !! inode (mk_dir 3 0) = Some (Examples.inode_at Examples.st_e_open 3).
Proof. vm_compute. reflexivity. Qed.

Lemma ex_small_e : small_file (dev Examples.st_e_open) (Examples.inode_at Examples.st_e_open 3).
Proof. apply (bool_decide_unpack _). vm_compute. exact I. Qed.

Lemma ex_e_deny : deny_write_cnt (Examples.inode_at Examples.st_e_open 3) = 0.
Proof. vm_compute. reflexivity. Qed.

Lemma ex_e_lookup :
  lookup (disk (dev Examples.st_e_open)) (Examples.inode_at Examples.st_e_open 3) [102]
  = Some (mk_dir_entry 4 ([102] ++ replicate 14 0) true, 0).
Proof. vm_compute. reflexivity. Qed.

Lemma ex_e_file :
  inode_is_dir (inode_open Examples.st_e_open 4).1 4 = Some false.
Proof. vm_compute. reflexivity. Qed.

Lemma dir_remove_file_witness :
  wf Examples.st_e_open
  /\ small_file (dev Examples.st_e_open) (Examples.inode_at Examples.st_e_open 3)
  /\ lookup (disk (dev Examples.st_e_open)) (Examples.inode_at Examples.st_e_open 3) [102]
     = Some (mk_dir_entry 4 ([102] ++ replicate 14 0) true, 0)
  /\ exists st' ino' (k : nat) e',
       dir_remove 1 Examples.st_e_open (mk_dir 3 0) [102] = Some (st', true)
       /\ 0 = 20 * Z.of_nat k
       /\ open_inodes st' !! inode (mk_dir 3 0) = Some ino'
       /\ dir_entries (disk (dev st')) ino'
          = <[k := e']> (dir_entries (disk (dev Examples.st_e_open)) (Examples.inode_at Examples.st_e_open 3))
       /\ in_use e' = false.
Proof.
  split; [exact ex_wf_e_open|]. split; [exact ex_small_e|]. split; [exact ex_e_lookup|].
  destruct (dir_remove_file 1 Examples.st_e_open (mk_dir 3 0) [102] (Examples.inode_at Examples.st_e_open 3)
              (mk_dir_entry 4 ([102] ++ replicate 14 0) true) 0
              ex_wf_e_open ex_e_open ex_small_e ex_e_deny eq_refl ex_e_lookup
              ltac:(simpl; lia) ex_e_file)
    as (st' & ino' & k & e' & Hr & Hk & Ho & _ & Hes & Hu & _).
  exists st', ino', k, e'. split; [exact Hr|]. split; [exact Hk|]. split; [exact Ho|].
  split; [exact Hes | exact Hu].
Defined.

End EntryFacts.

(** ** Descriptors and the console (userprog/syscall.c) *)

Module CallFacts.
Import Inode Sys.

Section WithLimits.

Variable MAX_FILES : Z.
Variable PHYS_BASE : Z.

(** The search of [init_file] ends on the first free slot at or after
    its start, or on the last slot. *)
Lemma next_open_index_spec (fuel : nat) (t : thread) (fd : Z) :
  fd <= MAX_FILES - 1 -> MAX_FILES - 1 - fd <= Z.of_nat fuel ->
  let r := next_open_index MAX_FILES fuel t fd in
  fd <= r <= MAX_FILES - 1
  /\ (forall k, fd <= k < r -> is_Some (get_file t k))
  /\ (get_file t r = None \/ r = MAX_FILES - 1).
Proof.
  revert fd. induction fuel as [|fuel IH]; intros fd Hle Hfuel; simpl.
  - assert (fd = MAX_FILES - 1) by lia. split; [lia|]. split; [intros; lia | right; lia].
  - destruct (bool_decide (is_Some (get_file t fd))) eqn:Hocc; simpl.
    + apply bool_decide_eq_true in Hocc.
      destruct (fd <? MAX_FILES - 1) eqn:Hlt; simpl.
      * destruct (IH (fd + 1) ltac:(lia) ltac:(lia)) as (Hr & Hk & Hend).
        split; [lia|]. split; [|exact Hend].
        intros k Hkr. destruct (decide (k = fd)) as [->|Hne]; [exact Hocc|]. apply Hk. lia.
      * split; [lia|]. split; [intros; lia | right; lia].
    + apply bool_decide_eq_false in Hocc.
      split; [lia|]. split; [intros; lia|]. left.
      destruct (get_file t fd) eqn:E; [exfalso; apply Hocc; eauto | reflexivity].
Qed.


Lemma get_set_file_eq (t : thread) (fd : Z) (o : option file) :
  0 <= fd < Z.of_nat (Datatypes.length (files t)) ->
  get_file (set_file t fd o) fd = o.
Proof.
  intros H. unfold get_file, set_file. simpl.
  rewrite list_lookup_insert_eq by (unfold idx; lia). reflexivity.
Qed.

Lemma get_set_file_ne (t : thread) (fd k : Z) (o : option file) :
  0 <= fd -> 0 <= k -> k <> fd ->
  get_file (set_file t fd o) k = get_file t k.
Proof.
  intros H1 H2 H3. unfold get_file, set_file. simpl.
  rewrite list_lookup_insert_ne by (unfold idx; lia). reflexivity.
Qed.

(** X18. With the table in order and the slot [next_fd] free,
    [init_file] returns the lowest free descriptor, stores the file
    there and nowhere else, and leaves the table in order, with
    [next_fd] on a free slot unless it is on the last slot. *)
Theorem init_file_lowest_free (t : thread) (f : file) :
  table_ok MAX_FILES t -> get_file t (next_fd t) = None ->
  let '(t', fd) := init_file MAX_FILES t f in
  fd = next_fd t
  /\ (forall k, 2 <= k < fd -> is_Some (get_file t k))
  /\ get_file t' fd = Some f
  /\ (forall k, 0 <= k -> k <> fd -> get_file t' k = get_file t k)
  /\ table_ok MAX_FILES t'
  /\ (get_file t' (next_fd t') = None \/ next_fd t' = MAX_FILES - 1).
Proof.
  intros (Hlen & Hfd & Hocc) Hfree. unfold init_file.
  destruct (1 <? next_fd t) eqn:H1; [|lia].
  destruct (next_fd t =? MAX_FILES) eqn:H2; [lia|].
  set (t1 := set_file t (next_fd t) (Some f)).
  destruct (next_open_index_spec (Z.to_nat MAX_FILES) t1 (next_fd t) ltac:(lia) ltac:(lia))
    as (Hr & Hk & Hend).
  set (r := next_open_index MAX_FILES (Z.to_nat MAX_FILES) t1 (next_fd t)) in *.
  assert (Hg : forall k, get_file (mk_thread (files t1) r) k = get_file t1 k) by reflexivity.
  split; [reflexivity|]. split; [exact Hocc|].
  split; [rewrite Hg; apply get_set_file_eq; lia|].
  split; [intros k Hk0 Hne; rewrite Hg; apply get_set_file_ne; lia|].
  split.
  - split; [|split].
    + simpl. rewrite length_insert. exact Hlen.
    + simpl. lia.
    + simpl. intros k Hkr. rewrite Hg.
      destruct (decide (k < next_fd t)) as [Hlt|Hge].
      * subst t1. rewrite get_set_file_ne by lia. apply Hocc. lia.
      * apply Hk. lia.
  - simpl. rewrite Hg. exact Hend.
Qed.


End WithLimits.

Lemma load_bytes_length (m : gmap Z Z) (a n : Z) :
  Datatypes.length (load_bytes m a n) = Z.to_nat n.
Proof. unfold load_bytes. rewrite length_map, length_seq. reflexivity. Qed.

Lemma stdout_chunks_step (s : sys) (size buffer : Z) :
  256 <= size ->
  stdout_chunks s size buffer
  = load_bytes (umem s) buffer size
    :: stdout_chunks (putbuf s buffer size) (size - 256) (buffer + 256).
Proof.
  intros Hsz. unfold stdout_chunks, BUFFER_LIMIT.
  assert (Hq : size / 256 = (size - 256) / 256 + 1).
  { replace size with ((size - 256) + 1 * 256) at 1 by lia.
    rewrite Z.div_add by lia. reflexivity. }
  assert (H0 : 0 <= (size - 256) / 256) by (apply Z.div_pos; lia).
  rewrite Hq, Z2Nat.inj_add by lia. change (Z.to_nat 1) with 1%nat.
  rewrite Nat.add_1_r. cbn [seq map]. f_equal.
  - f_equal; lia.
  - rewrite <- seq_shift, map_map. apply map_ext. intros i. cbn [umem putbuf].
    f_equal; lia.
Qed.

Lemma stdout_loop_spec (fuel : nat) (s : sys) (size buffer : Z) :
  0 <= size -> size / 256 <= Z.of_nat fuel ->
  stdout_loop fuel s size buffer
  = (mk_sys (fsys s) (thr s) (umem s) (console s ++ stdout_chunks s size buffer)
       (input s) (eax s),
     size mod 256, buffer + 256 * (size / 256)).
Proof.
  revert s size buffer. induction fuel as [|fuel IH]; intros s size buffer H0 Hfuel.
  - assert (Hq : size / 256 = 0).
    { pose proof (Z.div_pos size 256 H0 ltac:(lia)). lia. }
    assert (Hlt : size < 256).
    { destruct (Z.lt_ge_cases size 256) as [|Hge]; [assumption|].
      pose proof (Z.div_le_mono 256 size 256 ltac:(lia) Hge) as Hm.
      change (256 / 256) with 1 in Hm. lia. }
    simpl. unfold stdout_chunks, BUFFER_LIMIT. rewrite Hq. simpl.
    rewrite app_nil_r, Z.mod_small by lia. destruct s. simpl. do 2 f_equal. lia.
  - cbn [stdout_loop]. unfold BUFFER_LIMIT at 1.
    rewrite Z.quot_div_nonneg by lia.
    destruct (1 <=? size / 256) eqn:Hq.
    + assert (Hsz : 256 <= size).
      { destruct (Z.lt_ge_cases size 256) as [Hlt|]; [|assumption].
        rewrite Z.div_small in Hq by lia. discriminate. }
      assert (Hd : size / 256 = (size - 256) / 256 + 1).
      { replace size with ((size - 256) + 1 * 256) at 1 by lia.
        rewrite Z.div_add by lia. reflexivity. }
      unfold BUFFER_LIMIT. rewrite IH by lia.
      rewrite (stdout_chunks_step s size buffer) by lia.
      cbn [fsys thr umem console input eax putbuf].
      rewrite <- app_assoc. cbn [app].
      replace ((size - 256) mod 256) with (size mod 256).
      * f_equal. lia.
      * replace size with ((size - 256) + 1 * 256) at 1 by lia.
        rewrite Z.mod_add by lia. reflexivity.
    + assert (Hq0 : size / 256 = 0).
      { pose proof (Z.div_pos size 256 H0 ltac:(lia)). lia. }
      assert (Hlt : size < 256).
      { destruct (Z.lt_ge_cases size 256) as [|Hge]; [assumption|].
        pose proof (Z.div_le_mono 256 size 256 ltac:(lia) Hge) as Hm.
        change (256 / 256) with 1 in Hm. lia. }
      unfold stdout_chunks, BUFFER_LIMIT. rewrite Hq0. simpl.
      rewrite app_nil_r, Z.mod_small by lia. destruct s. simpl. do 2 f_equal. lia.
Qed.

(** X20. What [write_to_stdout] puts on the console for [size] bytes: a
    chunk for every whole [BUFFER_LIMIT] bytes, each with all the bytes
    from its start to the end of the buffer, then the bytes after the
    last whole chunk.  It returns [size].  Up to [BUFFER_LIMIT] bytes
    these are the bytes of the buffer, once; above, more than [size]
    bytes reach the console. *)
Theorem write_to_stdout_chunks (s : sys) (size buffer : Z) :
  0 <= size ->
  let s' := write_to_stdout s size buffer in
  let out :=
    stdout_chunks s size buffer
    ++ (if 0 <? size mod BUFFER_LIMIT
        then [load_bytes (umem s) (buffer + BUFFER_LIMIT * (size / BUFFER_LIMIT))
                (size mod BUFFER_LIMIT)]
        else []) in
  console s' = console s ++ out
  /\ eax s' = size /\ umem s' = umem s /\ thr s' = thr s /\ fsys s' = fsys s
  /\ (size <= BUFFER_LIMIT -> concat out = load_bytes (umem s) buffer size)
  /\ (BUFFER_LIMIT < size -> size < Z.of_nat (Datatypes.length (concat out))).
Proof.
  intros H0 s' out. subst s'. unfold write_to_stdout.
  rewrite stdout_loop_spec by (try lia; rewrite Z2Nat.id by lia;
                               apply Z.div_le_upper_bound; lia).
  unfold BUFFER_LIMIT in *.
  rewrite Z.rem_mod_nonneg by (try lia; apply Z.mod_pos_bound; lia).
  rewrite Z.mod_mod by lia.
  split.
  { subst out. destruct (0 <? size mod 256); cbn [console putbuf set_eax umem].
    - rewrite <- app_assoc. reflexivity.
    - rewrite app_nil_r. reflexivity. }
  split; [destruct (0 <? _); reflexivity|].
  split; [destruct (0 <? _); reflexivity|].
  split; [destruct (0 <? _); reflexivity|].
  split; [destruct (0 <? _); reflexivity|].
  split.
  - intros Hle. subst out. destruct (decide (size = 256)) as [->|Hne].
    + unfold stdout_chunks, BUFFER_LIMIT. change (256 / 256) with 1.
      change (256 mod 256) with 0. change (Z.to_nat 1) with 1%nat.
      cbn [seq map Z.ltb Z.compare app concat]. rewrite app_nil_r. f_equal; lia.
    + unfold stdout_chunks, BUFFER_LIMIT. rewrite Z.div_small, Z.mod_small by lia. simpl.
      destruct (0 <? size) eqn:E.
      * cbn [concat]. rewrite app_nil_r. f_equal; lia.
      * assert (size = 0) as -> by lia. reflexivity.
  - intros Hgt. subst out. rewrite (stdout_chunks_step s size buffer) by lia.
    cbn [app concat]. rewrite !length_app, load_bytes_length.
    destruct (0 <? size mod 256) eqn:Hr.
    + rewrite concat_app, length_app. cbn [concat]. rewrite app_nil_r, load_bytes_length.
      assert (0 < size mod 256) by lia. lia.
    + assert (Hm : size mod 256 = 0) by (pose proof (Z.mod_pos_bound size 256); lia).
      assert (Hsz : 512 <= size).
      { pose proof (Z.div_mod size 256 ltac:(lia)) as Hdm.
        assert (2 <= size / 256); [|lia].
        destruct (Z.lt_ge_cases (size / 256) 2); [|lia]. lia. }
      rewrite (stdout_chunks_step _ (size - 256) (buffer + 256)) by lia.
      rewrite app_nil_r. cbn [concat]. rewrite !length_app, load_bytes_length. lia.
Qed.


Section WithLimits.

Variable MAX_FILES : Z.
Variable PHYS_BASE : Z.



End WithLimits.

Lemma ex_table_one_open : table_ok 4 Examples.thread_one_open.
Proof.
  split; [reflexivity|]. split; [vm_compute; split; [discriminate | reflexivity]|].
  intros k Hk. change (next_fd Examples.thread_one_open) with 3 in Hk.
  assert (k = 2) as -> by lia. vm_compute. eauto.
Qed.

Lemma init_file_lowest_free_witness :
  table_ok 4 Examples.thread_one_open
  /\ get_file Examples.thread_one_open (next_fd Examples.thread_one_open) = None
  /\ (let '(t', fd) := init_file 4 Examples.thread_one_open (Examples.some_file 6) in
      fd = next_fd Examples.thread_one_open
      /\ (forall k, 2 <= k < fd -> is_Some (get_file Examples.thread_one_open k))
      /\ get_file t' fd = Some (Examples.some_file 6)
      /\ (forall k, 0 <= k -> k <> fd -> get_file t' k = get_file Examples.thread_one_open k)
      /\ table_ok 4 t'
      /\ (get_file t' (next_fd t') = None \/ next_fd t' = 4 - 1)).
Proof.
  split; [exact ex_table_one_open|]. split; [reflexivity|].
  exact (init_file_lowest_free 4 Examples.thread_one_open (Examples.some_file 6)
           ex_table_one_open eq_refl).
Defined.







Lemma write_to_stdout_chunks_witness :
  0 <= 3
  /\ console (write_to_stdout Examples.sys_stdout 3 8192)
     = console Examples.sys_stdout
       ++ stdout_chunks Examples.sys_stdout 3 8192
       ++ (if 0 <? 3 mod BUFFER_LIMIT
           then [load_bytes (umem Examples.sys_stdout) (8192 + BUFFER_LIMIT * (3 / BUFFER_LIMIT))
                   (3 mod BUFFER_LIMIT)]
           else []).
Proof.
  split; [lia|].
  exact (proj1 (write_to_stdout_chunks Examples.sys_stdout 3 8192 ltac:(lia))).
Defined.



End CallFacts.

(** ** Swap and page faults (vm/swap.c, userprog/exception.c) *)

Module PagingFacts.
Import VM FileFacts.

Lemma page_sector_length (m : gmap Z (list Z)) (addr i : Z) (bytes : list Z) :
  m !! addr = Some bytes -> Datatypes.length bytes = 4096%nat -> 0 <= i < 8 ->
  Datatypes.length (page_sector m addr i) = 512%nat.
Proof.
  intros Hm Hlen Hi. unfold page_sector, BLOCK_SECTOR_SIZE, idx. rewrite Hm. simpl.
  rewrite length_take, length_drop. lia.
Qed.

Lemma read_sectors_written (n : nat) (i0 : Z) sp m addr index (bytes : list Z) :
  m !! addr = Some bytes -> Datatypes.length bytes = 4096%nat ->
  0 <= i0 -> i0 + Z.of_nat n <= 8 ->
  read_sectors n i0 (write_sectors 8 0 sp m addr index) index
  = take (512 * n) (drop (512 * Z.to_nat i0) bytes).
Proof.
  intros Hm Hlen. revert i0. induction n as [|n IH]; intros i0 H0 Hn.
  - cbn [read_sectors]. rewrite Nat.mul_0_r. reflexivity.
  - cbn [read_sectors]. rewrite IH by lia.
    unfold block_read. rewrite VMFacts.write_sectors_lookup by lia. cbn [default].
    rewrite to_sector_id
      by (apply (page_sector_length m addr i0 bytes); [assumption | assumption | lia]).
    unfold page_sector, BLOCK_SECTOR_SIZE, idx. rewrite Hm. cbn [default].
    replace (Z.to_nat (512 * i0)) with (512 * Z.to_nat i0)%nat by lia.
    replace (512 * Z.to_nat (i0 + 1))%nat with (512 * Z.to_nat i0 + 512)%nat by lia.
    rewrite <- drop_drop.
    replace (512 * S n)%nat with (512 + 512 * n)%nat by lia.
    apply take_take_drop.
Qed.

Lemma page_find_set_sector (v : vm) (tid up index : Z) (t : thread) (page : sp_entry) :
  threads v !! tid = Some t -> sup_table t !! up = Some page ->
  page_find (page_set_sector v tid up index) tid up
  = Some (mk_sp_entry (upage page) BLOCK_SWAP 0 (file_addr page) (read_bytes page) index
            (writable page)).
Proof.
  intros Ht Hp. unfold page_find, page_set_sector, with_thread, set_sup_table.
  cbn [threads set_threads]. rewrite lookup_alter_eq, Ht. cbn [fmap option_fmap option_map
    mbind option_bind sup_table]. rewrite lookup_alter_eq, Hp. reflexivity.
Qed.

(** X23. A page written to the swap comes back as it was: [swap_write]
    takes the first free slot and records it in the supplemental entry,
    and [swap_read] of that entry into any frame returns, yields the
    bytes of the page and frees the slot again. *)
Theorem swap_write_read (v : vm) (tid up kpage index : Z) (t : thread) (page : sp_entry)
    (bytes : list Z) :
  threads v !! tid = Some t -> sup_table t !! up = Some page ->
  memory v !! mem_addr page = Some bytes -> Datatypes.length bytes = 4096%nat ->
  first_free (swap_map v) 0 = Some index ->
  Z.of_nat (Datatypes.length (swap_map v)) <= 4294967296 ->
  exists v1 page1 v2,
    swap_write v tid up page = Some v1
    /\ page_find v1 tid up = Some page1
    /\ block page1 = BLOCK_SWAP /\ swap_index page1 = index
    /\ swap_map v1 = <[idx index := true]> (swap_map v)
    /\ memory v1 = memory v
    /\ swap_read v1 page1 kpage = Some v2
    /\ memory v2 !! kpage = Some bytes
    /\ swap_map v2 = swap_map v.
Proof.
  intros Ht Hp Hm Hlen Hfree Hbound.
  destruct (VMFacts.first_free_clear _ _ _ Hfree) as [H0 Hclear].
  rewrite Z.sub_0_r in Hclear.
  pose proof (lookup_lt_Some _ _ _ Hclear) as Hlt.
  assert (Hu : uint32 index = index) by (unfold uint32; apply Z.mod_small; lia).
  unfold swap_write. rewrite Hfree.
  set (sp := write_sectors 8 0 (swap_partition v) (memory v) (mem_addr page) index).
  set (v0 := set_swap v (<[idx index := true]> (swap_map v)) sp).
  eexists _, _, _. split; [reflexivity|].
  split; [apply (page_find_set_sector v0 tid up index t page); assumption|].
  split; [reflexivity|]. split; [reflexivity|]. split; [reflexivity|].
  split; [reflexivity|].
  unfold swap_read. cbn [swap_index]. rewrite Hu.
  cbn [memory set_swap set_memory swap_map swap_partition page_set_sector with_thread
         set_threads v0].
  rewrite list_lookup_insert_eq by exact Hlt.
  split; [reflexivity|].
  cbn [memory set_swap set_memory swap_map swap_partition].
  split.
  - rewrite lookup_insert_eq. f_equal. subst sp.
    rewrite (read_sectors_written 8 0 _ _ _ _ bytes Hm Hlen) by lia.
    change (Z.to_nat 0) with 0%nat. rewrite Nat.mul_0_r, drop_0, take_ge by lia.
    reflexivity.
  - unfold idx. apply list_eq. intros i.
    destruct (decide (i = Z.to_nat index)) as [->|Hne].
    + rewrite list_lookup_alter_eq, list_lookup_insert_eq by lia. rewrite Hclear. reflexivity.
    + rewrite list_lookup_alter_ne, list_lookup_insert_ne by congruence. reflexivity.
Qed.

Section PageIn.

Variable PHYS_BASE : Z.
Variable PUSH_BYTES : Z.
Variable file_bytes : Z -> Z -> list Z.

(** The eight sectors [swap_read] copies, in order. *)
Lemma read_sectors_slot (sp : gmap Z (list Z)) (slot : Z) :
  read_sectors 8 0 sp slot
  = concat ((fun i => block_read sp (slot * 8 + i)) <$> [0; 1; 2; 3; 4; 5; 6; 7]).
Proof. reflexivity. Qed.

(** [frame_allocate] on a page whose frame is a position of the
    table. *)
Lemma frame_allocate_at (w : vm) (up kpage i : Z) (fe : frame_entry) :
  uint32 (kpage - base_address w) / PGSIZE = i -> i < table_size w ->
  frame_table w !! idx i = Some fe ->
  frame_allocate w up kpage
  = Some (set_frame_table w
            (alter (fun fe => mk_frame_entry up (Some (current w)) (used fe)) (idx i)
               (frame_table w)), true).
Proof.
  intros Hi Hlt Hfe. unfold frame_allocate, get_frame. rewrite Hi.
  destruct (table_size w <? i) eqn:E; [lia|]. rewrite Hfe. reflexivity.
Qed.

(** X24. A fault on a page that is not present, lies in user space and
    above the stack limit, has no supplemental entry and is at most
    [PUSH_BYTES] below the stack pointer grows the stack: with a page
    left in the user pool whose frame is one of the [table_size]
    entries of the frame table, the handler returns, the page is
    mapped writable to that frame, which is zeroed, the entry of the
    frame records the page and the thread while every other entry
    stays, and the new supplemental entry names the frame. *)
Theorem page_fault_grows_stack (v : vm) (esp error_code fault_addr kpage : Z)
    (pool : list Z) (t : thread) (fe : frame_entry) :
  let up := fault_addr - fault_addr mod PGSIZE in
  let i := uint32 (kpage - base_address v) / PGSIZE in
  Z.land error_code PF_P = 0 ->
  up < PHYS_BASE ->
  page_find v (current v) up = None ->
  uint32 (esp - PUSH_BYTES) <= fault_addr ->
  uint32 (PHYS_BASE - STACK_LIMIT) <= fault_addr ->
  user_pool v = kpage :: pool -> kpage <> 0 ->
  threads v !! current v = Some t ->
  pagedir_get_page (pagedir t) up = None ->
  i < table_size v ->
  frame_table v !! idx i = Some fe ->
  exists v' t',
    page_fault PHYS_BASE PUSH_BYTES file_bytes v esp error_code fault_addr = Ok v'
    /\ threads v' !! current v = Some t'
    /\ (exists page,
          sup_table t' !! up = Some page
          /\ upage page = up /\ block page = BLOCK_KERNEL /\ mem_addr page = kpage
          /\ swap_index page = -1 /\ writable page = true)
    /\ (exists e,
          pagedir t' !! up = Some e
          /\ pte_frame e = kpage /\ pte_present e = true /\ pte_dirty e = true
          /\ pte_writable e = true)
    /\ memory v' !! kpage = Some zero_page
    /\ user_pool v' = pool
    /\ frame_table v' !! idx i = Some (mk_frame_entry up (Some (current v)) (used fe))
    /\ (forall j, j <> idx i -> frame_table v' !! j = frame_table v !! j)
    /\ swap_map v' = swap_map v.
Proof.
  intros up i Hnp Hup Hpage Hesp Hlimit Hpool Hk Ht Hmap Hframe Hfe.
  assert (Hnone : sup_table t !! up = None).
  { unfold page_find in Hpage. rewrite Ht in Hpage. exact Hpage. }
  unfold page_fault. fold up. rewrite Hnp, Hpage.
  unfold is_user_vaddr.
  destruct (up <? PHYS_BASE) eqn:E; [|lia].
  destruct (uint32 (esp - PUSH_BYTES) <=? fault_addr) eqn:E2; [|lia].
  cbn [negb orb andb Z.eqb bool_decide decide_rel is_Some_dec].
  unfold palloc_get_page. rewrite Hpool.
  destruct (kpage =? 0) eqn:E3; [lia|]. cbn [mbind result_bind].
  unfold grow_stack.
  destruct (fault_addr <? uint32 (PHYS_BASE - STACK_LIMIT)) eqn:E4; [lia|].
  unfold install_page. cbn [threads current set_user_pool set_memory]. rewrite Ht, Hmap.
  match goal with
  | |- context [frame_allocate ?w _ _] =>
      rewrite (frame_allocate_at w up kpage i fe eq_refl Hframe Hfe)
  end.
  cbn [current set_frame_table with_thread set_threads set_user_pool set_memory].
  eexists _, _. split; [reflexivity|].
  unfold page_set_writable, page_insert, with_thread, set_sup_table, set_pagedir.
  cbn [threads set_threads set_frame_table current memory user_pool frame_table swap_map
         set_user_pool set_memory].
  split.
  { rewrite lookup_alter_eq, lookup_alter_eq, lookup_alter_eq, lookup_alter_eq, Ht.
    reflexivity. }
  cbn [sup_table pagedir]. rewrite Hnone.
  split.
  { eexists. rewrite lookup_alter_eq, lookup_insert_eq. split; [reflexivity|].
    destruct (decide (BLOCK_KERNEL = BLOCK_FILESYS)); [discriminate|].
    repeat split. }
  split.
  { eexists. unfold pagedir_set_dirty, pagedir_set_page.
    rewrite lookup_alter_eq, lookup_insert_eq. split; [reflexivity|]. repeat split. }
  split; [apply lookup_insert_eq|].
  split; [reflexivity|].
  split; [rewrite list_lookup_alter_eq, Hfe; reflexivity|].
  split; [intros j Hj; apply list_lookup_alter_ne; congruence | reflexivity].
Qed.

(** X25. A fault on a page that is not present and whose supplemental
    entry names a slot of the swap that is in use brings the page in:
    with a page left in the user pool whose frame is one of the
    [table_size] entries of the frame table, the handler returns, the
    frame holds the eight sectors of the slot in order, the slot is
    free again, the swap partition is as it was, the page is mapped to
    the frame with the write permission of the entry and marked dirty,
    the entry of the frame records the page and the thread, and the
    supplemental entry names the frame. *)
Theorem page_fault_swaps_in (v : vm) (esp error_code fault_addr kpage : Z)
    (pool : list Z) (t : thread) (pg : sp_entry) (fe : frame_entry) :
  let up := fault_addr - fault_addr mod PGSIZE in
  let i := uint32 (kpage - base_address v) / PGSIZE in
  Z.land error_code PF_P = 0 ->
  up < PHYS_BASE ->
  threads v !! current v = Some t ->
  sup_table t !! up = Some pg -> block pg = BLOCK_SWAP ->
  0 <= swap_index pg < 4294967296 ->
  swap_map v !! idx (swap_index pg) = Some true ->
  user_pool v = kpage :: pool -> kpage <> 0 ->
  pagedir_get_page (pagedir t) up = None ->
  i < table_size v ->
  frame_table v !! idx i = Some fe ->
  exists v' t',
    page_fault PHYS_BASE PUSH_BYTES file_bytes v esp error_code fault_addr = Ok v'
    /\ threads v' !! current v = Some t'
    /\ sup_table t' !! up
       = Some (mk_sp_entry (upage pg) BLOCK_KERNEL kpage (file_addr pg) (read_bytes pg) (-1)
                 (writable pg))
    /\ (exists e,
          pagedir t' !! up = Some e
          /\ pte_frame e = kpage /\ pte_present e = true /\ pte_dirty e = true
          /\ pte_writable e = writable pg)
    /\ memory v' !! kpage
       = Some (concat ((fun k => block_read (swap_partition v) (swap_index pg * 8 + k))
                         <$> [0; 1; 2; 3; 4; 5; 6; 7]))
    /\ swap_map v' = <[idx (swap_index pg) := false]> (swap_map v)
    /\ swap_partition v' = swap_partition v
    /\ frame_table v' !! idx i = Some (mk_frame_entry up (Some (current v)) (used fe))
    /\ (forall j, j <> idx i -> frame_table v' !! j = frame_table v !! j)
    /\ user_pool v' = pool.
Proof.
  intros up i Hnp Hup Ht Hpg Hblock Hix Hslot Hpool Hk Hmap Hframe Hfe.
  assert (Hpage : page_find v (current v) up = Some pg).
  { unfold page_find. rewrite Ht. exact Hpg. }
  assert (Hu : uint32 (swap_index pg) = swap_index pg)
    by (unfold uint32; apply Z.mod_small; lia).
  unfold page_fault. fold up. rewrite Hnp, Hpage.
  unfold is_user_vaddr.
  destruct (up <? PHYS_BASE) eqn:E; [|lia].
  rewrite andb_false_r.
  cbn [negb orb andb Z.eqb bool_decide decide_rel is_Some_dec].
  unfold palloc_get_page. rewrite Hpool.
  destruct (kpage =? 0) eqn:E3; [lia|]. cbn [mbind result_bind].
  rewrite Hblock.
  destruct (decide (BLOCK_SWAP = BLOCK_FILESYS)); [discriminate|].
  destruct (decide (BLOCK_SWAP = BLOCK_SWAP)); [|congruence].
  unfold swap_read. rewrite Hu.
  cbn [threads current set_user_pool set_memory set_swap swap_map swap_partition memory].
  rewrite Hslot. cbn [mbind result_bind].
  unfold install_page.
  cbn [threads current set_user_pool set_memory set_swap swap_map swap_partition memory].
  rewrite Ht, Hmap.
  match goal with
  | |- context [frame_allocate ?w _ _] =>
      rewrite (frame_allocate_at w up kpage i fe eq_refl Hframe Hfe)
  end.
  cbn [current set_frame_table with_thread set_threads set_user_pool set_memory set_swap].
  eexists _, _. split; [reflexivity|].
  unfold page_replace, with_thread, set_sup_table, set_pagedir.
  cbn [threads set_threads set_frame_table current memory user_pool frame_table swap_map
         set_user_pool set_memory set_swap swap_partition].
  split.
  { rewrite lookup_alter_eq, lookup_alter_eq, lookup_alter_eq, Ht. reflexivity. }
  cbn [sup_table pagedir].
  split; [rewrite lookup_alter_eq, Hpg; reflexivity|].
  split.
  { eexists. unfold pagedir_set_dirty, pagedir_set_page.
    rewrite lookup_alter_eq, lookup_insert_eq. split; [reflexivity|]. repeat split. }
  split; [rewrite lookup_insert_eq, read_sectors_slot; reflexivity|].
  split.
  { apply list_eq. intros j. destruct (decide (j = idx (swap_index pg))) as [->|Hne].
    - rewrite list_lookup_alter_eq, Hslot.
      rewrite list_lookup_insert_eq by (eapply lookup_lt_Some; exact Hslot). reflexivity.
    - rewrite list_lookup_alter_ne, list_lookup_insert_ne by congruence. reflexivity. }
  split; [reflexivity|].
  split; [rewrite list_lookup_alter_eq, Hfe; reflexivity|].
  split; [intros j Hj; apply list_lookup_alter_ne; congruence | reflexivity].
Qed.

End PageIn.

Lemma ex_two_frames_thread :
  threads Examples.vm_two_frames !! 7
  = Some (default (mk_thread ∅ ∅) (threads Examples.vm_two_frames !! 7)).
Proof. vm_compute. reflexivity. Qed.

Lemma ex_two_frames_page :
  sup_table (default (mk_thread ∅ ∅) (threads Examples.vm_two_frames !! 7)) !! 134516736
  = Some (mk_sp_entry 134516736 BLOCK_KERNEL 268439552 0 0 (-1) true).
Proof. vm_compute. reflexivity. Qed.

Lemma ex_two_frames_memory :
  memory Examples.vm_two_frames
    !! mem_addr (mk_sp_entry 134516736 BLOCK_KERNEL 268439552 0 0 (-1) true)
  = Some (Examples.page_of 2).
Proof. vm_compute. reflexivity. Qed.

Lemma ex_page_length : Datatypes.length (Examples.page_of 2) = 4096%nat.
Proof. vm_compute. reflexivity. Qed.

Lemma ex_two_frames_slot : first_free (swap_map Examples.vm_two_frames) 0 = Some 1.
Proof. vm_compute. reflexivity. Qed.

Lemma swap_write_read_witness :
  first_free (swap_map Examples.vm_two_frames) 0 = Some 1
  /\ exists v1 page1 v2,
       swap_write Examples.vm_two_frames 7 134516736
         (mk_sp_entry 134516736 BLOCK_KERNEL 268439552 0 0 (-1) true) = Some v1
       /\ page_find v1 7 134516736 = Some page1
       /\ swap_read v1 page1 268435456 = Some v2
       /\ memory v2 !! 268435456 = Some (Examples.page_of 2)
       /\ swap_map v2 = swap_map Examples.vm_two_frames.
Proof.
  split; [exact ex_two_frames_slot|].
  destruct (swap_write_read Examples.vm_two_frames 7 134516736 268435456 1 _ _ _
              ex_two_frames_thread ex_two_frames_page ex_two_frames_memory ex_page_length
              ex_two_frames_slot ltac:(simpl; lia))
    as (v1 & page1 & v2 & Hw & Hf & _ & _ & _ & _ & Hr & Hm & Hs).
  exists v1, page1, v2. split; [exact Hw|]. split; [exact Hf|]. split; [exact Hr|].
  split; [exact Hm | exact Hs].
Defined.

Lemma ex_fresh_thread : threads Examples.vm_fresh !! current Examples.vm_fresh = Some (mk_thread ∅ ∅).
Proof. vm_compute. reflexivity. Qed.

Lemma ex_fresh_frame :
  frame_table Examples.vm_fresh !! idx (uint32 (268435456 - base_address Examples.vm_fresh) / PGSIZE)
  = Some (mk_frame_entry 0 None false).
Proof. vm_compute. reflexivity. Qed.

Lemma ex_fresh_index :
  uint32 (268435456 - base_address Examples.vm_fresh) / PGSIZE < table_size Examples.vm_fresh.
Proof. vm_compute. reflexivity. Qed.

Lemma page_fault_grows_stack_witness :
  page_find Examples.vm_fresh (current Examples.vm_fresh) (3221225372 - 3221225372 mod PGSIZE) = None
  /\ uint32 (3221225376 - 32) <= 3221225372
  /\ uint32 (268435456 - base_address Examples.vm_fresh) / PGSIZE < table_size Examples.vm_fresh
  /\ exists v' t',
       page_fault 3221225472 32 (fun _ _ => []) Examples.vm_fresh 3221225376 6 3221225372 = Ok v'
       /\ threads v' !! current Examples.vm_fresh = Some t'
       /\ memory v' !! 268435456 = Some zero_page
       /\ user_pool v' = [268439552]
       /\ frame_table v' !! idx (uint32 (268435456 - base_address Examples.vm_fresh) / PGSIZE)
          = Some (mk_frame_entry (3221225372 - 3221225372 mod PGSIZE)
                    (Some (current Examples.vm_fresh)) (used (mk_frame_entry 0 None false))).
Proof.
  assert (H1 : page_find Examples.vm_fresh (current Examples.vm_fresh) (3221225372 - 3221225372 mod PGSIZE)
               = None) by (vm_compute; reflexivity).
  assert (H2 : uint32 (3221225376 - 32) <= 3221225372) by (vm_compute; discriminate).
  split; [exact H1|]. split; [exact H2|]. split; [exact ex_fresh_index|].
  destruct (page_fault_grows_stack 3221225472 32 (fun _ _ => []) Examples.vm_fresh 3221225376 6
              3221225372 268435456 [268439552] (mk_thread ∅ ∅) (mk_frame_entry 0 None false))
    as (v' & t' & Hf & Ht & _ & _ & Hm & Hp & Hfr & _);
    [reflexivity | vm_compute; reflexivity | exact H1 | exact H2 | vm_compute; discriminate
    | reflexivity | discriminate | exact ex_fresh_thread | reflexivity
    | exact ex_fresh_index | exact ex_fresh_frame |].
  exists v', t'. split; [exact Hf|]. split; [exact Ht|]. split; [exact Hm|].
  split; [exact Hp | exact Hfr].
Defined.

Lemma ex_evicted_thread :
  threads Examples.vm_evicted !! current Examples.vm_evicted
  = Some (default (mk_thread ∅ ∅) (threads Examples.vm_evicted !! 7)).
Proof. vm_compute. reflexivity. Qed.

Lemma ex_evicted_page :
  sup_table (default (mk_thread ∅ ∅) (threads Examples.vm_evicted !! 7))
    !! (134516740 - 134516740 mod PGSIZE)
  = Some (mk_sp_entry 134516736 BLOCK_SWAP 0 0 0 1 true).
Proof. vm_compute. reflexivity. Qed.

Lemma ex_evicted_pool : user_pool Examples.vm_evicted = [268439552].
Proof. vm_compute. reflexivity. Qed.

Lemma ex_evicted_unmapped :
  pagedir_get_page (pagedir (default (mk_thread ∅ ∅) (threads Examples.vm_evicted !! 7)))
    (134516740 - 134516740 mod PGSIZE) = None.
Proof. vm_compute. reflexivity. Qed.

Lemma ex_evicted_index :
  uint32 (268439552 - base_address Examples.vm_evicted) / PGSIZE < table_size Examples.vm_evicted.
Proof. vm_compute. reflexivity. Qed.

Lemma ex_evicted_frame :
  frame_table Examples.vm_evicted !! idx (uint32 (268439552 - base_address Examples.vm_evicted) / PGSIZE)
  = Some (mk_frame_entry 0 None true).
Proof. vm_compute. reflexivity. Qed.

Lemma ex_evicted_slot :
  swap_map Examples.vm_evicted !! idx (swap_index (mk_sp_entry 134516736 BLOCK_SWAP 0 0 0 1 true))
  = Some true.
Proof. vm_compute. reflexivity. Qed.

Lemma page_fault_swaps_in_witness :
  sup_table (default (mk_thread ∅ ∅) (threads Examples.vm_evicted !! 7))
    !! (134516740 - 134516740 mod PGSIZE)
  = Some (mk_sp_entry 134516736 BLOCK_SWAP 0 0 0 1 true)
  /\ swap_map Examples.vm_evicted !! idx (swap_index (mk_sp_entry 134516736 BLOCK_SWAP 0 0 0 1 true))
     = Some true
  /\ uint32 (268439552 - base_address Examples.vm_evicted) / PGSIZE < table_size Examples.vm_evicted
  /\ exists v',
       page_fault 3221225472 32 (fun _ _ => []) Examples.vm_evicted 3221225376 4 134516740 = Ok v'
       /\ memory v' !! 268439552
          = Some (concat ((fun k => block_read (swap_partition Examples.vm_evicted)
                                     (swap_index (mk_sp_entry 134516736 BLOCK_SWAP 0 0 0 1 true)
                                      * 8 + k)) <$> [0; 1; 2; 3; 4; 5; 6; 7]))
       /\ swap_map v'
          = <[idx (swap_index (mk_sp_entry 134516736 BLOCK_SWAP 0 0 0 1 true)) := false]>
              (swap_map Examples.vm_evicted).
Proof.
  split; [exact ex_evicted_page|]. split; [exact ex_evicted_slot|].
  split; [exact ex_evicted_index|].
  destruct (page_fault_swaps_in 3221225472 32 (fun _ _ => []) Examples.vm_evicted 3221225376 4
              134516740 268439552 [] _ _ (mk_frame_entry 0 None true)
              eq_refl ltac:(vm_compute; reflexivity) ex_evicted_thread ex_evicted_page
              eq_refl ltac:(simpl; lia) ex_evicted_slot ex_evicted_pool ltac:(discriminate)
              ex_evicted_unmapped ex_evicted_index ex_evicted_frame)
    as (v' & t' & Hf & _ & _ & _ & Hm & Hs & _).
  exists v'. split; [exact Hf|]. split; [exact Hm | exact Hs].
Defined.

End PagingFacts.

(** ** Paths and the file system interface (filesys/filesys.c) *)

Module PathFacts.
Import Inode Dir Filesys FileFacts EntryFacts.

Lemma inode_reopen_open (st : state) (p : Z) :
  is_Some (open_inodes st !! p) ->
  inode_reopen st p = Some (inode_open st p).
Proof.
  intros [ino H]. unfold inode_reopen, inode_open. rewrite H. reflexivity.
Qed.

Lemma inode_reopen_None (st : state) (p : Z) :
  open_inodes st !! p = None -> inode_reopen st p = None.
Proof. intros H. unfold inode_reopen. rewrite H. reflexivity. Qed.

(** An opener more is a change of the state. *)
Lemma inode_open_changes (st : state) (s : Z) :
  (inode_open st s).1 <> st.
Proof.
  unfold inode_open. destruct (open_inodes st !! s) as [ino|] eqn:E; simpl; intros H.
  - assert (H1 : open_inodes {| dev := dev st;
                  open_inodes := <[s:=set_open_cnt ino (open_cnt ino + 1)]> (open_inodes st) |}
                 !! s = Some ino) by (rewrite H; exact E).
    simpl in H1. rewrite lookup_insert_eq in H1. injection H1 as H1.
    apply (f_equal open_cnt) in H1. simpl in H1. lia.
  - assert (H1 : open_inodes {| dev := dev st;
                  open_inodes := <[s:= mk_inode s 1 false 0
                                         (inode_disk_of_sector (block_read (disk (dev st)) s))]>
                                   (open_inodes st) |} !! s = None) by (rewrite H; exact E).
    simpl in H1. rewrite lookup_insert_eq in H1. discriminate.
Qed.

Section WithRoot.

Variable ROOT_DIR_SECTOR : Z.

(** What [walk] holds when it returns: one reference on the directory
    it returns; when it returns null, the reference on the directory it
    stopped in and, if it stopped at a file, one on that file. *)
Lemma walk_reference (names : list (list Z)) (st : state) (c : Z) (st1 : state)
    (r : option dir) :
  wf st ->
  walk (inode_open st c).1 (mk_dir c 0) names = Some (st1, r) ->
  match r with
  | Some d => st1 = (inode_open st (inode d)).1 /\ pos d = 0
  | None => exists c', st1 = (inode_open st c').1
                       \/ exists p, st1 = (inode_open (inode_open st c').1 p).1
  end.
Proof.
  intros Hwf. revert c. induction names as [|nm rest IH]; intros c H; cbn [walk] in H.
  - injection H as <- <-. split; reflexivity.
  - destruct (streq nm PARENT_DIRECTORY).
    + unfold dir_open_parent in H. cbn [inode] in H.
      destruct (inode_get_parent (inode_open st c).1 c) as [ps|]; [|discriminate].
      cbn [mbind option_bind] in H.
      destruct (ps =? 0).
      * cbn [mbind option_bind] in H. injection H as <- <-. exists c. left. reflexivity.
      * destruct (inode_open (inode_open st c).1 ps) as [st2 p] eqn:Hop.
        cbn [mbind option_bind] in H.
        pose proof (DirFacts.inode_open_ptr (inode_open st c).1 ps) as Hp.
        rewrite Hop in Hp. cbn [snd] in Hp. subst p.
        assert (Hst2 : st2 = (inode_open (inode_open st c).1 ps).1) by (rewrite Hop; reflexivity).
        unfold dir_close in H. cbn [inode] in H.
        assert (Hclose : inode_close st2 c = Some (inode_open st ps).1).
        { subst st2. destruct (decide (c = ps)) as [->|Hne].
          - apply DirFacts.inode_open_close. apply DirFacts.wf_inode_open. exact Hwf.
          - rewrite DirFacts.inode_close_open_comm by exact Hne.
            rewrite DirFacts.inode_open_close by exact Hwf. reflexivity. }
        rewrite Hclose in H. cbn [mbind option_bind] in H.
        unfold dir_open in H. exact (IH ps H).
    + destruct (negb (streq nm CURRENT_DIRECTORY)).
      * unfold dir_lookup in H. cbn [inode] in H.
        destruct (open_inodes (inode_open st c).1 !! c) as [ino|]; [|discriminate].
        cbn [mbind option_bind] in H.
        destruct (lookup _ ino nm) as [[e ofs]|].
        -- destruct (inode_open (inode_open st c).1 (inode_sector e)) as [st2 p] eqn:Hop.
           cbn [mbind option_bind] in H.
           pose proof (DirFacts.inode_open_ptr (inode_open st c).1 (inode_sector e)) as Hp.
           rewrite Hop in Hp. cbn [snd] in Hp. subst p.
           assert (Hst2 : st2 = (inode_open (inode_open st c).1 (inode_sector e)).1)
             by (rewrite Hop; reflexivity).
           destruct (inode_is_dir st2 (inode_sector e)) as [[|]|]; [| |discriminate];
             cbn [mbind option_bind] in H.
           ++ unfold dir_close in H. cbn [inode] in H.
              assert (Hclose : inode_close st2 c = Some (inode_open st (inode_sector e)).1).
              { subst st2. destruct (decide (c = inode_sector e)) as [->|Hne].
                - apply DirFacts.inode_open_close. apply DirFacts.wf_inode_open. exact Hwf.
                - rewrite DirFacts.inode_close_open_comm by exact Hne.
                  rewrite DirFacts.inode_open_close by exact Hwf. reflexivity. }
              rewrite Hclose in H. cbn [mbind option_bind] in H.
              unfold dir_open in H. exact (IH _ H).
           ++ injection H as <- <-. exists c. right. exists (inode_sector e). exact Hst2.
        -- cbn [mbind option_bind] in H. injection H as <- <-. exists c. left. reflexivity.
      * exact (IH c H).
Qed.

(** The state [parse_path] leaves. *)
Lemma parse_path_state (st : state) (cwd : dir) (path : list Z) (st1 : state)
    (r : option (dir * list Z)) :
  wf st ->
  parse_path ROOT_DIR_SECTOR st cwd path = Some (st1, r) ->
  match r with
  | Some (d, file_name) =>
      st1 = (inode_open st (inode d)).1
      /\ file_name = (if streq path ROOT then c_string path
                      else List.last (get_paths path) [])
  | None =>
      exists c, st1 = (inode_open st c).1
                \/ exists p, st1 = (inode_open (inode_open st c).1 p).1
  end.
Proof.
  intros Hwf H. unfold parse_path in H.
  destruct (streq path ROOT).
  - unfold dir_open_root in H.
    destruct (inode_open st ROOT_DIR_SECTOR) as [st2 p] eqn:Hop.
    pose proof (DirFacts.inode_open_ptr st ROOT_DIR_SECTOR) as Hp.
    rewrite Hop in Hp. cbn [snd] in Hp. subst p.
    injection H as <- <-. unfold dir_open. cbn [inode].
    split; [rewrite Hop; reflexivity | reflexivity].
  - destruct (get_paths path) as [|tok toks] eqn:Hpaths; [discriminate|].
    assert (Hstart : exists c,
               (if default 0 (path !! 0%nat) =? 47
                then Some (dir_open_root ROOT_DIR_SECTOR st) else dir_reopen st cwd)
               = Some ((inode_open st c).1, mk_dir c 0)
               \/ (if default 0 (path !! 0%nat) =? 47
                   then Some (dir_open_root ROOT_DIR_SECTOR st) else dir_reopen st cwd)
                  = None).
    { destruct (default 0 (path !! 0%nat) =? 47).
      - exists ROOT_DIR_SECTOR. left. unfold dir_open_root.
        pose proof (DirFacts.inode_open_ptr st ROOT_DIR_SECTOR) as Hp.
        destruct (inode_open st ROOT_DIR_SECTOR) as [st2 p]. cbn [snd] in Hp. subst p.
        reflexivity.
      - exists (inode cwd). unfold dir_reopen.
        destruct (open_inodes st !! inode cwd) as [ino|] eqn:E.
        + left. rewrite inode_reopen_open by eauto. cbn [mbind option_bind].
          pose proof (DirFacts.inode_open_ptr st (inode cwd)) as Hp.
          destruct (inode_open st (inode cwd)) as [st2 p]. cbn [snd] in Hp. subst p.
          reflexivity.
        + right. rewrite inode_reopen_None by exact E. reflexivity. }
    destruct Hstart as [c [Hstart|Hstart]]; rewrite Hstart in H; [|discriminate].
    destruct (walk (inode_open st c).1 (mk_dir c 0) (removelast (tok :: toks)))
      as [[st2 [d|]]|] eqn:Hwalk; [| |discriminate].
    + injection H as <- <-.
      destruct (walk_reference _ _ _ _ _ Hwf Hwalk) as [Hst2 _].
      split; [exact Hst2 | reflexivity].
    + injection H as <- <-. exact (walk_reference _ _ _ _ _ Hwf Hwalk).
Qed.

Lemma inode_open_twice_changes (st : state) (c p : Z) :
  (inode_open (inode_open st c).1 p).1 <> st.
Proof.
  intros Heq.
  assert (Hcnt : forall q, inode_open_cnt (inode_open (inode_open st c).1 p).1 q
                           = inode_open_cnt st q) by (intros q; rewrite Heq; reflexivity).
  specialize (Hcnt p). revert Hcnt. unfold inode_open_cnt, inode_open.
  destruct (open_inodes st !! c) as [i1|] eqn:E1; cbn [fst open_inodes dev].
  - destruct (decide (p = c)) as [->|Hne].
    + rewrite lookup_insert_eq. cbn [fst open_inodes]. rewrite lookup_insert_eq, E1.
      simpl. intros [= Hc]. lia.
    + rewrite lookup_insert_ne by congruence.
      destruct (open_inodes st !! p) as [i2|] eqn:E2; cbn [fst open_inodes].
      * rewrite lookup_insert_eq. simpl. intros [= Hc]. lia.
      * rewrite lookup_insert_eq. simpl. discriminate.
  - destruct (decide (p = c)) as [->|Hne].
    + rewrite lookup_insert_eq. cbn [fst open_inodes]. rewrite lookup_insert_eq, E1.
      simpl. discriminate.
    + rewrite lookup_insert_ne by congruence.
      destruct (open_inodes st !! p) as [i2|] eqn:E2; cbn [fst open_inodes].
      * rewrite lookup_insert_eq. simpl. intros [= Hc]. lia.
      * rewrite lookup_insert_eq. simpl. discriminate.
Qed.

(** X26. [parse_path] on a path it can follow returns the directory of
    the last name with exactly one reference on it, which [dir_close]
    gives back: the state is then as before the call.  When it returns
    null it has not given back the reference on the directory it
    stopped in, nor the one on a file it found where a directory was
    due: the state is left changed. *)
Theorem parse_path_reference (st : state) (cwd : dir) (path : list Z) (st1 : state)
    (r : option (dir * list Z)) :
  wf st ->
  parse_path ROOT_DIR_SECTOR st cwd path = Some (st1, r) ->
  match r with
  | Some (d, file_name) =>
      st1 = (inode_open st (inode d)).1
      /\ dir_close st1 d = Some st
      /\ file_name = (if streq path ROOT then c_string path
                      else List.last (get_paths path) [])
  | None =>
      st1 <> st
      /\ exists c, st1 = (inode_open st c).1
                   \/ exists p, st1 = (inode_open (inode_open st c).1 p).1
  end.
Proof.
  intros Hwf H. pose proof (parse_path_state st cwd path st1 r Hwf H) as Hs.
  destruct r as [[d file_name]|].
  - destruct Hs as [Hst1 Hname]. split; [exact Hst1|]. split; [|exact Hname].
    subst st1. unfold dir_close. apply DirFacts.inode_open_close. exact Hwf.
  - split; [|exact Hs]. destruct Hs as [c [->|[p ->]]].
    + apply inode_open_changes.
    + apply inode_open_twice_changes.
Qed.

(** X27. [filesys_create] with a last name ".", ".." or "/" returns
    false without closing the directory [parse_path] opened for it:
    the call leaves the state [parse_path] left, one reference on that
    directory more than before. *)
Theorem filesys_create_reserved (st : state) (cwd : dir) (name : list Z) (initial_size : Z)
    (e0 : list Z) (st1 : state) (d : dir) (file_name : list Z) :
  wf st ->
  parse_path ROOT_DIR_SECTOR st cwd name = Some (st1, Some (d, file_name)) ->
  streq file_name CURRENT_DIRECTORY || streq file_name PARENT_DIRECTORY
  || streq file_name ROOT = true ->
  filesys_create ROOT_DIR_SECTOR st cwd name initial_size e0 = Some (st1, false)
  /\ st1 = (inode_open st (inode d)).1
  /\ st1 <> st
  /\ inode_open_cnt st1 (inode d) = Some (default 0 (inode_open_cnt st (inode d)) + 1).
Proof.
  intros Hwf Hparse Hres.
  destruct (parse_path_state st cwd name st1 _ Hwf Hparse) as [Hst1 _].
  split.
  { unfold filesys_create. rewrite Hparse. cbn [mbind option_bind].
    destruct (streq file_name CURRENT_DIRECTORY || streq file_name PARENT_DIRECTORY
              || streq file_name ROOT); [reflexivity | discriminate]. }
  split; [exact Hst1|]. split; [subst st1; apply inode_open_changes|].
  subst st1. unfold inode_open_cnt, inode_open.
  destruct (open_inodes st !! inode d) as [i|]; cbn [fst open_inodes];
    rewrite lookup_insert_eq; reflexivity.
Qed.

End WithRoot.

(** The bytes of a file in the direct entries rest on its data sectors
    alone. *)
Lemma contents_frame (d d' : gmap Z (list Z)) (ino : Inode.inode) :
  0 <= inode_length ino <= 5120 ->
  Datatypes.length (data_blocks (data ino)) = 12%nat ->
  (forall s, s ∈ direct_sectors ino -> d' !! s = d !! s) ->
  contents d' ino = contents d ino.
Proof.
  intros HL Hb Hsame. apply list_eq. intros k.
  destruct (decide (k < Z.to_nat (inode_length ino))%nat) as [Hk|Hk].
  - rewrite !contents_lookup by (try exact Hk; lia). f_equal.
    apply direct_byte_eq; [reflexivity|]. apply Hsame.
    rewrite direct_sectors_eq by exact HL.
    pose proof (sectors_bound _ HL). pose proof (sectors_cover (inode_length ino) ltac:(lia)).
    apply get_in_take; [lia|].
    rewrite Z2Nat.id by lia. apply div512_bounds. lia.
  - rewrite !lookup_ge_None_2 by (rewrite contents_length; lia). reflexivity.
Qed.

Lemma small_file_frame (f f' : fs) (ino : Inode.inode) :
  small_file f ino -> disk_ok (disk f') ->
  (forall s, s ∈ sector ino :: direct_sectors ino ->
     free_map f' !! idx s = Some true /\ disk f' !! s = disk f !! s) ->
  small_file f' ino.
Proof.
  intros (HL & Hb & Hnd & Hused & (Hs0 & Hsu) & Hdok & Hslack) Hdok' Hsame.
  split; [exact HL|]. split; [exact Hb|]. split; [exact Hnd|].
  split.
  { rewrite Forall_forall in Hused |- *. intros s Hs. destruct (Hused s Hs) as (H0 & _ & Hne).
    split; [exact H0|]. split; [|exact Hne]. apply Hsame. right. exact Hs. }
  split; [split; [exact Hs0 | apply Hsame; left]|].
  split; [exact Hdok'|].
  destruct (decide (inode_length ino mod 512 = 0)) as [E|E]; [left; exact E|].
  destruct Hslack as [Hz|Hz]; [contradiction|]. right.
  assert (Hin : get (data_blocks (data ino)) (inode_length ino / 512) ∈ direct_sectors ino).
  { rewrite direct_sectors_eq by exact HL. pose proof (sectors_bound _ HL).
    apply get_in_take; [lia|]. rewrite Z2Nat.id by lia.
    pose proof (Z.mod_pos_bound (inode_length ino) 512 ltac:(lia)).
    pose proof (Z.div_mod (inode_length ino) 512 ltac:(lia)).
    split; [apply Z.div_pos; lia|].
    apply Z.div_lt_upper_bound; [lia|].
    pose proof (Z.div_mod (inode_length ino + 511) 512 ltac:(lia)).
    pose proof (Z.mod_pos_bound (inode_length ino + 511) 512 ltac:(lia)). lia. }
  unfold block_read. rewrite (proj2 (Hsame _ ltac:(right; exact Hin))). exact Hz.
Qed.

Lemma dir_entries_frame (d d' : gmap Z (list Z)) (ino ino' : Inode.inode) :
  disk_ok d -> disk_ok d' -> inode_length ino' = inode_length ino ->
  contents d' ino' = contents d ino ->
  dir_entries d' ino' = dir_entries d ino.
Proof.
  intros Hd Hd' Hl Hc. rewrite !dir_entries_spec by assumption. rewrite Hl.
  apply map_ext. intros j. unfold slot_bytes. rewrite Hc. reflexivity.
Qed.

Lemma lookup_frame (d d' : gmap Z (list Z)) (ino ino' : Inode.inode) (nm : list Z) :
  disk_ok d -> disk_ok d' -> inode_length ino' = inode_length ino ->
  contents d' ino' = contents d ino ->
  lookup d' ino' nm = lookup d ino nm.
Proof.
  intros Hd Hd' Hl Hc. rewrite !lookup_find, (dir_entries_frame d d' ino ino') by assumption.
  reflexivity.
Qed.

Lemma small_file_set_open_cnt (f : fs) (ino : Inode.inode) (n : Z) :
  small_file f ino -> small_file f (set_open_cnt ino n).
Proof. intros H. exact H. Qed.

Lemma lookup_set_open_cnt (d : gmap Z (list Z)) (ino : Inode.inode) (n : Z) (nm : list Z) :
  disk_ok d -> lookup d (set_open_cnt ino n) nm = lookup d ino nm.
Proof. intros Hd. apply (lookup_frame d d); [assumption | assumption | reflexivity | reflexivity]. Qed.

(** What [dir_add] leaves alone when it adds an entry. *)
Lemma dir_add_frame (st : state) (dr : dir) (nm : list Z) (sec : Z) (e0 : list Z)
    (ino : Inode.inode) :
  open_inodes st !! inode dr = Some ino ->
  small_file (dev st) ino -> deny_write_cnt ino = 0 ->
  inode_length ino + 20 <= 5120 ->
  1 <= free_map_count (free_map (dev st)) ->
  (1 <= Datatypes.length (c_string nm) <= 14)%nat ->
  lookup (disk (dev st)) ino nm = None ->
  Datatypes.length e0 = 20%nat ->
  exists f' ino',
    dir_add st dr nm sec e0
    = Some (mk_state f' (<[inode dr := ino']> (open_inodes st)), true)
    /\ sector ino' = sector ino /\ open_cnt ino' = open_cnt ino
    /\ removed ino' = removed ino /\ deny_write_cnt ino' = deny_write_cnt ino
    /\ free_map_count (free_map (dev st)) - 1 <= free_map_count (free_map f')
       <= free_map_count (free_map (dev st))
    /\ (forall s, 0 <= s -> free_map (dev st) !! idx s = Some true ->
          s ∉ direct_sectors ino -> s <> sector ino ->
          disk f' !! s = disk (dev st) !! s /\ free_map f' !! idx s = Some true).
Proof.
  intros Hp Hsf Hdeny Hroom Hfree Hname Hnew He0.
  pose proof Hsf as (HL & _ & _ & _ & _ & Hdok & _).
  unfold dir_add. rewrite Hp. cbn [mbind option_bind].
  unfold NAME_MAX.
  replace ((Z.of_nat (Datatypes.length (c_string nm)) =? 0)
           || (14 <? Z.of_nat (Datatypes.length (c_string nm)))) with false
    by (symmetry; apply orb_false_iff; lia).
  rewrite Hnew. rewrite bool_decide_eq_false_2 by (intros [x Hx]; discriminate).
  assert (HL0 : 0 <= inode_length ino) by lia.
  assert (Hfuel : inode_length ino - 20 * Z.of_nat 0 < Z.of_nat (scan_fuel ino))
    by (unfold scan_fuel; lia).
  destruct (add_slot_spec (scan_fuel ino) (disk (dev st)) ino Hdok HL0 0 e0 He0
              (Nat.le_0_l _) Hfuel)
    as (e' & k & Hrun & He' & Hk & Hbefore & Hat).
  change (20 * Z.of_nat 0) with 0 in Hrun. rewrite Hrun.
  set (namefield := strlcpy (take 15 (drop 4 e')) nm 15).
  assert (Hnf : Datatypes.length namefield = 15%nat).
  { subst namefield. apply strlcpy_length. rewrite length_take, length_drop. lia. }
  set (bytes := le32 sec ++ namefield ++ [1]).
  assert (Hbl : Datatypes.length bytes = 20%nat).
  { subst bytes. rewrite !length_app, le32_length, Hnf. reflexivity. }
  assert (HkL : 20 * Z.of_nat k <= inode_length ino).
  { pose proof (Z.div_pos (inode_length ino) 20 ltac:(lia) ltac:(lia)).
    assert (Z.of_nat k <= inode_length ino / 20) by lia.
    pose proof (Z.mul_div_le (inode_length ino) 20 ltac:(lia)). lia. }
  pose proof (one_more_sector (inode_length ino) (20 * Z.of_nat k + 20) ltac:(lia) ltac:(lia))
    as Hone.
  destruct (write_small_main (dev st) ino bytes 20 (20 * Z.of_nat k) Hsf Hdeny
              ltac:(lia) ltac:(lia) ltac:(lia) ltac:(lia) ltac:(lia))
    as (f' & ino' & Hw & _ & Hsec' & Hcnt' & Hrem' & Hdeny' & _ & _ & _ & Hfc & _ & Hframe).
  unfold entry_size, write_at. rewrite Hp, Hw. cbn [mbind option_bind].
  exists f', ino'. split; [reflexivity|].
  split; [exact Hsec'|]. split; [exact Hcnt'|]. split; [exact Hrem'|]. split; [exact Hdeny'|].
  split; [lia|]. exact Hframe.
Qed.

(** The sector [filesys_create] reserves and the inode it creates
    there, beside a directory held in the direct entries. *)
Lemma create_beside (f : fs) (ino_d : Inode.inode) (size parent : Z) :
  small_file f ino_d -> 0 <= size <= 5120 ->
  (size + 511) / 512 + 1 <= free_map_count (free_map f) ->
  Z.of_nat (Datatypes.length (free_map f)) <= 4294967296 ->
  0 <= parent < 4294967296 ->
  exists s f2 ino_f,
    free_map_allocate (free_map f) 0 = (<[idx s := true]> (free_map f), s, true)
    /\ 0 <= s < 4294967296 /\ free_map f !! idx s = Some false
    /\ inode_create (mk_fs (disk f) (<[idx s := true]> (free_map f))) s size parent 0
       = Some (f2, true)
    /\ ino_f = mk_inode s 1 false 0 (inode_disk_of_sector (block_read (disk f2) s))
    /\ inode_length ino_f = size
    /\ parent_directory (data ino_f) = parent
    /\ is_directory (data ino_f) = 0
    /\ small_file f2 ino_f
    /\ contents (disk f2) ino_f = replicate (Z.to_nat size) 0
    /\ free_map_count (free_map f2) = free_map_count (free_map f) - 1 - (size + 511) / 512
    /\ small_file f2 ino_d
    /\ contents (disk f2) ino_d = contents (disk f) ino_d
    /\ free_map f2 !! idx s = Some true
    /\ (s ∉ direct_sectors ino_d) /\ s <> sector ino_d
    /\ Forall (fun x => (x ∉ direct_sectors ino_d) /\ x <> sector ino_d) (direct_sectors ino_f).
Proof.
  intros Hsf Hsize Hroom Hfml Hparent.
  pose proof Hsf as (HL & Hb & Hnd & Hused & (Hc0 & Hcu) & Hdok & _).
  pose proof (sectors_bound size Hsize) as Hc.
  destruct (free_map_allocate_some (free_map f) 0 ltac:(lia)) as (s & Halloc & Hs0 & Hsf0).
  set (fm1 := <[idx s := true]> (free_map f)) in *.
  assert (Hslt : (idx s < Datatypes.length (free_map f))%nat)
    by (apply lookup_lt_is_Some; eauto).
  assert (Hs1 : fm1 !! idx s = Some true) by (subst fm1; apply list_lookup_insert_eq; lia).
  assert (Hcnt1 : free_map_count fm1 = free_map_count (free_map f) - 1).
  { subst fm1. rewrite (count_insert_true _ _ Hsf0). reflexivity. }
  destruct (create_small_spec (mk_fs (disk f) fm1) s size parent 0)
    as (f2 & ino_f & Hcreate & Hopen & Hsec & Hcnt & Hrem & Hdeny & Hlen & Hpar & Hdir & Hsff
        & Hzero & Hfc & Hfresh & Hfm2 & Hframe); cbn [disk free_map]; try assumption; try lia.
  { subst fm1. rewrite length_insert. exact Hfml. }
  assert (Hused1 : forall x, free_map f !! idx x = Some true -> fm1 !! idx x = Some true).
  { intros x Hx. subst fm1. destruct (decide (idx x = idx s)) as [E|E].
    - rewrite E in Hx. congruence.
    - rewrite list_lookup_insert_ne by congruence. exact Hx. }
  assert (Hused2 : forall x, fm1 !! idx x = Some true -> free_map f2 !! idx x = Some true).
  { intros x Hx. rewrite Hfm2. destruct (bool_decide _); [reflexivity | exact Hx]. }
  assert (Hsne : forall x, 0 <= x -> free_map f !! idx x = Some true -> x <> s).
  { intros x Hx0 Hx ->. congruence. }
  assert (Hdsec : forall x, x ∈ direct_sectors ino_d ->
                            0 <= x /\ free_map f !! idx x = Some true).
  { intros x Hx. rewrite Forall_forall in Hused. destruct (Hused x Hx) as (H0 & Hu & _).
    split; assumption. }
  assert (Hdok2 : disk_ok (disk f2)) by apply Hsff.
  assert (Hsame : forall x, x ∈ sector ino_d :: direct_sectors ino_d ->
                            free_map f2 !! idx x = Some true /\ disk f2 !! x = disk f !! x).
  { intros x Hx. assert (Hx' : 0 <= x /\ free_map f !! idx x = Some true).
    { apply elem_of_cons in Hx as [->|Hx]; [split; assumption | apply Hdsec; exact Hx]. }
    destruct Hx' as [Hx0 Hxu]. split; [apply Hused2, Hused1, Hxu|].
    apply (Hframe x Hx0 (Hused1 x Hxu) (Hsne x Hx0 Hxu)). }
  exists s, f2, ino_f.
  split; [exact Halloc|].
  split; [split; [exact Hs0|]; unfold idx in Hslt; lia|].
  split; [exact Hsf0|]. split; [exact Hcreate|].
  split.
  { specialize (Hopen ∅ (lookup_empty _)). unfold inode_open in Hopen.
    cbn [open_inodes dev] in Hopen. rewrite lookup_empty in Hopen.
    apply (f_equal (fun r => open_inodes r.1 !! s)) in Hopen. cbn [fst open_inodes] in Hopen.
    rewrite !lookup_insert_eq in Hopen. injection Hopen as <-. reflexivity. }
  split; [exact Hlen|]. split; [exact Hpar|]. split; [rewrite Hdir; reflexivity|].
  split; [exact Hsff|]. split; [exact Hzero|]. split; [rewrite Hfc; cbn [free_map]; rewrite Hcnt1; reflexivity|].
  split; [apply (small_file_frame f f2 ino_d Hsf Hdok2 Hsame)|].
  split.
  { apply contents_frame; [exact HL | exact Hb|]. intros x Hx. apply Hsame. right. exact Hx. }
  split; [apply Hused2, Hs1|].
  split; [intros Hin; destruct (Hdsec s Hin) as [_ Hu]; congruence|].
  split; [intros ->; congruence|].
  rewrite Forall_forall in Hfresh |- *. intros x Hx. specialize (Hfresh x Hx).
  cbn [free_map] in Hfresh. split.
  - intros Hin. destruct (Hdsec x Hin) as [_ Hu]. apply Hused1 in Hu. congruence.
  - intros ->. apply Hused1 in Hcu. congruence.
Qed.

(** Closing what was opened, whatever happened to the device in
    between. *)
Lemma inode_close_opened (st : state) (f' : fs) (c : Z) :
  wf st ->
  inode_close (mk_state f' (open_inodes (inode_open st c).1)) c
  = Some (mk_state f' (open_inodes st)).
Proof.
  intros Hwf. unfold inode_open, inode_close.
  destruct st as [f m]. simpl in *.
  destruct (m !! c) as [ino0|] eqn:Hs; simpl; rewrite lookup_insert_eq; simpl.
  - destruct (Hwf _ _ Hs) as [_ Hcnt].
    replace (open_cnt ino0 + 1 - 1) with (open_cnt ino0) by lia.
    destruct (open_cnt ino0 =? 0) eqn:E; [lia|].
    rewrite insert_insert_eq. f_equal. f_equal.
    apply insert_id. rewrite Hs. f_equal. destruct ino0; reflexivity.
  - rewrite delete_insert_eq. f_equal. f_equal. apply delete_id. exact Hs.
Qed.

Lemma tokens_from_nil (l cur : list Z) : tokens_from l cur = [] -> cur = [].
Proof.
  revert cur. induction l as [|c l IH]; intros cur H; simpl in H.
  - destruct cur; [reflexivity | discriminate].
  - destruct (c =? 47).
    + destruct cur; [reflexivity | discriminate].
    + apply IH in H. destruct cur; discriminate.
Qed.

Section WithRoot.

Variable ROOT_DIR_SECTOR : Z.

Lemma parse_path_name (st : state) (cwd : dir) (path : list Z) r :
  parse_path ROOT_DIR_SECTOR st cwd path = Some r -> c_string path <> [].
Proof.
  unfold parse_path. intros H Hnil.
  destruct (streq path ROOT) eqn:E.
  - unfold streq in E. apply bool_decide_eq_true in E. rewrite Hnil in E. discriminate.
  - unfold get_paths in H. rewrite Hnil in H. simpl in H. discriminate.
Qed.

(** X28. [filesys_create] under a name the directory already holds
    returns false and leaves the open inodes and the directory as they
    were, but the sectors it took for the data of the new file stay
    taken: only the sector of the inode goes back to the free map. *)
Theorem filesys_create_existing (st : state) (cwd : dir) (name : list Z) (initial_size : Z)
    (e0 : list Z) (st1 : state) (d : dir) (file_name : list Z) (ino : Inode.inode) :
  wf st ->
  parse_path ROOT_DIR_SECTOR st cwd name = Some (st1, Some (d, file_name)) ->
  streq file_name CURRENT_DIRECTORY || streq file_name PARENT_DIRECTORY
  || streq file_name ROOT = false ->
  open_inodes st1 !! inode d = Some ino ->
  small_file (dev st) ino ->
  is_Some (lookup (disk (dev st)) ino file_name) ->
  0 <= initial_size <= 5120 ->
  (initial_size + 511) / 512 + 1 <= free_map_count (free_map (dev st)) ->
  Z.of_nat (Datatypes.length (free_map (dev st))) <= 4294967296 ->
  free_map (dev st) !! 0%nat = Some true ->
  inode d < 4294967296 ->
  exists st',
    filesys_create ROOT_DIR_SECTOR st cwd name initial_size e0 = Some (st', false)
    /\ open_inodes st' = open_inodes st
    /\ dir_entries (disk (dev st')) ino = dir_entries (disk (dev st)) ino
    /\ free_map_count (free_map (dev st'))
       = free_map_count (free_map (dev st)) - (initial_size + 511) / 512.
Proof.
  intros Hwf Hparse Hres Hp Hsf Hlook Hsize Hroom Hfml Hzero Hc.
  pose proof (parse_path_name _ _ _ _ Hparse) as Hname.
  destruct (parse_path_state ROOT_DIR_SECTOR st cwd name st1 _ Hwf Hparse) as [Hst1 _].
  assert (Hdev : dev st1 = dev st) by (subst st1; apply DirFacts.inode_open_dev).
  assert (Hwf1 : wf st1) by (subst st1; apply DirFacts.wf_inode_open; exact Hwf).
  destruct (Hwf1 _ _ Hp) as [Hsec _].
  pose proof Hsf as (HL & _ & _ & _ & (Hc0 & _) & Hdok & _).
  destruct (create_beside (dev st) ino initial_size (sector ino) Hsf Hsize Hroom Hfml
              ltac:(lia))
    as (s & f2 & ino_f & Halloc & Hs & Hsfree & Hcreate & _ & _ & _ & _ & Hsff & _ & Hfc
        & Hsfd & Hcd & Hsu & _).
  assert (Hdok2 : disk_ok (disk f2)) by apply Hsff.
  unfold filesys_create. rewrite Hparse. cbn [mbind option_bind]. rewrite Hres.
  replace (Z.of_nat (Datatypes.length (c_string name)) =? 0) with false
    by (destruct (c_string name); [contradiction | reflexivity]).
  rewrite Hdev, Halloc. cbn [dev open_inodes disk].
  unfold inode_get_inumber, dir_get_inode. cbn [open_inodes]. rewrite Hp.
  cbn [fmap option_fmap option_map mbind option_bind].
  rewrite Hcreate. cbn [mbind option_bind].
  assert (Hadd : dir_add (mk_state f2 (open_inodes st1)) d file_name s e0
                 = Some (mk_state f2 (open_inodes st1), false)).
  { unfold dir_add. cbn [open_inodes dev]. rewrite Hp. cbn [mbind option_bind].
    destruct ((Z.of_nat (Datatypes.length (c_string file_name)) =? 0)
              || (NAME_MAX <? Z.of_nat (Datatypes.length (c_string file_name))));
      [reflexivity|].
    rewrite bool_decide_eq_true_2; [reflexivity|].
    rewrite (lookup_frame (disk (dev st)) (disk f2) ino ino) by (try assumption; reflexivity).
    exact Hlook. }
  rewrite Hadd. cbn [mbind option_bind negb andb].
  assert (Hs0 : s <> 0).
  { intros ->. change (idx 0) with 0%nat in Hsfree. rewrite Hzero in Hsfree. discriminate. }
  destruct (s =? 0) eqn:E; [lia|]. cbn [negb dev disk free_map open_inodes].
  unfold dir_close. rewrite Hst1. rewrite inode_close_opened by exact Hwf.
  cbn [mbind option_bind]. eexists. split; [reflexivity|].
  cbn [open_inodes dev disk free_map].
  split; [reflexivity|].
  split; [apply dir_entries_frame; try assumption; reflexivity|].
  unfold free_map_release. rewrite (count_insert_false _ _ Hsu). lia.
Qed.

End WithRoot.

(** [dir_add] of a new name: the entry is found afterwards, and what the
    write leaves alone. *)
Lemma dir_add_found (st : state) (dr : dir) (nm : list Z) (sec : Z) (e0 : list Z)
    (ino : Inode.inode) :
  open_inodes st !! inode dr = Some ino ->
  small_file (dev st) ino -> deny_write_cnt ino = 0 ->
  inode_length ino + 20 <= 5120 ->
  1 <= free_map_count (free_map (dev st)) ->
  (1 <= Datatypes.length (c_string nm) <= 14)%nat ->
  lookup (disk (dev st)) ino nm = None ->
  0 <= sec < 4294967296 ->
  Datatypes.length e0 = 20%nat ->
  exists f' ino' e ofs,
    dir_add st dr nm sec e0
    = Some (mk_state f' (<[inode dr := ino']> (open_inodes st)), true)
    /\ small_file f' ino'
    /\ open_cnt ino' = open_cnt ino /\ removed ino' = removed ino
    /\ lookup (disk f') ino' nm = Some (e, ofs) /\ inode_sector e = sec
    /\ (forall s, 0 <= s -> free_map (dev st) !! idx s = Some true ->
          s ∉ direct_sectors ino -> s <> sector ino ->
          disk f' !! s = disk (dev st) !! s /\ free_map f' !! idx s = Some true).
Proof.
  intros Hp Hsf Hdeny Hroom Hfree Hname Hnew Hsec He0.
  destruct (dir_add_main st dr nm sec e0 ino Hp Hsf Hdeny Hroom Hfree Hname Hnew Hsec He0)
    as (f' & ino' & k & e_new & Hadd & Hsf' & Hes & Hk & Hbefore & Hat & Hs & Hu & Hn).
  destruct (dir_add_frame st dr nm sec e0 ino Hp Hsf Hdeny Hroom Hfree Hname Hnew He0)
    as (f'' & ino'' & Hadd' & _ & Hcnt & Hrem & _ & _ & Hframe).
  rewrite Hadd in Hadd'. injection Hadd' as Hf Hm.
  apply (f_equal (fun m => m !! inode dr)) in Hm. rewrite !lookup_insert_eq in Hm.
  injection Hm as <-. subst f''.
  exists f', ino', e_new, (20 * Z.of_nat k).
  split; [exact Hadd|]. split; [exact Hsf'|]. split; [exact Hcnt|]. split; [exact Hrem|].
  split; [|split; [exact Hs | exact Hframe]].
  rewrite lookup_find in Hnew.
  destruct (list_find (matches nm) (dir_entries (disk (dev st)) ino)) as [[? ?]|] eqn:Hfind;
    [discriminate|].
  apply list_find_None in Hfind. rewrite Forall_forall in Hfind.
  rewrite lookup_find, Hes. rewrite list_find_splice_new; [reflexivity | exact Hk | |].
  - unfold matches, streq. rewrite Hu, Hn.
    rewrite bool_decide_eq_true_2 by reflexivity. reflexivity.
  - intros j x Hj Hx. apply Hfind. apply list_elem_of_lookup. eauto.
Qed.

Lemma tokens_from_single_root (l : list Z) (tok : list Z) :
  tokens_from l [] = [tok] -> l <> [47].
Proof. intros H ->. simpl in H. discriminate. Qed.

Section WithRoot.

Variable ROOT_DIR_SECTOR : Z.

(** [parse_path] on a single name, taken in the working directory. *)
Lemma parse_path_simple (st : state) (cwd : dir) (name file_name : list Z) :
  get_paths name = [file_name] -> default 0 (name !! 0%nat) <> 47 ->
  is_Some (open_inodes st !! inode cwd) ->
  parse_path ROOT_DIR_SECTOR st cwd name
  = Some ((inode_open st (inode cwd)).1, Some (mk_dir (inode cwd) 0, file_name)).
Proof.
  intros Hpaths Hrel Hopen. unfold parse_path.
  assert (Hroot : streq name ROOT = false).
  { unfold streq. apply bool_decide_eq_false_2. change (c_string ROOT) with [47].
    apply (tokens_from_single_root _ file_name). exact Hpaths. }
  rewrite Hroot, Hpaths.
  destruct (default 0 (name !! 0%nat) =? 47) eqn:E; [lia|].
  unfold dir_reopen. rewrite inode_reopen_open by exact Hopen.
  pose proof (DirFacts.inode_open_ptr st (inode cwd)) as Hp.
  destruct (inode_open st (inode cwd)) as [st2 p]. cbn [snd] in Hp. subst p.
  reflexivity.
Qed.

End WithRoot.

Lemma inode_open_at (st : state) (c : Z) (ino : Inode.inode) :
  open_inodes st !! c = Some ino ->
  (inode_open st c).1
  = mk_state (dev st) (<[c := set_open_cnt ino (open_cnt ino + 1)]> (open_inodes st)).
Proof. intros H. unfold inode_open. rewrite H. reflexivity. Qed.

Lemma inode_open_new (st : state) (s : Z) :
  open_inodes st !! s = None ->
  (inode_open st s).1
  = mk_state (dev st)
      (<[s := mk_inode s 1 false 0 (inode_disk_of_sector (block_read (disk (dev st)) s))]>
         (open_inodes st)).
Proof. intros H. unfold inode_open. rewrite H. reflexivity. Qed.

Lemma inode_close_at (st : state) (c : Z) (ino : Inode.inode) :
  open_inodes st !! c = Some ino -> 1 < open_cnt ino ->
  inode_close st c
  = Some (mk_state (dev st) (<[c := set_open_cnt ino (open_cnt ino - 1)]> (open_inodes st))).
Proof.
  intros H Hc. unfold inode_close. rewrite H.
  destruct (open_cnt ino - 1 =? 0) eqn:E; [lia | reflexivity].
Qed.

Section WithRoot.

Variable ROOT_DIR_SECTOR : Z.

(** X29. [filesys_create] of a single name that is new in the working
    directory, with the directory held in the direct entries and room
    in the free map: the call succeeds, and [filesys_open] of the name
    then yields a file at position 0 on a newly opened inode, a regular
    file of the length asked for whose parent is the working directory
    and whose bytes are all zero. *)
Theorem filesys_create_open (st : state) (cwd : dir) (name file_name : list Z)
    (initial_size : Z) (e0 : list Z) (ino : Inode.inode) :
  wf st ->
  get_paths name = [file_name] -> default 0 (name !! 0%nat) <> 47 ->
  streq file_name CURRENT_DIRECTORY || streq file_name PARENT_DIRECTORY
  || streq file_name ROOT = false ->
  (1 <= Datatypes.length (c_string file_name) <= 14)%nat ->
  open_inodes st !! inode cwd = Some ino ->
  small_file (dev st) ino -> deny_write_cnt ino = 0 ->
  inode_length ino + 20 <= 5120 ->
  lookup (disk (dev st)) ino file_name = None ->
  0 <= initial_size <= 5120 ->
  (initial_size + 511) / 512 + 2 <= free_map_count (free_map (dev st)) ->
  Z.of_nat (Datatypes.length (free_map (dev st))) <= 4294967296 ->
  inode cwd < 4294967296 ->
  (forall p, free_map (dev st) !! idx p = Some false -> open_inodes st !! p = None) ->
  Datatypes.length e0 = 20%nat ->
  exists st' st'' f ino_f,
    filesys_create ROOT_DIR_SECTOR st cwd name initial_size e0 = Some (st', true)
    /\ filesys_open ROOT_DIR_SECTOR st' cwd name = Some (st'', Some f)
    /\ Sys.f_pos f = 0
    /\ open_inodes st !! Sys.f_inode f = None
    /\ open_inodes st'' !! Sys.f_inode f = Some ino_f
    /\ open_cnt ino_f = 1
    /\ inode_length ino_f = initial_size
    /\ is_directory (data ino_f) = 0
    /\ parent_directory (data ino_f) = inode cwd
    /\ contents (disk (dev st'')) ino_f = replicate (Z.to_nat initial_size) 0.
Proof.
  intros Hwf Hpaths Hrel Hres Hname Hp Hsf Hdeny Hroom Hnew Hsize Hfree Hfml Hc Hfo He0.
  set (c := inode cwd) in *.
  destruct (Hwf _ _ Hp) as [Hsec Hcnt].
  pose proof Hsf as (HL & _ & _ & _ & (Hc0 & Hcu) & Hdok & _).
  set (m := open_inodes st) in *.
  set (ino1 := set_open_cnt ino (open_cnt ino + 1)).
  assert (Hsf1 : small_file (dev st) ino1) by exact Hsf.
  destruct (create_beside (dev st) ino1 initial_size (sector ino1) Hsf1 Hsize ltac:(lia) Hfml
              ltac:(cbn [sector ino1 set_open_cnt]; lia))
    as (s & f2 & ino_f & Halloc & Hs & Hsfree & Hcreate & Hinof & Hlen & Hpar & Hdir & Hsff
        & Hzero & Hfc & Hsfd & Hcd & Hsu & Hsnd & Hsnc & Hdisj).
  assert (Hdok2 : disk_ok (disk f2)) by apply Hsff.
  assert (Hsc : s <> c).
  { intros ->. rewrite <- Hsec in Hsfree. congruence. }
  assert (Hms : m !! s = None) by (apply Hfo; exact Hsfree).
  (* the entry is added *)
  set (m1 := <[c := ino1]> m).
  destruct (dir_add_found (mk_state f2 m1) (mk_dir c 0) file_name s e0 ino1)
    as (f3 & ino1' & e & ofs & Hadd & Hsf3 & Hcnt3 & Hrem3 & Hlook3 & Hes & Hframe3);
    cbn [dev open_inodes inode]; try assumption; try lia.
  { subst m1. apply lookup_insert_eq. }
  { rewrite (lookup_frame (disk (dev st)) (disk f2) ino ino1); try assumption; reflexivity. }
  assert (Hdok3 : disk_ok (disk f3)) by apply Hsf3.
  set (ino2 := set_open_cnt ino1' (open_cnt ino1' - 1)).
  set (m2 := <[c := ino2]> (<[c := ino1']> m1)).
  set (st' := mk_state f3 m2).
  assert (Hcreate_call :
            filesys_create ROOT_DIR_SECTOR st cwd name initial_size e0 = Some (st', true)).
  { unfold filesys_create.
    rewrite (parse_path_simple ROOT_DIR_SECTOR st cwd name file_name Hpaths Hrel)
      by (fold c m; rewrite Hp; eauto).
    fold c. cbn [mbind option_bind]. rewrite Hres.
    replace (Z.of_nat (Datatypes.length (c_string name)) =? 0) with false.
    2:{ unfold get_paths in Hpaths. destruct (c_string name); [discriminate | reflexivity]. }
    cbn [orb]. rewrite (inode_open_at st c ino Hp). cbn [dev open_inodes disk free_map fst].
    rewrite Halloc. unfold inode_get_inumber, dir_get_inode. cbn [open_inodes inode].
    fold m ino1 m1.
    assert (Hm1c : m1 !! c = Some ino1) by (subst m1; apply lookup_insert_eq).
    rewrite Hm1c.
    cbn [fmap option_fmap option_map mbind option_bind dev].
    rewrite Hcreate. cbn [mbind option_bind]. rewrite Hadd. cbn [mbind option_bind negb andb].
    unfold dir_close. cbn [inode].
    rewrite (inode_close_at _ c ino1');
      [reflexivity | apply lookup_insert_eq
      | rewrite Hcnt3; cbn [ino1 open_cnt set_open_cnt]; lia]. }
  (* the name is opened *)
  assert (Hm2c : m2 !! c = Some ino2) by (subst m2; apply lookup_insert_eq).
  assert (Hm2s : m2 !! s = None).
  { subst m2 m1. rewrite !lookup_insert_ne by congruence. exact Hms. }
  set (ino3 := set_open_cnt ino2 (open_cnt ino2 + 1)).
  set (m3 := <[c := ino3]> m2).
  assert (Hblock : block_read (disk f3) s = block_read (disk f2) s).
  { unfold block_read. rewrite (proj1 (Hframe3 s ltac:(lia) Hsu Hsnd Hsnc)). reflexivity. }
  set (m4 := <[s := ino_f]> m3).
  set (ino4 := set_open_cnt ino3 (open_cnt ino3 - 1)).
  set (st'' := mk_state f3 (<[c := ino4]> m4)).
  assert (Hopen_call :
            filesys_open ROOT_DIR_SECTOR st' cwd name
            = Some (st'', Some (Sys.mk_file s 0 false))).
  { unfold filesys_open.
    rewrite (parse_path_simple ROOT_DIR_SECTOR st' cwd name file_name Hpaths Hrel)
      by (fold c; cbn [open_inodes st']; rewrite Hm2c; eauto).
    fold c. cbn [mbind option_bind].
    destruct (streq file_name PARENT_DIRECTORY) eqn:E1;
      [rewrite orb_true_r in Hres; discriminate|].
    destruct (streq file_name CURRENT_DIRECTORY) eqn:E2; [discriminate|].
    cbn [orb] in Hres |- *. rewrite Hres.
    rewrite (inode_open_at st' c ino2 Hm2c). cbn [dev open_inodes st'].
    fold ino3 m3.
    unfold dir_lookup. cbn [inode open_inodes dev].
    assert (Hm3c : m3 !! c = Some ino3) by (subst m3; apply lookup_insert_eq).
    rewrite Hm3c.
    cbn [mbind option_bind].
    assert (Hl : lookup (disk f3) ino3 file_name = Some (e, ofs)).
    { subst ino3 ino2. rewrite !lookup_set_open_cnt by exact Hdok3. exact Hlook3. }
    rewrite Hl.
    rewrite Hes.
    assert (Hm3s : m3 !! s = None).
    { subst m3. rewrite lookup_insert_ne by congruence. exact Hm2s. }
    assert (Hio : inode_open (mk_state f3 m3) s = (mk_state f3 m4, s)).
    { rewrite (surjective_pairing (inode_open (mk_state f3 m3) s)).
      rewrite DirFacts.inode_open_ptr, inode_open_new by exact Hm3s.
      cbn [dev open_inodes]. rewrite Hblock, <- Hinof. reflexivity. }
    rewrite Hio. cbn [mbind option_bind].
    unfold dir_close. cbn [inode].
    rewrite (inode_close_at _ c ino3);
      [reflexivity
      | cbn [open_inodes]; subst m4; rewrite lookup_insert_ne by congruence; exact Hm3c
      | subst ino3 ino2; cbn [open_cnt set_open_cnt]; rewrite Hcnt3;
        cbn [ino1 open_cnt set_open_cnt]; lia]. }
  exists st', st'', (Sys.mk_file s 0 false), ino_f.
  split; [exact Hcreate_call|]. split; [exact Hopen_call|].
  split; [reflexivity|]. split; [exact Hms|].
  split.
  { cbn [Sys.f_inode st'' open_inodes]. rewrite lookup_insert_ne by congruence.
    subst m4. apply lookup_insert_eq. }
  split; [rewrite Hinof; reflexivity|].
  split; [exact Hlen|]. split; [exact Hdir|].
  split; [rewrite Hpar; exact Hsec|].
  cbn [st'' dev]. rewrite <- Hzero.
  destruct Hsff as (HLf & Hbf & _ & Husedf & _).
  apply contents_frame; [exact HLf | exact Hbf|].
  intros x Hx. rewrite Forall_forall in Husedf, Hdisj.
  destruct (Husedf x Hx) as (Hx0 & Hxu & _). destruct (Hdisj x Hx) as [Hxd Hxc].
  apply (Hframe3 x Hx0 Hxu Hxd Hxc).
Qed.

End WithRoot.

Section WithRoot.

Variable ROOT_DIR_SECTOR : Z.

(** X30. For a path [parse_path] can follow whose last name is not in
    its directory, [filesys_open] returns null and leaves the state as
    it was before the call. *)
Theorem filesys_missing_name (st : state) (cwd : dir) (name : list Z) (st1 : state)
    (d : dir) (file_name : list Z) (ino : Inode.inode) :
  wf st ->
  parse_path ROOT_DIR_SECTOR st cwd name = Some (st1, Some (d, file_name)) ->
  streq file_name CURRENT_DIRECTORY || streq file_name PARENT_DIRECTORY
  || streq file_name ROOT = false ->
  open_inodes st1 !! inode d = Some ino ->
  lookup (disk (dev st)) ino file_name = None ->
  filesys_open ROOT_DIR_SECTOR st cwd name = Some (st, None).
Proof.
  intros Hwf Hparse Hres Hp Hnone.
  destruct (parse_path_state ROOT_DIR_SECTOR st cwd name st1 _ Hwf Hparse) as [Hst1 _].
  assert (Hdev : dev st1 = dev st) by (subst st1; apply DirFacts.inode_open_dev).
  assert (Hclose : dir_close st1 d = Some st).
  { subst st1. unfold dir_close. apply DirFacts.inode_open_close. exact Hwf. }
  destruct (streq file_name CURRENT_DIRECTORY) eqn:E1; [discriminate|].
  destruct (streq file_name PARENT_DIRECTORY) eqn:E2; [discriminate|].
  cbn [orb] in Hres.
  unfold filesys_open. rewrite Hparse. cbn [mbind option_bind]. rewrite E2, E1, Hres.
  cbn [orb]. unfold dir_lookup. rewrite Hp. cbn [mbind option_bind].
  rewrite Hdev, Hnone. cbn [mbind option_bind]. rewrite Hclose. reflexivity.
Qed.

End WithRoot.

Lemma ex_parse_e_f :
  parse_path 1 Examples.st_nonempty (mk_dir 1 0) [101; 47; 102]
  = Some (Examples.st_e_open, Some (mk_dir 3 0, [102])).
Proof. vm_compute. reflexivity. Qed.

Lemma parse_path_reference_witness :
  wf Examples.st_nonempty
  /\ parse_path 1 Examples.st_nonempty (mk_dir 1 0) [101; 47; 102]
     = Some (Examples.st_e_open, Some (mk_dir 3 0, [102]))
  /\ dir_close Examples.st_e_open (mk_dir 3 0) = Some Examples.st_nonempty.
Proof.
  split; [exact DirFacts.wf_st_nonempty|]. split; [exact ex_parse_e_f|].
  exact (proj1 (proj2 (parse_path_reference 1 Examples.st_nonempty (mk_dir 1 0) [101; 47; 102]
                         Examples.st_e_open (Some (mk_dir 3 0, [102]))
                         DirFacts.wf_st_nonempty ex_parse_e_f))).
Defined.

Lemma ex_parse_root :
  parse_path 1 Examples.st_nonempty (mk_dir 1 0) [47]
  = Some ((inode_open Examples.st_nonempty 1).1, Some (mk_dir 1 0, [47])).
Proof. vm_compute. reflexivity. Qed.

Lemma filesys_create_reserved_witness :
  wf Examples.st_nonempty
  /\ filesys_create 1 Examples.st_nonempty (mk_dir 1 0) [47] 0 (replicate 20 0)
     = Some ((inode_open Examples.st_nonempty 1).1, false)
  /\ (inode_open Examples.st_nonempty 1).1 <> Examples.st_nonempty.
Proof.
  split; [exact DirFacts.wf_st_nonempty|].
  destruct (filesys_create_reserved 1 Examples.st_nonempty (mk_dir 1 0) [47] 0
              (replicate 20 0) _ _ _ DirFacts.wf_st_nonempty ex_parse_root eq_refl)
    as (Hc & _ & Hne & _).
  split; [exact Hc | exact Hne].
Defined.

Lemma ex_parse_e :
  parse_path 1 Examples.st_nonempty (mk_dir 1 0) [101]
  = Some ((inode_open Examples.st_nonempty 1).1, Some (mk_dir 1 0, [101])).
Proof. vm_compute. reflexivity. Qed.

Lemma ex_root_reopened :
  open_inodes (inode_open Examples.st_nonempty 1).1 !! inode (mk_dir 1 0)
  = Some (Examples.inode_at (inode_open Examples.st_nonempty 1).1 1).
Proof. vm_compute. reflexivity. Qed.

Lemma ex_small_root_reopened :
  small_file (dev Examples.st_nonempty)
    (Examples.inode_at (inode_open Examples.st_nonempty 1).1 1).
Proof. apply (bool_decide_unpack _). vm_compute. exact I. Qed.

Lemma ex_e_present :
  is_Some (lookup (disk (dev Examples.st_nonempty))
             (Examples.inode_at (inode_open Examples.st_nonempty 1).1 1) [101]).
Proof. apply (bool_decide_unpack _). vm_compute. exact I. Qed.

Lemma ex_room_nonempty : (1000 + 511) / 512 + 2 <= free_map_count (free_map (dev Examples.st_nonempty)).
Proof. vm_compute. discriminate. Qed.

Lemma ex_fml_nonempty :
  Z.of_nat (Datatypes.length (free_map (dev Examples.st_nonempty))) <= 4294967296.
Proof. vm_compute. discriminate. Qed.

Lemma filesys_create_existing_witness :
  is_Some (lookup (disk (dev Examples.st_nonempty))
             (Examples.inode_at (inode_open Examples.st_nonempty 1).1 1) [101])
  /\ exists st',
       filesys_create 1 Examples.st_nonempty (mk_dir 1 0) [101] 1000 (replicate 20 0)
       = Some (st', false)
       /\ free_map_count (free_map (dev st'))
          = free_map_count (free_map (dev Examples.st_nonempty)) - (1000 + 511) / 512.
Proof.
  split; [exact ex_e_present|].
  destruct (filesys_create_existing 1 Examples.st_nonempty (mk_dir 1 0) [101] 1000
              (replicate 20 0) _ _ _ _ DirFacts.wf_st_nonempty ex_parse_e eq_refl
              ex_root_reopened ex_small_root_reopened ex_e_present ltac:(lia)
              ltac:(pose proof ex_room_nonempty; lia) ex_fml_nonempty eq_refl
              ltac:(simpl; lia))
    as (st' & Hc & _ & _ & Hf).
  exists st'. split; [exact Hc | exact Hf].
Defined.

Lemma ex_root_nonempty :
  open_inodes Examples.st_nonempty !! inode (mk_dir 1 0)
  = Some (Examples.inode_at Examples.st_nonempty 1).
Proof. vm_compute. reflexivity. Qed.

Lemma ex_small_root_nonempty :
  small_file (dev Examples.st_nonempty) (Examples.inode_at Examples.st_nonempty 1).
Proof. apply (bool_decide_unpack _). vm_compute. exact I. Qed.

Lemma ex_x_absent :
  lookup (disk (dev Examples.st_nonempty)) (Examples.inode_at Examples.st_nonempty 1) [120]
  = None.
Proof. vm_compute. reflexivity. Qed.

Lemma ex_open_used (p : Z) :
  free_map (dev Examples.st_nonempty) !! idx p = Some false ->
  open_inodes Examples.st_nonempty !! p = None.
Proof.
  intros Hfree.
  assert (H : open_inodes Examples.st_nonempty
              = {[1 := Examples.inode_at Examples.st_nonempty 1]})
    by (vm_compute; reflexivity).
  rewrite H. clear H.
  destruct (decide (p = 1)) as [Heq|Hne].
  - exfalso. rewrite Heq in Hfree.
    assert (H1 : free_map (dev Examples.st_nonempty) !! idx 1 = Some true)
      by (vm_compute; reflexivity).
    rewrite H1 in Hfree. discriminate Hfree.
  - apply lookup_singleton_ne. congruence.
Qed.

Lemma filesys_create_open_witness :
  lookup (disk (dev Examples.st_nonempty)) (Examples.inode_at Examples.st_nonempty 1) [120]
  = None
  /\ exists st' st'' f ino_f,
       filesys_create 1 Examples.st_nonempty (mk_dir 1 0) [120] 1000 (replicate 20 0)
       = Some (st', true)
       /\ filesys_open 1 st' (mk_dir 1 0) [120] = Some (st'', Some f)
       /\ open_inodes st'' !! Sys.f_inode f = Some ino_f
       /\ inode_length ino_f = 1000
       /\ contents (disk (dev st'')) ino_f = replicate (Z.to_nat 1000) 0.
Proof.
  split; [exact ex_x_absent|].
  destruct (filesys_create_open 1 Examples.st_nonempty (mk_dir 1 0) [120] [120] 1000
              (replicate 20 0) _ DirFacts.wf_st_nonempty eq_refl ltac:(simpl; lia) eq_refl
              ltac:(simpl; lia) ex_root_nonempty ex_small_root_nonempty eq_refl
              ltac:(vm_compute; discriminate) ex_x_absent ltac:(lia) ex_room_nonempty
              ex_fml_nonempty ltac:(simpl; lia) ex_open_used eq_refl)
    as (st' & st'' & f & ino_f & Hc & Ho & _ & _ & Hi & _ & Hl & _ & _ & Hz).
  exists st', st'', f, ino_f.
  split; [exact Hc|]. split; [exact Ho|]. split; [exact Hi|]. split; [exact Hl | exact Hz].
Defined.

Lemma ex_parse_x :
  parse_path 1 Examples.st_nonempty (mk_dir 1 0) [120]
  = Some ((inode_open Examples.st_nonempty 1).1, Some (mk_dir 1 0, [120])).
Proof. vm_compute. reflexivity. Qed.

Lemma ex_x_absent_reopened :
  lookup (disk (dev Examples.st_nonempty))
    (Examples.inode_at (inode_open Examples.st_nonempty 1).1 1) [120] = None.
Proof. vm_compute. reflexivity. Qed.

Lemma filesys_missing_name_witness :
  lookup (disk (dev Examples.st_nonempty))
    (Examples.inode_at (inode_open Examples.st_nonempty 1).1 1) [120] = None
  /\ filesys_open 1 Examples.st_nonempty (mk_dir 1 0) [120] = Some (Examples.st_nonempty, None).
Proof.
  split; [exact ex_x_absent_reopened|].
  exact (filesys_missing_name 1 Examples.st_nonempty (mk_dir 1 0) [120] _ _ _ _
           DirFacts.wf_st_nonempty ex_parse_x eq_refl ex_root_reopened ex_x_absent_reopened).
Defined.

End PathFacts.
